(** * MIPSEmulator: a shallow embedding of the emulator, codec, scenario
      generator and data assembler, with the properties checked against them.

    Conventions of the embedding.
    - A Go [uint32] is a [Z] in [0, 2^32); every operation that can leave the
      range is followed by [u32] (reduction modulo 2^32), as the hardware does.
    - Go slices are references: a [slice] is [None] (the nil slice) or a
      location in a [Heap] of word arrays.  Copying a [MemoryPage] copies the
      two references, so a cache and the page table share storage, as in Go.
    - Stateful methods of [instance] live in the monad [Run], whose outcomes
      are a value with the new state, a Go runtime panic, or fuel exhaustion
      for the loops that Go writes as [for true]. *)

From Stdlib Require Import ZArith List String Ascii Bool Lia.
From stdpp Require Import base option list gmap strings.

Local Open Scope Z_scope.

(** ** 32-bit words *)

Definition u32 (x : Z) : Z := x mod 2 ^ 32.

(** [int32(x)] for a [uint32] x. *)
Definition toInt32 (x : Z) : Z := if x <? 2 ^ 31 then x else x - 2 ^ 32.

(** [l[i]] on a Go array or slice content; [None] is the out-of-range panic. *)
Definition ix {A : Type} (l : list A) (i : Z) : option A :=
  if i <? 0 then None else l !! Z.to_nat i.

(** [l[i] = v]; [None] is the out-of-range panic. *)
Definition setIx {A : Type} (l : list A) (i : Z) (v : A) : option (list A) :=
  if i <? 0 then None
  else if i <? Z.of_nat (length l) then Some (<[Z.to_nat i := v]> l) else None.

(** ** Data model (emulator.go) *)

Definition eUninitializedMemoryAccess : Z := 0.
Definition eUninitializedRegisterAccess : Z := 1.
Definition eRuntimeLimitExceeded : Z := 2.
Definition eInvalidInstruction : Z := 3.
Definition eIllegalRegisterWrite : Z := 4.
Definition eErrorLimitReached : Z := 5.
Definition eShiftOverflow : Z := 6.
Definition eHiLoUninitializedAccess : Z := 7.
Definition eSoftwareInterruptParameter : Z := 8.
Definition eInvalidSoftwareInterrupt : Z := 9.
Definition eSoftwareInterruptParameterValue : Z := 10.
Definition eNoAnswerReported : Z := 11.

(** A slice of words: nil, or a reference into the heap. *)
Abbreviation slice := (option nat).
Abbreviation Heap := (list (list Z)).

Record MemoryPage : Type := mkPage {
  startAddr : Z;
  memory : slice;
  initialized : slice
}.

(** The zero value of the struct: what [new(instance)] leaves in both caches. *)
Definition zeroPage : MemoryPage := mkPage 0 None None.

(** [RuntimeError.Message] is the text
    [Sprintf("ERROR: pc=0x%X di=%d message=%s", pc, di+1, Sprintf(format, args...))];
    the embedding keeps the four values the text is rendered from. *)
Record ErrorText : Type := mkText {
  msgPc : Z;
  msgDi : Z;
  msgFormat : string;
  msgArgs : list Z
}.

Record RuntimeError : Type := mkError {
  EType : Z;
  Message : ErrorText
}.

(** Scenario of swi 582 (project1.go, type Project1). *)
Record Project1 : Type := mkProject1 {
  Reference : Z;
  Candidates : list Z;
  SolutionOffset : Z;
  SolutionRotation : Z;
  SolutionFlipped : bool;
  ReportedOffset : Z
}.

(** Scenario of swi 598 (type Project1Fa21). *)
Record Project1Fa21 : Type := mkFa21 {
  TargetColor : Z;
  Solution : Z;
  ReportedAnswer : Z;
  Obscurity : Z;
  Spacing : Z;
  Geometry : Z;
  HorzLineCount : Z;
  VertLineCount : Z;
  Pile : list Z;
  horzAllocs : Z;
  vertAllocs : Z;
  vLines : list Z;
  hLines : list Z;
  tlx : Z;
  tly : Z
}.

(** [swiContext interface{}]: nil, a *Project1 or a *Project1Fa21. *)
Inductive SwiContext : Type :=
| CtxNil
| CtxP1 (p : Project1)
| CtxFa21 (p : Project1Fa21).

(** [instance].  [heap] is the Go heap holding the arrays behind the pages;
    [sysMemory] is the field [memory]; [rngDraws] counts the draws taken from
    the process-wide random source.  The field [branchInfo] is left out: it
    stays the nil map, no method reads or writes it. *)
Record instance : Type := mkInst {
  heap : Heap;
  sysMemory : gmap Z MemoryPage;
  pc : Z;
  regs : list Z;
  regInit : Z;
  hiLoFilled : bool;
  hi : Z;
  lo : Z;
  iCache : MemoryPage;
  dCache : MemoryPage;
  dMissed : bool;
  di : Z;
  runtimeLimit : Z;
  swiContext : SwiContext;
  errors : list RuntimeError;
  rngDraws : nat
}.

(** [EmulationResult]; [ResultHeap] is the heap the slices of [Memory] point
    into, [BranchAnalysis] (always nil) is left out. *)
Record EmulationResult : Type := mkResult {
  Memory : gmap Z MemoryPage;
  ResultHeap : Heap;
  Registers : list Z;
  RegInit : Z;
  DI : Z;
  SWIContext : SwiContext;
  Errors : list RuntimeError
}.

(** ** The monad of instance methods *)

Inductive outcome (A : Type) : Type :=
| Done (a : A)
| Panic
| OutOfFuel.
Arguments Done {A} a.
Arguments Panic {A}.
Arguments OutOfFuel {A}.

(** State passing over a state type [S]. *)
Definition StateM (S A : Type) : Type := S -> outcome (A * S).

#[global] Instance StateM_ret {S : Type} : MRet (StateM S) :=
  fun A a s => Done (a, s).

#[global] Instance StateM_bind {S : Type} : MBind (StateM S) := fun A B k m s =>
  match m s with
  | Done (a, s') => k a s'
  | Panic => Panic
  | OutOfFuel => OutOfFuel
  end.

Definition ret {S A : Type} (a : A) : StateM S A := mret a.
Definition gets {S A : Type} (f : S -> A) : StateM S A := fun s => Done (f s, s).
Definition modify {S : Type} (f : S -> S) : StateM S unit := fun s => Done (tt, f s).
Definition panic {S A : Type} : StateM S A := fun _ => Panic.
Definition outOfFuel {S A : Type} : StateM S A := fun _ => OutOfFuel.

Definition orPanic {S A : Type} (o : option A) : StateM S A :=
  match o with Some a => ret a | None => panic end.

(** The methods of [instance]. *)
Definition Run : Type -> Type := StateM instance.

(** Field updates. *)
Definition setHeap (h : Heap) (s : instance) : instance :=
  mkInst h (sysMemory s) (pc s) (regs s) (regInit s) (hiLoFilled s) (hi s) (lo s)
    (iCache s) (dCache s) (dMissed s) (di s) (runtimeLimit s) (swiContext s)
    (errors s) (rngDraws s).
Definition setSysMemory (m : gmap Z MemoryPage) (s : instance) : instance :=
  mkInst (heap s) m (pc s) (regs s) (regInit s) (hiLoFilled s) (hi s) (lo s)
    (iCache s) (dCache s) (dMissed s) (di s) (runtimeLimit s) (swiContext s)
    (errors s) (rngDraws s).
Definition setPc (v : Z) (s : instance) : instance :=
  mkInst (heap s) (sysMemory s) v (regs s) (regInit s) (hiLoFilled s) (hi s) (lo s)
    (iCache s) (dCache s) (dMissed s) (di s) (runtimeLimit s) (swiContext s)
    (errors s) (rngDraws s).
Definition setRegs (r : list Z) (s : instance) : instance :=
  mkInst (heap s) (sysMemory s) (pc s) r (regInit s) (hiLoFilled s) (hi s) (lo s)
    (iCache s) (dCache s) (dMissed s) (di s) (runtimeLimit s) (swiContext s)
    (errors s) (rngDraws s).
Definition setRegInit (v : Z) (s : instance) : instance :=
  mkInst (heap s) (sysMemory s) (pc s) (regs s) v (hiLoFilled s) (hi s) (lo s)
    (iCache s) (dCache s) (dMissed s) (di s) (runtimeLimit s) (swiContext s)
    (errors s) (rngDraws s).
Definition setHiLo (h l : Z) (s : instance) : instance :=
  mkInst (heap s) (sysMemory s) (pc s) (regs s) (regInit s) (hiLoFilled s) h l
    (iCache s) (dCache s) (dMissed s) (di s) (runtimeLimit s) (swiContext s)
    (errors s) (rngDraws s).
Definition setHiLoFilled (b : bool) (s : instance) : instance :=
  mkInst (heap s) (sysMemory s) (pc s) (regs s) (regInit s) b (hi s) (lo s)
    (iCache s) (dCache s) (dMissed s) (di s) (runtimeLimit s) (swiContext s)
    (errors s) (rngDraws s).
Definition setICache (p : MemoryPage) (s : instance) : instance :=
  mkInst (heap s) (sysMemory s) (pc s) (regs s) (regInit s) (hiLoFilled s) (hi s) (lo s)
    p (dCache s) (dMissed s) (di s) (runtimeLimit s) (swiContext s)
    (errors s) (rngDraws s).
Definition setDCache (p : MemoryPage) (s : instance) : instance :=
  mkInst (heap s) (sysMemory s) (pc s) (regs s) (regInit s) (hiLoFilled s) (hi s) (lo s)
    (iCache s) p (dMissed s) (di s) (runtimeLimit s) (swiContext s)
    (errors s) (rngDraws s).
Definition setDMissed (b : bool) (s : instance) : instance :=
  mkInst (heap s) (sysMemory s) (pc s) (regs s) (regInit s) (hiLoFilled s) (hi s) (lo s)
    (iCache s) (dCache s) b (di s) (runtimeLimit s) (swiContext s)
    (errors s) (rngDraws s).
Definition setDi (v : Z) (s : instance) : instance :=
  mkInst (heap s) (sysMemory s) (pc s) (regs s) (regInit s) (hiLoFilled s) (hi s) (lo s)
    (iCache s) (dCache s) (dMissed s) v (runtimeLimit s) (swiContext s)
    (errors s) (rngDraws s).
Definition setSwiContext (c : SwiContext) (s : instance) : instance :=
  mkInst (heap s) (sysMemory s) (pc s) (regs s) (regInit s) (hiLoFilled s) (hi s) (lo s)
    (iCache s) (dCache s) (dMissed s) (di s) (runtimeLimit s) c
    (errors s) (rngDraws s).
Definition setErrors (e : list RuntimeError) (s : instance) : instance :=
  mkInst (heap s) (sysMemory s) (pc s) (regs s) (regInit s) (hiLoFilled s) (hi s) (lo s)
    (iCache s) (dCache s) (dMissed s) (di s) (runtimeLimit s) (swiContext s)
    e (rngDraws s).
Definition setRngDraws (n : nat) (s : instance) : instance :=
  mkInst (heap s) (sysMemory s) (pc s) (regs s) (regInit s) (hiLoFilled s) (hi s) (lo s)
    (iCache s) (dCache s) (dMissed s) (di s) (runtimeLimit s) (swiContext s)
    (errors s) n.

(** ** Heap access *)

(** [s[i]] for a slice [s]. *)
Definition sliceGet (s : slice) (i : Z) : Run Z :=
  h ← gets heap;
  orPanic (l ← s; xs ← h !! l; ix xs i).

(** [s[i] = v] for a slice [s]. *)
Definition sliceSet (s : slice) (i : Z) (v : Z) : Run unit :=
  h ← gets heap;
  h' ← orPanic (l ← s; xs ← h !! l; xs' ← setIx xs i v; Some (<[l := xs']> h));
  modify (setHeap h').

(** [make([]uint32, n)]. *)
Definition makeSlice (n : nat) : Run slice :=
  h ← gets heap;
  modify (setHeap (h ++ [replicate n 0])) ;;
  ret (Some (length h)).

(** ** Error reporting and memory access (emulator.go) *)

Definition reportError (eType : Z) (format : string) (fArgs : list Z) : Run unit :=
  modify (fun s =>
    setErrors (errors s ++ [mkError eType (mkText (pc s) (u32 (di s + 1)) format fArgs)]) s).

Definition fmtUninitMem : string :=
  "0x%X (%d) was accessed before it was initialized".

(** The test [(page.initialized[(addr%4096)/128]>>((addr%4096)/4%32))&0x1 != 0x1]. *)
Definition notInitialized (w addr : Z) : bool :=
  negb (Z.land (Z.shiftr w ((addr mod 4096) / 4 mod 32)) 1 =? 1).

Definition memAccess (addr : Z) (isInstr : bool) : Run (Z * bool) :=
  ic ← gets iCache;
  dc ← gets dCache;
  if Z.shiftr addr 12 =? Z.shiftr (startAddr ic) 12 then
    w ← sliceGet (initialized ic) ((addr mod 4096) / 128);
    if notInitialized w addr then
      reportError eUninitializedMemoryAccess fmtUninitMem [addr; addr] ;;
      ret (0, false)
    else
      v ← sliceGet (memory ic) (addr / 4 mod 1024);
      ret (v, true)
  else if Z.shiftr addr 12 =? Z.shiftr (startAddr dc) 12 then
    w ← sliceGet (initialized dc) ((addr mod 4096) / 128);
    if notInitialized w addr then
      reportError eUninitializedMemoryAccess fmtUninitMem [addr; addr] ;;
      ret (0, false)
    else
      modify (setDMissed false) ;;
      v ← sliceGet (memory dc) (addr / 4 mod 1024);
      ret (v, true)
  else
    m ← gets sysMemory;
    match m !! Z.shiftr addr 12 with
    | None =>
        reportError eUninitializedMemoryAccess fmtUninitMem [addr; addr] ;;
        ret (0, false)
    | Some page =>
        w ← sliceGet (initialized page) ((addr mod 4096) / 128);
        if notInitialized w addr then
          reportError eUninitializedMemoryAccess fmtUninitMem [addr; addr] ;;
          ret (0, false)
        else
          missed ← gets dMissed;
          (if isInstr then modify (setICache page)
           else if (missed : bool) then modify (setDCache page)
           else modify (setDMissed true)) ;;
          v ← sliceGet (memory page) (addr / 4 mod 1024);
          ret (v, true)
    end.

(** The two statements every branch of [memWrite] performs on its page. *)
Definition pageWrite (page : MemoryPage) (addr data mask : Z) : Run unit :=
  old ← sliceGet (memory page) (addr / 4 mod 1024);
  sliceSet (memory page) (addr / 4 mod 1024)
    (Z.lor (Z.land data mask) (Z.land old (Z.lxor mask 4294967295))) ;;
  w ← sliceGet (initialized page) ((addr mod 4096) / 128);
  sliceSet (initialized page) ((addr mod 4096) / 128)
    (Z.lor w (Z.shiftl 1 ((addr mod 4096) / 4 mod 32))).

Definition memWrite (addr data mask : Z) : Run unit :=
  ic ← gets iCache;
  dc ← gets dCache;
  if Z.shiftr addr 12 =? Z.shiftr (startAddr ic) 12 then
    pageWrite ic addr data mask
  else if Z.shiftr addr 12 =? Z.shiftr (startAddr dc) 12 then
    pageWrite dc addr data mask ;;
    modify (setDMissed false)
  else
    m ← gets sysMemory;
    page ← match m !! Z.shiftr addr 12 with
            | Some page => ret page
            | None =>
                mem ← makeSlice 1024;
                ini ← makeSlice 32;
                let page := mkPage (Z.land addr 4294963200) mem ini in
                modify (setSysMemory (<[Z.shiftr addr 12 := page]> m)) ;;
                ret page
            end;
    pageWrite page addr data mask.

(** ** Registers (emulator.go) *)

Definition regInitialized (reg : Z) : Run bool :=
  ri ← gets regInit;
  ret (Z.land (Z.shiftr ri reg) 1 =? 1).

Definition regAccess (reg : Z) : Run Z :=
  ri ← gets regInit;
  if negb (Z.land (Z.shiftr ri reg) 1 =? 1) then
    reportError eUninitializedRegisterAccess
      "$%d was accessed before it was initialized" [reg] ;;
    ret 0
  else
    r ← gets regs;
    orPanic (ix r reg).

Definition regWrite (reg : Z) (data : Z) : Run unit :=
  if reg =? 0 then
    reportError eIllegalRegisterWrite "$0 is immutable and cannot be written to" []
  else
    ri ← gets regInit;
    modify (setRegInit (Z.lor ri (u32 (Z.shiftl 1 reg)))) ;;
    r ← gets regs;
    r' ← orPanic (setIx r reg data);
    modify (setRegs r').

(** ** Instruction codec (instructions.go) *)

Definition opADDI : Z := 8.
Definition opADDIU : Z := 9.
Definition opANDI : Z := 12.
Definition opBEQ : Z := 4.
Definition opBNE : Z := 5.
Definition opJ : Z := 2.
Definition opJAL : Z := 3.
Definition opLB : Z := 32.
Definition opLBU : Z := 36.
Definition opLUI : Z := 15.
Definition opLW : Z := 35.
Definition opORI : Z := 13.
Definition opSB : Z := 40.
Definition opSLTI : Z := 10.
Definition opSLTIU : Z := 11.
Definition opSW : Z := 43.
Definition opSWI : Z := 47.

Definition fnADD : Z := 32.
Definition fnADDU : Z := 33.
Definition fnAND : Z := 36.
Definition fnDIV : Z := 26.
Definition fnDIVU : Z := 27.
Definition fnJR : Z := 8.
Definition fnMFHI : Z := 16.
Definition fnMFLO : Z := 18.
Definition fnMULT : Z := 24.
Definition fnMULTU : Z := 25.
Definition fnXOR : Z := 38.
Definition fnOR : Z := 37.
Definition fnSLT : Z := 42.
Definition fnSLTU : Z := 43.
Definition fnSLL : Z := 0.
Definition fnSRL : Z := 2.
Definition fnSRA : Z := 3.
Definition fnSLLV : Z := 4.
Definition fnSRLV : Z := 5.
Definition fnSRAV : Z := 6.
Definition fnSUB : Z := 34.
Definition fnSUBU : Z := 35.

(** The [int] arguments are converted with [uint32(...)] after shifting. *)
Definition formRInstruction (opCode rs rt rd shift funct : Z) : Z :=
  Z.lor (Z.lor (Z.lor (Z.lor (Z.lor
    (u32 (Z.shiftl (u32 opCode) 26))
    (u32 (Z.shiftl rs 21)))
    (u32 (Z.shiftl rt 16)))
    (u32 (Z.shiftl rd 11)))
    (u32 (Z.shiftl shift 6)))
    (u32 funct).

Definition formIInstruction (opCode rs rt imm : Z) : Z :=
  Z.lor (Z.lor (Z.lor
    (u32 (Z.shiftl (u32 opCode) 26))
    (u32 (Z.shiftl rs 21)))
    (u32 (Z.shiftl rt 16)))
    (Z.land imm 65535).

Definition formJInstruction (opCode addr : Z) : Z :=
  Z.lor (u32 (Z.shiftl (u32 opCode) 26)) addr.

(** The six results [(op, x, y, z, imm, fn)]; named results left unassigned
    are zero. *)
Record Decoded : Type := mkDecoded {
  d_op : Z; d_x : Z; d_y : Z; d_z : Z; d_imm : Z; d_fn : Z
}.

Definition decodeInstruction (instr : Z) : Decoded :=
  let op := Z.shiftr instr 26 in
  if op =? 0 then
    mkDecoded op
      (Z.land (Z.shiftr instr 21) 31)
      (Z.land (Z.shiftr instr 16) 31)
      (Z.land (Z.shiftr instr 11) 31)
      (Z.land (Z.shiftr instr 6) 31)
      (Z.land instr 63)
  else if (op =? opJ) || (op =? opJAL) then
    mkDecoded op 0 0 0 (Z.land instr 67108863) 0
  else
    mkDecoded op
      (Z.land (Z.shiftr instr 16) 31)
      0
      (Z.land (Z.shiftr instr 21) 31)
      (Z.land instr 65535)
      0.

(** ** The random source and the scenarios *)

Section Scenarios.

(** The numbers the process-wide generator of [math/rand] hands out, in the
    order of the draws.  Reseeding with the clock only changes which numbers
    come next, so every run of the program is the run for some [rnd]. *)
Variable rnd : nat -> Z.

(** [rand.Intn(n)]: panics for [n <= 0], else a number in [0, n). *)
Definition Intn (n : Z) : Run Z :=
  if n <=? 0 then panic
  else
    k ← gets rngDraws;
    modify (setRngDraws (S k)) ;;
    ret (rnd k mod n).

(** [rand.Seed(time.Now().UnixNano())]. *)
Definition randSeed : Run unit := ret tt.

(** *** Rotation puzzle (project1.go, type Project1) *)

(** The inner [for i := 0; 8 > i; i++] of [genSquare], entered at [i] with
    [n] iterations left: [true] is [return t], [false] is the rejection. *)
Fixpoint squareCells (t : Z) (n : nat) (i : Z) : bool :=
  match n with
  | O => false
  | S n' =>
      let t1 := u32 (Z.shiftl 3 ((i * 2) mod 16)) in
      let t2 := Z.land t t1 in
      let t3 := u32 (Z.shiftl 3 ((i * 2 + 2) mod 16)) in
      let t4 := Z.shiftr (Z.land t t3) 2 in
      if t2 =? t4 then false
      else if i =? 7 then true
      else squareCells t n' (i + 1)
  end.

Fixpoint genSquare (fuel : nat) : Run Z :=
  match fuel with
  | O => outOfFuel
  | S fuel' =>
      t ← Intn 65536;
      if squareCells (u32 t) 8 0 then ret (u32 t) else genSquare fuel'
  end.

Definition rot4 (square : Z) : Z :=
  Z.lor (Z.shiftr square 4) (u32 (Z.shiftl (Z.land square 15) 12)).

(** [for i := 0; 4 > i; i++ { square = rot4 square; if square == ref return true }]:
    the result is [inl tt] on [return true], else the square after the loop. *)
Fixpoint rotateSearch (ref : Z) (n : nat) (square : Z) : unit + Z :=
  match n with
  | O => inr square
  | S n' =>
      let square := rot4 square in
      if square =? ref then inl tt else rotateSearch ref n' square
  end.

(** [buf[i] = byte((v >> (i * 2)) & 0x3)] for the eight cells. *)
Definition cellsOf (v : Z) : list Z :=
  map (fun i => Z.land (Z.shiftr v (i * 2)) 3) (seqZ 0 8).

(** [square = 0; for i in 0..7 { square <<= 2; square |= uint32(buf[(i+1)%8]) }]. *)
Definition flipCells (buf : list Z) : Z :=
  fold_left (fun sq i => Z.lor (u32 (Z.shiftl sq 2)) (default 0 (ix buf ((i + 1) mod 8))))
            (seqZ 0 8) 0.

Definition testSolution (p : Project1) (square : Z) : bool :=
  match rotateSearch (Reference p) 4 square with
  | inl _ => true
  | inr square =>
      match rotateSearch (Reference p) 4 (flipCells (cellsOf square)) with
      | inl _ => true
      | inr _ => false
      end
  end.

Definition p1Sol0Rot : Z := 0.
Definition p1Sol90Rot : Z := 1.
Definition p1Sol180Rot : Z := 2.
Definition p1Sol270Rot : Z := 3.

Definition genSolution (p : Project1) : Run Project1 :=
  o ← Intn 8;
  f ← Intn 2;
  r ← Intn 4;
  let offset := u32 (4 * o) in
  let flipped := f =? 0 in
  let sol := Reference p in
  let sol := if flipped then flipCells (cellsOf sol) else sol in
  let sol :=
    if r =? p1Sol90Rot then Z.lor (Z.shiftr sol 4) (u32 (Z.shiftl (Z.land sol 15) 12))
    else if r =? p1Sol180Rot then Z.lor (Z.shiftr sol 8) (u32 (Z.shiftl (Z.land sol 255) 8))
    else if r =? p1Sol270Rot then Z.lor (Z.shiftr sol 12) (u32 (Z.shiftl (Z.land sol 4095) 4))
    else sol in
  cands ← orPanic (setIx (Candidates p) (offset / 4) sol);
  ret (mkProject1 (Reference p) cands offset r flipped (ReportedOffset p)).

(** The [for true] that draws a distractor for slot [i]: [watchdog] is the
    local counter, reset (with a reseed) once it passes 1000. *)
Fixpoint genDummy (fuel : nat) (p : Project1) (a i watchdog : Z) : Run Project1 :=
  match fuel with
  | O => outOfFuel
  | S fuel' =>
      t ← genSquare (S fuel');
      if negb (testSolution p t) then
        cands ← orPanic (setIx (Candidates p) i t);
        memWrite (u32 (u32 (a + u32 (u32 i * 4)) + 4)) t 4294967295 ;;
        ret (mkProject1 (Reference p) cands (SolutionOffset p) (SolutionRotation p)
               (SolutionFlipped p) (ReportedOffset p))
      else
        let watchdog := watchdog + 1 in
        if watchdog >? 1000 then randSeed ;; genDummy fuel' p a i 0
        else genDummy fuel' p a i watchdog
  end.

(** [for i := 0; 8 > i; i++] of [swi582], over the slots still to visit. *)
Fixpoint genDummies (fuel : nat) (p : Project1) (a : Z) (slots : list Z) : Run Project1 :=
  match slots with
  | [] => ret p
  | i :: rest =>
      if SolutionOffset p / 4 =? i then genDummies fuel p a rest
      else
        p' ← genDummy fuel p a i 0;
        genDummies fuel p' a rest
  end.

Definition swi582 (fuel : nat) : Run unit :=
  randSeed ;;
  ok ← regInitialized 1;
  (if negb ok then
     reportError eSoftwareInterruptParameter
       "register $1 uninitialized for swi 582 call. $1 should hold the Reference memory pointer" []
   else ret tt) ;;
  ref ← genSquare fuel;
  p ← genSolution (mkProject1 ref (replicate 8 0) 0 0 false 0);
  let p := mkProject1 (Reference p) (Candidates p) (SolutionOffset p)
             (SolutionRotation p) (SolutionFlipped p) 305419896 in
  r ← gets regs;
  a ← orPanic (ix r 1);
  memWrite a (Reference p) 4294967295 ;;
  sol ← orPanic (ix (Candidates p) (SolutionOffset p / 4));
  memWrite (u32 (u32 (a + 4) + SolutionOffset p)) sol 4294967295 ;;
  p ← genDummies fuel p a (seqZ 0 8);
  modify (setSwiContext (CtxP1 p)).

Definition swi583 : Run unit :=
  ctx ← gets swiContext;
  match ctx with
  | CtxP1 p =>
      ok ← regInitialized 1;
      (if negb ok then
         reportError eSoftwareInterruptParameter
           "register $3 uninitialized for swi 583 call. $3 should hold the byte offset of the solution from the first candidate" []
       else ret tt) ;;
      reported ← regAccess 3;
      let p := mkProject1 (Reference p) (Candidates p) (SolutionOffset p)
                 (SolutionRotation p) (SolutionFlipped p) reported in
      modify (setSwiContext (CtxP1 p)) ;;
      if (reported >? 28) || negb (reported mod 4 =? 0) then
        reportError eSoftwareInterruptParameterValue
          "%h is an invalid solution for swi 583. Must be in [0, 28] and word aligned (multiple of four)" []
      else
        regWrite 6 (SolutionOffset p)
  | _ =>
      reportError eInvalidSoftwareInterrupt
        "cannot use swi 583 with the previous swi call(s)" []
  end.

(** *** Bounding-box puzzle (type Project1Fa21) *)

Definition u64 (x : Z) : Z := x mod 2 ^ 64.

Definition withPile (pile : list Z) (p : Project1Fa21) : Project1Fa21 :=
  mkFa21 (TargetColor p) (Solution p) (ReportedAnswer p) (Obscurity p) (Spacing p)
    (Geometry p) (HorzLineCount p) (VertLineCount p) pile (horzAllocs p)
    (vertAllocs p) (vLines p) (hLines p) (tlx p) (tly p).

Definition withAllocs (h v : Z) (p : Project1Fa21) : Project1Fa21 :=
  mkFa21 (TargetColor p) (Solution p) (ReportedAnswer p) (Obscurity p) (Spacing p)
    (Geometry p) (HorzLineCount p) (VertLineCount p) (Pile p) h v
    (vLines p) (hLines p) (tlx p) (tly p).

(** A shift count of type [int]: a negative one is a run-time panic. *)
Definition shiftCount (n : Z) : option Z := if n <? 0 then None else Some n.

Definition plotPoint (p : Project1Fa21) (x y color : Z) : option Project1Fa21 :=
  let i := y * 16 + Z.quot x 4 in
  sh ← shiftCount (Z.rem x 4 * 8);
  w ← ix (Pile p) i;
  let w := Z.land w (Z.lxor (u32 (Z.shiftl 255 sh)) 4294967295) in
  let w := Z.lor w (u32 (Z.shiftl (u32 color) sh)) in
  pile ← setIx (Pile p) i w;
  Some (withPile pile p).

Definition getPoint (p : Project1Fa21) (x y : Z) : option Z :=
  sh ← shiftCount (Z.rem x 4 * 8);
  w ← ix (Pile p) (y * 16 + Z.quot x 4);
  Some (Z.land (Z.shiftr w sh) 255).

(** [for x := x1; x <= x2; x++ { p.plotPoint(x, y, color) }]. *)
Definition drawHLine (p : Project1Fa21) (x1 x2 y color : Z) : option Project1Fa21 :=
  foldl (fun acc x => q ← acc; plotPoint q x y color) (Some p) (seqZ x1 (x2 - x1 + 1)).

Definition drawVLine (p : Project1Fa21) (x y1 y2 color : Z) : option Project1Fa21 :=
  foldl (fun acc y => q ← acc; plotPoint q x y color) (Some p) (seqZ y1 (y2 - y1 + 1)).

Definition checkHAlloc (p : Project1Fa21) (y : Z) : option bool :=
  sh ← shiftCount y;
  Some (negb (Z.land (Z.shiftr (horzAllocs p) sh) 1 =? 0)).

Definition setHAlloc (p : Project1Fa21) (y : Z) : option Project1Fa21 :=
  sh ← shiftCount y;
  Some (withAllocs (Z.lor (horzAllocs p) (u64 (Z.shiftl 1 sh))) (vertAllocs p) p).

Definition checkVAlloc (p : Project1Fa21) (x : Z) : option bool :=
  sh ← shiftCount x;
  Some (negb (Z.land (Z.shiftr (vertAllocs p) sh) 1 =? 0)).

Definition setVAlloc (p : Project1Fa21) (x : Z) : option Project1Fa21 :=
  sh ← shiftCount x;
  Some (withAllocs (horzAllocs p) (Z.lor (vertAllocs p) (u64 (Z.shiftl 1 sh))) p).

Definition intAbs (a : Z) : Z := if a <? 0 then - a else a.

(** The condition [!check(d) && !check(d-1) && !check(d+1)], left to right
    with short-circuit evaluation. *)
Definition freeAround (check : Z -> option bool) (d : Z) : option bool :=
  a ← check d;
  if (a : bool) then Some false
  else
    b ← check (d - 1);
    if (b : bool) then Some false
    else
      c ← check (d + 1);
      Some (negb c).

Definition p1ObscurityNone : Z := 0.
Definition p1ObscurityHorz : Z := 1.
Definition p1ObscurityVert : Z := 2.
Definition p1ObscurityBoth : Z := 3.
Definition p1SpacingNone : Z := 0.
Definition p1SpacingHorz : Z := 1.
Definition p1SpacingVert : Z := 2.
Definition p1SpacingBoth : Z := 3.
Definition p1GeometryNone : Z := 0.
Definition p1GeometryL : Z := 1.
Definition p1GeometryT : Z := 2.

(** The ten attempts [for a := 0; 10 > a; a++] at one horizontal line. *)
Fixpoint hLineAttempts (n : nat) (p : Project1Fa21) (lines : list Z)
    (tlx0 tly0 width height color : Z) : Run (Project1Fa21 * list Z) :=
  match n with
  | O => ret (p, lines)
  | S n' =>
      r ← Intn height;
      let desiredY := r + tly0 in
      free ← orPanic (freeAround (checkHAlloc p) desiredY);
      if (free : bool) then
        q ← orPanic (q ← setHAlloc p desiredY;
                     drawHLine q tlx0 (tlx0 + width - 1) desiredY color);
        ret (q, lines ++ [desiredY - tly0])
      else hLineAttempts n' p lines tlx0 tly0 width height color
  end.

Fixpoint hLineLoop (n : nat) (p : Project1Fa21) (lines : list Z)
    (tlx0 tly0 width height color : Z) : Run (Project1Fa21 * list Z) :=
  match n with
  | O => ret (p, lines)
  | S n' =>
      '(q, lines') ← hLineAttempts 10 p lines tlx0 tly0 width height color;
      hLineLoop n' q lines' tlx0 tly0 width height color
  end.

(** The ten attempts at one vertical line. *)
Fixpoint vLineAttempts (n : nat) (p : Project1Fa21) (lines : list Z)
    (tlx0 tly0 width height color : Z) : Run (Project1Fa21 * list Z) :=
  match n with
  | O => ret (p, lines)
  | S n' =>
      r ← Intn width;
      let desiredX := r + tlx0 in
      free ← orPanic (freeAround (checkVAlloc p) desiredX);
      if (free : bool) then
        q ← orPanic (q ← setVAlloc p desiredX;
                     drawVLine q desiredX tly0 (tly0 + height - 1) color);
        ret (q, lines ++ [desiredX - tlx0])
      else vLineAttempts n' p lines tlx0 tly0 width height color
  end.

Fixpoint vLineLoop (n : nat) (p : Project1Fa21) (lines : list Z)
    (tlx0 tly0 width height color : Z) : Run (Project1Fa21 * list Z) :=
  match n with
  | O => ret (p, lines)
  | S n' =>
      '(q, lines') ← vLineAttempts 10 p lines tlx0 tly0 width height color;
      vLineLoop n' q lines' tlx0 tly0 width height color
  end.

(** The double loop over [i != j] that computes [minSpacing], from 64. *)
Definition minSpacing (lines : list Z) : Z :=
  let idx := seqZ 0 (Z.of_nat (length lines)) in
  foldl (fun m i =>
    foldl (fun m j =>
      if i =? j then m
      else
        let d := intAbs (default 0 (ix lines i) - default 0 (ix lines j)) in
        if d <? m then d else m) m idx) 64 idx.

Definition hasExtreme (lines : list Z) (extent : Z) : bool :=
  existsb (fun v => (v =? 0) || (v =? extent - 1)) lines.

Definition generatePart (p : Project1Fa21) (color : Z) (isTarget : bool)
    : Run (bool * Project1Fa21) :=
  w ← Intn 21;
  h ← Intn 21;
  let width := w + 25 in
  let height := h + 25 in
  let targetVertLines := Z.quot width 12 in
  let targetHorzLines := Z.quot height 12 in
  tx ← Intn (62 - width);
  ty ← Intn (62 - height);
  let tlx0 := tx + 1 in
  let tly0 := ty + 1 in
  '(p, hl) ← hLineLoop (Z.to_nat targetHorzLines) p [] tlx0 tly0 width height color;
  '(p, vl) ← vLineLoop (Z.to_nat targetVertLines) p [] tlx0 tly0 width height color;
  if (Z.of_nat (length vl) =? 0) || (Z.of_nat (length hl) =? 0) then ret (false, p)
  else if isTarget then
    let spacing := if minSpacing vl =? 2 then p1SpacingVert else p1SpacingNone in
    let spacing :=
      if (minSpacing hl =? 2) && (spacing =? p1SpacingVert) then p1SpacingBoth
      else if minSpacing hl =? 2 then p1SpacingHorz
      else spacing in
    let hasHExtreme := hasExtreme hl height in
    let hasVExtreme := hasExtreme vl width in
    let geometry :=
      if hasHExtreme && hasVExtreme then p1GeometryL
      else if hasHExtreme || hasVExtreme then p1GeometryT
      else p1GeometryNone in
    ret (true,
         mkFa21 (TargetColor p) (Solution p) (ReportedAnswer p) (Obscurity p) spacing
           geometry (Z.of_nat (length hl)) (Z.of_nat (length vl)) (Pile p)
           (horzAllocs p) (vertAllocs p) vl hl tlx0 tly0)
  else ret (true, p).

(** The [for true] that draws a colour not used by [colors[0..i)]. *)
Fixpoint pickColor (fuel : nat) (colors : list Z) (i : Z) : Run (list Z) :=
  match fuel with
  | O => outOfFuel
  | S fuel' =>
      r ← Intn 7;
      let c := r + 1 in
      if existsb (fun v => v =? c) (take (Z.to_nat i) colors)
      then pickColor fuel' colors i
      else orPanic (setIx colors i c)
  end.

Fixpoint pickColors (fuel : nat) (colors : list Z) (slots : list Z) : Run (list Z) :=
  match slots with
  | [] => ret colors
  | i :: rest => colors' ← pickColor fuel colors i; pickColors fuel colors' rest
  end.

(** [for _, v := range colors { if !p.generatePart(...) { return false } }]. *)
Fixpoint generateParts (p : Project1Fa21) (colors : list Z) : Run (bool * Project1Fa21) :=
  match colors with
  | [] => ret (true, p)
  | v :: rest =>
      '(ok, q) ← generatePart p v (v =? TargetColor p);
      if (ok : bool) then generateParts q rest else ret (false, q)
  end.

Definition generatePile (fuel : nat) (p : Project1Fa21) : Run (bool * Project1Fa21) :=
  colors ← pickColors fuel (replicate 7 0) (seqZ 0 7);
  let p := withAllocs 0 0 (withPile (replicate 1024 0) p) in
  generateParts p colors.

(** The scan [for y := 1; y < 63; y++ { for x := 1; x < 63; x++ {...} }];
    the accumulator is [(minX, minY, maxX, maxY)]. *)
Definition scanPile (p : Project1Fa21) : option (Z * Z * Z * Z) :=
  foldl (fun acc y =>
    foldl (fun acc x =>
      '(minX, minY, maxX, maxY) ← acc;
      c ← getPoint p x y;
      if c =? TargetColor p then
        Some (if x <? minX then x else minX,
              if y <? minY then y else minY,
              if x >? maxX then x else maxX,
              if y >? maxY then y else maxY)
      else Some (minX, minY, maxX, maxY)) acc (seqZ 1 62))
    (Some (64, 64, 0, 0)) (seqZ 1 62).

(** [for _, v := range p.hLines] with its two probes and [break]. *)
Fixpoint horzObscured (p : Project1Fa21) (minX maxX : Z) (lines : list Z) : option bool :=
  match lines with
  | [] => Some false
  | v :: rest =>
      let y := v + tly p in
      a ← getPoint p minX y;
      if negb (a =? TargetColor p) then Some true
      else
        b ← getPoint p maxX y;
        if negb (b =? TargetColor p) then Some true
        else horzObscured p minX maxX rest
  end.

Fixpoint vertObscured (p : Project1Fa21) (minY maxY : Z) (lines : list Z) : option bool :=
  match lines with
  | [] => Some false
  | v :: rest =>
      let x := v + tlx p in
      a ← getPoint p x minY;
      if negb (a =? TargetColor p) then Some true
      else
        b ← getPoint p x maxY;
        if negb (b =? TargetColor p) then Some true
        else vertObscured p minY maxY rest
  end.

Definition validatePile (p : Project1Fa21) : option (bool * Project1Fa21) :=
  '(minX, minY, maxX, maxY) ← scanPile p;
  if maxX - minX + 1 <? 25 then Some (false, p)
  else if maxY - minY + 1 <? 25 then Some (false, p)
  else
    let sol := Z.lor (u32 (Z.shiftl (u32 (minY * 64 + minX)) 16)) (u32 (maxY * 64 + maxX)) in
    let p := mkFa21 (TargetColor p) sol (ReportedAnswer p) (Obscurity p) (Spacing p)
               (Geometry p) (HorzLineCount p) (VertLineCount p) (Pile p)
               (horzAllocs p) (vertAllocs p) (vLines p) (hLines p) (tlx p) (tly p) in
    ho ← horzObscured p minX maxX (hLines p);
    vo ← vertObscured p minY maxY (vLines p);
    let obs :=
      if (ho : bool) && (vo : bool) then p1ObscurityBoth
      else if ho then p1ObscurityHorz
      else if vo then p1ObscurityVert
      else p1ObscurityNone in
    Some (true,
          mkFa21 (TargetColor p) (Solution p) (ReportedAnswer p) obs (Spacing p)
            (Geometry p) (HorzLineCount p) (VertLineCount p) (Pile p)
            (horzAllocs p) (vertAllocs p) (vLines p) (hLines p) (tlx p) (tly p)).

(** [for i := 0; true; i++] of [swi598]: [i] is the loop counter on entry. *)
Fixpoint generateField (fuel : nat) (p : Project1Fa21) (i : Z) : Run Project1Fa21 :=
  match fuel with
  | O => outOfFuel
  | S fuel' =>
      i ← (if i >? 100 then randSeed ;; ret 0 else ret i);
      '(ok, p) ← generatePile (S fuel') p;
      if negb ok then generateField fuel' p (i + 1)
      else
        '(ok, p) ← orPanic (validatePile p);
        if negb ok then generateField fuel' p (i + 1)
        else ret p
  end.

(** [for i := 0; 1024 > i; i++ { inst.memWrite(memLoc+uint32(i)*4, p.Pile[i], ...) }]. *)
Fixpoint storePile (memLoc : Z) (p : Project1Fa21) (slots : list Z) : Run unit :=
  match slots with
  | [] => ret tt
  | i :: rest =>
      w ← orPanic (ix (Pile p) i);
      memWrite (u32 (memLoc + u32 (u32 i * 4))) w 4294967295 ;;
      storePile memLoc p rest
  end.

Definition swi598 (fuel : nat) : Run unit :=
  ok ← regInitialized 1;
  (if negb ok then
     reportError eSoftwareInterruptParameter
       "register $1 uninitialized for swi 582 call. $1 should hold the Pile memory pointer" []
   else ret tt) ;;
  c ← Intn 7;
  let p := mkFa21 (u32 (c + 1)) 0 305419896 0 0 0 0 0 (replicate 1024 0) 0 0 [] [] 0 0 in
  regWrite 3 (TargetColor p) ;;
  p ← generateField fuel p 0;
  memLoc ← regAccess 1;
  storePile memLoc p (seqZ 0 1024) ;;
  modify (setSwiContext (CtxFa21 p)).

Definition swi599 : Run unit :=
  ctx ← gets swiContext;
  match ctx with
  | CtxFa21 p =>
      ok ← regInitialized 1;
      (if negb ok then
         reportError eSoftwareInterruptParameter
           "register $2 uninitialized for swi 599 call. $2 should hold the packed byte offsets of the top left and bottom right corners." []
       else ret tt) ;;
      reported ← regAccess 2;
      let p := mkFa21 (TargetColor p) (Solution p) reported (Obscurity p) (Spacing p)
                 (Geometry p) (HorzLineCount p) (VertLineCount p) (Pile p)
                 (horzAllocs p) (vertAllocs p) (vLines p) (hLines p) (tlx p) (tly p) in
      modify (setSwiContext (CtxFa21 p)) ;;
      if (Z.land reported 65535 >? 4096) || (Z.shiftr reported 16 >? 4096) then
        reportError eSoftwareInterruptParameterValue
          "%h is an invalid solution for swi 599. Reported byte offsets must correspond to a pixel within the image, and the reported solution reports a number too large to be on the image."
          [reported]
      else
        regWrite 3 (Solution p)
  | _ =>
      reportError eInvalidSoftwareInterrupt
        "cannot use swi 599 with the previous swi call(s)" []
  end.

(** softwareInterrupts.go *)
Definition dispatchSoftwareInterrupt (fuel : nat) (iCode : Z) : Run unit :=
  if iCode =? 582 then swi582 fuel
  else if iCode =? 583 then swi583
  else if iCode =? 598 then swi598 fuel
  else if iCode =? 599 then swi599
  else ret tt.

(** ** Instruction execution (emulator.go) *)

Definition toInt64 (x : Z) : Z :=
  let y := x mod 2 ^ 64 in if y <? 2 ^ 63 then y else y - 2 ^ 64.

Definition fmtShift : string := "%d is larger than the maximum shift amount of 31".

(** [amt := inst.regAccess(y); if amt > 31 { inst.reportError(...) }]. *)
Definition shiftAmount (y : Z) : Run Z :=
  amt ← regAccess y;
  (if amt >? 31 then reportError eShiftOverflow fmtShift [amt] else ret tt) ;;
  ret amt.

(** The [switch fn].  A zero divisor in [fnDIV] and [fnDIVU] is Go's integer
    divide-by-zero panic; [int64(uint32)] in [fnMULT] keeps the value. *)
Definition executeRType (x y z fn shift : Z) : Run unit :=
  if fn =? fnADD then
    a ← regAccess x; b ← regAccess y;
    regWrite z (u32 (toInt32 a + toInt32 b))
  else if fn =? fnADDU then
    a ← regAccess x; b ← regAccess y;
    regWrite z (u32 (a + b))
  else if fn =? fnAND then
    a ← regAccess x; b ← regAccess y;
    regWrite z (Z.land a b)
  else if fn =? fnDIV then
    a ← regAccess x; b ← regAccess y;
    (if b =? 0 then panic else ret tt) ;;
    let l := u32 (Z.quot (toInt32 a) (toInt32 b)) in
    a' ← regAccess x; b' ← regAccess y;
    (if b' =? 0 then panic else ret tt) ;;
    let h := u32 (Z.rem (toInt32 a') (toInt32 b')) in
    modify (setHiLo h l) ;;
    modify (setHiLoFilled true)
  else if fn =? fnDIVU then
    a ← regAccess x; b ← regAccess y;
    (if b =? 0 then panic else ret tt) ;;
    let l := a / b in
    a' ← regAccess x; b' ← regAccess y;
    (if b' =? 0 then panic else ret tt) ;;
    let h := a' mod b' in
    modify (setHiLo h l) ;;
    modify (setHiLoFilled true)
  else if fn =? fnJR then
    a ← regAccess x;
    modify (setPc (u32 (a - 4)))
  else if fn =? fnMFHI then
    filled ← gets hiLoFilled;
    (if negb filled then
       reportError eHiLoUninitializedAccess "mfhi used on uninitialized result" []
     else ret tt) ;;
    h ← gets hi;
    regWrite z h
  else if fn =? fnMFLO then
    filled ← gets hiLoFilled;
    (if negb filled then
       reportError eHiLoUninitializedAccess "mflo used on uninitialized result" []
     else ret tt) ;;
    l ← gets lo;
    regWrite z l
  else if fn =? fnMULT then
    a ← regAccess x; b ← regAccess y;
    let res := toInt64 (a * b) in
    modify (setHiLo (u32 (Z.shiftr res 32)) (u32 res)) ;;
    modify (setHiLoFilled true)
  else if fn =? fnMULTU then
    a ← regAccess x; b ← regAccess y;
    let res := u64 (a * b) in
    modify (setHiLo (u32 (Z.shiftr res 32)) (u32 res)) ;;
    modify (setHiLoFilled true)
  else if fn =? fnXOR then
    a ← regAccess x; b ← regAccess y;
    regWrite z (Z.lxor a b)
  else if fn =? fnOR then
    a ← regAccess x; b ← regAccess y;
    regWrite z (Z.lor a b)
  else if fn =? fnSLT then
    a ← regAccess x; b ← regAccess y;
    if toInt32 a <? toInt32 b then regWrite z 1 else regWrite z 0
  else if fn =? fnSLTU then
    a ← regAccess x; b ← regAccess y;
    if a <? b then regWrite z 1 else regWrite z 0
  else if fn =? fnSLL then
    a ← regAccess x;
    regWrite z (u32 (Z.shiftl a shift))
  else if fn =? fnSRL then
    a ← regAccess x;
    regWrite z (Z.shiftr a shift)
  else if fn =? fnSRA then
    a ← regAccess x;
    regWrite z (u32 (Z.shiftr (toInt32 a) shift))
  else if fn =? fnSLLV then
    amt ← shiftAmount y;
    a ← regAccess x;
    regWrite z (u32 (Z.shiftl a (Z.land amt 31)))
  else if fn =? fnSRLV then
    amt ← shiftAmount y;
    a ← regAccess x;
    regWrite z (Z.shiftr a (Z.land amt 31))
  else if fn =? fnSRAV then
    amt ← shiftAmount y;
    a ← regAccess x;
    regWrite z (u32 (Z.shiftr (toInt32 a) (Z.land amt 31)))
  else if fn =? fnSUB then
    a ← regAccess x; b ← regAccess y;
    regWrite z (u32 (toInt32 a - toInt32 b))
  else if fn =? fnSUBU then
    a ← regAccess x; b ← regAccess y;
    regWrite z (u32 (a - b))
  else
    reportError eInvalidInstruction
      "%X is not a valid function for an R-type instruction" [fn].

(** [uint32(int32(imm<<16) >> 16)]. *)
Definition signExtend16 (imm : Z) : Z :=
  u32 (Z.shiftr (toInt32 (u32 (Z.shiftl imm 16))) 16).

Definition branchTarget (imm : Z) : Z := u32 (u32 (imm * 4) - 4).

Definition executeIType (swiFuel : nat) (op x z imm : Z) : Run unit :=
  if (op =? opADDI) || (op =? opADDIU) then
    a ← regAccess x;
    regWrite z (u32 (a + signExtend16 imm))
  else if op =? opANDI then
    a ← regAccess x;
    regWrite z (Z.land a imm)
  else if op =? opBEQ then
    a ← regAccess z; b ← regAccess x;
    if a =? b then modify (setPc (branchTarget imm)) else ret tt
  else if op =? opBNE then
    a ← regAccess z; b ← regAccess x;
    if negb (a =? b) then modify (setPc (branchTarget imm)) else ret tt
  else if op =? opLB then
    r ← regAccess x;
    let a := u32 (r + imm) in
    '(v, _) ← memAccess a false;
    let v := Z.shiftr v ((a mod 4) * 8) in
    regWrite z (u32 (Z.shiftr (toInt32 (u32 (Z.shiftl (Z.land v 255) 24))) 24))
  else if op =? opLBU then
    r ← regAccess x;
    let a := u32 (r + imm) in
    '(v, _) ← memAccess a false;
    let v := Z.shiftr v ((a mod 4) * 8) in
    regWrite z (Z.land v 255)
  else if op =? opLW then
    r ← regAccess x;
    let a := u32 (r + imm) in
    '(v, _) ← memAccess a false;
    regWrite z v
  else if op =? opLUI then
    regWrite z (u32 (Z.shiftl imm 16))
  else if op =? opORI then
    a ← regAccess x;
    regWrite z (Z.lor a imm)
  else if op =? opSB then
    r ← regAccess x;
    let a := u32 (r + imm) in
    v ← regAccess z;
    let b := u32 (Z.shiftl (Z.land v 255) ((a mod 4) * 8)) in
    memWrite a b (u32 (Z.shiftl 255 ((a mod 4) * 8)))
  else if op =? opSLTI then
    a ← regAccess x;
    if toInt32 a <? toInt32 imm then regWrite z 1 else regWrite z 0
  else if op =? opSLTIU then
    a ← regAccess x;
    if a <? imm then regWrite z 1 else regWrite z 0
  else if op =? opSW then
    r ← regAccess x;
    let a := u32 (r + imm) in
    v ← regAccess z;
    memWrite a v 4294967295
  else if op =? opSWI then
    dispatchSoftwareInterrupt swiFuel imm
  else
    reportError eInvalidInstruction "%X is not a valid opcode for an instruction" [op].

Definition executeJType (op imm : Z) : Run unit :=
  if op =? opJ then
    modify (setPc (branchTarget imm))
  else if op =? opJAL then
    p ← gets pc;
    regWrite 31 (u32 (p + 8)) ;;
    modify (setPc (branchTarget imm))
  else ret tt.

(** ** The emulation loop *)

(** [new(instance)] followed by the assignments at the head of [Emulate]. *)
Definition resetInstance (h : Heap) (startAddr0 : Z) (mem : gmap Z MemoryPage)
    (limit : Z) : instance :=
  mkInst h mem (Z.land startAddr0 4294967292)
    (<[29%nat := 1048576]> (<[31%nat := 4294967295]> (replicate 32 0)))
    (Z.lor (Z.lor 1 (Z.shiftl 1 29)) (Z.shiftl 1 31))
    false 0 0 zeroPage zeroPage false 0 limit CtxNil [] 0.

(** The test at the head of the loop. *)
Definition stopCondition (limit eTol : Z) (s : instance) : bool :=
  (pc s =? 4294967295) || (Z.of_nat (length (errors s)) >=? eTol) || (di s >? limit).

(** What the loop does once [stopCondition] holds, before [break]. *)
Definition stopReport (limit eTol : Z) : Run unit :=
  errs ← gets errors;
  d ← gets di;
  if Z.of_nat (length errs) >=? eTol then
    reportError eErrorLimitReached
      "maximum of %d errors has been exceeded, stopping emulation" [eTol]
  else if d >? limit then
    reportError eRuntimeLimitExceeded
      "maximum runtime instruction count of %d exceeded" [limit]
  else ret tt.

(** One pass through the loop body after the stop test. *)
Definition emulateStep (swiFuel : nat) : Run unit :=
  p ← gets pc;
  '(instr, ok) ← memAccess p true;
  if negb ok then
    modify (fun s => setPc (u32 (pc s + 4)) s) ;;
    modify (fun s => setDi (u32 (di s + 1)) s)
  else
    let d := decodeInstruction instr in
    (if instr =? 0 then ret tt
     else if d_op d =? 0 then executeRType (d_x d) (d_y d) (d_z d) (d_fn d) (d_imm d)
     else if (d_op d =? opJ) || (d_op d =? opJAL) then executeJType (d_op d) (d_imm d)
     else executeIType swiFuel (d_op d) (d_x d) (d_z d) (d_imm d)) ;;
    modify (fun s => setDi (u32 (di s + 1)) s) ;;
    modify (fun s => setPc (u32 (pc s + 4)) s).

Fixpoint emulateLoop (fuel swiFuel : nat) (limit eTol : Z) : Run unit :=
  match fuel with
  | O => outOfFuel
  | S fuel' =>
      stop ← gets (stopCondition limit eTol);
      if (stop : bool) then stopReport limit eTol
      else emulateStep swiFuel ;; emulateLoop fuel' swiFuel limit eTol
  end.

Definition resultOf (s : instance) : EmulationResult :=
  mkResult (sysMemory s) (heap s) (regs s) (regInit s) (di s) (swiContext s) (errors s).

Definition Emulate (fuel swiFuel : nat) (h : Heap) (startAddr0 : Z)
    (mem : gmap Z MemoryPage) (limit : Z) (eTol : Z) : outcome EmulationResult :=
  match emulateLoop fuel swiFuel limit eTol (resetInstance h startAddr0 mem limit) with
  | Done (_, s) => Done (resultOf s)
  | Panic => Panic
  | OutOfFuel => OutOfFuel
  end.

End Scenarios.

(** ** Loading an image into paged memory (emulator.go, addToSystemMemory) *)

(** The loop body for the word [w] at byte offset [i] of the image; the state
    is the heap, the page table and [currentPage]. *)
Definition addWord (start : Z) (st : Heap * gmap Z MemoryPage * Z) (iw : Z * Z)
    : option (Heap * gmap Z MemoryPage * Z) :=
  let '(h, mem, currentPage) := st in
  let '(i, w) := iw in
  let pageOf := Z.shiftr (Z.land (u32 (start + u32 (Z.quot i 4))) 4294963200) 12 in
  let '(h, mem, currentPage) :=
    if negb (pageOf =? currentPage) then
      match mem !! pageOf with
      | Some _ => (h, mem, pageOf)
      | None =>
          (h ++ [replicate 1024 0; replicate 32 0],
           <[pageOf := mkPage (u32 (Z.shiftl pageOf 12)) (Some (length h))
                         (Some (S (length h)))]> mem,
           pageOf)
      end
    else (h, mem, currentPage) in
  page ← mem !! currentPage;
  let a := u32 (start + u32 i) in
  lm ← memory page;
  xs ← h !! lm;
  xs' ← setIx xs (a mod 4096 / 4) w;
  let h := <[lm := xs']> h in
  li ← initialized page;
  ys ← h !! li;
  old ← ix ys (a mod 4096 / 128);
  ys' ← setIx ys (a mod 4096 / 128) (Z.lor old (u32 (Z.shiftl 1 (a / 4 mod 32))));
  Some (<[li := ys']> h, mem, currentPage).

(** [None] is a run-time panic. *)
Definition addToSystemMemory (start : Z) (words : list Z) (h : Heap)
    (mem : gmap Z MemoryPage) : option (Heap * gmap Z MemoryPage) :=
  st ← foldl (fun acc iw => st ← acc; addWord start st iw)
             (Some (h, mem, 4294967295))
             (imap (fun k w => (4 * Z.of_nat k, w)) words);
  Some (st.1.1, st.1.2).

(** ** The data pass of the assembler (assembler.go) *)

Module Assembler.

Record MemoryImage : Type := mkImage {
  startingAddr : Z;
  memory : list Z
}.

Record AssemblySettings : Type := mkSettings {
  TextStart : Z;
  DataStart : Z
}.

Record InputLine : Type := mkLine {
  Contents : string;
  LineNumber : Z
}.

(** *** The functions of package [strings] the pass uses, on bytes *)

Definition chars (s : string) : list ascii := list_ascii_of_string s.
Definition text (l : list ascii) : string := string_of_list_ascii l.

Definition isSpace (c : ascii) : bool :=
  let n := nat_of_ascii c in
  ((9 <=? n) && (n <=? 13))%nat || (n =? 32)%nat.

Definition inCutset (cutset : string) (c : ascii) : bool :=
  existsb (Ascii.eqb c) (chars cutset).

Fixpoint trimLeftL (cutset : string) (l : list ascii) : list ascii :=
  match l with
  | c :: r => if inCutset cutset c then trimLeftL cutset r else l
  | [] => []
  end.

(** [strings.Trim(s, cutset)]. *)
Definition Trim (s cutset : string) : string :=
  text (rev (trimLeftL cutset (rev (trimLeftL cutset (chars s))))).

Definition lowerChar (c : ascii) : ascii :=
  let n := nat_of_ascii c in
  if ((65 <=? n) && (n <=? 90))%nat then ascii_of_nat (n + 32) else c.

(** [strings.ToLower(s)]. *)
Definition ToLower (s : string) : string := text (map lowerChar (chars s)).

Fixpoint fieldsL (cur : list ascii) (l : list ascii) : list string :=
  match l with
  | [] => match cur with [] => [] | _ => [text (rev cur)] end
  | c :: r =>
      if isSpace c then
        match cur with
        | [] => fieldsL [] r
        | _ => text (rev cur) :: fieldsL [] r
        end
      else fieldsL (c :: cur) r
  end.

(** [strings.Fields(s)]. *)
Definition Fields (s : string) : list string := fieldsL [] (chars s).

Fixpoint splitL (sep : ascii) (cur : list ascii) (l : list ascii) : list string :=
  match l with
  | [] => [text (rev cur)]
  | c :: r =>
      if Ascii.eqb c sep then text (rev cur) :: splitL sep [] r
      else splitL sep (c :: cur) r
  end.

(** [strings.Split(s, sep)] for a one-byte separator. *)
Definition Split (s : string) (sep : ascii) : list string := splitL sep [] (chars s).

(** [strings.ReplaceAll(s, old, "")] for a one-byte [old]. *)
Definition RemoveAll (s : string) (old : ascii) : string :=
  text (filter (fun c => Ascii.eqb c old = false) (chars s)).

(** [strings.Index(s, substr)], with [None] for -1. *)
Definition Index (s substr : string) : option nat := String.index 0 substr s.

Definition Contains (s substr : string) : bool :=
  match Index s substr with Some _ => true | None => false end.

(** [strings.Join(elems, "")]. *)
Definition Join (elems : list string) : string := String.concat "" elems.

Definition quote : string := String (ascii_of_nat 34) EmptyString.

(** *** Literals *)

Definition isDigit (c : ascii) : bool :=
  let n := nat_of_ascii c in ((48 <=? n) && (n <=? 57))%nat.

Definition byteOf (c : ascii) : Z := Z.of_nat (nat_of_ascii c).

(** The loop over a hexadecimal literal; [None] is the error return. *)
Fixpoint hexDigits (l : list ascii) (ret : Z) : option Z :=
  match l with
  | [] => Some ret
  | c :: r =>
      if (byteOf c <=? 57) && (byteOf c >=? 48) then
        hexDigits r (Z.lor (u32 (Z.shiftl ret 4)) (byteOf c - 48))
      else if (byteOf c <=? 102) && (byteOf c >=? 97) then
        hexDigits r (Z.lor (u32 (Z.shiftl ret 4)) (u32 (byteOf c - 97 + 10)))
      else None
  end.

(** The loop over a decimal literal with the overflow guard [ret > bound];
    the error is [inl true] for the magnitude and [inl false] for a bad byte. *)
Fixpoint decDigits (bound : Z) (l : list ascii) (ret : Z) : bool + Z :=
  match l with
  | [] => inr ret
  | c :: r =>
      if (byteOf c <=? 57) && (byteOf c >=? 48) then
        if ret >? bound then inl true
        else decDigits bound r (u32 (ret * 10 + (byteOf c - 48)))
      else inl false
  end.

(** The result pair [(uint32, error)]: the value is 0 beside an error. *)
Definition getLiteralValueFull (s : string) (labels : gmap string Z)
    (isSignedImm : bool) : Z * option string :=
  let s := Trim s (String " " (String (ascii_of_nat 9) EmptyString)) in
  match chars s with
  | [] => (0, Some "expected a literal, got nothing"%string)
  | c0 :: _ =>
      if Ascii.eqb c0 "-" || isDigit c0 then
        let s := ToLower s in
        if match Index s "0x" with Some O => true | _ => false end then
          let s := String.substring 2 (String.length s - 2) s in
          match hexDigits (chars s) 0 with
          | Some v => (v, None)
          | None =>
              (0, Some (quote ++ s ++ quote ++ " is not a valid hexadecimal number")%string)
          end
        else if match chars s with c :: _ => Ascii.eqb c "-" | [] => false end then
          let s := String.substring 1 (String.length s - 1) s in
          match decDigits 241591910 (chars s) 0 with
          | inr v => (u32 (Z.lxor v 4294967295 + 1), None)
          | inl true =>
              (0, Some (quote ++ "-" ++ s ++ quote
                        ++ " has magnitude too large to store in 32 bits")%string)
          | inl false =>
              (0, Some (quote ++ "-" ++ s ++ quote ++ " is not a valid integer number")%string)
          end
        else
          match decDigits 429496729 (chars s) 0 with
          | inr v => (v, None)
          | inl true =>
              (0, Some (quote ++ s ++ quote
                        ++ " has magnitude too large to store in 32 bits")%string)
          | inl false =>
              (0, Some (quote ++ s ++ quote ++ " is not a valid integer number")%string)
          end
      else
        match labels !! s with
        | Some v => (v, None)
        | None => (0, Some ("unresolved label " ++ quote ++ s ++ quote)%string)
        end
  end.

Definition getLiteralValue (s : string) (labels : gmap string Z) : Z * option string :=
  getLiteralValueFull s labels false.

(** *** State of the pass *)

(** The locals [retMem], [labels], [currentAddr] of [assembleData], the global
    [numErrors], and the pairs (line number, text) that
    [assemblyReportError] prints. *)
Record DataPass : Type := mkPass {
  retMem : MemoryImage;
  labels : gmap string Z;
  currentAddr : Z;
  numErrors : Z;
  reported : list (Z * string)
}.

Definition Asm : Type -> Type := StateM DataPass.

Definition setRetMem (m : MemoryImage) (s : DataPass) : DataPass :=
  mkPass m (labels s) (currentAddr s) (numErrors s) (reported s).
Definition setLabel (name : string) (v : Z) (s : DataPass) : DataPass :=
  mkPass (retMem s) (<[name := v]> (labels s)) (currentAddr s) (numErrors s) (reported s).
Definition setCurrentAddr (a : Z) (s : DataPass) : DataPass :=
  mkPass (retMem s) (labels s) a (numErrors s) (reported s).

Definition assemblyReportError (line : InputLine) (eText : string) : Asm unit :=
  modify (fun s =>
    mkPass (retMem s) (labels s) (currentAddr s) (numErrors s + 1)
      (reported s ++ [(LineNumber line, eText)])).

(** [for addr >= mem.startingAddr+uint32(len(mem.memory))*4 { append 0 }]. *)
Fixpoint growImage (fuel : nat) (addr : Z) (mem : MemoryImage) : outcome MemoryImage :=
  match fuel with
  | O => OutOfFuel
  | S fuel' =>
      if addr >=? u32 (startingAddr mem + u32 (u32 (Z.of_nat (length (memory mem))) * 4))
      then growImage fuel' addr (mkImage (startingAddr mem) (memory mem ++ [0]))
      else Done mem
  end.

Definition insertMemoryValue (fuel : nat) (addr value : Z) : Asm unit :=
  mem ← gets retMem;
  mem ← (fun s => match growImage fuel addr mem with
                  | Done m => Done (m, s)
                  | Panic => Panic
                  | OutOfFuel => OutOfFuel
                  end);
  let i := u32 (addr - startingAddr mem) / 4 in
  prev ← orPanic (ix (memory mem) i);
  let prev := Z.lor prev (u32 (Z.shiftl value ((addr mod 4) * 8))) in
  cells ← orPanic (setIx (memory mem) i prev);
  modify (setRetMem (mkImage (startingAddr mem) cells)).

(** [strings.Split(strings.ReplaceAll(strings.Join(fields[2:], ""), " ", ""), ",")]. *)
Definition valueList (fields : list string) : list string :=
  Split (RemoveAll (Join (drop 2 fields)) " ") ",".

(** [v, e := getLiteralValue(literal, labels); if e != nil { report }]. *)
Definition readLiteral (l : InputLine) (literal : string) : Asm Z :=
  lb ← gets labels;
  let '(v, e) := getLiteralValue literal lb in
  match e with
  | Some msg => assemblyReportError l msg ;; ret v
  | None => ret v
  end.

(** The test [v&0xFFFFFF00 != 0xFFFFFF00 && v&0xFFFFFF00 != 0x0]. *)
Definition byteOverflows (v : Z) : bool :=
  negb (Z.land v 4294967040 =? 4294967040) && negb (Z.land v 4294967040 =? 0).

(** The body of [for _, literal := range values] under [.byte]. *)
Definition byteValue (fuel : nat) (l : InputLine) (literal : string) : Asm unit :=
  v ← readLiteral l literal;
  modify (fun s => setCurrentAddr (u32 (currentAddr s + 1)) s) ;;
  (if byteOverflows v then
     assemblyReportError l (quote ++ literal ++ quote ++ " overflows a byte")
   else ret tt) ;;
  a ← gets currentAddr;
  insertMemoryValue fuel a (Z.land v 255).

Definition halfwordValue (fuel : nat) (l : InputLine) (literal : string) : Asm unit :=
  v ← readLiteral l literal;
  modify (fun s =>
    setCurrentAddr (u32 (currentAddr s + Z.land (u32 (currentAddr s + 2)) 4294967294)) s) ;;
  (if negb (Z.land v 4294901760 =? 4294901760) && negb (Z.land v 4294901760 =? 0) then
     assemblyReportError l (quote ++ literal ++ quote ++ " overflows a half word")
   else ret tt) ;;
  a ← gets currentAddr;
  insertMemoryValue fuel a (Z.land v 65535).

Definition wordValue (fuel : nat) (l : InputLine) (literal : string) : Asm unit :=
  v ← readLiteral l literal;
  modify (fun s =>
    setCurrentAddr (u32 (currentAddr s + Z.land (u32 (currentAddr s + 4)) 4294967292)) s) ;;
  a ← gets currentAddr;
  insertMemoryValue fuel a v.

Fixpoint forEach {A : Type} (body : A -> Asm unit) (l : list A) : Asm unit :=
  match l with
  | [] => ret tt
  | x :: r => body x ;; forEach body r
  end.

(** [for endAddr := ...; endAddr > currentAddr; currentAddr += step { insert 0 }],
    with [n] an upper bound on the number of passes. *)
Fixpoint zeroFill (n : nat) (fuel : nat) (endAddr step : Z) : Asm unit :=
  match n with
  | O => ret tt
  | S n' =>
      a ← gets currentAddr;
      if endAddr >? a then
        insertMemoryValue fuel a 0 ;;
        modify (setCurrentAddr (u32 (a + step))) ;;
        zeroFill n' fuel endAddr step
      else ret tt
  end.

Definition fmtTerms : string :=
  "data allocations must have at least 3 terms, expected ".
Definition fmtColon : string :=
  "data allocation labels need to be followed by a colon. Expected ".
Definition fmtShape : string := "LabelName: .dataType value".

Definition lastIsColon (s : string) : bool :=
  match rev (chars s) with
  | c :: _ => Ascii.eqb c ":"
  | [] => false
  end.

(** The body of [for _, l := range lines]. *)
Definition dataLine (fuel : nat) (l : InputLine) : Asm unit :=
  let line := Contents l in
  let line :=
    match Index line "#" with
    | Some k => Trim (String.substring 0 k line) (String " " (String (ascii_of_nat 9) EmptyString))
    | None => line
    end in
  if String.eqb line "" then ret tt
  else
    let fields := Fields line in
    if (length fields <? 3)%nat then
      assemblyReportError l
        (fmtTerms ++ quote ++ fmtShape ++ quote ++ ". Got: " ++ quote ++ line ++ quote)
    else
      let f0 := default ""%string (fields !! 0%nat) in
      let f1 := default ""%string (fields !! 1%nat) in
      let f2 := default ""%string (fields !! 2%nat) in
      (if negb (lastIsColon f0) then
         assemblyReportError l
           (fmtColon ++ quote ++ fmtShape ++ quote ++ ". Got: " ++ quote ++ line ++ quote)
       else ret tt) ;;
      let name := Trim f0 (String ":" (String " " (String (ascii_of_nat 9) EmptyString))) in
      let kind := ToLower f1 in
      if String.eqb kind ".byte" then
        modify (fun s => setLabel name (u32 (currentAddr s + 1)) s) ;;
        forEach (byteValue fuel l) (valueList fields)
      else if String.eqb kind ".halfword" then
        modify (fun s => setLabel name (Z.land (u32 (currentAddr s + 2)) 4294967294) s) ;;
        forEach (halfwordValue fuel l) (valueList fields)
      else if String.eqb kind ".word" then
        modify (fun s => setLabel name (Z.land (u32 (currentAddr s + 4)) 4294967292) s) ;;
        forEach (wordValue fuel l) (valueList fields)
      else if String.eqb kind ".space" then
        modify (fun s => setCurrentAddr (u32 (currentAddr s + 1)) s) ;;
        modify (fun s => setLabel name (currentAddr s) s) ;;
        lb ← gets labels;
        let '(v, e) := getLiteralValue f2 lb in
        match e with
        | Some msg => assemblyReportError l msg
        | None =>
            if v >=? 65536 * 4 then
              assemblyReportError l "allocations larger than 256KiB are prohibited"
            else
              a ← gets currentAddr;
              zeroFill (Z.to_nat v) fuel (u32 (a + v)) 1 ;;
              modify (fun s => setCurrentAddr (u32 (currentAddr s - 1)) s)
        end
      else if String.eqb kind ".alloc" then
        modify (fun s => setCurrentAddr (Z.land (u32 (currentAddr s + 4)) 4294967292) s) ;;
        modify (fun s => setLabel name (currentAddr s) s) ;;
        lb ← gets labels;
        let '(v, e) := getLiteralValue f2 lb in
        match e with
        | Some msg => assemblyReportError l msg
        | None =>
            if v >=? 65536 then
              assemblyReportError l "allocations larger than 256KiB are prohibited"
            else
              a ← gets currentAddr;
              zeroFill (Z.to_nat v) fuel (u32 (a + u32 (v * 4))) 4 ;;
              modify (fun s => setCurrentAddr (u32 (currentAddr s - 4)) s)
        end
      else
        assemblyReportError l
          "invalid data type. Valid data types are .byte, .halfword, .word, .space, and .alloc" ;;
        modify (fun s => setLabel name (currentAddr s) s).

(** [assembleData]: the image and the label table, with the errors reported
    on the way.  [errs] is the value of the global [numErrors] on entry. *)
Definition assembleData (fuel : nat) (lines : list InputLine)
    (settings : AssemblySettings) (errs : Z) : outcome DataPass :=
  match forEach (dataLine fuel) lines
          (mkPass (mkImage (DataStart settings) []) ∅ (u32 (DataStart settings - 1)) errs [])
  with
  | Done (_, s) => Done s
  | Panic => Panic
  | OutOfFuel => OutOfFuel
  end.

End Assembler.

(** ** Inputs used in the statements below *)

(** The constant sequence of draws, for programs that reach no scenario
    generator. *)
Definition noDraws : nat -> Z := fun _ => 0.

(** A sequence of draws whose first number is 0x7999. *)
Definition sampleDraws : nat -> Z := fun k => 31129 + 7919 * Z.of_nat k.

(** Heap and page table after [addToSystemMemory] has loaded the image
    [words] at [start] into an empty page table. *)
Definition imageHeap (start : Z) (words : list Z) : Heap :=
  match addToSystemMemory start words [] ∅ with
  | Some (h, _) => h
  | None => []
  end.

Definition imageMem (start : Z) (words : list Z) : gmap Z MemoryPage :=
  match addToSystemMemory start words [] ∅ with
  | Some (_, mem) => mem
  | None => ∅
  end.

(** [Emulate(0x1000, mem, limit, eTol)] on the text image [words], loaded at
    [TextStart = 0x1000] as [Assemble] does. *)
Definition runText (rnd : nat -> Z) (words : list Z) (limit eTol : Z)
    : outcome EmulationResult :=
  Emulate rnd 64 64 (imageHeap 4096 words) 4096 (imageMem 4096 words) limit eTol.

(** The instance [Emulate] starts from on that image. *)
Definition textInstance (words : list Z) (limit : Z) : instance :=
  resetInstance (imageHeap 4096 words) 4096 (imageMem 4096 words) limit.

(** [addi $1, $0, -5] ; [jr $1]. *)
Definition sentinelProgram : list Z :=
  [formIInstruction opADDI 1 0 65531; formRInstruction 0 1 0 0 0 fnJR].

(** [sw $29, 0($0)]. *)
Definition storeZeroProgram : list Z := [formIInstruction opSW 29 0 0].

(** [lui $1, 1] ; [swi 582] ; [jr $31]. *)
Definition puzzleProgram : list Z :=
  [formIInstruction opLUI 1 0 1; formIInstruction opSWI 0 0 582;
   formRInstruction 0 31 0 0 0 fnJR].

(** [j 0x1000]: a loop on itself. *)
Definition loopProgram : list Z := [formJInstruction opJ 1024].

(** The instance after reset over a page table whose page 2 holds one
    initialized word, at 0x2000. *)
Definition dataInstance : instance :=
  resetInstance (imageHeap 8192 [7]) 4096 (imageMem 8192 [7]) 100.

(** The settings of [main]: [TextStart = 0x1000], [DataStart = 0x8000]. *)
Definition defaultSettings : Assembler.AssemblySettings := Assembler.mkSettings 4096 32768.

(** The data pass over the single line [line], numbered 1, with no error
    counted before. *)
Definition assembleOne (line : string) : outcome Assembler.DataPass :=
  Assembler.assembleData (Z.to_nat 16384) [Assembler.mkLine line 1] defaultSettings 0.

(** The error count and the reported errors of [assembleOne]. *)
Definition dataReports (line : string) : option (Z * list (Z * string)) :=
  match assembleOne line with
  | Done s => Some (Assembler.numErrors s, Assembler.reported s)
  | _ => None
  end.

Definition overflowsByte (literal : string) : string :=
  (Assembler.quote ++ literal ++ Assembler.quote ++ " overflows a byte")%string.

(** ** Notions used in the statements below *)

(** What a stop of the loop appends to the error list. *)
Definition stopErrors (limit eTol : Z) (s : instance) : list RuntimeError :=
  if Z.of_nat (length (errors s)) >=? eTol then
    [mkError eErrorLimitReached
       (mkText (pc s) (u32 (di s + 1))
          "maximum of %d errors has been exceeded, stopping emulation" [eTol])]
  else if di s >? limit then
    [mkError eRuntimeLimitExceeded
       (mkText (pc s) (u32 (di s + 1))
          "maximum runtime instruction count of %d exceeded" [limit])]
  else [].

(** A page whose two slices are arrays of 1024 and 32 words in the heap, as
    [make] creates them. *)
Definition backed (h : Heap) (p : MemoryPage) : Prop :=
  exists lm li xs ys,
    memory p = Some lm /\ initialized p = Some li /\
    h !! lm = Some xs /\ h !! li = Some ys /\
    length xs = 1024%nat /\ length ys = 32%nat.

(** The page an access at [addr] is served from (instruction cache, else data
    cache, else the page table's entry if there is one) is backed. *)
Definition resolvesBacked (s : instance) (addr : Z) : Prop :=
  if Z.shiftr addr 12 =? Z.shiftr (startAddr (iCache s)) 12 then backed (heap s) (iCache s)
  else if Z.shiftr addr 12 =? Z.shiftr (startAddr (dCache s)) 12 then backed (heap s) (dCache s)
  else forall p, sysMemory s !! Z.shiftr addr 12 = Some p -> backed (heap s) p.

(** In heap [h] the word of [addr] in page [p] has its bit set and is [V]. *)
Definition readable (h : Heap) (p : MemoryPage) (addr V : Z) : Prop :=
  exists w,
    notInitialized w addr = false /\
    forall s2, heap s2 = h ->
      sliceGet (initialized p) ((addr mod 4096) / 128) s2 = Done (w, s2) /\
      sliceGet (memory p) (addr / 4 mod 1024) s2 = Done (V, s2).

(** [keeps m]: a run of [m] that returns leaves the instruction count alone. *)
Definition keeps {A : Type} (m : Run A) : Prop :=
  forall s a s', m s = Done (a, s') -> di s' = di s.

(** [preserves P m]: a run of [m] that returns from a state in [P] ends in [P]. *)
Definition preserves {A : Type} (P : instance -> Prop) (m : Run A) : Prop :=
  forall s a s', P s -> m s = Done (a, s') -> P s'.

(** The kinds of error an instruction can report: all but the two that end a run. *)
Definition instructionError (k : Z) : bool :=
  negb (k =? eErrorLimitReached) && negb (k =? eRuntimeLimitExceeded).


(** [EmulationResult.regRead]; [None] is the out-of-range panic of the array. *)
Definition regRead (r : EmulationResult) (reg : Z) : option (Z * bool) :=
  if negb (Z.land (Z.shiftr (RegInit r) reg) 1 =? 1) then Some (0, false)
  else v ← ix (Registers r) reg; Some (v, true).

(** The register file has its 32 slots, register 0 holds 0, and registers 0,
    29 and 31 are marked initialized. *)
Definition regFileOk (s : instance) : Prop :=
  length (regs s) = 32%nat /\ ix (regs s) 0 = Some 0 /\
  Z.testbit (regInit s) 0 = true /\ Z.testbit (regInit s) 29 = true /\
  Z.testbit (regInit s) 31 = true.

(** Every error reported so far is an instruction's. *)
Definition cleanErrors (s : instance) : Prop :=
  Forall (fun e => instructionError (EType e) = true) (errors s).

(** [SystemMemory.memRead], the read of a result's memory: the page table
    only, no cache.  [None] is an out-of-range panic. *)
Definition memRead (h : Heap) (m : gmap Z MemoryPage) (addr : Z) : option (Z * bool) :=
  match m !! Z.shiftr addr 12 with
  | None => Some (0, false)
  | Some page =>
      w ← (l ← initialized page; xs ← h !! l; ix xs ((addr mod 4096) / 128));
      if notInitialized w addr then Some (0, false)
      else
        v ← (l ← memory page; xs ← h !! l; ix xs (addr / 4 mod 1024));
        Some (v, true)
  end.

(** A cache is the zero value or a copy of the page table's entry for its page. *)
Definition cacheOk (m : gmap Z MemoryPage) (c : MemoryPage) : Prop :=
  c = zeroPage \/ m !! Z.shiftr (startAddr c) 12 = Some c.

(** Two pages share no array. *)
Definition disjointPages (p1 p2 : MemoryPage) : Prop :=
  memory p1 <> memory p2 /\ memory p1 <> initialized p2 /\
  initialized p1 <> memory p2 /\ initialized p1 <> initialized p2.

(** The shape of memory that [addToSystemMemory] builds and the emulator
    keeps: every page of the table is backed and filed under its own number,
    different pages share no array, and the caches are copies of table
    entries (or still zero). *)
Definition memoryOk (s : instance) : Prop :=
  (forall pg p, sysMemory s !! pg = Some p ->
     backed (heap s) p /\ Z.shiftr (startAddr p) 12 = pg) /\
  (forall pg1 pg2 p1 p2, pg1 <> pg2 ->
     sysMemory s !! pg1 = Some p1 -> sysMemory s !! pg2 = Some p2 ->
     disjointPages p1 p2) /\
  cacheOk (sysMemory s) (iCache s) /\
  cacheOk (sysMemory s) (dCache s).

(** The access at [addr] is not a hit on a cache that is still zero. *)
Definition noZeroHit (s : instance) (addr : Z) : Prop :=
  Z.shiftr addr 12 <> 0 \/ (iCache s <> zeroPage /\ dCache s <> zeroPage).

(** The word a write with [mask] leaves: [(data & mask) | (old & (mask ^ 0xFFFFFFFF))]. *)
Definition mergeWord (data mask old : Z) : Z :=
  Z.lor (Z.land data mask) (Z.land old (Z.lxor mask 4294967295)).

(** The word stored for [addr], whatever its initialization bit; 0 when the
    page does not exist. *)
Definition rawWord (h : Heap) (m : gmap Z MemoryPage) (addr : Z) : option Z :=
  match m !! Z.shiftr addr 12 with
  | None => Some 0
  | Some page => l ← memory page; xs ← h !! l; ix xs (addr / 4 mod 1024)
  end.


(** [wrote s addr data mask s1]: [s1] is [s] after a store to [addr].  The page
    of [addr] is the table's entry, or a fresh zeroed page entered into the
    table; in it the word of [addr] is merged under [mask] and its initialised
    bit is set.  The caches and every other heap location are as in [s]. *)
Definition wrote (s : instance) (addr data mask : Z) (s1 : instance) : Prop :=
  exists p lm li xs ys old w0,
    iCache s1 = iCache s /\ dCache s1 = dCache s /\
    sysMemory s1 = <[Z.shiftr addr 12 := p]> (sysMemory s) /\
    Z.shiftr (startAddr p) 12 = Z.shiftr addr 12 /\
    memory p = Some lm /\ initialized p = Some li /\ lm <> li /\
    length xs = 1024%nat /\ length ys = 32%nat /\
    xs !! Z.to_nat (addr / 4 mod 1024) = Some old /\
    ys !! Z.to_nat ((addr mod 4096) / 128) = Some w0 /\
    ((sysMemory s !! Z.shiftr addr 12 = Some p /\
      heap s !! lm = Some xs /\ heap s !! li = Some ys) \/
     (sysMemory s !! Z.shiftr addr 12 = None /\
      xs = replicate 1024 0 /\ ys = replicate 32 0 /\
      (length (heap s) <= lm)%nat /\ (length (heap s) <= li)%nat)) /\
    heap s1 !! lm
    = Some (<[Z.to_nat (addr / 4 mod 1024) := mergeWord data mask old]> xs) /\
    heap s1 !! li
    = Some (<[Z.to_nat ((addr mod 4096) / 128) :=
               Z.lor w0 (Z.shiftl 1 ((addr mod 4096) / 4 mod 32))]> ys) /\
    (forall l, l <> lm -> l <> li -> (l < length (heap s))%nat ->
       heap s1 !! l = heap s !! l).

(** The square whose eight two-bit cells, from the lowest, are [l]. *)
Definition ofCells (l : list Z) : Z := fold_right (fun c acc => c + 4 * acc) 0 l.

(** [dataInstance] with 0x10000 in register 1. *)
Definition pointerInstance : instance :=
  setRegs (<[1%nat := 65536]> (regs dataInstance))
    (setRegInit (Z.lor (regInit dataInstance) 2) dataInstance).

(** A rotation puzzle whose reference is the square 0x7999, with no candidate
    stored yet. *)
Definition blankProject1 : Project1 := mkProject1 31129 (replicate 8 0) 0 0 false 0.

(** [dataInstance] with a rotation puzzle attached whose solution is at
    offset 8, and the offset 8 in register 3. *)
Definition reportInstance : instance :=
  setSwiContext (CtxP1 (mkProject1 31129 (replicate 8 0) 8 0 false 305419896))
    (setRegs (<[3%nat := 8]> (regs dataInstance))
       (setRegInit (Z.lor (regInit dataInstance) 8) dataInstance)).

(** A bounding-box puzzle with an empty pile. *)
Definition blankFa21 : Project1Fa21 :=
  mkFa21 3 0 305419896 0 0 0 0 0 (replicate 1024 0) 0 0 [] [] 0 0.

(** A pile with two horizontal lines of the target colour 3, from column 5
    to column 40 in rows 10 and 40. *)
Definition linedFa21 : Project1Fa21 :=
  default blankFa21 (q ← drawHLine blankFa21 5 40 10 3; drawHLine q 5 40 40 3).

(** The number a string of decimal digits denotes. *)
Definition decimalValue (l : list ascii) : Z :=
  fold_left (fun acc c => acc * 10 + (Assembler.byteOf c - 48)) l 0.

(** A lower-case hexadecimal digit, and the number a string of them denotes. *)
Definition isHexDigit (c : ascii) : bool :=
  ((48 <=? Assembler.byteOf c) && (Assembler.byteOf c <=? 57))
  || ((97 <=? Assembler.byteOf c) && (Assembler.byteOf c <=? 102)).

Definition hexDigitValue (c : ascii) : Z :=
  if Assembler.byteOf c <=? 57 then Assembler.byteOf c - 48 else Assembler.byteOf c - 97 + 10.

Definition hexValue (l : list ascii) : Z :=
  fold_left (fun acc c => acc * 16 + hexDigitValue c) l 0.

(** The state of the loop of [addToSystemMemory] after the words [words] of
    an image loaded at [start] into an empty page table: heap, page table and
    [currentPage]. *)
Definition loadState (start : Z) (words : list Z)
    : option (Heap * gmap Z MemoryPage * Z) :=
  foldl (fun acc iw => st ← acc; addWord start st iw)
        (Some ([], ∅, 4294967295))
        (imap (fun k w => (4 * Z.of_nat k, w)) words).

(** * Properties *)

(** ** Reasoning about runs *)

Lemma bind_Done {S A B : Type} (m : StateM S A) (k : A -> StateM S B) s b s' :
  (m ≫= k) s = Done (b, s') ->
  exists a s1, m s = Done (a, s1) /\ k a s1 = Done (b, s').
Proof.
  unfold mbind, StateM_bind. destruct (m s) as [[a s1] | |]; [| discriminate ..].
  intros H. exists a, s1. split; [reflexivity | exact H].
Qed.

Lemma bind_run {S A B : Type} (m : StateM S A) (k : A -> StateM S B) s a s1 :
  m s = Done (a, s1) -> (m ≫= k) s = k a s1.
Proof. unfold mbind, StateM_bind. intros ->. reflexivity. Qed.

Lemma gets_Done {S A : Type} (f : S -> A) s a s' :
  gets f s = Done (a, s') -> a = f s /\ s' = s.
Proof. intros H. injection H as <- <-. split; reflexivity. Qed.

Lemma modify_Done {S : Type} (f : S -> S) s u s' :
  modify f s = Done (u, s') -> s' = f s.
Proof. intros H. injection H as _ <-. reflexivity. Qed.

Lemma ret_Done {S A : Type} (a : A) (s : S) b s' :
  ret a s = Done (b, s') -> b = a /\ s' = s.
Proof. intros H. injection H as <- <-. split; reflexivity. Qed.

Lemma sliceGet_Done sl i s w s' :
  sliceGet sl i s = Done (w, s') ->
  s' = s /\ (l ← sl; xs ← heap s !! l; ix xs i) = Some w.
Proof.
  unfold sliceGet. intros H. apply bind_Done in H as (h & s1 & H1 & H).
  apply gets_Done in H1 as [-> ->].
  destruct (l ← sl; xs ← heap s !! l; ix xs i) as [w' |]; [| discriminate].
  apply ret_Done in H as [-> ->]. split; reflexivity.
Qed.

Lemma reportError_Done e f a s u s' :
  reportError e f a s = Done (u, s') ->
  s' = setErrors (errors s ++ [mkError e (mkText (pc s) (u32 (di s + 1)) f a)]) s.
Proof. intros H. apply modify_Done in H. exact H. Qed.

(** Invert a returning run down to its primitive steps. *)
Ltac run_inv :=
  repeat match goal with
  | H : mbind _ _ _ = Done _ |- _ => apply bind_Done in H as (? & ? & ? & H)
  | H : gets _ _ = Done _ |- _ => apply gets_Done in H as [-> ->]
  | H : modify _ _ = Done _ |- _ => apply modify_Done in H as ->
  | H : ret _ _ = Done _ |- _ => apply ret_Done in H as [? ->]
  | H : reportError _ _ _ _ = Done _ |- _ => apply reportError_Done in H as ->
  | H : sliceGet _ _ _ = Done _ |- _ => apply sliceGet_Done in H as [-> ?]
  | H : (_, _) = (_, _) |- _ => injection H as ? ?
  end.

(** ** The instruction count is touched by the loop only *)

Lemma keeps_ret {A : Type} (a : A) : keeps (ret a).
Proof. intros s a' s' H. injection H as _ <-. reflexivity. Qed.

Lemma keeps_bind {A B : Type} (m : Run A) (k : A -> Run B) :
  keeps m -> (forall a, keeps (k a)) -> keeps (m ≫= k).
Proof.
  intros Hm Hk s b s' H. apply bind_Done in H as (a & s1 & H1 & H2).
  rewrite (Hk a _ _ _ H2). exact (Hm _ _ _ H1).
Qed.

Lemma keeps_gets {A : Type} (f : instance -> A) : keeps (gets f).
Proof. intros s a s' H. injection H as _ <-. reflexivity. Qed.

Lemma keeps_modify (f : instance -> instance) :
  (forall s, di (f s) = di s) -> keeps (modify f).
Proof. intros Hf s a s' H. injection H as H. subst s'. apply Hf. Qed.

Lemma keeps_panic {A : Type} : keeps (@panic instance A).
Proof. intros s a s' H. discriminate. Qed.

Lemma keeps_outOfFuel {A : Type} : keeps (@outOfFuel instance A).
Proof. intros s a s' H. discriminate. Qed.

Lemma keeps_orPanic {A : Type} (o : option A) : keeps (orPanic o).
Proof. destruct o; [apply keeps_ret | apply keeps_panic]. Qed.

Create HintDb keeps_db.

Ltac keeps_step :=
  match goal with
  | |- keeps (mbind _ _) => apply keeps_bind
  | |- keeps (ret _) => apply keeps_ret
  | |- keeps (gets _) => apply keeps_gets
  | |- keeps (modify _) => apply keeps_modify; intros; reflexivity
  | |- keeps panic => apply keeps_panic
  | |- keeps outOfFuel => apply keeps_outOfFuel
  | |- keeps (orPanic _) => apply keeps_orPanic
  | |- keeps (if ?b then _ else _) => destruct b
  | |- keeps (match ?x with _ => _ end) => destruct x
  | |- keeps _ => solve [auto with keeps_db]
  | |- forall _, _ => intro
  end.

Ltac keeps_tac := repeat keeps_step.

Lemma reportError_keeps e f a : keeps (reportError e f a).
Proof. unfold reportError. keeps_tac. Qed.
#[local] Hint Resolve reportError_keeps : keeps_db.

Lemma sliceGet_keeps s i : keeps (sliceGet s i).
Proof. unfold sliceGet. keeps_tac. Qed.
#[local] Hint Resolve sliceGet_keeps : keeps_db.

Lemma sliceSet_keeps s i v : keeps (sliceSet s i v).
Proof. unfold sliceSet. keeps_tac. Qed.
#[local] Hint Resolve sliceSet_keeps : keeps_db.

Lemma makeSlice_keeps n : keeps (makeSlice n).
Proof. unfold makeSlice. keeps_tac. Qed.
#[local] Hint Resolve makeSlice_keeps : keeps_db.

Lemma memAccess_keeps a b : keeps (memAccess a b).
Proof. unfold memAccess. keeps_tac. Qed.
#[local] Hint Resolve memAccess_keeps : keeps_db.

Lemma pageWrite_keeps p a d m : keeps (pageWrite p a d m).
Proof. unfold pageWrite. keeps_tac. Qed.
#[local] Hint Resolve pageWrite_keeps : keeps_db.

Lemma memWrite_keeps a d m : keeps (memWrite a d m).
Proof. unfold memWrite. keeps_tac. Qed.
#[local] Hint Resolve memWrite_keeps : keeps_db.

Lemma regInitialized_keeps r : keeps (regInitialized r).
Proof. unfold regInitialized. keeps_tac. Qed.
Lemma regAccess_keeps r : keeps (regAccess r).
Proof. unfold regAccess. keeps_tac. Qed.
Lemma regWrite_keeps r d : keeps (regWrite r d).
Proof. unfold regWrite. keeps_tac. Qed.
#[local] Hint Resolve regInitialized_keeps regAccess_keeps regWrite_keeps : keeps_db.

Section Draws.
Variable rnd : nat -> Z.

Lemma Intn_keeps n : keeps (Intn rnd n).
Proof. unfold Intn. keeps_tac. Qed.
#[local] Hint Resolve Intn_keeps : keeps_db.

Lemma randSeed_keeps : keeps randSeed.
Proof. unfold randSeed. keeps_tac. Qed.
#[local] Hint Resolve randSeed_keeps : keeps_db.

Lemma genSquare_keeps fuel : keeps (genSquare rnd fuel).
Proof. induction fuel; cbn [genSquare]; keeps_tac. Qed.
#[local] Hint Resolve genSquare_keeps : keeps_db.

Lemma genSolution_keeps p : keeps (genSolution rnd p).
Proof. unfold genSolution. keeps_tac. Qed.
#[local] Hint Resolve genSolution_keeps : keeps_db.

Lemma genDummy_keeps fuel p a i w : keeps (genDummy rnd fuel p a i w).
Proof. revert p a i w. induction fuel; intros; cbn [genDummy]; keeps_tac. Qed.
#[local] Hint Resolve genDummy_keeps : keeps_db.

Lemma genDummies_keeps fuel p a slots : keeps (genDummies rnd fuel p a slots).
Proof. revert p. induction slots; intros; cbn [genDummies]; keeps_tac. Qed.
#[local] Hint Resolve genDummies_keeps : keeps_db.

Lemma swi582_keeps fuel : keeps (swi582 rnd fuel).
Proof. unfold swi582. keeps_tac. Qed.

Lemma swi583_keeps : keeps swi583.
Proof. unfold swi583. keeps_tac. Qed.
#[local] Hint Resolve swi582_keeps swi583_keeps : keeps_db.

Lemma hLineAttempts_keeps n p l a b c d e : keeps (hLineAttempts rnd n p l a b c d e).
Proof. revert p l. induction n; intros; cbn [hLineAttempts]; keeps_tac. Qed.
#[local] Hint Resolve hLineAttempts_keeps : keeps_db.

Lemma hLineLoop_keeps n p l a b c d e : keeps (hLineLoop rnd n p l a b c d e).
Proof. revert p l. induction n; intros; cbn [hLineLoop]; keeps_tac. Qed.
#[local] Hint Resolve hLineLoop_keeps : keeps_db.

Lemma vLineAttempts_keeps n p l a b c d e : keeps (vLineAttempts rnd n p l a b c d e).
Proof. revert p l. induction n; intros; cbn [vLineAttempts]; keeps_tac. Qed.
#[local] Hint Resolve vLineAttempts_keeps : keeps_db.

Lemma vLineLoop_keeps n p l a b c d e : keeps (vLineLoop rnd n p l a b c d e).
Proof. revert p l. induction n; intros; cbn [vLineLoop]; keeps_tac. Qed.
#[local] Hint Resolve vLineLoop_keeps : keeps_db.

Lemma generatePart_keeps p c t : keeps (generatePart rnd p c t).
Proof. unfold generatePart. keeps_tac. Qed.
#[local] Hint Resolve generatePart_keeps : keeps_db.

Lemma pickColor_keeps fuel colors i : keeps (pickColor rnd fuel colors i).
Proof. induction fuel; cbn [pickColor]; keeps_tac. Qed.
#[local] Hint Resolve pickColor_keeps : keeps_db.

Lemma pickColors_keeps fuel colors slots : keeps (pickColors rnd fuel colors slots).
Proof. revert colors. induction slots; intros; cbn [pickColors]; keeps_tac. Qed.
#[local] Hint Resolve pickColors_keeps : keeps_db.

Lemma generateParts_keeps p colors : keeps (generateParts rnd p colors).
Proof. revert p. induction colors; intros; cbn [generateParts]; keeps_tac. Qed.
#[local] Hint Resolve generateParts_keeps : keeps_db.

Lemma generatePile_keeps fuel p : keeps (generatePile rnd fuel p).
Proof. unfold generatePile. keeps_tac. Qed.
#[local] Hint Resolve generatePile_keeps : keeps_db.

Lemma generateField_keeps fuel p i : keeps (generateField rnd fuel p i).
Proof. revert p i. induction fuel; intros; cbn [generateField]; keeps_tac. Qed.
#[local] Hint Resolve generateField_keeps : keeps_db.

Lemma storePile_keeps m p slots : keeps (storePile m p slots).
Proof. induction slots; cbn [storePile]; keeps_tac. Qed.
#[local] Hint Resolve storePile_keeps : keeps_db.

Lemma swi598_keeps fuel : keeps (swi598 rnd fuel).
Proof. unfold swi598. keeps_tac. Qed.

Lemma swi599_keeps : keeps swi599.
Proof. unfold swi599. keeps_tac. Qed.
#[local] Hint Resolve swi598_keeps swi599_keeps : keeps_db.

Lemma dispatchSoftwareInterrupt_keeps fuel c : keeps (dispatchSoftwareInterrupt rnd fuel c).
Proof. unfold dispatchSoftwareInterrupt. keeps_tac. Qed.
#[local] Hint Resolve dispatchSoftwareInterrupt_keeps : keeps_db.

Lemma shiftAmount_keeps y : keeps (shiftAmount y).
Proof. unfold shiftAmount. keeps_tac. Qed.
#[local] Hint Resolve shiftAmount_keeps : keeps_db.

Lemma executeRType_keeps x y z fn sh : keeps (executeRType x y z fn sh).
Proof. unfold executeRType. keeps_tac. Qed.

Lemma executeIType_keeps fuel op x z imm : keeps (executeIType rnd fuel op x z imm).
Proof. unfold executeIType. keeps_tac. Qed.

Lemma executeJType_keeps op imm : keeps (executeJType op imm).
Proof. unfold executeJType. keeps_tac. Qed.
#[local] Hint Resolve executeRType_keeps executeIType_keeps executeJType_keeps : keeps_db.

Lemma stopReport_keeps limit eTol : keeps (stopReport limit eTol).
Proof. unfold stopReport. keeps_tac. Qed.

(** One pass of the loop body counts one instruction. *)
Lemma emulateStep_di swiFuel s u s' :
  emulateStep rnd swiFuel s = Done (u, s') -> di s' = u32 (di s + 1).
Proof.
  unfold emulateStep. intros H.
  apply bind_Done in H as (p & s1 & H1 & H).
  injection H1 as _ <-.
  apply bind_Done in H as ([instr ok] & s2 & H2 & H).
  apply memAccess_keeps in H2.
  destruct ok; cbn [negb] in H.
  - apply bind_Done in H as (u1 & s3 & H3 & H).
    apply bind_Done in H as (u2 & s4 & H4 & H).
    injection H4 as _ <-. injection H as _ <-. cbn.
    assert (Hk : di s3 = di s2).
    { revert H3. generalize (decodeInstruction instr). intros d H3.
      destruct (instr =? 0); [injection H3 as _ <-; reflexivity |].
      destruct (d_op d =? 0); [exact (executeRType_keeps _ _ _ _ _ _ _ _ H3) |].
      destruct ((d_op d =? opJ) || (d_op d =? opJAL));
        [exact (executeJType_keeps _ _ _ _ _ H3) |
         exact (executeIType_keeps _ _ _ _ _ _ _ _ H3)]. }
    congruence.
  - apply bind_Done in H as (u1 & s3 & H3 & H).
    injection H3 as _ <-. injection H as _ <-. cbn. congruence.
Qed.

Lemma emulateLoop_di fuel swiFuel limit eTol s u s' :
  0 <= di s <= limit + 1 ->
  emulateLoop rnd fuel swiFuel limit eTol s = Done (u, s') ->
  0 <= di s' <= limit + 1.
Proof.
  revert s. induction fuel as [| fuel IH]; intros s Hdi H; [discriminate |].
  cbn [emulateLoop] in H.
  apply bind_Done in H as (stop & s1 & H1 & H).
  injection H1 as <- <-.
  destruct (stopCondition limit eTol s) eqn:Hstop.
  - apply stopReport_keeps in H. lia.
  - apply bind_Done in H as (u1 & s2 & H2 & H).
    apply emulateStep_di in H2.
    apply (IH s2); [| exact H].
    unfold stopCondition in Hstop.
    apply orb_false_iff in Hstop as [_ Hgt].
    assert (di s <= limit) by lia.
    rewrite H2. unfold u32.
    pose proof (Z.mod_pos_bound (di s + 1) (2 ^ 32) ltac:(lia)).
    pose proof (Z.mod_le (di s + 1) (2 ^ 32) ltac:(lia) ltac:(lia)).
    lia.
Qed.

(** The loop itself always ends: with more fuel than [limit + 1 - di] passes,
    the only way to run out of fuel is inside an instruction, that is in one
    of the scenario generators. *)
Lemma emulateLoop_bounded fuel swiFuel limit eTol s :
  0 <= di s <= limit + 1 ->
  limit < 2 ^ 32 - 1 ->
  limit + 1 - di s < Z.of_nat fuel ->
  emulateLoop rnd fuel swiFuel limit eTol s = OutOfFuel ->
  exists s1, emulateStep rnd swiFuel s1 = OutOfFuel.
Proof.
  revert s. induction fuel as [| fuel IH]; intros s Hdi Hlimit Hfuel H; [lia |].
  cbn [emulateLoop] in H. unfold mbind, StateM_bind, gets in H.
  destruct (stopCondition limit eTol s) eqn:Hstop.
  - exfalso. revert H. unfold stopReport, mbind, StateM_bind, gets.
    destruct (Z.of_nat (length (errors s)) >=? eTol); [discriminate |].
    destruct (di s >? limit); discriminate.
  - destruct (emulateStep rnd swiFuel s) as [[u s2] | |] eqn:Hstep.
    + apply emulateStep_di in Hstep.
      unfold stopCondition in Hstop. apply orb_false_iff in Hstop as [_ Hgt].
      assert (Hle : di s <= limit) by lia.
      assert (Hs2 : di s2 = di s + 1).
      { rewrite Hstep. unfold u32. apply Z.mod_small. lia. }
      apply (IH s2); [lia | exact Hlimit | lia | exact H].
    + discriminate.
    + exists s. exact Hstep.
Qed.

End Draws.


(** ** Bits of 32-bit words *)

Lemma u32_land x : u32 x = Z.land x (Z.ones 32).
Proof. unfold u32. rewrite Z.land_ones by lia. reflexivity. Qed.

Lemma u32_range x : 0 <= u32 x < 2 ^ 32.
Proof. unfold u32. apply Z.mod_pos_bound. lia. Qed.

Lemma u32_id x : 0 <= x < 2 ^ 32 -> u32 x = x.
Proof. intros H. unfold u32. apply Z.mod_small. exact H. Qed.

Lemma testbit_u32_high w n : 0 <= w < 2 ^ 32 -> 32 <= n -> Z.testbit w n = false.
Proof.
  intros Hw Hn. destruct (Z.eq_dec w 0) as [-> | Hne]; [apply Z.bits_0 |].
  apply Z.bits_above_log2; [lia |].
  assert (Z.log2 w < 32) by (apply Z.log2_lt_pow2; lia). lia.
Qed.

Lemma tb_shiftl a k n :
  0 <= k -> Z.testbit (Z.shiftl a k) n = (k <=? n) && Z.testbit a (n - k).
Proof.
  intros Hk. destruct (Z.leb_spec k n) as [H | H]; cbn [andb].
  - apply Z.shiftl_spec. lia.
  - destruct (Z.neg_nonneg_cases n) as [Hneg | Hnn].
    + apply Z.testbit_neg_r; exact Hneg.
    + apply Z.shiftl_spec_low. exact H.
Qed.

Lemma tb_shiftr a k n :
  0 <= k -> Z.testbit (Z.shiftr a k) n = (0 <=? n) && Z.testbit a (n + k).
Proof.
  intros Hk. destruct (Z.leb_spec 0 n) as [H | H]; cbn [andb].
  - apply Z.shiftr_spec. exact H.
  - apply Z.testbit_neg_r; exact H.
Qed.

Lemma tb_ones k n : 0 <= k -> Z.testbit (Z.ones k) n = (0 <=? n) && (n <? k).
Proof.
  intros Hk. destruct (Z.leb_spec 0 n) as [H | H]; cbn [andb].
  - apply Z.testbit_ones_nonneg; lia.
  - apply Z.testbit_neg_r; exact H.
Qed.

(** Push [Z.testbit] through the word operations, split on the position of
    the bit, and compare what is left of the word [w] at bit [n]. *)
Ltac tb_push :=
  repeat first
    [ rewrite Z.lor_spec | rewrite Z.land_spec | rewrite Z.lxor_spec
    | rewrite tb_shiftl by lia | rewrite tb_shiftr by lia | rewrite tb_ones by lia ].

Ltac tb_split :=
  repeat match goal with
  | |- context [?a <=? ?b] => destruct (Z.leb_spec a b); try (exfalso; lia)
  | |- context [?a <? ?b] => destruct (Z.ltb_spec a b); try (exfalso; lia)
  end.

Ltac tb_atoms w n :=
  repeat match goal with
  | |- context [Z.testbit w ?e] =>
      lazymatch e with n => fail | _ => replace e with n by lia end
  end.

Ltac tb_solve w n Hw :=
  tb_push; tb_split; cbn [andb orb]; tb_atoms w n;
  repeat first [ rewrite andb_true_r | rewrite andb_false_r
               | rewrite orb_false_r | rewrite orb_true_r ];
  cbn [andb orb];
  first [ reflexivity | symmetry; apply testbit_u32_high; [exact Hw | lia] ].

(** ** Paged memory *)

Lemma full_mask_write V old :
  0 <= V < 2 ^ 32 ->
  Z.lor (Z.land V 4294967295) (Z.land old (Z.lxor 4294967295 4294967295)) = V.
Proof.
  intros HV. change (Z.lxor 4294967295 4294967295) with 0.
  rewrite Z.land_0_r, Z.lor_0_r. change 4294967295 with (Z.ones 32).
  rewrite Z.land_ones by lia. apply Z.mod_small. exact HV.
Qed.

Lemma set_bit_initialized w addr :
  notInitialized (Z.lor w (Z.shiftl 1 ((addr mod 4096) / 4 mod 32))) addr = false.
Proof.
  unfold notInitialized.
  set (k := (addr mod 4096) / 4 mod 32).
  assert (Hk : 0 <= k) by (apply Z.mod_pos_bound; lia).
  assert (H1 : Z.land (Z.shiftr (Z.lor w (Z.shiftl 1 k)) k) 1 = 1).
  { change 1 with (Z.ones 1) at 2. rewrite Z.land_ones by lia.
    change (2 ^ 1) with 2. rewrite <- Z.bit0_mod.
    rewrite Z.shiftr_spec by lia. rewrite Z.lor_spec, Z.shiftl_spec by lia.
    replace (0 + k - k) with 0 by lia. change (Z.testbit 1 0) with true.
    rewrite orb_true_r. reflexivity. }
  rewrite H1. reflexivity.
Qed.

Lemma word_index_range addr : 0 <= addr / 4 mod 1024 < 1024.
Proof. apply Z.mod_pos_bound. lia. Qed.

Lemma init_index_range addr : 0 <= (addr mod 4096) / 128 < 32.
Proof.
  pose proof (Z.mod_pos_bound addr 4096 ltac:(lia)).
  split; [apply Z.div_pos; lia | apply Z.div_lt_upper_bound; lia].
Qed.

Lemma ix_lookup {A : Type} (l : list A) i :
  0 <= i -> ix l i = l !! Z.to_nat i.
Proof. intros H. unfold ix. destruct (Z.ltb_spec i 0); [lia | reflexivity]. Qed.

Lemma setIx_insert {A : Type} (l : list A) i v :
  0 <= i < Z.of_nat (length l) -> setIx l i v = Some (<[Z.to_nat i := v]> l).
Proof.
  intros H. unfold setIx. destruct (Z.ltb_spec i 0); [lia |].
  destruct (Z.ltb_spec i (Z.of_nat (length l))); [reflexivity | lia].
Qed.

Lemma sliceGet_ok l i s xs v :
  heap s !! l = Some xs -> 0 <= i -> xs !! Z.to_nat i = Some v ->
  sliceGet (Some l) i s = Done (v, s).
Proof.
  intros Hl Hi Hv. unfold sliceGet, mbind, StateM_bind, gets. cbn.
  rewrite Hl. cbn. rewrite ix_lookup, Hv by exact Hi. reflexivity.
Qed.

Lemma sliceSet_ok l i v s xs :
  heap s !! l = Some xs -> 0 <= i < Z.of_nat (length xs) ->
  sliceSet (Some l) i v s
  = Done (tt, setHeap (<[l := <[Z.to_nat i := v]> xs]> (heap s)) s).
Proof.
  intros Hl Hi. unfold sliceSet, mbind, StateM_bind, gets, modify. cbn.
  rewrite Hl. cbn. rewrite setIx_insert by exact Hi. reflexivity.
Qed.

(** A full-mask write through a backed page succeeds, changes only the heap,
    and leaves the page backed with the word stored and its bit set. *)
Lemma pageWrite_backed p addr V s :
  0 <= V < 2 ^ 32 ->
  backed (heap s) p ->
  exists h' w,
    pageWrite p addr V 4294967295 s = Done (tt, setHeap h' s) /\
    backed h' p /\
    (forall q, backed (heap s) q -> backed h' q) /\
    (forall s2, heap s2 = h' ->
       sliceGet (initialized p) ((addr mod 4096) / 128) s2 = Done (w, s2) /\
       notInitialized w addr = false /\
       sliceGet (memory p) (addr / 4 mod 1024) s2 = Done (V, s2)).
Proof.
  intros HV (lm & li & xs & ys & Hm & Hi & Hxs & Hys & Hlx & Hly).
  pose proof (word_index_range addr) as Hwi.
  pose proof (init_index_range addr) as Hii.
  assert (Hne : lm <> li) by (intros ->; rewrite Hxs in Hys; injection Hys as ->; lia).
  pose proof (lookup_lt_Some _ _ _ Hxs) as Hlm.
  pose proof (lookup_lt_Some _ _ _ Hys) as Hli.
  destruct (lookup_lt_is_Some_2 xs (Z.to_nat (addr / 4 mod 1024)) ltac:(lia)) as [old Hold].
  destruct (lookup_lt_is_Some_2 ys (Z.to_nat ((addr mod 4096) / 128)) ltac:(lia)) as [w0 Hw0].
  set (xs' := <[Z.to_nat (addr / 4 mod 1024) := V]> xs).
  set (w := Z.lor w0 (Z.shiftl 1 ((addr mod 4096) / 4 mod 32))).
  set (ys' := <[Z.to_nat ((addr mod 4096) / 128) := w]> ys).
  set (h1 := <[lm := xs']> (heap s)).
  set (h' := <[li := ys']> h1).
  assert (Hh1li : h1 !! li = Some ys).
  { unfold h1. rewrite list_lookup_insert_ne by exact Hne. exact Hys. }
  assert (Hh'li : h' !! li = Some ys').
  { unfold h'. apply list_lookup_insert_eq. unfold h1. rewrite length_insert. exact Hli. }
  assert (Hh'lm : h' !! lm = Some xs').
  { unfold h'. rewrite list_lookup_insert_ne by congruence.
    unfold h1. apply list_lookup_insert_eq. exact Hlm. }
  exists h', w. split; [| split; [| split]].
  - unfold pageWrite. rewrite Hm, Hi.
    rewrite (bind_run _ _ _ _ _ (sliceGet_ok lm (addr / 4 mod 1024) s xs old Hxs (proj1 Hwi) Hold)).
    rewrite full_mask_write by exact HV.
    rewrite (bind_run _ _ _ _ _ (sliceSet_ok lm (addr / 4 mod 1024) V s xs Hxs ltac:(lia))).
    fold xs' h1.
    rewrite (bind_run _ _ _ _ _
               (sliceGet_ok li ((addr mod 4096) / 128) (setHeap h1 s) ys w0 Hh1li (proj1 Hii) Hw0)).
    fold w.
    rewrite (sliceSet_ok li ((addr mod 4096) / 128) w (setHeap h1 s) ys Hh1li ltac:(lia)).
    reflexivity.
  - exists lm, li, xs', ys'. unfold xs', ys'. rewrite !length_insert.
    repeat split; assumption.
  - intros q (qm & qi & qx & qy & Hqm & Hqi & Hqx & Hqy & Hqlx & Hqly).
    assert (Hlook : forall l zs, heap s !! l = Some zs ->
              exists zs', h' !! l = Some zs' /\ length zs' = length zs).
    { intros l zs Hl. destruct (decide (l = li)) as [-> | Hnli].
      - exists ys'. split; [exact Hh'li |].
        unfold ys'. rewrite length_insert. congruence.
      - unfold h'. rewrite list_lookup_insert_ne by congruence.
        destruct (decide (l = lm)) as [-> | Hnlm].
        + exists xs'. split; [unfold h1; apply list_lookup_insert_eq; exact Hlm |].
          unfold xs'. rewrite length_insert. congruence.
        + exists zs. split; [| reflexivity].
          unfold h1. rewrite list_lookup_insert_ne by congruence. exact Hl. }
    destruct (Hlook _ _ Hqx) as (qx' & Hqx' & Hlqx).
    destruct (Hlook _ _ Hqy) as (qy' & Hqy' & Hlqy).
    exists qm, qi, qx', qy'. repeat split; try assumption; congruence.
  - intros s2 Hs2. rewrite Hm, Hi. subst h'.
    assert (Hw : ys' !! Z.to_nat ((addr mod 4096) / 128) = Some w)
      by (unfold ys'; apply list_lookup_insert_eq; lia).
    assert (Hv : xs' !! Z.to_nat (addr / 4 mod 1024) = Some V)
      by (unfold xs'; apply list_lookup_insert_eq; lia).
    rewrite <- Hs2 in Hh'li, Hh'lm.
    rewrite (sliceGet_ok li _ s2 ys' w Hh'li (proj1 Hii) Hw).
    rewrite (sliceGet_ok lm _ s2 xs' V Hh'lm (proj1 Hwi) Hv).
    repeat split. apply set_bit_initialized.
Qed.

Lemma memAccess_readable s addr isInstr V :
  (if Z.shiftr addr 12 =? Z.shiftr (startAddr (iCache s)) 12 then
     readable (heap s) (iCache s) addr V
   else if Z.shiftr addr 12 =? Z.shiftr (startAddr (dCache s)) 12 then
     readable (heap s) (dCache s) addr V
   else exists p, sysMemory s !! Z.shiftr addr 12 = Some p /\ readable (heap s) p addr V) ->
  exists s2, memAccess addr isInstr s = Done ((V, true), s2).
Proof.
  intros H. unfold memAccess.
  rewrite (bind_run _ _ s (iCache s) s eq_refl).
  rewrite (bind_run _ _ s (dCache s) s eq_refl).
  destruct (Z.shiftr addr 12 =? Z.shiftr (startAddr (iCache s)) 12).
  - destruct H as (w & Hni & Hr). destruct (Hr s eq_refl) as [Hgi Hgm].
    rewrite (bind_run _ _ _ _ _ Hgi), Hni, (bind_run _ _ _ _ _ Hgm).
    eexists. reflexivity.
  - destruct (Z.shiftr addr 12 =? Z.shiftr (startAddr (dCache s)) 12).
    + destruct H as (w & Hni & Hr). destruct (Hr s eq_refl) as [Hgi _].
      destruct (Hr (setDMissed false s) eq_refl) as [_ Hgm].
      rewrite (bind_run _ _ _ _ _ Hgi), Hni.
      rewrite (bind_run _ _ s tt (setDMissed false s) eq_refl).
      rewrite (bind_run _ _ _ _ _ Hgm).
      eexists. reflexivity.
    + destruct H as (p & Hp & w & Hni & Hr). destruct (Hr s eq_refl) as [Hgi _].
      rewrite (bind_run _ _ s (sysMemory s) s eq_refl), Hp.
      rewrite (bind_run _ _ _ _ _ Hgi), Hni.
      rewrite (bind_run _ _ s (dMissed s) s eq_refl).
      destruct isInstr; [| destruct (dMissed s)].
      * destruct (Hr (setICache p s) eq_refl) as [_ Hgm].
        rewrite (bind_run _ _ s tt (setICache p s) eq_refl).
        rewrite (bind_run _ _ _ _ _ Hgm). eexists. reflexivity.
      * destruct (Hr (setDCache p s) eq_refl) as [_ Hgm].
        rewrite (bind_run _ _ s tt (setDCache p s) eq_refl).
        rewrite (bind_run _ _ _ _ _ Hgm). eexists. reflexivity.
      * destruct (Hr (setDMissed true s) eq_refl) as [_ Hgm].
        rewrite (bind_run _ _ s tt (setDMissed true s) eq_refl).
        rewrite (bind_run _ _ _ _ _ Hgm). eexists. reflexivity.
Qed.

Lemma pageWrite_readable p addr V s :
  0 <= V < 2 ^ 32 ->
  backed (heap s) p ->
  exists h',
    pageWrite p addr V 4294967295 s = Done (tt, setHeap h' s) /\
    readable h' p addr V.
Proof.
  intros HV Hb.
  destruct (pageWrite_backed p addr V s HV Hb) as (h' & w & Hw & _ & _ & Hr).
  exists h'. split; [exact Hw |]. exists w. split.
  - destruct (Hr (setHeap h' s) eq_refl) as (_ & Hni & _). exact Hni.
  - intros s2 Hs2. destruct (Hr s2 Hs2) as (Hgi & _ & Hgm). split; assumption.
Qed.

Lemma backed_fresh (h : Heap) (addr : Z) :
  backed (h ++ [replicate 1024 0] ++ [replicate 32 0])
    (mkPage (Z.land addr 4294963200) (Some (length h))
       (Some (length (h ++ [replicate 1024 0%Z])))).
Proof.
  exists (length h), (length (h ++ [replicate 1024 0%Z])), (replicate 1024 0), (replicate 32 0).
  repeat split.
  - rewrite lookup_app_r by lia. replace (length h - length h)%nat with 0%nat by lia.
    reflexivity.
  - rewrite app_assoc. rewrite lookup_app_r by lia.
    replace (length (h ++ [replicate 1024 0%Z]) - length (h ++ [replicate 1024 0%Z]))%nat
      with 0%nat by lia.
    reflexivity.
Qed.

(** C1, where it holds.  On every instance whose page for [addr] is backed,
    a full-mask write followed by a read of the same address (as data or as
    instruction) returns the written word and [true]. *)
Theorem write_then_read_backed s addr V isInstr :
  0 <= V < 2 ^ 32 ->
  resolvesBacked s addr ->
  exists s1 s2,
    memWrite addr V 4294967295 s = Done (tt, s1) /\
    memAccess addr isInstr s1 = Done ((V, true), s2).
Proof.
  intros HV Hres. unfold resolvesBacked in Hres.
  assert (Hgoal : exists s1,
            memWrite addr V 4294967295 s = Done (tt, s1) /\
            iCache s1 = iCache s /\ dCache s1 = dCache s /\
            if Z.shiftr addr 12 =? Z.shiftr (startAddr (iCache s)) 12 then
              readable (heap s1) (iCache s) addr V
            else if Z.shiftr addr 12 =? Z.shiftr (startAddr (dCache s)) 12 then
              readable (heap s1) (dCache s) addr V
            else exists p, sysMemory s1 !! Z.shiftr addr 12 = Some p /\
                           readable (heap s1) p addr V).
  { unfold memWrite.
    rewrite (bind_run _ _ s (iCache s) s eq_refl).
    rewrite (bind_run _ _ s (dCache s) s eq_refl).
    destruct (Z.shiftr addr 12 =? Z.shiftr (startAddr (iCache s)) 12).
    - destruct (pageWrite_readable _ addr V s HV Hres) as (h' & Hw & Hr).
      exists (setHeap h' s). repeat split; assumption.
    - destruct (Z.shiftr addr 12 =? Z.shiftr (startAddr (dCache s)) 12).
      + destruct (pageWrite_readable _ addr V s HV Hres) as (h' & Hw & Hr).
        exists (setDMissed false (setHeap h' s)).
        rewrite (bind_run _ _ _ _ _ Hw). repeat split; assumption.
      + rewrite (bind_run _ _ s (sysMemory s) s eq_refl).
        destruct (sysMemory s !! Z.shiftr addr 12) as [page |] eqn:Hpage.
        * rewrite (bind_run _ _ s page s eq_refl).
          destruct (pageWrite_readable _ addr V s HV (Hres page eq_refl)) as (h' & Hw & Hr).
          exists (setHeap h' s). repeat split; try assumption.
          exists page. split; assumption.
        * set (h0 := heap s).
          set (page := mkPage (Z.land addr 4294963200) (Some (length h0))
                         (Some (length (h0 ++ [replicate 1024 0%Z])))).
          set (sc := setSysMemory (<[Z.shiftr addr 12 := page]> (sysMemory s))
                       (setHeap (h0 ++ [replicate 1024 0] ++ [replicate 32 0]) s)).
          assert (Hmk :
            (mem ← makeSlice 1024; ini ← makeSlice 32;
             modify (setSysMemory (<[Z.shiftr addr 12 :=
                        mkPage (Z.land addr 4294963200) mem ini]> (sysMemory s))) ;;
             ret (mkPage (Z.land addr 4294963200) mem ini)) s = Done (page, sc)).
          { unfold makeSlice, mbind, StateM_bind, gets, modify, ret, mret, StateM_ret.
            cbn [heap setHeap]. unfold sc, page, h0. rewrite <- app_assoc. reflexivity. }
          rewrite (bind_run _ _ _ _ _ Hmk).
          destruct (pageWrite_readable page addr V sc HV (backed_fresh h0 addr))
            as (h' & Hw & Hr).
          exists (setHeap h' sc). repeat split; try assumption.
          exists page. split; [| exact Hr].
          cbn [sysMemory setHeap sc setSysMemory]. apply lookup_insert_eq. }
  destruct Hgoal as (s1 & Hw & Hic & Hdc & Hr).
  exists s1.
  destruct (memAccess_readable s1 addr isInstr V) as (s2 & Hs2).
  - rewrite Hic, Hdc. exact Hr.
  - exists s2. split; assumption.
Qed.

(** The theorem above on the data page of [dataInstance]: page 8 is not in the
    page table, so the write creates it and the read finds the word. *)
Example write_then_read_new_page :
  exists s1 s2,
    memWrite 32768 7 4294967295 dataInstance = Done (tt, s1) /\
    memAccess 32768 false s1 = Done ((7, true), s2).
Proof.
  apply write_then_read_backed; [lia |].
  unfold resolvesBacked. cbn. intros p Hp. discriminate.
Qed.

(** C1 (the code at the failing input).  [Emulate] on [sw $29, 0($0)]: the
    fetch at 0x1000 loads the instruction cache with page 1, the data cache
    is still the zero page of the reset, whose [startAddr] 0 makes it the
    page of address 0, and the store indexes its nil [memory] array: the run
    panics instead of writing. *)
Lemma store_to_page_zero_panics :
  runText noDraws storeZeroProgram 100 5 = Panic /\
  exists s1,
    memAccess 4096 true (textInstance storeZeroProgram 100)
    = Done ((formIInstruction opSW 29 0 0, true), s1) /\
    dCache s1 = zeroPage /\
    memWrite 0 1048576 4294967295 s1 = Panic.
Proof.
  split; [vm_compute; reflexivity |].
  eexists. split; [vm_compute; reflexivity |].
  split; vm_compute; reflexivity.
Qed.

(** C10.  After the reset both caches are the zero page, so an address of page
    0 is a hit on the instruction cache whatever the page table holds, and
    the read of its nil [initialized] array (or, for a write, of its nil
    [memory] array) is the out-of-range panic. *)
Theorem reset_page_zero_panics h startAddr0 mem limit addr isInstr data mask :
  Z.shiftr addr 12 = 0 ->
  iCache (resetInstance h startAddr0 mem limit) = zeroPage /\
  dCache (resetInstance h startAddr0 mem limit) = zeroPage /\
  memAccess addr isInstr (resetInstance h startAddr0 mem limit) = Panic /\
  memWrite addr data mask (resetInstance h startAddr0 mem limit) = Panic.
Proof.
  intros Hpage. split; [reflexivity |]. split; [reflexivity |].
  unfold memAccess, memWrite, mbind, StateM_bind, gets. cbn.
  rewrite Hpage. split; reflexivity.
Qed.

Lemma reset_page_zero_panics_witness :
  Z.shiftr 8 12 = 0 /\
  memAccess 8 false (resetInstance [] 4096 ∅ 100) = Panic /\
  memWrite 8 7 4294967295 (resetInstance [] 4096 ∅ 100) = Panic.
Proof.
  split; [reflexivity |].
  exact (proj2 (proj2 (reset_page_zero_panics [] 4096 ∅ 100 8 false 7 4294967295 eq_refl))).
Defined.

(** C2 (as amended).  A data access that is not served by the instruction
    cache leaves that cache alone, and:
    - on a hit of the data cache, the data cache stays and the flag is
      cleared when the access succeeds;
    - on a miss of both caches that succeeds, the flag is set afterwards; the
      data cache is kept when the flag was clear, and becomes the accessed
      page of the page table when the flag was already set;
    - on a miss that fails (no such page, or the word is not initialized),
      flag and data cache are unchanged and one [UninitializedMemoryAccess]
      is reported. *)
Theorem data_access_two_strike s addr v ok s' :
  Z.shiftr addr 12 <> Z.shiftr (startAddr (iCache s)) 12 ->
  memAccess addr false s = Done ((v, ok), s') ->
  iCache s' = iCache s /\
  if Z.shiftr addr 12 =? Z.shiftr (startAddr (dCache s)) 12 then
    dCache s' = dCache s /\ dMissed s' = (if ok then false else dMissed s)
  else if ok then
    dMissed s' = true /\
    (if dMissed s then sysMemory s !! Z.shiftr addr 12 = Some (dCache s')
     else dCache s' = dCache s)
  else
    dMissed s' = dMissed s /\ dCache s' = dCache s /\
    errors s' = errors s ++
      [mkError eUninitializedMemoryAccess
         (mkText (pc s) (u32 (di s + 1)) fmtUninitMem [addr; addr])].
Proof.
  intros Hni H. unfold memAccess in H.
  apply bind_Done in H as (ic & s1 & H1 & H). apply gets_Done in H1 as [-> ->].
  apply bind_Done in H as (dc & s1 & H1 & H). apply gets_Done in H1 as [-> ->].
  destruct (Z.eqb_spec (Z.shiftr addr 12) (Z.shiftr (startAddr (iCache s)) 12))
    as [Heq | _]; [contradiction |].
  destruct (Z.shiftr addr 12 =? Z.shiftr (startAddr (dCache s)) 12).
  - apply bind_Done in H as (w & s1 & H1 & H). apply sliceGet_Done in H1 as [-> _].
    destruct (notInitialized w addr); run_inv; subst; cbn; repeat split; reflexivity.
  - apply bind_Done in H as (m & s1 & H1 & H). apply gets_Done in H1 as [-> ->].
    destruct (sysMemory s !! Z.shiftr addr 12) as [page |] eqn:Hpage.
    + apply bind_Done in H as (w & s1 & H1 & H). apply sliceGet_Done in H1 as [-> _].
      destruct (notInitialized w addr).
      * run_inv; subst; cbn; repeat split; reflexivity.
      * apply bind_Done in H as (missed & s1 & H1 & H). apply gets_Done in H1 as [-> ->].
        destruct (dMissed s) eqn:Hmissed; run_inv; subst; cbn; repeat split;
          try reflexivity; try assumption.
    + run_inv; subst; cbn; repeat split; reflexivity.
Qed.

Lemma data_access_two_strike_witness :
  Z.shiftr 8192 12 <> Z.shiftr (startAddr (iCache dataInstance)) 12 /\
  exists s',
    memAccess 8192 false dataInstance = Done ((7, true), s') /\
    iCache s' = iCache dataInstance /\
    dMissed s' = true /\
    dCache s' = dCache dataInstance.
Proof.
  assert (Hne : Z.shiftr 8192 12 <> Z.shiftr (startAddr (iCache dataInstance)) 12)
    by (vm_compute; discriminate).
  split; [exact Hne |].
  eexists. split; [vm_compute; reflexivity |].
  apply (data_access_two_strike dataInstance 8192 7 true); [exact Hne |].
  vm_compute. reflexivity.
Defined.

(** C2 (counterexample).  Page 2 is in the page table and matches neither
    cache, the flag is clear, and the word at 0x2004 was never written: the
    first data access there fails and leaves the flag clear, and the second
    one, again a miss, does not replace the data cache. *)
Lemma failed_miss_leaves_flag_clear :
  is_Some (sysMemory dataInstance !! Z.shiftr 8196 12) /\
  Z.shiftr 8196 12 <> Z.shiftr (startAddr (iCache dataInstance)) 12 /\
  Z.shiftr 8196 12 <> Z.shiftr (startAddr (dCache dataInstance)) 12 /\
  dMissed dataInstance = false /\
  exists s1 s2,
    memAccess 8196 false dataInstance = Done ((0, false), s1) /\
    dMissed s1 = false /\
    memAccess 8196 false s1 = Done ((0, false), s2) /\
    dMissed s2 = false /\
    dCache s2 = zeroPage.
Proof.
  split; [vm_compute; eexists; reflexivity |].
  split; [vm_compute; discriminate |].
  split; [vm_compute; discriminate |].
  split; [reflexivity |].
  eexists _, _.
  split; [vm_compute; reflexivity |].
  split; [reflexivity |].
  split; [vm_compute; reflexivity |].
  split; reflexivity.
Qed.

(** ** Instruction codec *)

Lemma land_ones_range a k : 0 <= k -> 0 <= Z.land a (Z.ones k) < 2 ^ k.
Proof. intros Hk. rewrite Z.land_ones by exact Hk. apply Z.mod_pos_bound. lia. Qed.


(** C7.  Every 32-bit word is the re-encoding of its decoded fields with the
    form function of its own shape: [formRInstruction] when its opcode (its
    upper six bits) is 0, [formJInstruction] when it is [J] or [JAL],
    [formIInstruction] for every other opcode.  The decoder returns the
    word's opcode, and each decoded field lies within its width, so the
    fields are the only ones of these widths that encode to the word.  The
    field order is the one of the decoder's comments and of the assembler's
    calls: R-type [rs = x, rt = y, rd = z, shift = imm]; I-type
    [rs = z, rt = x]. *)
Theorem decode_encode_roundtrip w :
  0 <= w < 2 ^ 32 ->
  let d := decodeInstruction w in
  d_op d = Z.shiftr w 26 /\
  (Z.shiftr w 26 = 0 ->
   formRInstruction (d_op d) (d_x d) (d_y d) (d_z d) (d_imm d) (d_fn d) = w /\
   0 <= d_x d < 32 /\ 0 <= d_y d < 32 /\ 0 <= d_z d < 32 /\
   0 <= d_imm d < 32 /\ 0 <= d_fn d < 64) /\
  (Z.shiftr w 26 = opJ \/ Z.shiftr w 26 = opJAL ->
   formJInstruction (d_op d) (d_imm d) = w /\ 0 <= d_imm d < 2 ^ 26) /\
  (Z.shiftr w 26 <> 0 -> Z.shiftr w 26 <> opJ -> Z.shiftr w 26 <> opJAL ->
   formIInstruction (d_op d) (d_z d) (d_x d) (d_imm d) = w /\
   0 <= d_x d < 32 /\ 0 <= d_z d < 32 /\ 0 <= d_imm d < 2 ^ 16).
Proof.
  intros Hw d. subst d. unfold decodeInstruction.
  destruct (Z.eqb_spec (Z.shiftr w 26) 0) as [Hop | Hop].
  - cbn [d_op d_x d_y d_z d_imm d_fn].
    split; [reflexivity |]. split; [| split].
    + intros _. split.
      * unfold formRInstruction. rewrite !u32_land.
        change 31 with (Z.ones 5). change 63 with (Z.ones 6).
        apply Z.bits_inj'; intros n Hn. tb_solve w n Hw.
      * change 31 with (Z.ones 5). change 63 with (Z.ones 6).
        change 32 with (2 ^ 5). change 64 with (2 ^ 6).
        repeat split; apply land_ones_range; lia.
    + intros [H | H]; rewrite Hop in H; discriminate H.
    + intros H. contradiction.
  - destruct ((Z.shiftr w 26 =? opJ) || (Z.shiftr w 26 =? opJAL)) eqn:Hj;
      cbn [d_op d_x d_y d_z d_imm d_fn].
    + split; [reflexivity |]. split; [| split].
      * intros H. contradiction.
      * intros _. split.
        -- unfold formJInstruction. rewrite !u32_land. change 67108863 with (Z.ones 26).
           apply Z.bits_inj'; intros n Hn. tb_solve w n Hw.
        -- change 67108863 with (Z.ones 26). apply land_ones_range. lia.
      * intros _ H1 H2. apply orb_true_iff in Hj as [Hj | Hj];
          apply Z.eqb_eq in Hj; contradiction.
    + apply orb_false_iff in Hj as [Hj1 Hj2].
      apply Z.eqb_neq in Hj1. apply Z.eqb_neq in Hj2.
      split; [reflexivity |]. split; [| split].
      * intros H. contradiction.
      * intros [H | H]; contradiction.
      * intros _ _ _. split.
        -- unfold formIInstruction. rewrite !u32_land.
           change 31 with (Z.ones 5). change 65535 with (Z.ones 16).
           apply Z.bits_inj'; intros n Hn. tb_solve w n Hw.
        -- change 31 with (Z.ones 5). change 65535 with (Z.ones 16).
           change 32 with (2 ^ 5).
           repeat split; apply land_ones_range; lia.
Qed.

Lemma decode_encode_roundtrip_witness :
  0 <= 539033595 < 2 ^ 32 /\
  Z.shiftr 539033595 26 <> 0 /\ Z.shiftr 539033595 26 <> opJ /\
  Z.shiftr 539033595 26 <> opJAL /\
  let d := decodeInstruction 539033595 in
  formIInstruction (d_op d) (d_z d) (d_x d) (d_imm d) = 539033595.
Proof.
  assert (Hw : 0 <= 539033595 < 2 ^ 32) by lia.
  assert (H0 : Z.shiftr 539033595 26 <> 0) by discriminate.
  assert (H1 : Z.shiftr 539033595 26 <> opJ) by discriminate.
  assert (H2 : Z.shiftr 539033595 26 <> opJAL) by discriminate.
  split; [exact Hw |]. split; [exact H0 |]. split; [exact H1 |]. split; [exact H2 |].
  exact (proj1 (proj2 (proj2 (proj2 (decode_encode_roundtrip 539033595 Hw))) H0 H1 H2)).
Defined.

(** The three shapes the decoder tells apart, on one word each:
    [add $3, $1, $2], [jal 0x1000] and [addi $1, $0, -5]. *)
Example decode_shapes :
  decodeInstruction (formRInstruction 0 1 2 3 0 fnADD) = mkDecoded 0 1 2 3 0 fnADD /\
  decodeInstruction (formJInstruction opJAL 1024) = mkDecoded opJAL 0 0 0 1024 0 /\
  decodeInstruction (formIInstruction opADDI 1 0 65531) = mkDecoded opADDI 0 0 1 65531 0.
Proof. repeat split; reflexivity. Qed.


(** ** The reference square of swi 582 *)

(** In the last pass of the check ([i = 7]) the neighbour mask is
    [0x3 << (16 % 16) = 0x3], so the neighbour read is [(t & 3) >> 2 = 0]:
    cell 7 is compared with 0 and not with cell 0. *)
Lemma wrap_cell_reads_zero t :
  Z.shiftr (Z.land t (u32 (Z.shiftl 3 ((7 * 2 + 2) mod 16)))) 2 = 0.
Proof.
  change (u32 (Z.shiftl 3 ((7 * 2 + 2) mod 16))) with (Z.ones 2).
  apply Z.bits_inj'; intros n Hn. rewrite Z.bits_0.
  tb_push. tb_split; cbn [andb]; rewrite ?andb_false_r; reflexivity.
Qed.

(** C8 (the code at the failing input).  When the first draw is 0x7999,
    [genSquare] accepts it, and it is the reference of the scenario that
    [swi 582] attaches; its cells, from cell 0, are 1 2 1 2 1 2 3 1, so
    cell 7 and its cyclic neighbour cell 0 hold the same colour. *)
Lemma reference_square_wraps_equal :
  squareCells 31129 8 0 = true /\
  cellsOf 31129 = [1; 2; 1; 2; 1; 2; 3; 1] /\
  ix (cellsOf 31129) 7 = ix (cellsOf 31129) ((7 + 1) mod 8) /\
  exists r p,
    runText sampleDraws puzzleProgram 100 5 = Done r /\
    Errors r = [] /\
    SWIContext r = CtxP1 p /\
    Reference p = 31129.
Proof.
  split; [reflexivity |]. split; [reflexivity |]. split; [reflexivity |].
  eexists _, _. split; [vm_compute; reflexivity |].
  repeat split; reflexivity.
Qed.

(** ** The emulation loop *)

Lemma emulateLoop_stop rnd fuel swiFuel limit eTol s :
  stopCondition limit eTol s = true ->
  emulateLoop rnd (S fuel) swiFuel limit eTol s
  = Done (tt, setErrors (errors s ++ stopErrors limit eTol s) s).
Proof.
  intros Hstop. cbn [emulateLoop].
  unfold mbind, StateM_bind, gets. rewrite Hstop.
  unfold stopReport, stopErrors, mbind, StateM_bind, gets.
  destruct (Z.of_nat (length (errors s)) >=? eTol).
  - reflexivity.
  - destruct (di s >? limit).
    + reflexivity.
    + unfold ret, mret, StateM_ret. rewrite app_nil_r. destruct s; reflexivity.
Qed.

(** C3 (as amended).  The loop stops at its head as soon as [pc] is
    0xFFFFFFFF, or the error count has reached [eTol], or [di] is above
    [limit], and only then: otherwise it fetches and executes one more
    instruction.  What a stop appends is decided by the error count first,
    whatever [pc] is: [ErrorLimitReached] when the count is at least [eTol],
    otherwise [RuntimeLimitExceeded] when [di > limit], and nothing only when
    neither holds.  No other field of the instance changes. *)
Theorem loop_stop_reports rnd fuel swiFuel limit eTol s :
  let n := Z.of_nat (length (errors s)) in
  (pc s = 4294967295 \/ eTol <= n \/ limit < di s ->
   exists rep,
     emulateLoop rnd (S fuel) swiFuel limit eTol s
     = Done (tt, setErrors (errors s ++ rep) s) /\
     rep = stopErrors limit eTol s /\
     (eTol <= n -> map EType rep = [eErrorLimitReached]) /\
     (n < eTol -> limit < di s -> map EType rep = [eRuntimeLimitExceeded]) /\
     (n < eTol -> di s <= limit -> rep = [])) /\
  (pc s <> 4294967295 -> n < eTol -> di s <= limit ->
   emulateLoop rnd (S fuel) swiFuel limit eTol s
   = (emulateStep rnd swiFuel ;; emulateLoop rnd fuel swiFuel limit eTol) s).
Proof.
  intros n. subst n. split.
  - intros Hstop. exists (stopErrors limit eTol s).
    split; [| split; [reflexivity |]].
    + apply emulateLoop_stop. unfold stopCondition.
      destruct Hstop as [Hpc | [He | Hd]].
      * rewrite Hpc. reflexivity.
      * destruct (Z.geb_spec (Z.of_nat (length (errors s))) eTol) as [_ | Hlt]; [| lia].
        rewrite orb_true_r. reflexivity.
      * destruct (Z.gtb_spec (di s) limit) as [_ | Hle]; [| lia].
        rewrite orb_true_r. reflexivity.
    + unfold stopErrors.
      destruct (Z.geb_spec (Z.of_nat (length (errors s))) eTol) as [Hge | Hlt].
      * split; [reflexivity |]. split; intros; lia.
      * destruct (Z.gtb_spec (di s) limit) as [Hgt | Hle].
        -- split; [lia |]. split; [reflexivity | lia].
        -- split; [lia |]. split; [lia | reflexivity].
  - intros Hpc He Hd. cbn [emulateLoop].
    unfold mbind at 1. unfold StateM_bind at 1. unfold gets at 1.
    assert (Hstop : stopCondition limit eTol s = false).
    { unfold stopCondition.
      destruct (Z.eqb_spec (pc s) 4294967295) as [? | _]; [contradiction |].
      destruct (Z.geb_spec (Z.of_nat (length (errors s))) eTol) as [? | _]; [lia |].
      destruct (Z.gtb_spec (di s) limit) as [? | _]; [lia |]. reflexivity. }
    rewrite Hstop. reflexivity.
Qed.

Lemma loop_stop_reports_witness :
  let s := setDi 101 (resetInstance [] 4096 ∅ 100) in
  (pc s = 4294967295 \/ 5 <= Z.of_nat (length (errors s)) \/ 100 < di s) /\
  exists rep,
    emulateLoop noDraws 1 0 100 5 s = Done (tt, setErrors (errors s ++ rep) s) /\
    map EType rep = [eRuntimeLimitExceeded].
Proof.
  assert (Hstop : pc (setDi 101 (resetInstance [] 4096 ∅ 100)) = 4294967295 \/
                  5 <= Z.of_nat (length (errors (setDi 101 (resetInstance [] 4096 ∅ 100)))) \/
                  100 < di (setDi 101 (resetInstance [] 4096 ∅ 100)))
    by (right; right; cbn [di setDi]; lia).
  split; [exact Hstop |].
  destruct (proj1 (loop_stop_reports noDraws 0 0 100 5
                     (setDi 101 (resetInstance [] 4096 ∅ 100))) Hstop)
    as (rep & Hrun & _ & _ & Hrt & _).
  exists rep. split; [exact Hrun |].
  apply Hrt; cbn [errors di setDi resetInstance length]; lia.
Defined.

(** C3 (counterexample).  [addi $1, $0, -5; jr $1] run with [eTol = 1]: the
    failed fetch at 0xFFFFFFFB is the first error and moves [pc] to
    0xFFFFFFFF, so the loop stops on the sentinel with [di = 3 <= limit], and
    [ErrorLimitReached] is appended all the same. *)
Lemma sentinel_exit_reports_error_limit :
  exists s,
    emulateLoop noDraws 64 64 100 1 (textInstance sentinelProgram 100) = Done (tt, s) /\
    pc s = 4294967295 /\
    di s = 3 /\
    map EType (errors s) = [eUninitializedMemoryAccess; eErrorLimitReached] /\
    map EType (Errors (resultOf s)) = [eUninitializedMemoryAccess; eErrorLimitReached].
Proof.
  eexists. split; [vm_compute; reflexivity |].
  repeat split; reflexivity.
Qed.

(** ** Zero tolerance *)

(** C9.  With [eTol = 0] the first test of the loop already holds: nothing is
    fetched or executed, [DI] is 0, registers, memory and heap are those of
    the reset, and the error list is the single [ErrorLimitReached]. *)
Theorem zero_tolerance_runs_nothing rnd fuel swiFuel h startAddr0 mem limit :
  exists r,
    Emulate rnd (S fuel) swiFuel h startAddr0 mem limit 0 = Done r /\
    DI r = 0 /\
    Errors r = [mkError eErrorLimitReached
                  (mkText (Z.land startAddr0 4294967292) 1
                     "maximum of %d errors has been exceeded, stopping emulation" [0])] /\
    Memory r = mem /\
    ResultHeap r = h /\
    Registers r = regs (resetInstance h startAddr0 mem limit) /\
    SWIContext r = CtxNil.
Proof.
  unfold Emulate.
  rewrite emulateLoop_stop.
  - eexists. split; [reflexivity |]. repeat split; reflexivity.
  - unfold stopCondition. cbn. rewrite orb_true_r. reflexivity.
Qed.

(** ** The instruction count of a run *)

(** C4.  Whatever the program, the memory, the draws and the tolerance, a run
    that returns has executed at most [limit + 1] instructions. *)
Theorem di_within_limit rnd fuel swiFuel h startAddr0 mem limit eTol r :
  0 <= limit ->
  Emulate rnd fuel swiFuel h startAddr0 mem limit eTol = Done r ->
  DI r <= limit + 1.
Proof.
  intros Hlimit. unfold Emulate.
  destruct (emulateLoop rnd fuel swiFuel limit eTol (resetInstance h startAddr0 mem limit))
    as [[u s] | |] eqn:Hrun; [| discriminate ..].
  intros H. injection H as <-. cbn [resultOf DI].
  apply emulateLoop_di in Hrun; [lia |]. cbn. lia.
Qed.

(** The bound is reached: [j 0x1000] with [limit = 5] stops at [DI = 6]. *)
Lemma di_within_limit_witness :
  0 <= 5 /\
  exists r,
    runText noDraws loopProgram 5 3 = Done r /\
    map EType (Errors r) = [eRuntimeLimitExceeded] /\
    DI r = 6 /\
    DI r <= 5 + 1.
Proof.
  split; [lia |]. eexists.
  split; [vm_compute; reflexivity |]. split; [reflexivity |]. split; [reflexivity |].
  apply (di_within_limit noDraws 64 64 (imageHeap 4096 loopProgram) 4096
           (imageMem 4096 loopProgram) 5 3); [lia | vm_compute; reflexivity].
Defined.

(** With [limit < 2^32 - 1] and [limit + 2] passes of fuel, [Emulate] runs out
    of fuel only inside an instruction (a scenario generator that keeps
    rejecting its draws): the loop itself ends. *)
Lemma emulate_loop_ends rnd fuel swiFuel h startAddr0 mem limit eTol :
  0 <= limit < 2 ^ 32 - 1 ->
  limit + 1 < Z.of_nat fuel ->
  Emulate rnd fuel swiFuel h startAddr0 mem limit eTol = OutOfFuel ->
  exists s1, emulateStep rnd swiFuel s1 = OutOfFuel.
Proof.
  intros Hlimit Hfuel. unfold Emulate.
  destruct (emulateLoop rnd fuel swiFuel limit eTol (resetInstance h startAddr0 mem limit))
    as [[u s] | |] eqn:Hrun; [discriminate | discriminate |].
  intros _. apply (emulateLoop_bounded rnd fuel swiFuel limit eTol _) in Hrun.
  - exact Hrun.
  - cbn. lia.
  - lia.
  - cbn. lia.
Qed.

(** ** The [.byte] directive *)

Lemma land_high_byte v :
  0 <= v < 2 ^ 32 -> Z.land v 4294967040 = 256 * (v / 256).
Proof.
  intros Hv.
  assert (Hshape : Z.land v 4294967040 = Z.shiftl (Z.shiftr v 8) 8).
  { change 4294967040 with (Z.shiftl (Z.ones 24) 8).
    apply Z.bits_inj'; intros n Hn. tb_solve v n Hv. }
  rewrite Hshape, Z.shiftl_mul_pow2, Z.shiftr_div_pow2 by lia.
  change (2 ^ 8) with 256. lia.
Qed.

(** The overflow test of [.byte] looks at the upper 24 bits of the 32-bit
    word of the literal and at nothing else: a word passes exactly when they
    are all clear or all set, that is when the word read as an [int32] lies in
    [-256, 255]. *)
Lemma byteOverflows_word v :
  0 <= v < 2 ^ 32 ->
  (Assembler.byteOverflows v = false <-> -256 <= toInt32 v <= 255).
Proof.
  intros Hv.
  unfold Assembler.byteOverflows, toInt32.
  rewrite (land_high_byte v Hv).
  pose proof (Z.div_mod v 256 ltac:(lia)) as Hdm.
  pose proof (Z.mod_pos_bound v 256 ltac:(lia)) as Hmod.
  change (2 ^ 31) with 2147483648. change (2 ^ 32) with 4294967296 in *.
  destruct (Z.eqb_spec (256 * (v / 256)) 4294967040) as [Hhi | Hhi];
    destruct (Z.eqb_spec (256 * (v / 256)) 0) as [Hlo | Hlo];
    destruct (Z.ltb_spec v 2147483648) as [Hs | Hs]; cbn [negb andb];
    split; intros H; try discriminate; try reflexivity; try lia.
Qed.

(** C5, where it holds.  [.byte] with -128 and with 255 reports nothing, and
    [.byte 256] reports one overflow error. *)
Example byte_directive_reports :
  dataReports "b: .byte -128" = Some (0, []) /\
  dataReports "b: .byte 255" = Some (0, []) /\
  dataReports "b: .byte 256" = Some (1, [(1, overflowsByte "256")]).
Proof. repeat split; vm_compute; reflexivity. Qed.

(** C5 (the code at the failing input).  [.byte -129] is assembled without
    any error, although -129 does not fit a byte: the literal is the word
    0xFFFFFF7F, whose upper 24 bits are all set, so the test commented
    [//overflow] lets it through, and the byte stored is 0x7F, that is 127. *)
Lemma byte_minus_129_accepted :
  Assembler.getLiteralValue "-129" ∅ = (4294967167, None) /\
  Assembler.byteOverflows 4294967167 = false /\
  exists s,
    assembleOne "b: .byte -129" = Done s /\
    Assembler.numErrors s = 0 /\
    Assembler.reported s = [] /\
    Assembler.memory (Assembler.retMem s) = [127].
Proof.
  split; [vm_compute; reflexivity |]. split; [reflexivity |].
  eexists. split; [vm_compute; reflexivity |]. repeat split; reflexivity.
Qed.

(** ** The [.word] directive *)

(** C6 (the code at the failing input).  [x: .word 1] with the data section at
    0x8000: [x] is bound to 0x8000, but [currentAddr] becomes
    0x7FFF + 0x8000 = 0xFFFF, the image grows to 8192 words, and the value is
    or-ed, shifted by 24 bits, into the last of them; the word at the label
    stays 0. *)
Lemma word_directive_misplaces_value :
  exists s,
    assembleOne "x: .word 1" = Done s /\
    Assembler.labels s !! "x"%string = Some 32768 /\
    Assembler.currentAddr s = 65535 /\
    Assembler.numErrors s = 0 /\
    Assembler.memory (Assembler.retMem s) = replicate (Z.to_nat 8191) 0 ++ [16777216].
Proof.
  eexists. split; [vm_compute; reflexivity |].
  repeat split; vm_compute; reflexivity.
Qed.

(** * Further properties of the code *)

(** ** Decoding what the assembler encodes *)

Lemma testbit_above v k n : 0 <= v < 2 ^ k -> 0 <= k <= n -> Z.testbit v n = false.
Proof.
  intros Hv Hn. destruct (Z.eq_dec v 0) as [-> | Hne]; [apply Z.bits_0 |].
  apply Z.bits_above_log2; [lia |].
  assert (Z.log2 v < k) by (apply Z.log2_lt_pow2; lia). lia.
Qed.

(** Bits of several fields: atoms above a field's width or below 0 are
    false, the others are brought to the bit [n] they are compared at. *)
Ltac tb_fields n :=
  repeat match goal with
  | |- context [Z.testbit 0 ?e] => rewrite (Z.bits_0 e)
  | H : 0 <= ?v < 2 ^ ?k |- context [Z.testbit ?v ?e] =>
      rewrite (testbit_above v k e H) by lia
  | |- context [Z.testbit ?v ?e] => rewrite (Z.testbit_neg_r v e) by lia
  | |- context [Z.testbit ?v ?e] =>
      lazymatch e with n => fail | _ => replace e with n by lia end
  end.

Ltac tb_bool :=
  repeat first [ rewrite andb_true_r | rewrite andb_false_r
               | rewrite orb_false_r | rewrite orb_true_r ];
  cbn [andb orb].

Ltac tb_decide n :=
  apply Z.bits_inj'; intros n ?;
  tb_push; tb_split; cbn [andb orb]; tb_fields n; tb_bool;
  try reflexivity.

(** X1.  an R-type word built by [formRInstruction] from fields of the right
    widths decodes to those fields. *)
Theorem decode_formR rs rt rd shift funct :
  0 <= rs < 2 ^ 5 -> 0 <= rt < 2 ^ 5 -> 0 <= rd < 2 ^ 5 ->
  0 <= shift < 2 ^ 5 -> 0 <= funct < 2 ^ 6 ->
  decodeInstruction (formRInstruction 0 rs rt rd shift funct)
  = mkDecoded 0 rs rt rd shift funct.
Proof.
  intros Hrs Hrt Hrd Hsh Hfn.
  unfold decodeInstruction, formRInstruction.
  change (u32 (Z.shiftl (u32 0) 26)) with 0. rewrite !u32_land.
  set (w := Z.lor _ _).
  assert (Hop : Z.shiftr w 26 = 0) by (unfold w; tb_decide n).
  rewrite Hop. cbn [Z.eqb].
  change 31 with (Z.ones 5). change 63 with (Z.ones 6).
  f_equal; unfold w; tb_decide n.
Qed.

(** X2.  an I-type word built by [formIInstruction] decodes to its opcode, its
    two registers and the low 16 bits of its immediate. *)
Theorem decode_formI op rs rt imm :
  0 <= op < 2 ^ 6 -> op <> 0 -> op <> opJ -> op <> opJAL ->
  0 <= rs < 2 ^ 5 -> 0 <= rt < 2 ^ 5 ->
  decodeInstruction (formIInstruction op rs rt imm)
  = mkDecoded op rt 0 rs (Z.land imm 65535) 0.
Proof.
  intros Hop H0 HJ HJAL Hrs Hrt.
  unfold decodeInstruction, formIInstruction.
  rewrite !u32_land. change 65535 with (Z.ones 16).
  set (w := Z.lor _ _).
  assert (Hw : Z.shiftr w 26 = op) by (unfold w; tb_decide n).
  rewrite Hw.
  destruct (Z.eqb_spec op 0) as [? | _]; [contradiction |].
  destruct (Z.eqb_spec op opJ) as [? | _]; [contradiction |].
  destruct (Z.eqb_spec op opJAL) as [? | _]; [contradiction |].
  cbn [orb]. change 31 with (Z.ones 5).
  f_equal; unfold w; tb_decide n.
Qed.

(** X3.  a [J] or [JAL] word built by [formJInstruction] from a 26-bit address
    decodes to the opcode and the address. *)
Theorem decode_formJ op addr :
  op = opJ \/ op = opJAL -> 0 <= addr < 2 ^ 26 ->
  decodeInstruction (formJInstruction op addr) = mkDecoded op 0 0 0 addr 0.
Proof.
  intros Hop Haddr.
  assert (Hop6 : 0 <= op < 2 ^ 6) by (unfold opJ, opJAL in Hop; lia).
  unfold decodeInstruction, formJInstruction.
  rewrite !u32_land. change 67108863 with (Z.ones 26).
  set (w := Z.lor _ _).
  assert (Hw : Z.shiftr w 26 = op) by (unfold w; tb_decide n).
  rewrite Hw.
  destruct (Z.eqb_spec op 0) as [? | _]; [unfold opJ, opJAL in Hop; lia |].
  assert (Hj : (op =? opJ) || (op =? opJAL) = true).
  { destruct Hop as [-> | ->]; reflexivity. }
  rewrite Hj. f_equal. unfold w. tb_decide n.
Qed.

(** ** Arithmetic of the instructions *)

(** ADDI/ADDIU: the immediate is sign-extended from 16 bits. *)
Lemma signExtend16_spec imm :
  0 <= imm < 2 ^ 16 ->
  signExtend16 imm = if imm <? 2 ^ 15 then imm else imm + (2 ^ 32 - 2 ^ 16).
Proof.
  intros Himm. unfold signExtend16, toInt32, u32.
  rewrite Z.shiftl_mul_pow2 by lia.
  rewrite (Z.mod_small (imm * 2 ^ 16)) by lia.
  destruct (Z.ltb_spec imm (2 ^ 15)) as [Hlo | Hhi].
  - destruct (Z.ltb_spec (imm * 2 ^ 16) (2 ^ 31)) as [_ | ?]; [| lia].
    rewrite Z.shiftr_div_pow2 by lia.
    rewrite Z.div_mul by lia. apply Z.mod_small. lia.
  - destruct (Z.ltb_spec (imm * 2 ^ 16) (2 ^ 31)) as [? | _]; [lia |].
    rewrite Z.shiftr_div_pow2 by lia.
    replace (imm * 2 ^ 16 - 2 ^ 32) with ((imm - 2 ^ 16) * 2 ^ 16) by lia.
    rewrite Z.div_mul by lia.
    replace (imm - 2 ^ 16) with (imm + (2 ^ 32 - 2 ^ 16) + (-1) * 2 ^ 32) by lia.
    rewrite Z.mod_add by lia. apply Z.mod_small. lia.
Qed.

(** The two products of MULT and MULTU have the same halves. *)
Lemma mult_halves a b :
  u32 (Z.shiftr (toInt64 (a * b)) 32) = u32 (Z.shiftr (u64 (a * b)) 32) /\
  u32 (toInt64 (a * b)) = u32 (u64 (a * b)).
Proof.
  unfold toInt64, u64, u32. set (y := (a * b) mod 2 ^ 64).
  assert (Hy : 0 <= y < 2 ^ 64) by (apply Z.mod_pos_bound; lia).
  destruct (y <? 2 ^ 63); [split; reflexivity |].
  rewrite !Z.shiftr_div_pow2 by lia. split.
  - replace (y - 2 ^ 64) with (y + (- 2 ^ 32) * 2 ^ 32) by lia.
    rewrite Z.div_add by lia.
    replace (y / 2 ^ 32 + - 2 ^ 32) with (y / 2 ^ 32 + (-1) * 2 ^ 32) by lia.
    apply Z.mod_add. lia.
  - replace (y - 2 ^ 64) with (y + (- 2 ^ 32) * 2 ^ 32) by lia.
    apply Z.mod_add. lia.
Qed.

(** X5.  [mult] leaves in HI and LO what [multu] leaves: [int64(uint32)] does
    not sign-extend its operands. *)
Theorem mult_is_unsigned x y z shift s :
  executeRType x y z fnMULT shift s = executeRType x y z fnMULTU shift s.
Proof.
  unfold executeRType. cbn [Z.eqb fnMULT fnMULTU fnADD fnADDU fnAND fnDIV fnDIVU fnJR fnMFHI fnMFLO Pos.eqb].
  unfold mbind, StateM_bind.
  destruct (regAccess x s) as [[a s1] | |]; [| reflexivity ..].
  destruct (regAccess y s1) as [[b s2] | |]; [| reflexivity ..].
  destruct (mult_halves a b) as [-> ->]. reflexivity.
Qed.

(** ** Registers *)

Lemma land_one x : Z.land x 1 = Z.b2z (Z.testbit x 0).
Proof.
  replace (Z.land x 1) with (Z.land x (Z.ones 1)) by reflexivity.
  rewrite Z.land_ones by lia. rewrite Z.bit0_mod. reflexivity.
Qed.

Lemma pow2_reg reg : 0 <= reg < 32 -> u32 (Z.shiftl 1 reg) = Z.shiftl 1 reg.
Proof.
  intros Hreg. apply u32_id. rewrite Z.shiftl_mul_pow2 by lia.
  assert (2 ^ reg < 2 ^ 32) by (apply Z.pow_lt_mono_r; lia).
  assert (0 < 2 ^ reg) by (apply Z.pow_pos_nonneg; lia). lia.
Qed.

Lemma testbit_one n : 0 <= n -> Z.testbit 1 n = (n =? 0).
Proof.
  intros Hn. destruct (Z.eqb_spec n 0) as [-> | Hne]; [reflexivity |].
  apply Z.bits_above_log2; cbn; lia.
Qed.

Lemma bit_of_lor_shiftl ri reg r :
  0 <= reg < 32 -> 0 <= r ->
  Z.land (Z.shiftr (Z.lor ri (u32 (Z.shiftl 1 reg))) r) 1
  = if r =? reg then 1 else Z.land (Z.shiftr ri r) 1.
Proof.
  intros Hreg Hr. rewrite pow2_reg by exact Hreg. rewrite !land_one.
  rewrite !Z.shiftr_spec by lia. rewrite Z.lor_spec. rewrite !Z.add_0_l.
  destruct (Z.eqb_spec r reg) as [-> | Hne].
  - rewrite Z.shiftl_spec by lia. replace (reg - reg) with 0 by lia.
    change (Z.testbit 1 0) with true. rewrite orb_true_r. reflexivity.
  - replace (Z.testbit (Z.shiftl 1 reg) r) with false; [rewrite orb_false_r; reflexivity |].
    symmetry. destruct (Z.ltb_spec r reg).
    + apply Z.shiftl_spec_low. lia.
    + rewrite Z.shiftl_spec by lia. rewrite testbit_one by lia.
      apply Z.eqb_neq. lia.
Qed.

(** [regAccess] changes nothing but the error list. *)
Lemma regAccess_frame reg s a s' :
  regAccess reg s = Done (a, s') ->
  regs s' = regs s /\ regInit s' = regInit s /\ heap s' = heap s /\
  sysMemory s' = sysMemory s /\ pc s' = pc s.
Proof.
  unfold regAccess. intros H. run_inv.
  destruct (negb _) in H; run_inv.
  - repeat split; reflexivity.
  - destruct (ix (regs s) reg); [| discriminate].
    injection H as _ <-. repeat split; reflexivity.
Qed.

Lemma regAccess_fuel reg s : regAccess reg s <> OutOfFuel.
Proof.
  unfold regAccess, mbind, StateM_bind, gets.
  destruct (negb _); [discriminate |].
  destruct (ix (regs s) reg); discriminate.
Qed.

(** A write to a register 1..31. *)
Lemma regWrite_run reg data s :
  1 <= reg < 32 -> length (regs s) = 32%nat ->
  regWrite reg data s
  = Done (tt, setRegs (<[Z.to_nat reg := data]> (regs s))
                (setRegInit (Z.lor (regInit s) (u32 (Z.shiftl 1 reg))) s)).
Proof.
  intros Hreg Hlen.
  unfold regWrite. destruct (Z.eqb_spec reg 0) as [? | _]; [lia |].
  unfold mbind, StateM_bind, gets, modify. cbn [regs setRegInit].
  rewrite setIx_insert by lia. reflexivity.
Qed.

(** The read of a register just written. *)
Lemma regAccess_written reg data s :
  1 <= reg < 32 -> length (regs s) = 32%nat ->
  regAccess reg (setRegs (<[Z.to_nat reg := data]> (regs s))
                   (setRegInit (Z.lor (regInit s) (u32 (Z.shiftl 1 reg))) s))
  = Done (data, setRegs (<[Z.to_nat reg := data]> (regs s))
                  (setRegInit (Z.lor (regInit s) (u32 (Z.shiftl 1 reg))) s)).
Proof.
  intros Hreg Hlen.
  unfold regAccess, mbind, StateM_bind, gets. cbn [regInit regs setRegs setRegInit].
  rewrite bit_of_lor_shiftl by lia. rewrite Z.eqb_refl. cbn [Z.eqb Pos.eqb negb].
  cbn [regs setRegs].
  rewrite ix_lookup by lia. rewrite list_lookup_insert_eq by lia. reflexivity.
Qed.

(** X6.  a register written is read back, with no error, and the other
    registers read as before. *)
Theorem regWrite_then_regAccess reg data s :
  1 <= reg < 32 -> length (regs s) = 32%nat ->
  exists s1,
    regWrite reg data s = Done (tt, s1) /\
    regAccess reg s1 = Done (data, s1) /\
    errors s1 = errors s /\
    forall r, 0 <= r < 32 -> r <> reg ->
      ix (regs s1) r = ix (regs s) r /\
      Z.land (Z.shiftr (regInit s1) r) 1 = Z.land (Z.shiftr (regInit s) r) 1.
Proof.
  intros Hreg Hlen.
  exists (setRegs (<[Z.to_nat reg := data]> (regs s))
            (setRegInit (Z.lor (regInit s) (u32 (Z.shiftl 1 reg))) s)).
  split; [| split; [| split]].
  - exact (regWrite_run reg data s Hreg Hlen).
  - exact (regAccess_written reg data s Hreg Hlen).
  - reflexivity.
  - intros r Hr Hne. cbn [regs regInit setRegs setRegInit]. split.
    + rewrite !ix_lookup by lia. apply list_lookup_insert_ne. lia.
    + rewrite bit_of_lor_shiftl by lia.
      destruct (Z.eqb_spec r reg); [contradiction | reflexivity].
Qed.

(** A write to register 0 only reports the error. *)
Lemma regWrite_zero data s :
  regWrite 0 data s
  = Done (tt, setErrors (errors s ++
        [mkError eIllegalRegisterWrite
           (mkText (pc s) (u32 (di s + 1)) "$0 is immutable and cannot be written to" [])]) s).
Proof. reflexivity. Qed.

(** X7.  [div] and [divu] by a zero divisor, be it an initialized register
    holding 0 or an uninitialized register (read as 0), panic. *)
Theorem division_by_zero_panics x y z fn shift s :
  fn = fnDIV \/ fn = fnDIVU ->
  negb (Z.land (Z.shiftr (regInit s) y) 1 =? 1) = true \/ ix (regs s) y = Some 0 ->
  executeRType x y z fn shift s = Panic.
Proof.
  intros Hfn Hy.
  assert (Hzero : forall s1, regs s1 = regs s -> regInit s1 = regInit s ->
            regAccess y s1 = Panic \/ exists s2, regAccess y s1 = Done (0, s2)).
  { intros s1 Hr Hi. unfold regAccess, mbind, StateM_bind, gets. rewrite Hi.
    destruct (negb (Z.land (Z.shiftr (regInit s) y) 1 =? 1)) eqn:Hbit.
    - right. eexists. reflexivity.
    - destruct Hy as [Hy | Hy]; [discriminate |]. rewrite Hr, Hy.
      right. eexists. reflexivity. }
  unfold executeRType.
  destruct Hfn as [-> | ->]; cbn [Z.eqb fnDIV fnDIVU fnADD fnADDU fnAND Pos.eqb];
    unfold mbind at 1, StateM_bind at 1;
    (destruct (regAccess x s) as [[a s1] | |] eqn:Hx;
       [| reflexivity | exfalso; exact (regAccess_fuel x s Hx)]);
    apply regAccess_frame in Hx as (Hr & Hi & _);
    unfold mbind at 1, StateM_bind at 1;
    (destruct (Hzero s1 Hr Hi) as [-> | [s2 ->]]; reflexivity).
Qed.

(** ** Invariants of instruction execution *)

Section Preserved.

Variable P : instance -> Prop.

Lemma preserves_ret {A : Type} (a : A) : preserves P (ret a).
Proof. intros s a' s' HP H. injection H as _ <-. exact HP. Qed.

Lemma preserves_bind {A B : Type} (m : Run A) (k : A -> Run B) :
  preserves P m -> (forall a, preserves P (k a)) -> preserves P (m ≫= k).
Proof.
  intros Hm Hk s b s' HP H. apply bind_Done in H as (a & s1 & H1 & H2).
  exact (Hk a _ _ _ (Hm _ _ _ HP H1) H2).
Qed.

Lemma preserves_gets {A : Type} (f : instance -> A) : preserves P (gets f).
Proof. intros s a s' HP H. injection H as _ <-. exact HP. Qed.

Lemma preserves_modify (f : instance -> instance) :
  (forall s, P s -> P (f s)) -> preserves P (modify f).
Proof. intros Hf s a s' HP H. injection H as H. subst s'. apply Hf. exact HP. Qed.

Lemma preserves_panic {A : Type} : preserves P (@panic instance A).
Proof. intros s a s' _ H. discriminate. Qed.

Lemma preserves_outOfFuel {A : Type} : preserves P (@outOfFuel instance A).
Proof. intros s a s' _ H. discriminate. Qed.

Lemma preserves_orPanic {A : Type} (o : option A) : preserves P (orPanic o).
Proof. destruct o; [apply preserves_ret | apply preserves_panic]. Qed.

(** What [P] must tolerate: an instruction's error, a register write, and a
    change of any field but the registers and their bitmap. *)
Hypothesis P_error : forall e s,
  instructionError (EType e) = true -> P s -> P (setErrors (errors s ++ [e]) s).
Hypothesis P_regWrite : forall reg data, preserves P (regWrite reg data).
Hypothesis P_heap : forall h s, P s -> P (setHeap h s).
Hypothesis P_sysMemory : forall m s, P s -> P (setSysMemory m s).
Hypothesis P_iCache : forall p s, P s -> P (setICache p s).
Hypothesis P_dCache : forall p s, P s -> P (setDCache p s).
Hypothesis P_dMissed : forall b s, P s -> P (setDMissed b s).
Hypothesis P_rngDraws : forall n s, P s -> P (setRngDraws n s).
Hypothesis P_pc : forall v s, P s -> P (setPc v s).
Hypothesis P_hiLo : forall h l s, P s -> P (setHiLo h l s).
Hypothesis P_hiLoFilled : forall b s, P s -> P (setHiLoFilled b s).
Hypothesis P_swiContext : forall c s, P s -> P (setSwiContext c s).
Hypothesis P_di : forall v s, P s -> P (setDi v s).

Lemma reportError_preserves e f a :
  instructionError e = true -> preserves P (reportError e f a).
Proof.
  intros He. unfold reportError. apply preserves_modify. intros s HP.
  apply (P_error (mkError e _)); [exact He | exact HP].
Qed.

Create HintDb pres_db.

Ltac pres_step :=
  match goal with
  | |- preserves _ (mbind _ _) => apply preserves_bind
  | |- preserves _ (ret _) => apply preserves_ret
  | |- preserves _ (gets _) => apply preserves_gets
  | |- preserves _ (reportError _ _ _) => apply reportError_preserves; reflexivity
  | |- preserves _ (regWrite _ _) => apply P_regWrite
  | |- preserves _ (modify _) =>
      apply preserves_modify; intros ? ?; cbv beta;
      first [ apply P_heap | apply P_sysMemory | apply P_iCache | apply P_dCache
            | apply P_dMissed | apply P_rngDraws | apply P_pc | apply P_hiLo
            | apply P_hiLoFilled | apply P_swiContext | apply P_di ];
      assumption
  | |- preserves _ panic => apply preserves_panic
  | |- preserves _ outOfFuel => apply preserves_outOfFuel
  | |- preserves _ (orPanic _) => apply preserves_orPanic
  | |- preserves _ (if ?b then _ else _) => destruct b
  | |- preserves _ (match ?x with _ => _ end) => destruct x
  | |- preserves _ _ => solve [auto with pres_db]
  | |- forall _, _ => intro
  end.

Ltac pres_tac := repeat pres_step.

Lemma sliceGet_preserves sl i : preserves P (sliceGet sl i).
Proof. unfold sliceGet. pres_tac. Qed.
#[local] Hint Resolve sliceGet_preserves : pres_db.
Lemma sliceSet_preserves sl i v : preserves P (sliceSet sl i v).
Proof. unfold sliceSet. pres_tac. Qed.
#[local] Hint Resolve sliceSet_preserves : pres_db.
Lemma makeSlice_preserves n : preserves P (makeSlice n).
Proof. unfold makeSlice. pres_tac. Qed.
#[local] Hint Resolve makeSlice_preserves : pres_db.
Lemma memAccess_preserves a b : preserves P (memAccess a b).
Proof. unfold memAccess. pres_tac. Qed.
#[local] Hint Resolve memAccess_preserves : pres_db.
Lemma pageWrite_preserves p a d m : preserves P (pageWrite p a d m).
Proof. unfold pageWrite. pres_tac. Qed.
#[local] Hint Resolve pageWrite_preserves : pres_db.
Lemma memWrite_preserves a d m : preserves P (memWrite a d m).
Proof. unfold memWrite. pres_tac. Qed.
#[local] Hint Resolve memWrite_preserves : pres_db.
Lemma regInitialized_preserves r : preserves P (regInitialized r).
Proof. unfold regInitialized. pres_tac. Qed.
Lemma regAccess_preserves r : preserves P (regAccess r).
Proof. unfold regAccess. pres_tac. Qed.
#[local] Hint Resolve regInitialized_preserves regAccess_preserves : pres_db.

Variable rnd : nat -> Z.

Lemma Intn_preserves n : preserves P (Intn rnd n).
Proof. unfold Intn. pres_tac. Qed.
#[local] Hint Resolve Intn_preserves : pres_db.
Lemma randSeed_preserves : preserves P randSeed.
Proof. unfold randSeed. pres_tac. Qed.
#[local] Hint Resolve randSeed_preserves : pres_db.
Lemma genSquare_preserves fuel : preserves P (genSquare rnd fuel).
Proof. induction fuel; cbn [genSquare]; pres_tac. Qed.
#[local] Hint Resolve genSquare_preserves : pres_db.
Lemma genSolution_preserves p : preserves P (genSolution rnd p).
Proof. unfold genSolution. pres_tac. Qed.
#[local] Hint Resolve genSolution_preserves : pres_db.
Lemma genDummy_preserves fuel p a i w : preserves P (genDummy rnd fuel p a i w).
Proof. revert p a i w. induction fuel; intros; cbn [genDummy]; pres_tac. Qed.
#[local] Hint Resolve genDummy_preserves : pres_db.
Lemma genDummies_preserves fuel p a slots : preserves P (genDummies rnd fuel p a slots).
Proof. revert p. induction slots; intros; cbn [genDummies]; pres_tac. Qed.
#[local] Hint Resolve genDummies_preserves : pres_db.
Lemma swi582_preserves fuel : preserves P (swi582 rnd fuel).
Proof. unfold swi582. pres_tac. Qed.
Lemma swi583_preserves : preserves P swi583.
Proof. unfold swi583. pres_tac. Qed.
#[local] Hint Resolve swi582_preserves swi583_preserves : pres_db.
Lemma hLineAttempts_preserves n p l a b c d e : preserves P (hLineAttempts rnd n p l a b c d e).
Proof. revert p l. induction n; intros; cbn [hLineAttempts]; pres_tac. Qed.
#[local] Hint Resolve hLineAttempts_preserves : pres_db.
Lemma hLineLoop_preserves n p l a b c d e : preserves P (hLineLoop rnd n p l a b c d e).
Proof. revert p l. induction n; intros; cbn [hLineLoop]; pres_tac. Qed.
#[local] Hint Resolve hLineLoop_preserves : pres_db.
Lemma vLineAttempts_preserves n p l a b c d e : preserves P (vLineAttempts rnd n p l a b c d e).
Proof. revert p l. induction n; intros; cbn [vLineAttempts]; pres_tac. Qed.
#[local] Hint Resolve vLineAttempts_preserves : pres_db.
Lemma vLineLoop_preserves n p l a b c d e : preserves P (vLineLoop rnd n p l a b c d e).
Proof. revert p l. induction n; intros; cbn [vLineLoop]; pres_tac. Qed.
#[local] Hint Resolve vLineLoop_preserves : pres_db.
Lemma generatePart_preserves p c t : preserves P (generatePart rnd p c t).
Proof. unfold generatePart. pres_tac. Qed.
#[local] Hint Resolve generatePart_preserves : pres_db.
Lemma pickColor_preserves fuel colors i : preserves P (pickColor rnd fuel colors i).
Proof. induction fuel; cbn [pickColor]; pres_tac. Qed.
#[local] Hint Resolve pickColor_preserves : pres_db.
Lemma pickColors_preserves fuel colors slots : preserves P (pickColors rnd fuel colors slots).
Proof. revert colors. induction slots; intros; cbn [pickColors]; pres_tac. Qed.
#[local] Hint Resolve pickColors_preserves : pres_db.
Lemma generateParts_preserves p colors : preserves P (generateParts rnd p colors).
Proof. revert p. induction colors; intros; cbn [generateParts]; pres_tac. Qed.
#[local] Hint Resolve generateParts_preserves : pres_db.
Lemma generatePile_preserves fuel p : preserves P (generatePile rnd fuel p).
Proof. unfold generatePile. pres_tac. Qed.
#[local] Hint Resolve generatePile_preserves : pres_db.
Lemma generateField_preserves fuel p i : preserves P (generateField rnd fuel p i).
Proof. revert p i. induction fuel; intros; cbn [generateField]; pres_tac. Qed.
#[local] Hint Resolve generateField_preserves : pres_db.
Lemma storePile_preserves m p slots : preserves P (storePile m p slots).
Proof. induction slots; cbn [storePile]; pres_tac. Qed.
#[local] Hint Resolve storePile_preserves : pres_db.
Lemma swi598_preserves fuel : preserves P (swi598 rnd fuel).
Proof. unfold swi598. pres_tac. Qed.
Lemma swi599_preserves : preserves P swi599.
Proof. unfold swi599. pres_tac. Qed.
#[local] Hint Resolve swi598_preserves swi599_preserves : pres_db.
Lemma dispatchSoftwareInterrupt_preserves fuel c :
  preserves P (dispatchSoftwareInterrupt rnd fuel c).
Proof. unfold dispatchSoftwareInterrupt. pres_tac. Qed.
#[local] Hint Resolve dispatchSoftwareInterrupt_preserves : pres_db.
Lemma shiftAmount_preserves y : preserves P (shiftAmount y).
Proof. unfold shiftAmount. pres_tac. Qed.
#[local] Hint Resolve shiftAmount_preserves : pres_db.
Lemma executeRType_preserves x y z fn sh : preserves P (executeRType x y z fn sh).
Proof. unfold executeRType. pres_tac. Qed.
Lemma executeIType_preserves fuel op x z imm :
  preserves P (executeIType rnd fuel op x z imm).
Proof. unfold executeIType. pres_tac. Qed.
Lemma executeJType_preserves op imm : preserves P (executeJType op imm).
Proof. unfold executeJType. pres_tac. Qed.
#[local] Hint Resolve executeRType_preserves executeIType_preserves executeJType_preserves : pres_db.

Lemma emulateStep_preserves swiFuel : preserves P (emulateStep rnd swiFuel).
Proof. unfold emulateStep. pres_tac. Qed.

End Preserved.

(** ** What a run leaves in the registers and in the error list *)

Lemma emulateLoop_preserves (P : instance -> Prop) rnd fuel swiFuel limit eTol :
  (forall e s, P s -> P (setErrors (errors s ++ [e]) s)) ->
  (forall swiFuel, preserves P (emulateStep rnd swiFuel)) ->
  preserves P (emulateLoop rnd fuel swiFuel limit eTol).
Proof.
  intros Herr Hstep. induction fuel as [| fuel IH]; cbn [emulateLoop].
  - apply preserves_outOfFuel.
  - apply preserves_bind; [apply preserves_gets |]. intros stop. destruct stop.
    + unfold stopReport.
      apply preserves_bind; [apply preserves_gets |]. intros errs.
      apply preserves_bind; [apply preserves_gets |]. intros d.
      destruct (_ >=? _); [| destruct (_ >? _)].
      * apply preserves_modify. intros s HP. apply Herr. exact HP.
      * apply preserves_modify. intros s HP. apply Herr. exact HP.
      * apply preserves_ret.
    + apply preserves_bind; [apply Hstep | intros _; exact IH].
Qed.

Lemma regWrite_regFileOk reg data : preserves regFileOk (regWrite reg data).
Proof.
  intros s a s' (Hlen & H0 & Hb0 & Hb29 & Hb31) H. unfold regWrite in H.
  destruct (Z.eqb_spec reg 0) as [-> | Hne].
  - apply reportError_Done in H as ->. repeat split; assumption.
  - apply bind_Done in H as (ri & s1 & H1 & H). apply gets_Done in H1 as [-> ->].
    apply bind_Done in H as (u1 & s1 & H1 & H). apply modify_Done in H1 as ->.
    apply bind_Done in H as (r & s1 & H1 & H). apply gets_Done in H1 as [-> ->].
    cbn [regs setRegInit] in H.
    unfold setIx in H. destruct (Z.ltb_spec reg 0) as [? | Hpos]; [discriminate |].
    destruct (reg <? Z.of_nat (length (regs s))); [| discriminate].
    apply bind_Done in H as (r' & s1 & H1 & H). injection H1 as <- <-.
    apply modify_Done in H as ->. unfold regFileOk.
    cbn [regs regInit setRegs setRegInit].
    repeat split.
    + rewrite length_insert. exact Hlen.
    + rewrite ix_lookup in * by lia. rewrite list_lookup_insert_ne by lia. exact H0.
    + rewrite Z.lor_spec, Hb0. reflexivity.
    + rewrite Z.lor_spec, Hb29. reflexivity.
    + rewrite Z.lor_spec, Hb31. reflexivity.
Qed.

Lemma emulateStep_regFileOk rnd swiFuel : preserves regFileOk (emulateStep rnd swiFuel).
Proof.
  apply emulateStep_preserves;
    [ intros e s _ H; exact H | apply regWrite_regFileOk
    | intros; assumption .. ].
Qed.

(** X8.  in the result of every run, register 0 reads (0, true), registers 29
    and 31 read as initialized, and the register file has its 32 entries. *)
Theorem result_registers rnd fuel swiFuel h startAddr0 mem limit eTol r :
  Emulate rnd fuel swiFuel h startAddr0 mem limit eTol = Done r ->
  length (Registers r) = 32%nat /\
  regRead r 0 = Some (0, true) /\
  (exists sp, regRead r 29 = Some (sp, true)) /\
  (exists ra, regRead r 31 = Some (ra, true)).
Proof.
  unfold Emulate.
  destruct (emulateLoop rnd fuel swiFuel limit eTol (resetInstance h startAddr0 mem limit))
    as [[u s] | |] eqn:Hrun; [| discriminate ..].
  intros H. injection H as <-.
  assert (Hok : regFileOk s).
  { refine (emulateLoop_preserves regFileOk rnd fuel swiFuel limit eTol _ _ _ _ _ _ Hrun).
    - intros e s0 H. exact H.
    - intros f. apply emulateStep_regFileOk.
    - repeat split; reflexivity. }
  destruct Hok as (Hlen & H0 & Hb0 & Hb29 & Hb31).
  assert (Hbit : forall k, 0 <= k -> Z.testbit (regInit s) k = true ->
            negb (Z.land (Z.shiftr (regInit s) k) 1 =? 1) = false).
  { intros k Hk Hb. rewrite land_one, Z.shiftr_spec, Z.add_0_l, Hb by lia. reflexivity. }
  unfold regRead. cbn [resultOf Registers RegInit].
  rewrite !Hbit by (assumption || lia). rewrite H0.
  split; [exact Hlen |]. split; [reflexivity |].
  split.
  - destruct (lookup_lt_is_Some_2 (regs s) 29%nat ltac:(lia)) as [v Hv].
    exists v. rewrite ix_lookup by lia. change (Z.to_nat 29) with 29%nat.
    rewrite Hv. reflexivity.
  - destruct (lookup_lt_is_Some_2 (regs s) 31%nat ltac:(lia)) as [v Hv].
    exists v. rewrite ix_lookup by lia. change (Z.to_nat 31) with 31%nat.
    rewrite Hv. reflexivity.
Qed.

Lemma regWrite_cleanErrors reg data : preserves cleanErrors (regWrite reg data).
Proof.
  intros s a s' Hc H. unfold regWrite in H. destruct (reg =? 0).
  - apply reportError_Done in H as ->. unfold cleanErrors. cbn [errors setErrors].
    apply Forall_app. split; [exact Hc |]. repeat constructor.
  - apply bind_Done in H as (ri & s1 & H1 & H). apply gets_Done in H1 as [-> ->].
    apply bind_Done in H as (u1 & s1 & H1 & H). apply modify_Done in H1 as ->.
    apply bind_Done in H as (r & s1 & H1 & H). apply gets_Done in H1 as [-> ->].
    apply bind_Done in H as (r' & s1 & H1 & H).
    destruct (setIx _ _ _) in H1; [| discriminate]. injection H1 as _ <-.
    apply modify_Done in H as ->. exact Hc.
Qed.

Lemma emulateStep_cleanErrors rnd swiFuel : preserves cleanErrors (emulateStep rnd swiFuel).
Proof.
  apply emulateStep_preserves;
    [ | apply regWrite_cleanErrors | intros; assumption .. ].
  intros e s He Hc. unfold cleanErrors. cbn [errors setErrors].
  apply Forall_app. split; [exact Hc |]. constructor; [exact He | constructor].
Qed.

(** A run that returns has stopped in a state where the stop test holds; all
    errors before that are instruction errors and the stop appends its own. *)
Lemma emulateLoop_exit rnd fuel swiFuel limit eTol s u s' :
  cleanErrors s -> 0 <= di s <= limit + 1 ->
  emulateLoop rnd fuel swiFuel limit eTol s = Done (u, s') ->
  exists s0,
    cleanErrors s0 /\ 0 <= di s0 <= limit + 1 /\
    stopCondition limit eTol s0 = true /\
    s' = setErrors (errors s0 ++ stopErrors limit eTol s0) s0.
Proof.
  revert s. induction fuel as [| fuel IH]; intros s Hc Hdi H; [discriminate |].
  destruct (stopCondition limit eTol s) eqn:Hstop.
  - rewrite emulateLoop_stop in H by exact Hstop. injection H as _ <-.
    exists s. repeat split; assumption || lia.
  - cbn [emulateLoop] in H. unfold mbind at 1, StateM_bind at 1, gets in H.
    rewrite Hstop in H.
    apply bind_Done in H as (u1 & s1 & H1 & H).
    apply (IH s1); [| | exact H].
    + exact (emulateStep_cleanErrors rnd swiFuel _ _ _ Hc H1).
    + apply emulateStep_di in H1.
      unfold stopCondition in Hstop. apply orb_false_iff in Hstop as [_ Hgt].
      rewrite H1. unfold u32.
      pose proof (Z.mod_pos_bound (di s + 1) (2 ^ 32) ltac:(lia)).
      pose proof (Z.mod_le (di s + 1) (2 ^ 32) ltac:(lia) ltac:(lia)).
      lia.
Qed.

(** X9.  how a run ends.  The error list of a result is a list of instruction
    errors followed by what the stop appended: nothing, and then the error
    count is below [eTol] and [DI <= limit]; or [ErrorLimitReached], and then
    the count has reached [eTol]; or [RuntimeLimitExceeded], and then the
    count is below [eTol] and [DI = limit + 1]. *)
Theorem result_errors rnd fuel swiFuel h startAddr0 mem limit eTol r :
  0 <= limit ->
  Emulate rnd fuel swiFuel h startAddr0 mem limit eTol = Done r ->
  exists errs tail,
    Errors r = errs ++ tail /\
    Forall (fun e => instructionError (EType e) = true) errs /\
    ((tail = [] /\ Z.of_nat (length errs) < eTol /\ DI r <= limit) \/
     (map EType tail = [eErrorLimitReached] /\ eTol <= Z.of_nat (length errs)) \/
     (map EType tail = [eRuntimeLimitExceeded] /\ Z.of_nat (length errs) < eTol /\
      DI r = limit + 1)).
Proof.
  intros Hlimit. unfold Emulate.
  destruct (emulateLoop rnd fuel swiFuel limit eTol (resetInstance h startAddr0 mem limit))
    as [[u s] | |] eqn:Hrun; [| discriminate ..].
  intros H. injection H as <-.
  apply emulateLoop_exit in Hrun as (s0 & Hc & Hdi & Hstop & ->).
  2: constructor.
  2: cbn; lia.
  exists (errors s0), (stopErrors limit eTol s0).
  cbn [resultOf Errors DI errors di setErrors].
  split; [reflexivity |]. split; [exact Hc |].
  unfold stopErrors.
  destruct (Z.geb_spec (Z.of_nat (length (errors s0))) eTol) as [Hge | Hlt].
  - right. left. split; [reflexivity | lia].
  - destruct (Z.gtb_spec (di s0) limit) as [Hgt | Hle].
    + right. right. repeat split; [lia | lia].
    + left. repeat split; [lia | lia].
Qed.

(** ** Memory as the page table sees it *)

(** Under [memoryOk], a cache that matches the page of [addr] without being a
    zero hit is the table's entry for that page. *)
Lemma cache_is_entry m c addr :
  cacheOk m c -> c <> zeroPage \/ Z.shiftr addr 12 <> 0 ->
  Z.shiftr addr 12 = Z.shiftr (startAddr c) 12 ->
  m !! Z.shiftr addr 12 = Some c.
Proof.
  intros [-> | Hc] Hnz Heq.
  - destruct Hnz as [Hnz | Hnz]; [contradiction |]. exfalso. apply Hnz. exact Heq.
  - rewrite Heq. exact Hc.
Qed.

Lemma noZeroHit_iCache s addr :
  noZeroHit s addr -> iCache s <> zeroPage \/ Z.shiftr addr 12 <> 0.
Proof. intros [H | [H _]]; [right | left]; exact H. Qed.

Lemma noZeroHit_dCache s addr :
  noZeroHit s addr -> dCache s <> zeroPage \/ Z.shiftr addr 12 <> 0.
Proof. intros [H | [_ H]]; [right | left]; exact H. Qed.

(** The page [memAccess] and [memWrite] serve [addr] from is the table's. *)
Lemma served_from_table s addr :
  memoryOk s -> noZeroHit s addr ->
  (Z.shiftr addr 12 =? Z.shiftr (startAddr (iCache s)) 12) = true ->
  sysMemory s !! Z.shiftr addr 12 = Some (iCache s).
Proof.
  intros (_ & _ & Hic & _) Hnz Heq. apply Z.eqb_eq in Heq.
  exact (cache_is_entry _ _ _ Hic (noZeroHit_iCache _ _ Hnz) Heq).
Qed.

Lemma served_from_table_d s addr :
  memoryOk s -> noZeroHit s addr ->
  (Z.shiftr addr 12 =? Z.shiftr (startAddr (dCache s)) 12) = true ->
  sysMemory s !! Z.shiftr addr 12 = Some (dCache s).
Proof.
  intros (_ & _ & _ & Hdc) Hnz Heq. apply Z.eqb_eq in Heq.
  exact (cache_is_entry _ _ _ Hdc (noZeroHit_dCache _ _ Hnz) Heq).
Qed.

Lemma memoryOk_resolves s addr :
  memoryOk s -> noZeroHit s addr -> resolvesBacked s addr.
Proof.
  intros Hok Hnz. unfold resolvesBacked.
  destruct (Z.shiftr addr 12 =? Z.shiftr (startAddr (iCache s)) 12) eqn:Hic.
  - apply (proj1 Hok _ _ (served_from_table s addr Hok Hnz Hic)).
  - destruct (Z.shiftr addr 12 =? Z.shiftr (startAddr (dCache s)) 12) eqn:Hdc.
    + apply (proj1 Hok _ _ (served_from_table_d s addr Hok Hnz Hdc)).
    + intros p Hp. apply (proj1 Hok _ _ Hp).
Qed.

(** The slice reads of [memRead], as runs. *)
Lemma sliceGet_value sl i s w s' :
  sliceGet sl i s = Done (w, s') -> (l ← sl; xs ← heap s !! l; ix xs i) = Some w.
Proof. intros H. apply sliceGet_Done in H as [_ H]. exact H. Qed.

(** X10.  a read through the caches returns what [memRead] finds in the page
    table, and changes neither the heap nor the table. *)
Theorem memAccess_reads_table s addr isInstr v ok s' :
  memoryOk s -> noZeroHit s addr ->
  memAccess addr isInstr s = Done ((v, ok), s') ->
  memRead (heap s) (sysMemory s) addr = Some (v, ok) /\
  heap s' = heap s /\ sysMemory s' = sysMemory s.
Proof.
  intros Hok Hnz H. unfold memAccess in H.
  apply bind_Done in H as (ic & s1 & H1 & H). apply gets_Done in H1 as [-> ->].
  apply bind_Done in H as (dc & s1 & H1 & H). apply gets_Done in H1 as [-> ->].
  unfold memRead.
  destruct (Z.shiftr addr 12 =? Z.shiftr (startAddr (iCache s)) 12) eqn:Hic.
  - rewrite (served_from_table s addr Hok Hnz Hic).
    apply bind_Done in H as (w & s1 & H1 & H).
    pose proof (sliceGet_value _ _ _ _ _ H1) as Hw. apply sliceGet_Done in H1 as [-> _].
    rewrite Hw. cbn [mbind option_bind].
    destruct (notInitialized w addr).
    + run_inv. subst. repeat split; reflexivity.
    + apply bind_Done in H as (v' & s1 & H1 & H).
      pose proof (sliceGet_value _ _ _ _ _ H1) as Hv. apply sliceGet_Done in H1 as [-> _].
      apply ret_Done in H as [H ->]. injection H as <- <-.
      rewrite Hv. repeat split; reflexivity.
  - destruct (Z.shiftr addr 12 =? Z.shiftr (startAddr (dCache s)) 12) eqn:Hdc.
    + rewrite (served_from_table_d s addr Hok Hnz Hdc).
      apply bind_Done in H as (w & s1 & H1 & H).
      pose proof (sliceGet_value _ _ _ _ _ H1) as Hw. apply sliceGet_Done in H1 as [-> _].
      rewrite Hw. cbn [mbind option_bind].
      destruct (notInitialized w addr).
      * run_inv. subst. repeat split; reflexivity.
      * apply bind_Done in H as (u1 & s1 & H1 & H). apply modify_Done in H1 as ->.
        apply bind_Done in H as (v' & s1 & H1 & H).
        pose proof (sliceGet_value _ _ _ _ _ H1) as Hv. apply sliceGet_Done in H1 as [-> _].
        apply ret_Done in H as [H ->]. injection H as <- <-.
        cbn [heap setDMissed] in Hv. rewrite Hv. repeat split; reflexivity.
    + apply bind_Done in H as (m & s1 & H1 & H). apply gets_Done in H1 as [-> ->].
      destruct (sysMemory s !! Z.shiftr addr 12) as [page |].
      * apply bind_Done in H as (w & s1 & H1 & H).
        pose proof (sliceGet_value _ _ _ _ _ H1) as Hw. apply sliceGet_Done in H1 as [-> _].
        rewrite Hw. cbn [mbind option_bind].
        destruct (notInitialized w addr).
        -- run_inv. subst. repeat split; reflexivity.
        -- apply bind_Done in H as (missed & s1 & H1 & H). apply gets_Done in H1 as [-> ->].
           apply bind_Done in H as (u1 & s1 & H1 & H).
           assert (Hs1 : heap s1 = heap s /\ sysMemory s1 = sysMemory s).
           { destruct isInstr; [| destruct (dMissed s)];
               apply modify_Done in H1 as ->; split; reflexivity. }
           destruct Hs1 as [Hh Hm].
           apply bind_Done in H as (v' & s2 & H2 & H).
           pose proof (sliceGet_value _ _ _ _ _ H2) as Hv. apply sliceGet_Done in H2 as [-> _].
           apply ret_Done in H as [H ->]. injection H as <- <-.
           rewrite Hh in Hv. rewrite Hv. repeat split; assumption.
      * run_inv. subst. repeat split; reflexivity.
Qed.

(** ** What a write changes *)

Lemma wordIndex_split addr : addr / 4 mod 1024 = (addr mod 4096) / 4.
Proof.
  change 4096 with (4 * 1024). rewrite Z.rem_mul_r by lia.
  rewrite (Z.mul_comm 4 (addr / 4 mod 1024)), Z.div_add by lia.
  rewrite (Z.div_small (addr mod 4) 4) by (apply Z.mod_pos_bound; lia). lia.
Qed.

Lemma initIndex_split addr : (addr mod 4096) / 128 = (addr / 4 mod 1024) / 32.
Proof. rewrite wordIndex_split, Z.div_div by lia. reflexivity. Qed.

Lemma initBit_split addr : (addr mod 4096) / 4 mod 32 = (addr / 4 mod 1024) mod 32.
Proof. rewrite wordIndex_split. reflexivity. Qed.

Lemma bit_lor_shiftl w k k' :
  0 <= k -> 0 <= k' ->
  Z.land (Z.shiftr (Z.lor w (Z.shiftl 1 k)) k') 1
  = if k' =? k then 1 else Z.land (Z.shiftr w k') 1.
Proof.
  intros Hk Hk'. rewrite !land_one.
  rewrite !Z.shiftr_spec by lia. rewrite Z.lor_spec. rewrite !Z.add_0_l.
  destruct (Z.eqb_spec k' k) as [-> | Hne].
  - rewrite Z.shiftl_spec by lia. replace (k - k) with 0 by lia.
    change (Z.testbit 1 0) with true. rewrite orb_true_r. reflexivity.
  - replace (Z.testbit (Z.shiftl 1 k) k') with false; [rewrite orb_false_r; reflexivity |].
    symmetry. destruct (Z.ltb_spec k' k).
    + apply Z.shiftl_spec_low. lia.
    + rewrite Z.shiftl_spec by lia. rewrite testbit_one by lia.
      apply Z.eqb_neq. lia.
Qed.

(** The effect of [pageWrite] on a backed page, for any mask. *)
Lemma pageWrite_effect p addr data mask s :
  backed (heap s) p ->
  exists lm li xs ys old w0,
    memory p = Some lm /\ initialized p = Some li /\ lm <> li /\
    heap s !! lm = Some xs /\ heap s !! li = Some ys /\
    length xs = 1024%nat /\ length ys = 32%nat /\
    xs !! Z.to_nat (addr / 4 mod 1024) = Some old /\
    ys !! Z.to_nat ((addr mod 4096) / 128) = Some w0 /\
    pageWrite p addr data mask s
    = Done (tt, setHeap
                  (<[li := <[Z.to_nat ((addr mod 4096) / 128) :=
                              Z.lor w0 (Z.shiftl 1 ((addr mod 4096) / 4 mod 32))]> ys]>
                     (<[lm := <[Z.to_nat (addr / 4 mod 1024) :=
                                 mergeWord data mask old]> xs]> (heap s))) s).
Proof.
  intros (lm & li & xs & ys & Hm & Hi & Hxs & Hys & Hlx & Hly).
  pose proof (word_index_range addr) as Hwi.
  pose proof (init_index_range addr) as Hii.
  assert (Hne : lm <> li) by (intros ->; rewrite Hxs in Hys; injection Hys as ->; lia).
  destruct (lookup_lt_is_Some_2 xs (Z.to_nat (addr / 4 mod 1024)) ltac:(lia)) as [old Hold].
  destruct (lookup_lt_is_Some_2 ys (Z.to_nat ((addr mod 4096) / 128)) ltac:(lia)) as [w0 Hw0].
  exists lm, li, xs, ys, old, w0. repeat split; try assumption.
  set (xs' := <[Z.to_nat (addr / 4 mod 1024) := mergeWord data mask old]> xs).
  set (h1 := <[lm := xs']> (heap s)).
  assert (Hh1li : h1 !! li = Some ys).
  { unfold h1. rewrite list_lookup_insert_ne by exact Hne. exact Hys. }
  unfold pageWrite. rewrite Hm, Hi.
  rewrite (bind_run _ _ _ _ _ (sliceGet_ok lm (addr / 4 mod 1024) s xs old Hxs (proj1 Hwi) Hold)).
  fold (mergeWord data mask old).
  rewrite (bind_run _ _ _ _ _
             (sliceSet_ok lm (addr / 4 mod 1024) (mergeWord data mask old) s xs Hxs ltac:(lia))).
  fold xs' h1.
  rewrite (bind_run _ _ _ _ _
             (sliceGet_ok li ((addr mod 4096) / 128) (setHeap h1 s) ys w0 Hh1li (proj1 Hii) Hw0)).
  rewrite (sliceSet_ok li ((addr mod 4096) / 128) _ (setHeap h1 s) ys Hh1li ltac:(lia)).
  reflexivity.
Qed.

Lemma written_lookups (h : Heap) lm li xs ys i j v w :
  lm <> li -> h !! lm = Some xs -> h !! li = Some ys ->
  <[li := <[j := w]> ys]> (<[lm := <[i := v]> xs]> h) !! lm = Some (<[i := v]> xs) /\
  <[li := <[j := w]> ys]> (<[lm := <[i := v]> xs]> h) !! li = Some (<[j := w]> ys) /\
  forall l, l <> lm -> l <> li ->
    <[li := <[j := w]> ys]> (<[lm := <[i := v]> xs]> h) !! l = h !! l.
Proof.
  intros Hne Hxs Hys.
  pose proof (lookup_lt_Some _ _ _ Hxs) as Hlm.
  pose proof (lookup_lt_Some _ _ _ Hys) as Hli.
  repeat apply conj.
  - rewrite list_lookup_insert_ne by congruence.
    apply list_lookup_insert_eq. exact Hlm.
  - apply list_lookup_insert_eq. rewrite length_insert. exact Hli.
  - intros l H1 H2. rewrite !list_lookup_insert_ne by congruence. reflexivity.
Qed.

Lemma page_of_masked addr :
  0 <= addr < 2 ^ 32 -> Z.shiftr (Z.land addr 4294963200) 12 = Z.shiftr addr 12.
Proof.
  intros H. apply Z.bits_inj'. intros n Hn.
  rewrite !Z.shiftr_spec, Z.land_spec by lia.
  destruct (Z.ltb_spec (n + 12) 32).
  - replace (Z.testbit 4294963200 (n + 12)) with true; [apply andb_true_r |].
    change 4294963200 with (Z.shiftl (Z.ones 20) 12).
    rewrite Z.shiftl_spec by lia. rewrite Z.ones_spec_low by lia. reflexivity.
  - rewrite (testbit_above addr 32 (n + 12)) by lia. reflexivity.
Qed.

(** A store to a page of the table. *)
Lemma pageWrite_wrote s addr data mask p (f : instance -> instance) :
  memoryOk s ->
  sysMemory s !! Z.shiftr addr 12 = Some p ->
  (forall t, heap (f t) = heap t /\ iCache (f t) = iCache t /\
             dCache (f t) = dCache t /\ sysMemory (f t) = sysMemory t) ->
  exists s1,
    (pageWrite p addr data mask ;; modify f) s = Done (tt, s1) /\
    wrote s addr data mask s1.
Proof.
  intros Hok Hp Hf.
  destruct (proj1 Hok _ _ Hp) as [Hb Hpg].
  destruct (pageWrite_effect p addr data mask s Hb)
    as (lm & li & xs & ys & old & w0 & Hm & Hi & Hne & Hxs & Hys & Hlx & Hly & Hold & Hw0 & Hrun).
  destruct (written_lookups (heap s) lm li xs ys (Z.to_nat (addr / 4 mod 1024))
              (Z.to_nat ((addr mod 4096) / 128)) (mergeWord data mask old)
              (Z.lor w0 (Z.shiftl 1 ((addr mod 4096) / 4 mod 32))) Hne Hxs Hys)
    as (L1 & L2 & L3).
  set (h' := <[li := <[Z.to_nat ((addr mod 4096) / 128) :=
                        Z.lor w0 (Z.shiftl 1 ((addr mod 4096) / 4 mod 32))]> ys]>
               (<[lm := <[Z.to_nat (addr / 4 mod 1024) :=
                           mergeWord data mask old]> xs]> (heap s))) in *.
  exists (f (setHeap h' s)). split.
  { rewrite (bind_run _ _ _ _ _ Hrun). reflexivity. }
  destruct (Hf (setHeap h' s)) as (F1 & F2 & F3 & F4).
  exists p, lm, li, xs, ys, old, w0.
  repeat apply conj; try assumption.
  - rewrite F4. cbn [sysMemory setHeap]. symmetry. apply insert_id. exact Hp.
  - left. repeat apply conj; assumption.
  - rewrite F1. exact L1.
  - rewrite F1. exact L2.
  - intros l H1 H2 _. rewrite F1. apply L3; assumption.
Qed.

Lemma pageWrite_wrote_plain s addr data mask p :
  memoryOk s ->
  sysMemory s !! Z.shiftr addr 12 = Some p ->
  exists s1, pageWrite p addr data mask s = Done (tt, s1) /\ wrote s addr data mask s1.
Proof.
  intros Hok Hp.
  destruct (pageWrite_wrote s addr data mask p (fun t => t) Hok Hp
              ltac:(intros t; repeat split)) as (s1 & Hrun & Hw).
  exists s1. split; [| exact Hw].
  apply bind_Done in Hrun as (u & s2 & H1 & H2). apply modify_Done in H2 as ->.
  destruct u. exact H1.
Qed.

(** What [memWrite] does to a well-formed memory. *)
Lemma memWrite_effect s addr data mask :
  memoryOk s -> noZeroHit s addr -> 0 <= addr < 2 ^ 32 ->
  exists s1, memWrite addr data mask s = Done (tt, s1) /\ wrote s addr data mask s1.
Proof.
  intros Hok Hnz Haddr.
  unfold memWrite.
  rewrite (bind_run _ _ _ (iCache s) s eq_refl).
  rewrite (bind_run _ _ _ (dCache s) s eq_refl).
  destruct (Z.shiftr addr 12 =? Z.shiftr (startAddr (iCache s)) 12) eqn:Hic.
  - exact (pageWrite_wrote_plain s addr data mask _ Hok (served_from_table s addr Hok Hnz Hic)).
  - destruct (Z.shiftr addr 12 =? Z.shiftr (startAddr (dCache s)) 12) eqn:Hdc.
    + exact (pageWrite_wrote s addr data mask _ (setDMissed false) Hok
               (served_from_table_d s addr Hok Hnz Hdc) ltac:(intros t; repeat split)).
    + rewrite (bind_run _ _ _ (sysMemory s) s eq_refl).
      destruct (sysMemory s !! Z.shiftr addr 12) as [page |] eqn:Hpage.
      * rewrite (bind_run _ _ _ page s eq_refl).
        exact (pageWrite_wrote_plain s addr data mask _ Hok Hpage).
      * set (h0 := heap s ++ [replicate 1024 0] ++ [replicate 32 0]).
        set (p := mkPage (Z.land addr 4294963200) (Some (length (heap s)))
                    (Some (length (heap s ++ [replicate 1024 0%Z])))).
        set (s0 := setSysMemory (<[Z.shiftr addr 12 := p]> (sysMemory s)) (setHeap h0 s)).
        assert (Hb : backed (heap s0) p) by apply backed_fresh.
        destruct (pageWrite_effect p addr data mask s0 Hb)
          as (lm & li & xs & ys & old & w0 & Hm & Hi & Hne & Hxs & Hys & Hlx & Hly & Hold & Hw0 & Hrun).
        destruct (written_lookups (heap s0) lm li xs ys (Z.to_nat (addr / 4 mod 1024))
                    (Z.to_nat ((addr mod 4096) / 128)) (mergeWord data mask old)
                    (Z.lor w0 (Z.shiftl 1 ((addr mod 4096) / 4 mod 32))) Hne Hxs Hys)
          as (L1 & L2 & L3).
        assert (Elm : lm = length (heap s)).
        { unfold p in Hm. cbn [memory] in Hm. congruence. }
        assert (Eli : li = (length (heap s) + 1)%nat).
        { unfold p in Hi. cbn [initialized] in Hi. rewrite length_app in Hi.
          cbn [length] in Hi. congruence. }
        assert (Hx0 : xs = replicate 1024 0).
        { cbn [heap s0 setSysMemory setHeap] in Hxs. unfold h0 in Hxs.
          rewrite Elm, lookup_app_r in Hxs by lia.
          replace (length (heap s) - length (heap s))%nat with 0%nat in Hxs by lia.
          cbn [lookup list_lookup app] in Hxs. congruence. }
        assert (Hy0 : ys = replicate 32 0).
        { cbn [heap s0 setSysMemory setHeap] in Hys. unfold h0 in Hys.
          rewrite Eli, lookup_app_r in Hys by lia.
          replace (length (heap s) + 1 - length (heap s))%nat with 1%nat in Hys by lia.
          cbn [lookup list_lookup app] in Hys. congruence. }
        exists (setHeap
                  (<[li := <[Z.to_nat ((addr mod 4096) / 128) :=
                              Z.lor w0 (Z.shiftl 1 ((addr mod 4096) / 4 mod 32))]> ys]>
                     (<[lm := <[Z.to_nat (addr / 4 mod 1024) :=
                                 mergeWord data mask old]> xs]> (heap s0))) s0).
        split.
        { assert (Hmk :
            (mem ← makeSlice 1024; ini ← makeSlice 32;
             modify (setSysMemory (<[Z.shiftr addr 12 :=
                        mkPage (Z.land addr 4294963200) mem ini]> (sysMemory s))) ;;
             ret (mkPage (Z.land addr 4294963200) mem ini)) s = Done (p, s0)).
          { unfold makeSlice, mbind, StateM_bind, gets, modify, ret, mret, StateM_ret.
            cbn [heap setHeap]. unfold s0, p, h0. rewrite <- app_assoc. reflexivity. }
          rewrite (bind_run _ _ _ _ _ Hmk). exact Hrun. }
        exists p, lm, li, xs, ys, old, w0.
        repeat apply conj; try assumption; try reflexivity.
        -- apply page_of_masked. exact Haddr.
        -- right. repeat apply conj; try assumption; try reflexivity; lia.
        -- intros l H1 H2 Hl. cbn [heap setHeap]. rewrite L3 by assumption.
           cbn [heap s0 setSysMemory setHeap]. unfold h0. apply lookup_app_l. exact Hl.
Qed.

(** A page of the table other than the one written keeps its two arrays. *)
Lemma wrote_other_page s addr data mask s1 pg q :
  memoryOk s -> wrote s addr data mask s1 ->
  pg <> Z.shiftr addr 12 -> sysMemory s !! pg = Some q ->
  sysMemory s1 !! pg = Some q /\
  exists lq liq xq yq,
    memory q = Some lq /\ initialized q = Some liq /\
    heap s !! lq = Some xq /\ heap s !! liq = Some yq /\
    heap s1 !! lq = Some xq /\ heap s1 !! liq = Some yq /\
    length xq = 1024%nat /\ length yq = 32%nat /\
    (forall p, sysMemory s1 !! Z.shiftr addr 12 = Some p -> disjointPages q p).
Proof.
  intros (Hback & Hdisj & _ & _)
         (p & lm & li & xs & ys & old & w0 & _ & _ & Hm1 & Hpg & Hm & Hi & Hne & Hlx & Hly
            & _ & _ & Hprior & Hlm & Hli & Hframe) Hpg' Hq.
  split; [rewrite Hm1; rewrite lookup_insert_ne by congruence; exact Hq |].
  destruct (Hback _ _ Hq) as [(lq & liq & xq & yq & Hqm & Hqi & Hxq & Hyq & Hlxq & Hlyq) _].
  pose proof (lookup_lt_Some _ _ _ Hxq) as Blq.
  pose proof (lookup_lt_Some _ _ _ Hyq) as Bliq.
  assert (Hd : disjointPages q p).
  { destruct Hprior as [(Hp & _ & _) | (_ & _ & _ & B1 & B2)].
    - exact (Hdisj _ _ _ _ Hpg' Hq Hp).
    - unfold disjointPages. rewrite Hqm, Hqi, Hm, Hi.
      repeat apply conj; intros E; injection E as E; lia. }
  assert (Hsep : lq <> lm /\ lq <> li /\ liq <> lm /\ liq <> li).
  { destruct Hd as (D1 & D2 & D3 & D4). rewrite Hqm, Hqi, Hm, Hi in *.
    repeat apply conj; congruence. }
  destruct Hsep as (S1 & S2 & S3 & S4).
  exists lq, liq, xq, yq. repeat apply conj; try assumption.
  - rewrite Hframe by assumption. exact Hxq.
  - rewrite Hframe by assumption. exact Hyq.
  - intros p' Hp'. rewrite Hm1, lookup_insert_eq in Hp'. injection Hp' as <-. exact Hd.
Qed.

Lemma disjointPages_sym p q : disjointPages p q -> disjointPages q p.
Proof.
  intros (D1 & D2 & D3 & D4). unfold disjointPages. repeat apply conj; congruence.
Qed.

Lemma wrote_cacheOk s addr data mask s1 c :
  wrote s addr data mask s1 -> cacheOk (sysMemory s) c -> cacheOk (sysMemory s1) c.
Proof.
  intros (p & lm & li & xs & ys & old & w0 & _ & _ & Hm1 & _ & _ & _ & _ & _ & _
            & _ & _ & Hprior & _) [-> | Hc]; [left; reflexivity | right].
  rewrite Hm1.
  destruct (Z.eq_dec (Z.shiftr (startAddr c) 12) (Z.shiftr addr 12)) as [E | E].
  - rewrite E in *. rewrite lookup_insert_eq.
    destruct Hprior as [(Hp & _) | (Hp & _)]; congruence.
  - rewrite lookup_insert_ne by congruence. exact Hc.
Qed.

(** The invariant survives a store. *)
Lemma wrote_memoryOk s addr data mask s1 :
  memoryOk s -> wrote s addr data mask s1 -> memoryOk s1.
Proof.
  intros Hok Hw.
  pose proof Hw as (p & lm & li & xs & ys & old & w0 & Hic & Hdc & Hm1 & Hpg & Hm & Hi & Hne
                      & Hlx & Hly & _ & _ & Hprior & Hlm & Hli & Hframe).
  assert (Hp1 : sysMemory s1 !! Z.shiftr addr 12 = Some p)
    by (rewrite Hm1; apply lookup_insert_eq).
  assert (Hsplit : forall pg q, sysMemory s1 !! pg = Some q ->
            (pg = Z.shiftr addr 12 /\ q = p) \/
            (pg <> Z.shiftr addr 12 /\ sysMemory s !! pg = Some q)).
  { intros pg q Hq. rewrite Hm1 in Hq. apply lookup_insert_Some in Hq.
    destruct Hq as [[<- <-] | [Hn Hq]]; [left | right]; split; congruence. }
  unfold memoryOk. repeat apply conj.
  - intros pg q Hq. destruct (Hsplit _ _ Hq) as [[-> ->] | [Hn Hq0]].
    + split; [| exact Hpg].
      eexists lm, li, _, _. repeat apply conj; try eassumption.
      * rewrite length_insert. exact Hlx.
      * rewrite length_insert. exact Hly.
    + destruct (wrote_other_page _ _ _ _ _ _ _ Hok Hw Hn Hq0)
        as (_ & lq & liq & xq & yq & A1 & A2 & _ & _ & A3 & A4 & A5 & A6 & _).
      split; [| exact (proj2 (proj1 Hok _ _ Hq0))].
      exists lq, liq, xq, yq. repeat apply conj; assumption.
  - intros pg1 pg2 q1 q2 Hn H1 H2.
    destruct (Hsplit _ _ H1) as [[-> ->] | [Hn1 Hq1]];
      destruct (Hsplit _ _ H2) as [[-> ->] | [Hn2 Hq2]].
    + congruence.
    + apply disjointPages_sym.
      destruct (wrote_other_page _ _ _ _ _ _ _ Hok Hw Hn2 Hq2)
        as (_ & lq & liq & xq & yq & _ & _ & _ & _ & _ & _ & _ & _ & D).
      exact (D _ Hp1).
    + destruct (wrote_other_page _ _ _ _ _ _ _ Hok Hw Hn1 Hq1)
        as (_ & lq & liq & xq & yq & _ & _ & _ & _ & _ & _ & _ & _ & D).
      exact (D _ Hp1).
    + exact (proj1 (proj2 Hok) _ _ _ _ Hn Hq1 Hq2).
  - rewrite Hic. exact (wrote_cacheOk _ _ _ _ _ _ Hw (proj1 (proj2 (proj2 Hok)))).
  - rewrite Hdc. exact (wrote_cacheOk _ _ _ _ _ _ Hw (proj2 (proj2 (proj2 Hok)))).
Qed.

Lemma notInitialized_set w addr :
  notInitialized (Z.lor w (Z.shiftl 1 ((addr mod 4096) / 4 mod 32))) addr = false.
Proof.
  unfold notInitialized.
  pose proof (Z.mod_pos_bound ((addr mod 4096) / 4) 32 ltac:(lia)).
  rewrite bit_lor_shiftl by lia. rewrite Z.eqb_refl. reflexivity.
Qed.

Lemma notInitialized_other w addr addr' :
  (addr' mod 4096) / 4 mod 32 <> (addr mod 4096) / 4 mod 32 ->
  notInitialized (Z.lor w (Z.shiftl 1 ((addr mod 4096) / 4 mod 32))) addr'
  = notInitialized w addr'.
Proof.
  intros Hne. unfold notInitialized.
  pose proof (Z.mod_pos_bound ((addr mod 4096) / 4) 32 ltac:(lia)).
  pose proof (Z.mod_pos_bound ((addr' mod 4096) / 4) 32 ltac:(lia)).
  rewrite bit_lor_shiftl by lia.
  destruct (Z.eqb_spec ((addr' mod 4096) / 4 mod 32) ((addr mod 4096) / 4 mod 32));
    [contradiction | reflexivity].
Qed.

Lemma notInitialized_zero addr : notInitialized 0 addr = true.
Proof. unfold notInitialized. rewrite Z.shiftr_0_l. reflexivity. Qed.

(** Two words of a page differ in the index of their initialised word or in
    their bit in it. *)
Lemma other_word_other_bit addr addr' :
  addr' / 4 mod 1024 <> addr / 4 mod 1024 ->
  (addr' mod 4096) / 128 <> (addr mod 4096) / 128 \/
  (addr' mod 4096) / 4 mod 32 <> (addr mod 4096) / 4 mod 32.
Proof.
  intros Hne. rewrite !initIndex_split, !initBit_split.
  destruct (Z.eq_dec (addr' / 4 mod 1024 / 32) (addr / 4 mod 1024 / 32)) as [E | E];
    [right | left; exact E].
  intros E'. apply Hne.
  rewrite (Z.div_mod (addr' / 4 mod 1024) 32), (Z.div_mod (addr / 4 mod 1024) 32) by lia.
  rewrite E, E'. reflexivity.
Qed.

(** After a store, [memRead] finds the merged word at the stored address,
    marked initialised. *)
Lemma wrote_memRead_same s addr data mask s1 :
  wrote s addr data mask s1 ->
  exists old,
    rawWord (heap s) (sysMemory s) addr = Some old /\
    memRead (heap s1) (sysMemory s1) addr = Some (mergeWord data mask old, true).
Proof.
  intros (p & lm & li & xs & ys & old & w0 & _ & _ & Hm1 & _ & Hm & Hi & Hne & Hlx & Hly
            & Hold & Hw0 & Hprior & Hlm & Hli & _).
  pose proof (word_index_range addr) as Hwi.
  pose proof (init_index_range addr) as Hii.
  exists old. split.
  - unfold rawWord. destruct Hprior as [(Hp & Hxs & _) | (Hp & -> & _)]; rewrite Hp.
    + rewrite Hm. cbn [mbind option_bind]. rewrite Hxs. cbn [mbind option_bind].
      rewrite ix_lookup by lia. exact Hold.
    + rewrite lookup_replicate_2 in Hold by (rewrite length_replicate in Hlx; lia).
      exact Hold.
  - unfold memRead. rewrite Hm1, lookup_insert_eq.
    rewrite Hm, Hi. cbn [mbind option_bind]. rewrite Hlm, Hli. cbn [mbind option_bind].
    rewrite !ix_lookup by lia.
    rewrite !list_lookup_insert_eq by lia. cbn [mbind option_bind].
    rewrite notInitialized_set. reflexivity.
Qed.

(** A store changes what [memRead] finds at no other word. *)
Lemma wrote_memRead_other s addr data mask s1 addr' :
  memoryOk s -> wrote s addr data mask s1 ->
  Z.shiftr addr' 12 <> Z.shiftr addr 12 \/ addr' / 4 mod 1024 <> addr / 4 mod 1024 ->
  memRead (heap s1) (sysMemory s1) addr' = memRead (heap s) (sysMemory s) addr'.
Proof.
  intros Hok Hw Hother.
  pose proof (word_index_range addr) as Hwi.
  pose proof (init_index_range addr) as Hii.
  pose proof (word_index_range addr') as Hwi'.
  pose proof (init_index_range addr') as Hii'.
  destruct (Z.eq_dec (Z.shiftr addr' 12) (Z.shiftr addr 12)) as [Epg | Epg].
  - destruct Hother as [Hother | Hother]; [contradiction |].
    destruct Hw as (p & lm & li & xs & ys & old & w0 & _ & _ & Hm1 & _ & Hm & Hi & Hne
                      & Hlx & Hly & Hold & Hw0 & Hprior & Hlm & Hli & _).
    unfold memRead. rewrite Epg, Hm1, lookup_insert_eq.
    rewrite Hm, Hi. cbn [mbind option_bind]. rewrite Hlm, Hli. cbn [mbind option_bind].
    rewrite !ix_lookup by lia.
    rewrite (list_lookup_insert_ne xs) by lia.
    assert (Hini : forall w, ys !! Z.to_nat ((addr' mod 4096) / 128) = Some w ->
              exists w', <[Z.to_nat ((addr mod 4096) / 128) :=
                             Z.lor w0 (Z.shiftl 1 ((addr mod 4096) / 4 mod 32))]> ys
                         !! Z.to_nat ((addr' mod 4096) / 128) = Some w' /\
                         notInitialized w' addr' = notInitialized w addr').
    { intros w Hw.
      destruct (Z.eq_dec ((addr' mod 4096) / 128) ((addr mod 4096) / 128)) as [Ej | Ej].
      - rewrite Ej in *. rewrite list_lookup_insert_eq by lia.
        eexists. split; [reflexivity |].
        assert (w = w0) by congruence. subst w.
        apply notInitialized_other.
        destruct (other_word_other_bit _ _ Hother) as [H | H]; [| exact H].
        exfalso. apply H. rewrite <- Ej. reflexivity.
      - rewrite list_lookup_insert_ne by lia.
        exists w. split; [exact Hw | reflexivity]. }
    destruct (lookup_lt_is_Some_2 ys (Z.to_nat ((addr' mod 4096) / 128)) ltac:(lia)) as [w Hw].
    destruct (Hini w Hw) as (w' & Hw' & Hn). rewrite Hw'. cbn [mbind option_bind]. rewrite Hn.
    destruct Hprior as [(Hp & Hxs & Hys) | (Hp & -> & -> & _)]; rewrite Hp.
    + rewrite Hm, Hi. cbn [mbind option_bind]. rewrite Hxs, Hys. cbn [mbind option_bind].
      rewrite !ix_lookup by lia. rewrite Hw. reflexivity.
    + rewrite lookup_replicate_2 in Hw by lia. injection Hw as <-.
      rewrite notInitialized_zero. reflexivity.
  - clear Hother.
    assert (Hsame : sysMemory s1 !! Z.shiftr addr' 12 = sysMemory s !! Z.shiftr addr' 12).
    { destruct Hw as (p & lm & li & xs & ys & old & w0 & _ & _ & Hm1 & _).
      rewrite Hm1. apply lookup_insert_ne. congruence. }
    unfold memRead. rewrite Hsame.
    destruct (sysMemory s !! Z.shiftr addr' 12) as [q |] eqn:Hq; [| reflexivity].
    destruct (wrote_other_page _ _ _ _ _ _ _ Hok Hw Epg Hq)
      as (_ & lq & liq & xq & yq & A1 & A2 & B1 & B2 & C1 & C2 & _).
    rewrite A1, A2. cbn [mbind option_bind]. rewrite B1, B2, C1, C2. reflexivity.
Qed.

Lemma backed_not_zeroPage h p : backed h p -> p <> zeroPage.
Proof. intros (lm & li & xs & ys & Hm & _) ->. discriminate Hm. Qed.

(** X11.  a store to a well-formed memory does not panic and leaves the memory
    well-formed. *)
Theorem memWrite_keeps_memoryOk s addr data mask :
  memoryOk s -> noZeroHit s addr -> 0 <= addr < 2 ^ 32 ->
  exists s1,
    memWrite addr data mask s = Done (tt, s1) /\
    memoryOk s1 /\
    forall a, noZeroHit s a -> noZeroHit s1 a.
Proof.
  intros Hok Hnz Haddr.
  destruct (memWrite_effect s addr data mask Hok Hnz Haddr) as (s1 & Hrun & Hw).
  exists s1. split; [exact Hrun |]. split.
  - exact (wrote_memoryOk _ _ _ _ _ Hok Hw).
  - destruct Hw as (p & lm & li & xs & ys & old & w0 & Hic & Hdc & _).
    intros a. unfold noZeroHit. rewrite Hic, Hdc. tauto.
Qed.

(** X12.  on a well-formed memory, a store to a 32-bit address that is outside
    page 0, or met with neither cache still at its zero value, returns, and
    [memRead] at the same address then finds the stored data merged under the
    mask into the word that was there (zero if the page is new), marked
    initialised. *)
Theorem memWrite_then_memRead s addr data mask :
  memoryOk s -> noZeroHit s addr -> 0 <= addr < 2 ^ 32 ->
  exists s1 old,
    memWrite addr data mask s = Done (tt, s1) /\
    rawWord (heap s) (sysMemory s) addr = Some old /\
    memRead (heap s1) (sysMemory s1) addr = Some (mergeWord data mask old, true).
Proof.
  intros Hok Hnz Haddr.
  destruct (memWrite_effect s addr data mask Hok Hnz Haddr) as (s1 & Hrun & Hw).
  destruct (wrote_memRead_same _ _ _ _ _ Hw) as (old & Hold & Hread).
  exists s1, old. repeat apply conj; assumption.
Qed.

(** X13.  a store changes what [memRead] finds at no word other than the one
    stored to. *)
Theorem memWrite_frame s addr data mask s1 addr' :
  memoryOk s -> noZeroHit s addr -> 0 <= addr < 2 ^ 32 ->
  memWrite addr data mask s = Done (tt, s1) ->
  Z.shiftr addr' 12 <> Z.shiftr addr 12 \/ addr' / 4 mod 1024 <> addr / 4 mod 1024 ->
  memRead (heap s1) (sysMemory s1) addr' = memRead (heap s) (sysMemory s) addr'.
Proof.
  intros Hok Hnz Haddr Hrun Hother.
  destruct (memWrite_effect s addr data mask Hok Hnz Haddr) as (s1' & Hrun' & Hw).
  assert (s1' = s1) by congruence. subst s1'.
  exact (wrote_memRead_other _ _ _ _ _ _ Hok Hw Hother).
Qed.

(** What a load changes: possibly a cache, and then to an entry of the page
    table. *)
Lemma memAccess_caches s addr isInstr r s' :
  memoryOk s -> memAccess addr isInstr s = Done (r, s') ->
  heap s' = heap s /\ sysMemory s' = sysMemory s /\
  (iCache s' = iCache s \/
   sysMemory s !! Z.shiftr (startAddr (iCache s')) 12 = Some (iCache s')) /\
  (dCache s' = dCache s \/
   sysMemory s !! Z.shiftr (startAddr (dCache s')) 12 = Some (dCache s')).
Proof.
  intros Hok H.
  unfold memAccess in H.
  apply bind_Done in H as (ic & s1 & H1 & H). apply gets_Done in H1 as [-> ->].
  apply bind_Done in H as (dc & s1 & H1 & H). apply gets_Done in H1 as [-> ->].
  destruct (Z.shiftr addr 12 =? Z.shiftr (startAddr (iCache s)) 12).
  - apply bind_Done in H as (w & s1 & H1 & H). apply sliceGet_Done in H1 as [-> _].
    destruct (notInitialized w addr).
    + run_inv. subst. cbn. tauto.
    + apply bind_Done in H as (v' & s1 & H1 & H). apply sliceGet_Done in H1 as [-> _].
      apply ret_Done in H as [_ ->]. tauto.
  - destruct (Z.shiftr addr 12 =? Z.shiftr (startAddr (dCache s)) 12).
    + apply bind_Done in H as (w & s1 & H1 & H). apply sliceGet_Done in H1 as [-> _].
      destruct (notInitialized w addr).
      * run_inv. subst. cbn. tauto.
      * apply bind_Done in H as (u1 & s1 & H1 & H). apply modify_Done in H1 as ->.
        apply bind_Done in H as (v' & s1 & H1 & H). apply sliceGet_Done in H1 as [-> _].
        apply ret_Done in H as [_ ->]. cbn. tauto.
    + apply bind_Done in H as (m & s1 & H1 & H). apply gets_Done in H1 as [-> ->].
      destruct (sysMemory s !! Z.shiftr addr 12) as [page |] eqn:Hpage.
      * apply bind_Done in H as (w & s1 & H1 & H). apply sliceGet_Done in H1 as [-> _].
        destruct (notInitialized w addr).
        -- run_inv. subst. cbn. tauto.
        -- apply bind_Done in H as (missed & s1 & H1 & H). apply gets_Done in H1 as [-> ->].
           apply bind_Done in H as (u1 & s1 & H1 & H).
           apply bind_Done in H as (v' & s2 & H2 & H). apply sliceGet_Done in H2 as [-> _].
           apply ret_Done in H as [_ ->].
           pose proof (proj2 (proj1 Hok _ _ Hpage)) as Hpg.
           destruct isInstr; [| destruct (dMissed s)];
             apply modify_Done in H1 as ->; cbn; rewrite ?Hpg; tauto.
      * run_inv. subst. cbn. tauto.
Qed.

(** Replacing caches by entries of the table keeps the memory well-formed. *)
Lemma caches_memoryOk s s' :
  memoryOk s ->
  heap s' = heap s -> sysMemory s' = sysMemory s ->
  (iCache s' = iCache s \/
   sysMemory s !! Z.shiftr (startAddr (iCache s')) 12 = Some (iCache s')) ->
  (dCache s' = dCache s \/
   sysMemory s !! Z.shiftr (startAddr (dCache s')) 12 = Some (dCache s')) ->
  memoryOk s' /\ forall a, noZeroHit s a -> noZeroHit s' a.
Proof.
  intros Hok Hh Hm Hic Hdc.
  destruct Hok as (Hback & Hdisj & Ci & Cd).
  assert (Hc : forall c c', cacheOk (sysMemory s) c ->
            c' = c \/ sysMemory s !! Z.shiftr (startAddr c') 12 = Some c' ->
            cacheOk (sysMemory s') c' /\ (c <> zeroPage -> c' <> zeroPage)).
  { intros c c' Hc [-> | Hc'].
    - rewrite Hm. tauto.
    - split; [right; rewrite Hm; exact Hc' |].
      intros _. exact (backed_not_zeroPage _ _ (proj1 (Hback _ _ Hc'))). }
  destruct (Hc _ _ Ci Hic) as [Ci' Zi]. destruct (Hc _ _ Cd Hdc) as [Cd' Zd].
  split.
  - unfold memoryOk. rewrite Hm in Ci', Cd'. rewrite Hh, Hm. repeat apply conj; assumption.
  - intros a [Ha | [Ha1 Ha2]]; [left; exact Ha | right; split; auto].
Qed.

(** X14.  a load keeps the memory well-formed: a cache it replaces becomes an
    entry of the page table. *)
Theorem memAccess_keeps_memoryOk s addr isInstr r s' :
  memoryOk s -> memAccess addr isInstr s = Done (r, s') ->
  memoryOk s' /\ forall a, noZeroHit s a -> noZeroHit s' a.
Proof.
  intros Hok H.
  destruct (memAccess_caches _ _ _ _ _ Hok H) as (Hh & Hm & Hic & Hdc).
  exact (caches_memoryOk s s' Hok Hh Hm Hic Hdc).
Qed.

(** ** The rotation puzzle: squares as eight cells *)

Lemma lor_low_high x y n :
  0 <= n -> 0 <= x < 2 ^ n -> 0 <= y -> Z.lor x (y * 2 ^ n) = x + y * 2 ^ n.
Proof.
  intros Hn Hx Hy.
  assert (Hd : Z.land x (y * 2 ^ n) = 0).
  { apply Z.bits_inj'. intros k Hk. rewrite Z.land_spec, Z.bits_0.
    destruct (Z.ltb_spec k n).
    - rewrite Z.mul_pow2_bits_low by lia. apply andb_false_r.
    - rewrite (testbit_above x n k) by lia. reflexivity. }
  rewrite Z.add_nocarry_lxor by exact Hd. symmetry. apply Z.lxor_lor. exact Hd.
Qed.

Lemma split4 v n :
  0 <= v < 4 * n -> exists c v', 0 <= c < 4 /\ 0 <= v' < n /\ v = c + 4 * v'.
Proof.
  intros Hv. exists (v mod 4), (v / 4).
  pose proof (Z.mod_pos_bound v 4 ltac:(lia)). pose proof (Z.div_mod v 4 ltac:(lia)).
  repeat apply conj; lia.
Qed.

(** Every 16-bit square is the square of its eight cells. *)
Lemma square_has_cells v :
  0 <= v < 2 ^ 16 ->
  exists c0 c1 c2 c3 c4 c5 c6 c7,
    (0 <= c0 < 4 /\ 0 <= c1 < 4 /\ 0 <= c2 < 4 /\ 0 <= c3 < 4 /\
     0 <= c4 < 4 /\ 0 <= c5 < 4 /\ 0 <= c6 < 4 /\ 0 <= c7 < 4) /\
    v = ofCells [c0; c1; c2; c3; c4; c5; c6; c7].
Proof.
  intros Hv.
  destruct (split4 v (4 ^ 7) ltac:(lia)) as (c0 & v1 & H0 & Hv1 & E0).
  destruct (split4 v1 (4 ^ 6) ltac:(lia)) as (c1 & v2 & H1 & Hv2 & E1).
  destruct (split4 v2 (4 ^ 5) ltac:(lia)) as (c2 & v3 & H2 & Hv3 & E2).
  destruct (split4 v3 (4 ^ 4) ltac:(lia)) as (c3 & v4 & H3 & Hv4 & E3).
  destruct (split4 v4 (4 ^ 3) ltac:(lia)) as (c4 & v5 & H4 & Hv5 & E4).
  destruct (split4 v5 (4 ^ 2) ltac:(lia)) as (c5 & v6 & H5 & Hv6 & E5).
  destruct (split4 v6 (4 ^ 1) ltac:(lia)) as (c6 & v7 & H6 & Hv7 & E6).
  exists c0, c1, c2, c3, c4, c5, c6, v7.
  split; [repeat apply conj; lia |].
  cbn [ofCells fold_right]. lia.
Qed.

Ltac cells_bounds :=
  match goal with
  | H : _ /\ _ |- _ => destruct H as (? & ? & ? & ? & ? & ? & ? & ?)
  end.

(** The rotation by [k] cells, as the code writes it for 2, 4 and 6 cells. *)
Lemma rot_cells_low lo hi n :
  0 <= n <= 16 -> 0 <= lo < 2 ^ n -> 0 <= hi < 2 ^ (16 - n) ->
  Z.lor (Z.shiftr (lo + 2 ^ n * hi) n)
        (u32 (Z.shiftl (Z.land (lo + 2 ^ n * hi) (Z.ones n)) (16 - n)))
  = hi + 2 ^ (16 - n) * lo.
Proof.
  intros Hn Hlo Hhi.
  rewrite Z.shiftr_div_pow2, Z.shiftl_mul_pow2, Z.land_ones by lia.
  assert (Hp : 0 < 2 ^ n) by (apply Z.pow_pos_nonneg; lia).
  replace ((lo + 2 ^ n * hi) / 2 ^ n) with hi
    by (apply (Z.div_unique _ _ _ lo); lia).
  replace ((lo + 2 ^ n * hi) mod 2 ^ n) with lo
    by (apply (Z.mod_unique _ _ hi); lia).
  assert (Hlo' : lo * 2 ^ (16 - n) < 2 ^ 16).
  { replace (2 ^ 16) with (2 ^ n * 2 ^ (16 - n))
      by (rewrite <- Z.pow_add_r by lia; f_equal; lia).
    apply Z.mul_lt_mono_pos_r; [apply Z.pow_pos_nonneg; lia | lia]. }
  assert (Hq : 0 < 2 ^ (16 - n)) by (apply Z.pow_pos_nonneg; lia).
  rewrite (u32_id (lo * 2 ^ (16 - n))) by nia.
  rewrite lor_low_high by lia. lia.
Qed.

Lemma rot4_cells c0 c1 c2 c3 c4 c5 c6 c7 :
  0 <= c0 < 4 /\ 0 <= c1 < 4 /\ 0 <= c2 < 4 /\ 0 <= c3 < 4 /\
  0 <= c4 < 4 /\ 0 <= c5 < 4 /\ 0 <= c6 < 4 /\ 0 <= c7 < 4 ->
  rot4 (ofCells [c0; c1; c2; c3; c4; c5; c6; c7])
  = ofCells [c2; c3; c4; c5; c6; c7; c0; c1].
Proof.
  intros H. cells_bounds. unfold rot4. cbn [ofCells fold_right].
  change 15 with (Z.ones 4). change 12 with (16 - 4).
  replace (c0 + 4 * (c1 + 4 * (c2 + 4 * (c3 + 4 * (c4 + 4 * (c5 + 4 * (c6 + 4 * (c7 + 4 * 0))))))))
    with ((c0 + 4 * c1) + 2 ^ 4 * (c2 + 4 * (c3 + 4 * (c4 + 4 * (c5 + 4 * (c6 + 4 * c7))))))
    by lia.
  rewrite rot_cells_low by lia. lia.
Qed.

Lemma rot8_cells c0 c1 c2 c3 c4 c5 c6 c7 :
  0 <= c0 < 4 /\ 0 <= c1 < 4 /\ 0 <= c2 < 4 /\ 0 <= c3 < 4 /\
  0 <= c4 < 4 /\ 0 <= c5 < 4 /\ 0 <= c6 < 4 /\ 0 <= c7 < 4 ->
  Z.lor (Z.shiftr (ofCells [c0; c1; c2; c3; c4; c5; c6; c7]) 8)
        (u32 (Z.shiftl (Z.land (ofCells [c0; c1; c2; c3; c4; c5; c6; c7]) 255) 8))
  = ofCells [c4; c5; c6; c7; c0; c1; c2; c3].
Proof.
  intros H. cells_bounds. cbn [ofCells fold_right].
  change 255 with (Z.ones 8). change (Z.shiftl ?x 8) with (Z.shiftl x (16 - 8)).
  replace (c0 + 4 * (c1 + 4 * (c2 + 4 * (c3 + 4 * (c4 + 4 * (c5 + 4 * (c6 + 4 * (c7 + 4 * 0))))))))
    with ((c0 + 4 * (c1 + 4 * (c2 + 4 * c3))) + 2 ^ 8 * (c4 + 4 * (c5 + 4 * (c6 + 4 * c7))))
    by lia.
  rewrite rot_cells_low by lia. lia.
Qed.

Lemma rot12_cells c0 c1 c2 c3 c4 c5 c6 c7 :
  0 <= c0 < 4 /\ 0 <= c1 < 4 /\ 0 <= c2 < 4 /\ 0 <= c3 < 4 /\
  0 <= c4 < 4 /\ 0 <= c5 < 4 /\ 0 <= c6 < 4 /\ 0 <= c7 < 4 ->
  Z.lor (Z.shiftr (ofCells [c0; c1; c2; c3; c4; c5; c6; c7]) 12)
        (u32 (Z.shiftl (Z.land (ofCells [c0; c1; c2; c3; c4; c5; c6; c7]) 4095) 4))
  = ofCells [c6; c7; c0; c1; c2; c3; c4; c5].
Proof.
  intros H. cells_bounds. cbn [ofCells fold_right].
  change 4095 with (Z.ones 12). change (Z.shiftl ?x 4) with (Z.shiftl x (16 - 12)).
  replace (c0 + 4 * (c1 + 4 * (c2 + 4 * (c3 + 4 * (c4 + 4 * (c5 + 4 * (c6 + 4 * (c7 + 4 * 0))))))))
    with ((c0 + 4 * (c1 + 4 * (c2 + 4 * (c3 + 4 * (c4 + 4 * c5))))) + 2 ^ 12 * (c6 + 4 * c7))
    by lia.
  rewrite rot_cells_low by lia. lia.
Qed.

Lemma ofCells_nonneg l : Forall (fun c => 0 <= c < 4) l -> 0 <= ofCells l.
Proof. induction 1 as [| c l Hc _ IH]; cbn [ofCells fold_right]; [lia |]. fold (ofCells l). lia. Qed.

Lemma cell_of_cells l :
  Forall (fun c => 0 <= c < 4) l ->
  forall i c, l !! i = Some c ->
    Z.land (Z.shiftr (ofCells l) (Z.of_nat i * 2)) 3 = c.
Proof.
  induction 1 as [| c0 l Hc HF IH]; intros i c Hi; [discriminate |].
  pose proof (ofCells_nonneg l HF) as Hnn.
  cbn [ofCells fold_right]. fold (ofCells l).
  destruct i as [| i].
  - injection Hi as <-. cbn [Z.of_nat Z.mul]. rewrite Z.shiftr_0_r.
    change 3 with (Z.ones 2). rewrite Z.land_ones by lia.
    symmetry. apply (Z.mod_unique _ _ (ofCells l)); lia.
  - cbn [lookup list_lookup] in Hi.
    replace (Z.of_nat (S i) * 2) with (2 + Z.of_nat i * 2) by lia.
    rewrite <- Z.shiftr_shiftr by lia.
    replace (Z.shiftr (c0 + 4 * ofCells l) 2) with (ofCells l).
    + apply IH. exact Hi.
    + rewrite Z.shiftr_div_pow2 by lia. apply (Z.div_unique _ _ _ c0); lia.
Qed.

Lemma cellsOf_cells c0 c1 c2 c3 c4 c5 c6 c7 :
  0 <= c0 < 4 /\ 0 <= c1 < 4 /\ 0 <= c2 < 4 /\ 0 <= c3 < 4 /\
  0 <= c4 < 4 /\ 0 <= c5 < 4 /\ 0 <= c6 < 4 /\ 0 <= c7 < 4 ->
  cellsOf (ofCells [c0; c1; c2; c3; c4; c5; c6; c7]) = [c0; c1; c2; c3; c4; c5; c6; c7].
Proof.
  intros H. cells_bounds.
  assert (HF : Forall (fun c => 0 <= c < 4) [c0; c1; c2; c3; c4; c5; c6; c7])
    by (repeat constructor; lia).
  unfold cellsOf. change (seqZ 0 8) with [0; 1; 2; 3; 4; 5; 6; 7]. cbn [map].
  rewrite (cell_of_cells _ HF 0%nat c0 eq_refl
            : Z.land (Z.shiftr _ (0 * 2)) 3 = c0).
  rewrite (cell_of_cells _ HF 1%nat c1 eq_refl
            : Z.land (Z.shiftr _ (1 * 2)) 3 = c1).
  rewrite (cell_of_cells _ HF 2%nat c2 eq_refl
            : Z.land (Z.shiftr _ (2 * 2)) 3 = c2).
  rewrite (cell_of_cells _ HF 3%nat c3 eq_refl
            : Z.land (Z.shiftr _ (3 * 2)) 3 = c3).
  rewrite (cell_of_cells _ HF 4%nat c4 eq_refl
            : Z.land (Z.shiftr _ (4 * 2)) 3 = c4).
  rewrite (cell_of_cells _ HF 5%nat c5 eq_refl
            : Z.land (Z.shiftr _ (5 * 2)) 3 = c5).
  rewrite (cell_of_cells _ HF 6%nat c6 eq_refl
            : Z.land (Z.shiftr _ (6 * 2)) 3 = c6).
  rewrite (cell_of_cells _ HF 7%nat c7 eq_refl
            : Z.land (Z.shiftr _ (7 * 2)) 3 = c7).
  reflexivity.
Qed.

Lemma flip_step sq c :
  0 <= sq < 2 ^ 14 -> 0 <= c < 4 -> Z.lor (u32 (Z.shiftl sq 2)) c = 4 * sq + c.
Proof.
  intros Hsq Hc. rewrite Z.shiftl_mul_pow2 by lia. rewrite u32_id by lia.
  rewrite Z.lor_comm. rewrite lor_low_high by lia. lia.
Qed.

Lemma flipCells_cells c0 c1 c2 c3 c4 c5 c6 c7 :
  0 <= c0 < 4 /\ 0 <= c1 < 4 /\ 0 <= c2 < 4 /\ 0 <= c3 < 4 /\
  0 <= c4 < 4 /\ 0 <= c5 < 4 /\ 0 <= c6 < 4 /\ 0 <= c7 < 4 ->
  flipCells [c0; c1; c2; c3; c4; c5; c6; c7] = ofCells [c0; c7; c6; c5; c4; c3; c2; c1].
Proof.
  intros H. cells_bounds.
  unfold flipCells. change (seqZ 0 8) with [0; 1; 2; 3; 4; 5; 6; 7].
  cbn [fold_left].
  change (ix [c0; c1; c2; c3; c4; c5; c6; c7] ((0 + 1) mod 8)) with (Some c1).
  change (ix [c0; c1; c2; c3; c4; c5; c6; c7] ((1 + 1) mod 8)) with (Some c2).
  change (ix [c0; c1; c2; c3; c4; c5; c6; c7] ((2 + 1) mod 8)) with (Some c3).
  change (ix [c0; c1; c2; c3; c4; c5; c6; c7] ((3 + 1) mod 8)) with (Some c4).
  change (ix [c0; c1; c2; c3; c4; c5; c6; c7] ((4 + 1) mod 8)) with (Some c5).
  change (ix [c0; c1; c2; c3; c4; c5; c6; c7] ((5 + 1) mod 8)) with (Some c6).
  change (ix [c0; c1; c2; c3; c4; c5; c6; c7] ((6 + 1) mod 8)) with (Some c7).
  change (ix [c0; c1; c2; c3; c4; c5; c6; c7] ((7 + 1) mod 8)) with (Some c0).
  cbn [default from_option id].
  rewrite (flip_step 0 c1) by lia.
  rewrite (flip_step _ c2) by lia.
  rewrite (flip_step _ c3) by lia.
  rewrite (flip_step _ c4) by lia.
  rewrite (flip_step _ c5) by lia.
  rewrite (flip_step _ c6) by lia.
  rewrite (flip_step _ c7) by lia.
  rewrite (flip_step _ c0) by lia.
  cbn [ofCells fold_right]. lia.
Qed.

Ltac cells_side := repeat apply conj; lia.

Ltac search_step :=
  first [ rewrite rot4_cells by cells_side
        | rewrite cellsOf_cells by cells_side
        | rewrite flipCells_cells by cells_side
        | rewrite Z.eqb_refl; reflexivity
        | match goal with
          | |- context [Z.eqb ?a ?b] => destruct (Z.eqb a b); [reflexivity |]
          end ].

(** The candidate [genSolution] builds from the reference, for either flip
    and each of the four rotations, passes [testSolution]. *)
Lemma built_solution_passes p (flipped : bool) r :
  0 <= Reference p < 2 ^ 16 -> 0 <= r < 4 ->
  testSolution p
    (let sol := Reference p in
     let sol := if flipped then flipCells (cellsOf sol) else sol in
     if r =? p1Sol90Rot then Z.lor (Z.shiftr sol 4) (u32 (Z.shiftl (Z.land sol 15) 12))
     else if r =? p1Sol180Rot then Z.lor (Z.shiftr sol 8) (u32 (Z.shiftl (Z.land sol 255) 8))
     else if r =? p1Sol270Rot then Z.lor (Z.shiftr sol 12) (u32 (Z.shiftl (Z.land sol 4095) 4))
     else sol) = true.
Proof.
  intros Href Hr.
  destruct (square_has_cells _ Href) as (c0 & c1 & c2 & c3 & c4 & c5 & c6 & c7 & Hc & E).
  unfold testSolution. rewrite E. clear E Href. cells_bounds.
  cbv zeta.
  assert (Hcases : r = 0 \/ r = 1 \/ r = 2 \/ r = 3) by lia.
  destruct flipped; [rewrite cellsOf_cells, flipCells_cells by cells_side |];
    destruct Hcases as [-> | [-> | [-> | ->]]];
    cbn [Z.eqb Pos.eqb p1Sol90Rot p1Sol180Rot p1Sol270Rot];
    fold (rot4 (ofCells [c0; c7; c6; c5; c4; c3; c2; c1]));
    fold (rot4 (ofCells [c0; c1; c2; c3; c4; c5; c6; c7]));
    rewrite ?rot8_cells, ?rot12_cells by cells_side;
    cbn [rotateSearch]; cbv zeta;
    repeat search_step.
Qed.

Lemma Intn_Done rnd n s v s' :
  Intn rnd n s = Done (v, s') -> 0 <= v < n.
Proof.
  unfold Intn. destruct (Z.leb_spec n 0) as [Hn | Hn]; [discriminate |].
  intros H. run_inv. subst. apply Z.mod_pos_bound. lia.
Qed.

Lemma testSolution_reference p1 p2 sq :
  Reference p1 = Reference p2 -> testSolution p1 sq = testSolution p2 sq.
Proof. intros E. unfold testSolution. rewrite E. reflexivity. Qed.

(** What [genSolution] returns: the candidate built from the reference by
    the drawn flip and rotation, stored in the drawn slot. *)
Lemma genSolution_Done rnd p s p' s' :
  genSolution rnd p s = Done (p', s') ->
  exists k (flipped : bool) r,
    0 <= k < 8 /\ 0 <= r < 4 /\
    Reference p' = Reference p /\ SolutionOffset p' = 4 * k /\
    ix (Candidates p') k
    = Some (let sol := Reference p in
             let sol := if flipped then flipCells (cellsOf sol) else sol in
             if r =? p1Sol90Rot then Z.lor (Z.shiftr sol 4) (u32 (Z.shiftl (Z.land sol 15) 12))
             else if r =? p1Sol180Rot then Z.lor (Z.shiftr sol 8) (u32 (Z.shiftl (Z.land sol 255) 8))
             else if r =? p1Sol270Rot then Z.lor (Z.shiftr sol 12) (u32 (Z.shiftl (Z.land sol 4095) 4))
             else sol) /\
    (forall j, j <> k -> ix (Candidates p') j = ix (Candidates p) j).
Proof.
  intros H. unfold genSolution in H.
  apply bind_Done in H as (o & s1 & Ho & H). apply Intn_Done in Ho.
  apply bind_Done in H as (f & s2 & Hf & H). apply Intn_Done in Hf.
  apply bind_Done in H as (r & s3 & Hr & H). apply Intn_Done in Hr.
  cbv zeta in H.
  apply bind_Done in H as (cands & s4 & Hc & H).
  apply ret_Done in H as [-> ->].
  rewrite (u32_id (4 * o)) in Hc |- * by lia.
  replace (4 * o / 4) with o in Hc by (rewrite Z.mul_comm, Z.div_mul; lia).
  unfold orPanic in Hc.
  match type of Hc with
  | match setIx _ _ ?sol with _ => _ end _ = _ => set (sl := sol) in *
  end.
  destruct (setIx (Candidates p) o sl) as [cs |] eqn:Hset; [| discriminate].
  apply ret_Done in Hc as [-> ->].
  unfold setIx in Hset.
  destruct (Z.ltb_spec o 0); [lia |].
  destruct (Z.ltb_spec o (Z.of_nat (length (Candidates p)))); [| discriminate].
  injection Hset as <-.
  cbn [Reference SolutionOffset Candidates].
  exists o, (f =? 0), r. repeat apply conj; try lia; try reflexivity.
  - rewrite ix_lookup by lia. apply list_lookup_insert_eq. lia.
  - intros j Hj. unfold ix. destruct (Z.ltb_spec j 0); [reflexivity |].
    apply list_lookup_insert_ne. lia.
Qed.

(** X16.  the candidate [genSolution] stores is at a word offset in [0, 28] and
    passes [testSolution]. *)
Theorem genSolution_passes_test rnd p s p' s' :
  0 <= Reference p < 2 ^ 16 ->
  genSolution rnd p s = Done (p', s') ->
  Reference p' = Reference p /\
  exists k sol,
    0 <= k < 8 /\ SolutionOffset p' = 4 * k /\
    ix (Candidates p') k = Some sol /\
    (forall j, j <> k -> ix (Candidates p') j = ix (Candidates p) j) /\
    testSolution p' sol = true.
Proof.
  intros Href H.
  destruct (genSolution_Done _ _ _ _ _ H) as (k & flipped & r & Hk & Hr & R & O & Hsol & Hkeep).
  split; [exact R |].
  eexists k, _. repeat apply conj; try lia; try eassumption.
  rewrite (testSolution_reference _ p) by exact R.
  exact (built_solution_passes p flipped r Href Hr).
Qed.

(** ** The squares [genSquare] accepts *)

Lemma land_cell_mask t i :
  0 <= i ->
  Z.land t (Z.shiftl 3 (i * 2)) = Z.shiftl (Z.land (Z.shiftr t (i * 2)) 3) (i * 2).
Proof.
  intros Hi. apply Z.bits_inj'. intros n Hn.
  rewrite Z.land_spec. destruct (Z.ltb_spec n (i * 2)).
  - rewrite !Z.shiftl_spec_low by lia. apply andb_false_r.
  - rewrite !Z.shiftl_spec by lia. rewrite Z.land_spec, Z.shiftr_spec by lia.
    replace (n - i * 2 + i * 2) with n by lia. reflexivity.
Qed.

Lemma shiftl_eqb a b k : 0 <= k -> (Z.shiftl a k =? Z.shiftl b k) = (a =? b).
Proof.
  intros Hk. rewrite !Z.shiftl_mul_pow2 by lia.
  assert (0 < 2 ^ k) by (apply Z.pow_pos_nonneg; lia).
  destruct (Z.eqb_spec a b) as [-> | Hne]; [apply Z.eqb_refl |].
  apply Z.eqb_neq. nia.
Qed.

(** The comparison [t2 == t4] of the check at cell [k < 7] compares cell [k]
    with cell [k + 1]. *)
Lemma neighbour_compare l (k : nat) ci cj :
  Forall (fun c => 0 <= c < 4) l -> (k < 7)%nat ->
  l !! k = Some ci -> l !! S k = Some cj ->
  (Z.land (ofCells l) (u32 (Z.shiftl 3 ((Z.of_nat k * 2) mod 16)))
   =? Z.shiftr (Z.land (ofCells l) (u32 (Z.shiftl 3 ((Z.of_nat k * 2 + 2) mod 16)))) 2)
  = (ci =? cj).
Proof.
  intros HF Hk Hi Hj.
  rewrite (Z.mod_small (Z.of_nat k * 2) 16) by lia.
  rewrite (Z.mod_small (Z.of_nat k * 2 + 2) 16) by lia.
  assert (Hm : forall j, 0 <= j < 16 -> u32 (Z.shiftl 3 j) = Z.shiftl 3 j).
  { intros j Hj'. apply u32_id. rewrite Z.shiftl_mul_pow2 by lia.
    assert (0 < 2 ^ j) by (apply Z.pow_pos_nonneg; lia).
    assert (2 ^ j <= 2 ^ 15) by (apply Z.pow_le_mono_r; lia). lia. }
  rewrite !Hm by lia.
  replace (Z.of_nat k * 2 + 2) with (Z.of_nat (S k) * 2) by lia.
  rewrite !land_cell_mask by lia.
  rewrite (cell_of_cells l HF k ci Hi), (cell_of_cells l HF (S k) cj Hj).
  rewrite Z.shiftr_shiftl_l by lia.
  replace (Z.of_nat (S k) * 2 - 2) with (Z.of_nat k * 2) by lia.
  apply shiftl_eqb. lia.
Qed.

(** At cell 7 the comparison is with 0. *)
Lemma last_compare l c7 :
  Forall (fun c => 0 <= c < 4) l -> l !! 7%nat = Some c7 ->
  (Z.land (ofCells l) (u32 (Z.shiftl 3 ((7 * 2) mod 16)))
   =? Z.shiftr (Z.land (ofCells l) (u32 (Z.shiftl 3 ((7 * 2 + 2) mod 16)))) 2)
  = (c7 =? 0).
Proof.
  intros HF H7. rewrite wrap_cell_reads_zero.
  change (u32 (Z.shiftl 3 ((7 * 2) mod 16))) with (Z.shiftl 3 (7 * 2)).
  rewrite land_cell_mask by lia.
  rewrite (cell_of_cells l HF 7%nat c7 H7 : Z.land (Z.shiftr _ (7 * 2)) 3 = c7).
  change 0 with (Z.shiftl 0 (7 * 2)) at 1. apply shiftl_eqb. lia.
Qed.

Lemma squareCells_step t n i :
  squareCells t (S n) i
  = if Z.land t (u32 (Z.shiftl 3 ((i * 2) mod 16)))
       =? Z.shiftr (Z.land t (u32 (Z.shiftl 3 ((i * 2 + 2) mod 16)))) 2
    then false
    else if i =? 7 then true else squareCells t n (i + 1).
Proof. reflexivity. Qed.

Ltac nb_step HF k i ci cj :=
  rewrite squareCells_step;
  rewrite (neighbour_compare _ k ci cj HF ltac:(lia) eq_refl eq_refl
           : (Z.land _ (u32 (Z.shiftl 3 ((i * 2) mod 16)))
              =? Z.shiftr (Z.land _ (u32 (Z.shiftl 3 ((i * 2 + 2) mod 16)))) 2)
             = (ci =? cj)).

(** The check of [genSquare], on the cells. *)
Lemma squareCells_cells c0 c1 c2 c3 c4 c5 c6 c7 :
  0 <= c0 < 4 /\ 0 <= c1 < 4 /\ 0 <= c2 < 4 /\ 0 <= c3 < 4 /\
  0 <= c4 < 4 /\ 0 <= c5 < 4 /\ 0 <= c6 < 4 /\ 0 <= c7 < 4 ->
  squareCells (ofCells [c0; c1; c2; c3; c4; c5; c6; c7]) 8 0
  = negb (c0 =? c1) && negb (c1 =? c2) && negb (c2 =? c3) && negb (c3 =? c4)
    && negb (c4 =? c5) && negb (c5 =? c6) && negb (c6 =? c7) && negb (c7 =? 0).
Proof.
  intros H. cells_bounds.
  assert (HF : Forall (fun c => 0 <= c < 4) [c0; c1; c2; c3; c4; c5; c6; c7])
    by (repeat constructor; lia).
  nb_step HF 0%nat 0 c0 c1.
  change (0 =? 7) with false. change (0 + 1) with 1.
  nb_step HF 1%nat 1 c1 c2.
  change (1 =? 7) with false. change (1 + 1) with 2.
  nb_step HF 2%nat 2 c2 c3.
  change (2 =? 7) with false. change (2 + 1) with 3.
  nb_step HF 3%nat 3 c3 c4.
  change (3 =? 7) with false. change (3 + 1) with 4.
  nb_step HF 4%nat 4 c4 c5.
  change (4 =? 7) with false. change (4 + 1) with 5.
  nb_step HF 5%nat 5 c5 c6.
  change (5 =? 7) with false. change (5 + 1) with 6.
  nb_step HF 6%nat 6 c6 c7.
  change (6 =? 7) with false. change (6 + 1) with 7.
  rewrite squareCells_step.
  rewrite (last_compare _ c7 HF eq_refl).
  change (7 =? 7) with true.
  destruct (c0 =? c1), (c1 =? c2), (c2 =? c3), (c3 =? c4), (c4 =? c5), (c5 =? c6),
    (c6 =? c7), (c7 =? 0); reflexivity.
Qed.

Lemma genSquare_Done rnd fuel s t s' :
  genSquare rnd fuel s = Done (t, s') ->
  0 <= t < 2 ^ 16 /\ squareCells t 8 0 = true.
Proof.
  revert s. induction fuel as [| fuel IH]; intros s H; [discriminate |].
  cbn [genSquare] in H.
  apply bind_Done in H as (v & s1 & Hv & H). apply Intn_Done in Hv.
  rewrite (u32_id v) in H by lia.
  destruct (squareCells v 8 0) eqn:Hsq.
  - apply ret_Done in H as [-> ->]. split; [lia | exact Hsq].
  - exact (IH _ H).
Qed.

(** X15.  in a square [genSquare] returns, each of the cells 0..6 differs from
    the next cell, and cell 7 is not 0. *)
Theorem genSquare_neighbours_differ rnd fuel s t s' :
  genSquare rnd fuel s = Done (t, s') ->
  exists c0 c1 c2 c3 c4 c5 c6 c7,
    (0 <= c0 < 4 /\ 0 <= c1 < 4 /\ 0 <= c2 < 4 /\ 0 <= c3 < 4 /\
     0 <= c4 < 4 /\ 0 <= c5 < 4 /\ 0 <= c6 < 4 /\ 0 <= c7 < 4) /\
    t = ofCells [c0; c1; c2; c3; c4; c5; c6; c7] /\
    c0 <> c1 /\ c1 <> c2 /\ c2 <> c3 /\ c3 <> c4 /\ c4 <> c5 /\ c5 <> c6 /\ c6 <> c7 /\
    c7 <> 0.
Proof.
  intros H. apply genSquare_Done in H as [Ht Hsq].
  destruct (square_has_cells t Ht) as (c0 & c1 & c2 & c3 & c4 & c5 & c6 & c7 & Hc & E).
  exists c0, c1, c2, c3, c4, c5, c6, c7.
  split; [exact Hc |]. split; [exact E |].
  rewrite E, (squareCells_cells _ _ _ _ _ _ _ _ Hc) in Hsq.
  repeat (apply andb_prop in Hsq as [Hsq ?]).
  repeat match goal with
         | H : negb (_ =? _) = true |- _ =>
             apply negb_true_iff in H; apply Z.eqb_neq in H
         end.
  repeat apply conj; assumption.
Qed.

(** ** The scenario [swi582] attaches *)

Lemma orPanic_Done {A : Type} (o : option A) (s : instance) a s' :
  orPanic o s = Done (a, s') -> o = Some a /\ s' = s.
Proof.
  destruct o as [x |]; [| discriminate].
  intros H. apply ret_Done in H as [-> ->]. split; reflexivity.
Qed.

(** A distractor is a square that fails [testSolution], stored in its slot. *)
Lemma genDummy_Done rnd fuel p a i w s p' s' :
  genDummy rnd fuel p a i w s = Done (p', s') ->
  exists t,
    testSolution p t = false /\
    setIx (Candidates p) i t = Some (Candidates p') /\
    Reference p' = Reference p /\ SolutionOffset p' = SolutionOffset p /\
    ReportedOffset p' = ReportedOffset p.
Proof.
  revert w s. induction fuel as [| fuel IH]; intros w s H; [discriminate |].
  cbn [genDummy] in H.
  apply bind_Done in H as (t & s1 & Ht & H).
  destruct (testSolution p t) eqn:Htest; cbn [negb] in H.
  - destruct (w + 1 >? 1000).
    + apply bind_Done in H as (u & s2 & _ & H). exact (IH _ _ H).
    + exact (IH _ _ H).
  - apply bind_Done in H as (cands & s2 & Hc & H). apply orPanic_Done in Hc as [Hc ->].
    apply bind_Done in H as (u & s3 & _ & H). apply ret_Done in H as [-> ->].
    exists t. repeat apply conj; try reflexivity; assumption.
Qed.

Lemma setIx_Some {A : Type} (l l' : list A) i v :
  setIx l i v = Some l' ->
  0 <= i < Z.of_nat (length l) /\ l' = <[Z.to_nat i := v]> l.
Proof.
  unfold setIx. destruct (Z.ltb_spec i 0); [discriminate |].
  destruct (Z.ltb_spec i (Z.of_nat (length l))); [| discriminate].
  intros H'. injection H' as <-. split; [lia | reflexivity].
Qed.

Lemma ix_setIx_same {A : Type} (l l' : list A) i v :
  setIx l i v = Some l' -> ix l' i = Some v.
Proof.
  intros H. apply setIx_Some in H as [Hi ->].
  rewrite ix_lookup by lia. apply list_lookup_insert_eq. lia.
Qed.

Lemma ix_setIx_other {A : Type} (l l' : list A) i j v :
  setIx l i v = Some l' -> j <> i -> ix l' j = ix l j.
Proof.
  intros H Hne. apply setIx_Some in H as [Hi ->].
  unfold ix. destruct (Z.ltb_spec j 0); [reflexivity |].
  apply list_lookup_insert_ne. lia.
Qed.

(** The loop over the slots: the solution's slot and the slots not visited
    keep their square; every other visited slot holds a square that fails
    [testSolution]. *)
Lemma genDummies_Done rnd fuel a slots :
  NoDup slots ->
  forall p s p' s',
    genDummies rnd fuel p a slots s = Done (p', s') ->
    Reference p' = Reference p /\ SolutionOffset p' = SolutionOffset p /\
    ReportedOffset p' = ReportedOffset p /\
    (forall j, j = SolutionOffset p / 4 \/ ~ In j slots ->
       ix (Candidates p') j = ix (Candidates p) j) /\
    (forall j, In j slots -> j <> SolutionOffset p / 4 ->
       exists t, ix (Candidates p') j = Some t /\ testSolution p t = false).
Proof.
  induction 1 as [| i rest Hni Hnd IH]; intros p s p' s' H; cbn [genDummies] in H.
  - apply ret_Done in H as [-> ->]. repeat apply conj; try reflexivity.
    intros j [].
  - assert (Hni' : ~ In i rest) by (intros Hin; apply Hni; apply list_elem_of_In; exact Hin).
    destruct (Z.eqb_spec (SolutionOffset p / 4) i) as [Ei | Ei].
    + destruct (IH _ _ _ _ H) as (R & O & P & Keep & Dum).
      repeat apply conj; try assumption.
      * intros j [Hj | Hj]; apply Keep; [left; exact Hj | right].
        intros Hin. apply Hj. right. exact Hin.
      * intros j [<- | Hin] Hne; [congruence |]. exact (Dum j Hin Hne).
    + apply bind_Done in H as (p1 & s1 & H1 & H).
      apply genDummy_Done in H1 as (t & Htest & Hset & R1 & O1 & P1).
      destruct (IH _ _ _ _ H) as (R & O & P & Keep & Dum).
      rewrite O1 in Keep, Dum.
      repeat apply conj; try congruence.
      * intros j Hj. rewrite Keep.
        -- apply (ix_setIx_other _ _ _ _ _ Hset).
           destruct Hj as [-> | Hj]; [congruence |].
           intros ->. apply Hj. left. reflexivity.
        -- destruct Hj as [Hj | Hj]; [left; exact Hj | right].
           intros Hin. apply Hj. right. exact Hin.
      * intros j [<- | Hin] Hne.
        -- exists t. split; [| exact Htest].
           rewrite Keep by (right; exact Hni').
           exact (ix_setIx_same _ _ _ _ Hset).
        -- destruct (Dum j Hin Hne) as (t' & Ht' & Hf).
           exists t'. split; [exact Ht' |].
           rewrite <- Hf. apply testSolution_reference. congruence.
Qed.

(** X17.  the scenario [swi582] attaches has a 16-bit reference and eight
    candidates of which the one at [SolutionOffset] passes [testSolution]
    and no other does; nothing is reported as solved yet. *)
Theorem swi582_one_solution rnd fuel s s' :
  swi582 rnd fuel s = Done (tt, s') ->
  exists p k,
    swiContext s' = CtxP1 p /\
    0 <= Reference p < 2 ^ 16 /\
    ReportedOffset p = 305419896 /\
    0 <= k < 8 /\ SolutionOffset p = 4 * k /\
    forall j, 0 <= j < 8 ->
      exists c, ix (Candidates p) j = Some c /\ testSolution p c = (j =? k).
Proof.
  intros H. unfold swi582 in H.
  apply bind_Done in H as (u0 & s0 & _ & H).
  apply bind_Done in H as (ok & s1 & _ & H).
  apply bind_Done in H as (u1 & s2 & _ & H).
  apply bind_Done in H as (ref & s3 & Href & H). apply genSquare_Done in Href as [Href _].
  apply bind_Done in H as (p0 & s4 & Hsol & H).
  apply genSolution_Done in Hsol.
  destruct Hsol as (k & flipped & rot & Hk & Hrot & R0 & Hoff & Hsolk & _).
  cbn [Reference Candidates] in R0, Hsolk.
  pose proof (built_solution_passes (mkProject1 ref (replicate 8 0) 0 0 false 0)
                flipped rot Href Hrot) as Hpass.
  cbn [Reference] in Hpass.
  match type of Hsolk with _ = Some ?c => set (sol := c) in * end.
  cbv zeta in H.
  apply bind_Done in H as (r & s5 & _ & H).
  apply bind_Done in H as (a & s6 & _ & H).
  apply bind_Done in H as (u2 & s7 & _ & H).
  apply bind_Done in H as (sol' & s8 & _ & H).
  apply bind_Done in H as (u3 & s9 & _ & H).
  apply bind_Done in H as (p & s10 & Hd & H).
  apply modify_Done in H as ->.
  assert (Hnd : NoDup (seqZ 0 8)) by apply NoDup_seqZ.
  apply (genDummies_Done _ _ _ _ Hnd) in Hd.
  cbn [Reference Candidates SolutionOffset ReportedOffset] in Hd.
  destruct Hd as (R & O & P & Keep & Dum).
  assert (Hdiv : SolutionOffset p0 / 4 = k).
  { rewrite Hoff, Z.mul_comm, Z.div_mul by lia. reflexivity. }
  rewrite Hdiv in Keep, Dum.
  exists p, k. cbn [swiContext setSwiContext].
  repeat apply conj; try lia; try congruence.
  intros j Hj. destruct (Z.eqb_spec j k) as [-> | Hne].
  - exists sol. split.
    + rewrite Keep by (left; reflexivity). exact Hsolk.
    + rewrite <- Hpass. apply testSolution_reference. cbn [Reference]. congruence.
  - assert (Hin : In j (seqZ 0 8)).
    { apply list_elem_of_In, elem_of_seqZ. lia. }
    destruct (Dum j Hin Hne) as (t & Ht & Hf).
    exists t. split; [exact Ht |].
    rewrite <- Hf. apply testSolution_reference. cbn [Reference]. congruence.
Qed.

(** X18.  with a scenario of [swi582] attached and a word offset in [0, 28] in
    register 3, [swi583] records the offset as reported and writes the
    solution's offset to register 6.  The parameter error is reported when
    register 1, not register 3, is uninitialized. *)
Theorem swi583_reports_solution s p v :
  swiContext s = CtxP1 p -> length (regs s) = 32%nat ->
  Z.land (Z.shiftr (regInit s) 3) 1 = 1 -> ix (regs s) 3 = Some v ->
  0 <= v <= 28 -> v mod 4 = 0 ->
  exists s1,
    swi583 s = Done (tt, s1) /\
    swiContext s1
    = CtxP1 (mkProject1 (Reference p) (Candidates p) (SolutionOffset p)
               (SolutionRotation p) (SolutionFlipped p) v) /\
    regAccess 6 s1 = Done (SolutionOffset p, s1) /\
    map EType (errors s1)
    = map EType (errors s)
      ++ (if Z.land (Z.shiftr (regInit s) 1) 1 =? 1 then []
          else [eSoftwareInterruptParameter]).
Proof.
  intros Hctx Hlen Hinit Hv Hrange Hal.
  unfold swi583.
  rewrite (bind_run _ _ _ (swiContext s) s eq_refl). rewrite Hctx.
  rewrite (bind_run _ _ _ (Z.land (Z.shiftr (regInit s) 1) 1 =? 1) s eq_refl).
  set (s0 := if Z.land (Z.shiftr (regInit s) 1) 1 =? 1 then s
             else setErrors (errors s ++
                    [mkError eSoftwareInterruptParameter
                       (mkText (pc s) (u32 (di s + 1))
                          "register $3 uninitialized for swi 583 call. $3 should hold the byte offset of the solution from the first candidate" [])]) s).
  assert (Hs0 : regs s0 = regs s /\ regInit s0 = regInit s /\
                map EType (errors s0)
                = map EType (errors s)
                  ++ (if Z.land (Z.shiftr (regInit s) 1) 1 =? 1 then []
                      else [eSoftwareInterruptParameter])).
  { unfold s0. destruct (Z.land (Z.shiftr (regInit s) 1) 1 =? 1).
    - rewrite app_nil_r. repeat split; reflexivity.
    - cbn [regs regInit errors setErrors]. rewrite map_app. repeat split; reflexivity. }
  destruct Hs0 as (Hr0 & Hi0 & He0).
  assert (Hstep : (if negb (Z.land (Z.shiftr (regInit s) 1) 1 =? 1)
                   then reportError eSoftwareInterruptParameter
                          "register $3 uninitialized for swi 583 call. $3 should hold the byte offset of the solution from the first candidate" []
                   else ret tt) s = Done (tt, s0)).
  { unfold s0. destruct (Z.land (Z.shiftr (regInit s) 1) 1 =? 1); reflexivity. }
  rewrite (bind_run _ _ _ _ _ Hstep).
  assert (Hacc : regAccess 3 s0 = Done (v, s0)).
  { unfold regAccess, mbind, StateM_bind, gets. rewrite Hi0, Hinit.
    change (1 =? 1) with true. cbn [negb]. rewrite Hr0, Hv. reflexivity. }
  rewrite (bind_run _ _ _ _ _ Hacc). cbv zeta.
  unfold modify at 1. unfold mbind at 1, StateM_bind at 1.
  destruct (Z.gtb_spec v 28) as [? | _]; [lia |].
  rewrite Hal. cbn [Z.eqb negb orb SolutionOffset].
  set (s2 := setSwiContext _ s0).
  assert (Hlen2 : length (regs s2) = 32%nat)
    by (unfold s2; cbn [regs setSwiContext]; congruence).
  pose proof (regWrite_run 6 (SolutionOffset p) s2 ltac:(lia) Hlen2) as Hw.
  pose proof (regAccess_written 6 (SolutionOffset p) s2 ltac:(lia) Hlen2) as Hrd.
  eexists. repeat apply conj.
  - exact Hw.
  - reflexivity.
  - exact Hrd.
  - cbn [errors setRegs setRegInit]. unfold s2. cbn [errors setSwiContext]. exact He0.
Qed.

(** ** The pile of the bounding-box puzzle: one byte per point *)

Lemma lane_same w c sh :
  0 <= sh -> sh + 8 <= 32 -> 0 <= c < 2 ^ 8 ->
  Z.land (Z.shiftr (Z.lor (Z.land w (Z.lxor (Z.shiftl (Z.ones 8) sh) (Z.ones 32)))
                          (Z.shiftl c sh)) sh) (Z.ones 8) = c.
Proof.
  intros Hsh Hsh' Hc. apply Z.bits_inj'. intros n Hn.
  tb_push. tb_split; cbn [andb orb xorb]; tb_fields n; tb_bool; try reflexivity.
Qed.

Lemma lane_other w c sh sh' :
  0 <= sh -> 0 <= sh' -> sh' + 8 <= 32 -> sh + 8 <= sh' \/ sh' + 8 <= sh ->
  0 <= c < 2 ^ 8 ->
  Z.land (Z.shiftr (Z.lor (Z.land w (Z.lxor (Z.shiftl (Z.ones 8) sh) (Z.ones 32)))
                          (Z.shiftl c sh)) sh') (Z.ones 8)
  = Z.land (Z.shiftr w sh') (Z.ones 8).
Proof.
  intros Hsh Hsh' Hle Hd Hc. apply Z.bits_inj'. intros n Hn.
  tb_push. tb_split; cbn [andb orb xorb]; tb_fields n; tb_bool; try reflexivity.
Qed.

Lemma lane_shift x : 0 <= x -> shiftCount (Z.rem x 4 * 8) = Some (x mod 4 * 8).
Proof.
  intros Hx. rewrite Z.rem_mod_nonneg by lia.
  pose proof (Z.mod_pos_bound x 4 ltac:(lia)).
  unfold shiftCount. destruct (Z.ltb_spec (x mod 4 * 8) 0); [lia | reflexivity].
Qed.

(** X19.  a point plotted is the point read back, and no other point of the
    64 x 64 pile changes. *)
Theorem plotPoint_then_getPoint p x y color :
  0 <= x < 64 -> 0 <= y < 64 -> length (Pile p) = 1024%nat -> 0 <= color < 256 ->
  exists p',
    plotPoint p x y color = Some p' /\
    getPoint p' x y = Some color /\
    forall x' y', 0 <= x' < 64 -> 0 <= y' < 64 -> (x', y') <> (x, y) ->
      getPoint p' x' y' = getPoint p x' y'.
Proof.
  intros Hx Hy Hlen Hc.
  pose proof (Z.mod_pos_bound x 4 ltac:(lia)) as Hm.
  assert (Hq : 0 <= x / 4 < 16)
    by (split; [apply Z.div_pos; lia | apply Z.div_lt_upper_bound; lia]).
  set (i := y * 16 + x / 4).
  assert (Hi : 0 <= i < 1024) by (unfold i; lia).
  destruct (lookup_lt_is_Some_2 (Pile p) (Z.to_nat i) ltac:(lia)) as [w Hw].
  set (sh := x mod 4 * 8).
  set (w' := Z.lor (Z.land w (Z.lxor (u32 (Z.shiftl 255 sh)) 4294967295))
                   (u32 (Z.shiftl (u32 color) sh))).
  assert (Hmask : u32 (Z.shiftl 255 sh) = Z.shiftl (Z.ones 8) sh).
  { change (Z.ones 8) with 255. apply u32_id.
    rewrite Z.shiftl_mul_pow2 by (unfold sh; lia).
    assert (0 < 2 ^ sh) by (apply Z.pow_pos_nonneg; unfold sh; lia).
    assert (2 ^ sh <= 2 ^ 24) by (apply Z.pow_le_mono_r; unfold sh; lia). lia. }
  assert (Hcol : u32 (Z.shiftl (u32 color) sh) = Z.shiftl color sh).
  { rewrite (u32_id color) by lia. apply u32_id.
    rewrite Z.shiftl_mul_pow2 by (unfold sh; lia).
    assert (0 < 2 ^ sh) by (apply Z.pow_pos_nonneg; unfold sh; lia).
    assert (2 ^ sh <= 2 ^ 24) by (apply Z.pow_le_mono_r; unfold sh; lia). nia. }
  assert (Hplot : plotPoint p x y color
                  = Some (withPile (<[Z.to_nat i := w']> (Pile p)) p)).
  { unfold plotPoint. rewrite lane_shift by lia. cbn [mbind option_bind].
    rewrite Z.quot_div_nonneg by lia. fold i.
    rewrite ix_lookup, Hw by lia. cbn [mbind option_bind].
    rewrite setIx_insert by lia. reflexivity. }
  exists (withPile (<[Z.to_nat i := w']> (Pile p)) p).
  split; [exact Hplot |].
  assert (Hget : forall q x0 y0, 0 <= x0 ->
            getPoint q x0 y0
            = (v ← ix (Pile q) (y0 * 16 + x0 / 4);
               Some (Z.land (Z.shiftr v (x0 mod 4 * 8)) (Z.ones 8)))).
  { intros q x0 y0 H0. unfold getPoint. rewrite lane_shift by lia.
    rewrite Z.quot_div_nonneg by lia. reflexivity. }
  split.
  - rewrite Hget by lia. cbn [Pile withPile]. fold i.
    rewrite ix_lookup by lia. rewrite list_lookup_insert_eq by lia.
    cbn [mbind option_bind]. unfold w'. rewrite Hmask, Hcol. fold sh.
    change 4294967295 with (Z.ones 32).
    rewrite lane_same by (unfold sh; lia). reflexivity.
  - intros x' y' Hx' Hy' Hne.
    pose proof (Z.mod_pos_bound x' 4 ltac:(lia)) as Hm'.
    assert (Hq' : 0 <= x' / 4 < 16)
      by (split; [apply Z.div_pos; lia | apply Z.div_lt_upper_bound; lia]).
    rewrite !Hget by lia. cbn [Pile withPile].
    rewrite !ix_lookup by lia.
    destruct (Z.eq_dec (y' * 16 + x' / 4) i) as [E | E].
    + rewrite E. rewrite list_lookup_insert_eq by lia. rewrite Hw.
      cbn [mbind option_bind]. f_equal.
      unfold w'. rewrite Hmask, Hcol. change 4294967295 with (Z.ones 32).
      apply lane_other; unfold sh; try lia.
      assert (x' mod 4 <> x mod 4).
      { intros Em. apply Hne. unfold i in E.
        assert (y' = y) by lia. assert (x' / 4 = x / 4) by lia.
        pose proof (Z.div_mod x 4 ltac:(lia)). pose proof (Z.div_mod x' 4 ltac:(lia)).
        f_equal; lia. }
      lia.
    + rewrite list_lookup_insert_ne by lia. reflexivity.
Qed.

(** X4.  [addi] and [addiu] add the immediate read as a signed 16-bit number,
    modulo 2^32.  With a destination register 1..31 the sum is what the
    register then holds and nothing is reported; with destination [$0] the
    registers stay as they are and [IllegalRegisterWrite] is reported. *)
Theorem addi_adds_signed rnd swiFuel op x z imm a s :
  op = opADDI \/ op = opADDIU ->
  0 <= imm < 2 ^ 16 -> 0 <= z < 32 -> length (regs s) = 32%nat ->
  Z.land (Z.shiftr (regInit s) x) 1 = 1 -> ix (regs s) x = Some a ->
  exists s1,
    executeIType rnd swiFuel op x z imm s = Done (tt, s1) /\
    (1 <= z ->
     regAccess z s1
     = Done (u32 (a + (if imm <? 2 ^ 15 then imm else imm - 2 ^ 16)), s1) /\
     errors s1 = errors s) /\
    (z = 0 ->
     regs s1 = regs s /\ regInit s1 = regInit s /\
     map EType (errors s1) = map EType (errors s) ++ [eIllegalRegisterWrite]).
Proof.
  intros Hop Himm Hz Hlen Hinit Ha.
  assert (Hacc : regAccess x s = Done (a, s)).
  { unfold regAccess, mbind, StateM_bind, gets. rewrite Hinit.
    change (1 =? 1) with true. cbn [negb]. rewrite Ha. reflexivity. }
  assert (Hval : u32 (a + signExtend16 imm)
                 = u32 (a + (if imm <? 2 ^ 15 then imm else imm - 2 ^ 16))).
  { rewrite signExtend16_spec by exact Himm. unfold u32.
    destruct (imm <? 2 ^ 15); [reflexivity |].
    replace (a + (imm + (2 ^ 32 - 2 ^ 16))) with (a + (imm - 2 ^ 16) + 1 * 2 ^ 32) by lia.
    apply Z.mod_add. lia. }
  assert (Hrun : executeIType rnd swiFuel op x z imm s
                 = regWrite z (u32 (a + signExtend16 imm)) s).
  { unfold executeIType.
    replace ((op =? opADDI) || (op =? opADDIU)) with true
      by (destruct Hop as [-> | ->]; reflexivity).
    rewrite (bind_run _ _ _ _ _ Hacc). reflexivity. }
  destruct (Z.eq_dec z 0) as [-> | Hnz].
  - eexists. split; [rewrite Hrun; apply regWrite_zero |]. split; [lia |].
    intros _. cbn [regs regInit errors setErrors].
    split; [reflexivity |]. split; [reflexivity |].
    rewrite map_app. reflexivity.
  - assert (Hz1 : 1 <= z < 32) by lia.
    pose proof (regWrite_run z (u32 (a + signExtend16 imm)) s Hz1 Hlen) as Hw.
    pose proof (regAccess_written z (u32 (a + signExtend16 imm)) s Hz1 Hlen) as Hr.
    eexists. split; [rewrite Hrun; exact Hw |]. split; [| lia].
    intros _. split; [rewrite <- Hval; exact Hr | reflexivity].
Qed.

(** ** Stores and loads *)

(** A store touches neither the registers nor the error list. *)
Lemma memWrite_registers addr data mask s s1 :
  memWrite addr data mask s = Done (tt, s1) ->
  regs s1 = regs s /\ regInit s1 = regInit s /\ errors s1 = errors s.
Proof.
  intros H.
  apply (memWrite_preserves
           (fun t => regs t = regs s /\ regInit t = regInit s /\ errors t = errors s)
           ltac:(intros; assumption) ltac:(intros; assumption) ltac:(intros; assumption)
           addr data mask s tt s1); [repeat split | exact H].
Qed.

(** A load that finds its word touches neither the registers nor the error
    list. *)
Lemma memAccess_found_registers addr isInstr v s s' :
  memAccess addr isInstr s = Done ((v, true), s') ->
  regs s' = regs s /\ regInit s' = regInit s /\ errors s' = errors s.
Proof.
  intros H. unfold memAccess in H.
  apply bind_Done in H as (ic & s1 & H1 & H). apply gets_Done in H1 as [-> ->].
  apply bind_Done in H as (dc & s1 & H1 & H). apply gets_Done in H1 as [-> ->].
  destruct (Z.shiftr addr 12 =? Z.shiftr (startAddr (iCache s)) 12).
  - apply bind_Done in H as (w & s1 & H1 & H). apply sliceGet_Done in H1 as [-> _].
    destruct (notInitialized w addr).
    + apply bind_Done in H as (u & s1 & _ & H). apply ret_Done in H as [H _]. discriminate H.
    + apply bind_Done in H as (v' & s1 & H1 & H). apply sliceGet_Done in H1 as [-> _].
      apply ret_Done in H as [_ ->]. repeat split.
  - destruct (Z.shiftr addr 12 =? Z.shiftr (startAddr (dCache s)) 12).
    + apply bind_Done in H as (w & s1 & H1 & H). apply sliceGet_Done in H1 as [-> _].
      destruct (notInitialized w addr).
      * apply bind_Done in H as (u & s1 & _ & H). apply ret_Done in H as [H _]. discriminate H.
      * apply bind_Done in H as (u1 & s1 & H1 & H). apply modify_Done in H1 as ->.
        apply bind_Done in H as (v' & s1 & H1 & H). apply sliceGet_Done in H1 as [-> _].
        apply ret_Done in H as [_ ->]. repeat split.
    + apply bind_Done in H as (m & s1 & H1 & H). apply gets_Done in H1 as [-> ->].
      destruct (sysMemory s !! Z.shiftr addr 12) as [page |].
      * apply bind_Done in H as (w & s1 & H1 & H). apply sliceGet_Done in H1 as [-> _].
        destruct (notInitialized w addr).
        -- apply bind_Done in H as (u & s1 & _ & H). apply ret_Done in H as [H _].
           discriminate H.
        -- apply bind_Done in H as (missed & s1 & H1 & H). apply gets_Done in H1 as [-> ->].
           apply bind_Done in H as (u1 & s1 & H1 & H).
           apply bind_Done in H as (v' & s2 & H2 & H). apply sliceGet_Done in H2 as [-> _].
           apply ret_Done in H as [_ ->].
           destruct isInstr; [| destruct (dMissed s)];
             apply modify_Done in H1 as ->; repeat split.
      * apply bind_Done in H as (u & s1 & _ & H). apply ret_Done in H as [H _]. discriminate H.
Qed.

(** After a store the page of the table holds the merged word, readable. *)
Lemma wrote_readable s addr data mask s1 :
  wrote s addr data mask s1 ->
  exists p old,
    sysMemory s1 !! Z.shiftr addr 12 = Some p /\
    rawWord (heap s) (sysMemory s) addr = Some old /\
    readable (heap s1) p addr (mergeWord data mask old).
Proof.
  intros Hw. destruct (wrote_memRead_same _ _ _ _ _ Hw) as (old0 & Hraw & _).
  destruct Hw as (p & lm & li & xs & ys & old & w0 & _ & _ & Hm1 & _ & Hm & Hi & Hne & Hlx & Hly
                    & Hold & Hw0 & Hprior & Hlm & Hli & _).
  pose proof (word_index_range addr) as Hwi.
  pose proof (init_index_range addr) as Hii.
  assert (old0 = old).
  { unfold rawWord in Hraw. destruct Hprior as [(Hp & Hxs & _) | (Hp & -> & _)];
      rewrite Hp in Hraw.
    - rewrite Hm in Hraw. cbn [mbind option_bind] in Hraw. rewrite Hxs in Hraw.
      cbn [mbind option_bind] in Hraw. rewrite ix_lookup in Hraw by lia. congruence.
    - rewrite lookup_replicate_2 in Hold by (rewrite length_replicate in Hlx; lia).
      congruence. }
  subst old0.
  exists p, old. split; [rewrite Hm1; apply lookup_insert_eq |]. split; [exact Hraw |].
  exists (Z.lor w0 (Z.shiftl 1 ((addr mod 4096) / 4 mod 32))).
  split; [apply notInitialized_set |].
  intros s2 Hs2. rewrite Hm, Hi. split.
  - apply (sliceGet_ok li _ s2 _ _ ltac:(rewrite Hs2; exact Hli) (proj1 Hii)).
    apply list_lookup_insert_eq. lia.
  - apply (sliceGet_ok lm _ s2 _ _ ltac:(rewrite Hs2; exact Hlm) (proj1 Hwi)).
    apply list_lookup_insert_eq. lia.
Qed.

(** A store followed by a load of the same address, through the caches. *)
Lemma memWrite_then_memAccess s addr data mask isInstr :
  memoryOk s -> noZeroHit s addr -> 0 <= addr < 2 ^ 32 ->
  exists s1 old s2,
    memWrite addr data mask s = Done (tt, s1) /\
    rawWord (heap s) (sysMemory s) addr = Some old /\
    memRead (heap s1) (sysMemory s1) addr = Some (mergeWord data mask old, true) /\
    memAccess addr isInstr s1 = Done ((mergeWord data mask old, true), s2) /\
    memoryOk s2 /\
    regs s2 = regs s /\ regInit s2 = regInit s /\ errors s2 = errors s.
Proof.
  intros Hok Hnz Haddr.
  destruct (memWrite_effect s addr data mask Hok Hnz Haddr) as (s1 & Hrun & Hw).
  pose proof (wrote_memoryOk _ _ _ _ _ Hok Hw) as Hok1.
  assert (Hnz1 : noZeroHit s1 addr).
  { destruct Hw as (p & lm & li & xs & ys & old & w0 & Hic & Hdc & _).
    unfold noZeroHit. rewrite Hic, Hdc. exact Hnz. }
  destruct (wrote_readable _ _ _ _ _ Hw) as (p & old & Hp & Hraw & Hread).
  destruct (memAccess_readable s1 addr isInstr (mergeWord data mask old)) as (s2 & Hacc).
  { destruct (Z.shiftr addr 12 =? Z.shiftr (startAddr (iCache s1)) 12) eqn:Hic.
    - pose proof (served_from_table s1 addr Hok1 Hnz1 Hic) as E.
      rewrite Hp in E. injection E as <-. exact Hread.
    - destruct (Z.shiftr addr 12 =? Z.shiftr (startAddr (dCache s1)) 12) eqn:Hdc.
      + pose proof (served_from_table_d s1 addr Hok1 Hnz1 Hdc) as E.
        rewrite Hp in E. injection E as <-. exact Hread.
      + exists p. split; [exact Hp | exact Hread]. }
  exists s1, old, s2.
  destruct (memWrite_registers _ _ _ _ _ Hrun) as (R1 & I1 & E1).
  destruct (memAccess_found_registers _ _ _ _ _ Hacc) as (R2 & I2 & E2).
  destruct (memAccess_caches _ _ _ _ _ Hok1 Hacc) as (Hh & Hm & Hic & Hdc).
  assert (Hrd : memRead (heap s1) (sysMemory s1) addr = Some (mergeWord data mask old, true)).
  { destruct (wrote_memRead_same _ _ _ _ _ Hw) as (old' & Hraw' & Hrd).
    assert (old' = old) by congruence. subst old'. exact Hrd. }
  split; [exact Hrun |]. split; [exact Hraw |]. split; [exact Hrd |]. split; [exact Hacc |].
  split; [exact (proj1 (caches_memoryOk s1 s2 Hok1 Hh Hm Hic Hdc)) |].
  repeat apply conj; congruence.
Qed.

Lemma regAccess_run reg v s :
  Z.land (Z.shiftr (regInit s) reg) 1 = 1 -> ix (regs s) reg = Some v ->
  regAccess reg s = Done (v, s).
Proof.
  intros Hi Hv. unfold regAccess, mbind, StateM_bind, gets. rewrite Hi.
  change (1 =? 1) with true. cbn [negb]. rewrite Hv. reflexivity.
Qed.

Lemma executeIType_SW rnd f x z imm :
  executeIType rnd f opSW x z imm
  = (r ← regAccess x;
     let a := u32 (r + imm) in
     v ← regAccess z;
     memWrite a v 4294967295).
Proof. reflexivity. Qed.

Lemma executeIType_LW rnd f x z imm :
  executeIType rnd f opLW x z imm
  = (r ← regAccess x;
     let a := u32 (r + imm) in
     '(v, _) ← memAccess a false;
     regWrite z v).
Proof. reflexivity. Qed.

Lemma executeIType_SB rnd f x z imm :
  executeIType rnd f opSB x z imm
  = (r ← regAccess x;
     let a := u32 (r + imm) in
     v ← regAccess z;
     let b := u32 (Z.shiftl (Z.land v 255) ((a mod 4) * 8)) in
     memWrite a b (u32 (Z.shiftl 255 ((a mod 4) * 8)))).
Proof. reflexivity. Qed.

Lemma executeIType_LBU rnd f x z imm :
  executeIType rnd f opLBU x z imm
  = (r ← regAccess x;
     let a := u32 (r + imm) in
     '(v, _) ← memAccess a false;
     let v := Z.shiftr v ((a mod 4) * 8) in
     regWrite z (Z.land v 255)).
Proof. reflexivity. Qed.

(** X20.  [sw] followed by [lw] of the same address brings the stored word back.
    The memory is well-formed, registers [x] and [z] are initialised, [z]
    holds a 32-bit value, the address [(base + imm) mod 2^32] (the immediate
    added without sign extension) is outside page 0 or met with neither cache
    still at its zero value, and [w] is one of the registers 1..31.  Then
    after [sw $z, imm($x)] the word at that address is what register [z]
    held, and [lw $w, imm($x)] loads it into register [w]; nothing is
    reported. *)
Theorem sw_then_lw rnd f x z w imm r v s :
  memoryOk s -> length (regs s) = 32%nat ->
  Z.land (Z.shiftr (regInit s) x) 1 = 1 -> ix (regs s) x = Some r ->
  Z.land (Z.shiftr (regInit s) z) 1 = 1 -> ix (regs s) z = Some v ->
  0 <= v < 2 ^ 32 ->
  noZeroHit s (u32 (r + imm)) -> 1 <= w < 32 ->
  exists s1 s2,
    executeIType rnd f opSW x z imm s = Done (tt, s1) /\
    memRead (heap s1) (sysMemory s1) (u32 (r + imm)) = Some (v, true) /\
    executeIType rnd f opLW x w imm s1 = Done (tt, s2) /\
    regAccess w s2 = Done (v, s2) /\
    errors s2 = errors s.
Proof.
  intros Hok Hlen Hxi Hx Hzi Hz Hv Hnz Hw.
  destruct (memWrite_then_memAccess s (u32 (r + imm)) v 4294967295 false Hok Hnz
              (u32_range _))
    as (s1 & old & s2 & Hst & _ & Hrd & Hld & _ & R2 & I2 & E2).
  unfold mergeWord in Hld, Hrd. rewrite full_mask_write in Hld, Hrd by exact Hv.
  destruct (memWrite_registers _ _ _ _ _ Hst) as (R1 & I1 & E1).
  exists s1. eexists. split; [| split; [exact Hrd | split; [| split]]].
  - rewrite executeIType_SW.
    rewrite (bind_run _ _ _ _ _ (regAccess_run x r s Hxi Hx)). cbv zeta.
    rewrite (bind_run _ _ _ _ _ (regAccess_run z v s Hzi Hz)). exact Hst.
  - rewrite executeIType_LW.
    rewrite (bind_run _ _ _ _ _ (regAccess_run x r s1 ltac:(rewrite I1; exact Hxi)
                                   ltac:(rewrite R1; exact Hx))).
    cbv zeta. rewrite (bind_run _ _ _ _ _ Hld).
    apply regWrite_run; [exact Hw | congruence].
  - apply regAccess_written; [exact Hw | congruence].
  - cbn [errors setRegs setRegInit]. exact E2.
Qed.

(** X21.  [sb] followed by [lbu] of the same address brings the stored byte
    back.  The memory is well-formed, registers [x] and [z] are initialised,
    the address [(base + imm) mod 2^32] (the immediate added as it is,
    without sign extension) is outside page 0 or met with neither cache still
    at its zero value, and [w] is one of the registers 1..31.  Then register
    [w] holds the low byte of what register [z] held, and nothing is
    reported. *)
Theorem sb_then_lbu rnd f x z w imm r v s :
  memoryOk s -> length (regs s) = 32%nat ->
  Z.land (Z.shiftr (regInit s) x) 1 = 1 -> ix (regs s) x = Some r ->
  Z.land (Z.shiftr (regInit s) z) 1 = 1 -> ix (regs s) z = Some v ->
  noZeroHit s (u32 (r + imm)) -> 1 <= w < 32 ->
  exists s1 s2,
    executeIType rnd f opSB x z imm s = Done (tt, s1) /\
    executeIType rnd f opLBU x w imm s1 = Done (tt, s2) /\
    regAccess w s2 = Done (Z.land v 255, s2) /\
    errors s2 = errors s.
Proof.
  intros Hok Hlen Hxi Hx Hzi Hz Hnz Hw.
  set (a := u32 (r + imm)) in *.
  set (sh := (a mod 4) * 8).
  assert (Hsh : 0 <= sh /\ sh + 8 <= 32)
    by (pose proof (Z.mod_pos_bound a 4 ltac:(lia)); unfold sh; lia).
  destruct (memWrite_then_memAccess s a (u32 (Z.shiftl (Z.land v 255) sh))
              (u32 (Z.shiftl 255 sh)) false Hok Hnz (u32_range _))
    as (s1 & old & s2 & Hst & _ & Hrd & Hld & _ & R2 & I2 & E2).
  destruct (memWrite_registers _ _ _ _ _ Hst) as (R1 & I1 & E1).
  assert (Hbyte : Z.land (Z.shiftr (mergeWord (u32 (Z.shiftl (Z.land v 255) sh))
                                      (u32 (Z.shiftl 255 sh)) old) sh) 255
                  = Z.land v 255).
  { assert (Hp : 0 < 2 ^ sh) by (apply Z.pow_pos_nonneg; lia).
    assert (Hq : 2 ^ sh <= 2 ^ 24) by (apply Z.pow_le_mono_r; lia).
    assert (Hb : 0 <= Z.land v 255 < 2 ^ 8).
    { change 255 with (Z.ones 8). rewrite Z.land_ones by lia.
      apply Z.mod_pos_bound. lia. }
    assert (Hm : u32 (Z.shiftl 255 sh) = Z.shiftl (Z.ones 8) sh).
    { change (Z.ones 8) with 255. apply u32_id. rewrite Z.shiftl_mul_pow2 by lia. lia. }
    assert (Hd : u32 (Z.shiftl (Z.land v 255) sh) = Z.shiftl (Z.land v 255) sh).
    { apply u32_id. rewrite Z.shiftl_mul_pow2 by lia. nia. }
    unfold mergeWord. rewrite Hm, Hd.
    assert (Hin : Z.land (Z.shiftl (Z.land v 255) sh) (Z.shiftl (Z.ones 8) sh)
                  = Z.shiftl (Z.land v 255) sh).
    { rewrite <- Z.shiftl_land. f_equal. rewrite Z.land_ones by lia.
      apply Z.mod_small. exact Hb. }
    rewrite Hin, Z.lor_comm. change 4294967295 with (Z.ones 32). change 255 with (Z.ones 8) at 2.
    apply lane_same; lia. }
  exists s1. eexists. split; [| split; [| split]].
  - rewrite executeIType_SB.
    rewrite (bind_run _ _ _ _ _ (regAccess_run x r s Hxi Hx)). cbv zeta.
    rewrite (bind_run _ _ _ _ _ (regAccess_run z v s Hzi Hz)). exact Hst.
  - rewrite executeIType_LBU.
    rewrite (bind_run _ _ _ _ _ (regAccess_run x r s1 ltac:(rewrite I1; exact Hxi)
                                   ltac:(rewrite R1; exact Hx))).
    cbv zeta. fold a. rewrite (bind_run _ _ _ _ _ Hld). fold sh. rewrite Hbyte.
    apply regWrite_run; [exact Hw | congruence].
  - apply regAccess_written; [exact Hw | congruence].
  - cbn [errors setRegs setRegInit]. exact E2.
Qed.

(** ** The colours of the seven parts *)

Lemma existsb_eqb_false c l : existsb (fun v => v =? c) l = false -> c ∉ l.
Proof.
  induction l as [| v l IH]; cbn [existsb]; intros H.
  - apply not_elem_of_nil.
  - apply orb_false_iff in H as [Hv Hl]. apply Z.eqb_neq in Hv.
    apply not_elem_of_cons. split; [congruence | exact (IH Hl)].
Qed.

(** The colour drawn for slot [i] is one of 1..7 not used by the slots
    before it. *)
Lemma pickColor_Done rnd fuel colors i s colors' s' :
  pickColor rnd fuel colors i s = Done (colors', s') ->
  exists c, 1 <= c <= 7 /\ (c ∉ take (Z.to_nat i) colors) /\
            setIx colors i c = Some colors'.
Proof.
  revert s. induction fuel as [| fuel IH]; intros s H; [discriminate |].
  cbn [pickColor] in H.
  apply bind_Done in H as (r & s1 & Hr & H). apply Intn_Done in Hr. cbv zeta in H.
  destruct (existsb (fun v => v =? r + 1) (take (Z.to_nat i) colors)) eqn:Hex.
  - exact (IH _ H).
  - apply orPanic_Done in H as [H _].
    exists (r + 1). repeat apply conj; try lia; [apply existsb_eqb_false; exact Hex | exact H].
Qed.

Lemma pickColors_Done rnd fuel (k : nat) :
  forall (i : nat) colors s colors' s',
    NoDup (take i colors) -> Forall (fun c => 1 <= c <= 7) (take i colors) ->
    pickColors rnd fuel colors (seqZ (Z.of_nat i) (Z.of_nat k)) s = Done (colors', s') ->
    length colors' = length colors /\
    NoDup (take (i + k) colors') /\ Forall (fun c => 1 <= c <= 7) (take (i + k) colors').
Proof.
  induction k as [| k IH]; intros i colors s colors' s' Hnd Hall H.
  - cbn in H. apply ret_Done in H as [-> ->].
    rewrite Nat.add_0_r. repeat apply conj; [reflexivity | exact Hnd | exact Hall].
  - rewrite seqZ_cons in H by lia. cbn [pickColors] in H.
    apply bind_Done in H as (c1 & s1 & H1 & H).
    apply pickColor_Done in H1 as (c & Hc & Hnew & Hset).
    rewrite Nat2Z.id in Hnew.
    apply setIx_Some in Hset as [Hi ->]. rewrite Nat2Z.id in *.
    replace (Z.succ (Z.of_nat i)) with (Z.of_nat (S i)) in H by lia.
    replace (Z.pred (Z.of_nat (S k))) with (Z.of_nat k) in H by lia.
    assert (Htake : take (S i) (<[i := c]> colors) = take i colors ++ [c]).
    { rewrite (take_S_r _ _ c) by (apply list_lookup_insert_eq; lia).
      rewrite take_insert_ge by lia. reflexivity. }
    apply IH in H.
    + rewrite length_insert in H. replace (i + S k)%nat with (S i + k)%nat by lia. exact H.
    + rewrite Htake. apply NoDup_app. repeat apply conj.
      * exact Hnd.
      * intros x Hx Hx'. apply list_elem_of_singleton in Hx'. subst x. exact (Hnew Hx).
      * apply NoDup_singleton.
    + rewrite Htake. apply Forall_app. split; [exact Hall |].
      apply Forall_singleton. exact Hc.
Qed.

(** X22.  the colours [generatePile] draws for its seven parts are the colours
    1..7 in some order, each used once. *)
Theorem part_colours_permutation rnd fuel s colors s' :
  pickColors rnd fuel (replicate 7 0) (seqZ 0 7) s = Done (colors, s') ->
  colors ≡ₚ [1; 2; 3; 4; 5; 6; 7].
Proof.
  intros H.
  apply (pickColors_Done rnd fuel 7 0 (replicate 7 0) s colors s') in H;
    [| apply NoDup_nil_2 | apply Forall_nil_2].
  destruct H as (Hlen & Hnd & Hall). rewrite length_replicate in Hlen.
  rewrite firstn_all2 in Hnd, Hall by (cbn; lia).
  apply submseteq_length_Permutation.
  - apply NoDup_submseteq; [exact Hnd |].
    intros c Hc. rewrite Forall_forall in Hall. specialize (Hall c Hc).
    change [1; 2; 3; 4; 5; 6; 7] with (seqZ 1 7). apply elem_of_seqZ. lia.
  - rewrite Hlen. cbn. lia.
Qed.

(** ** The bounding box [validatePile] computes *)

Lemma foldl_None {A B : Type} (f : option A -> B -> option A) l :
  (forall b, f None b = None) -> foldl f None l = None.
Proof.
  intros Hf. induction l as [| b l IH]; cbn [foldl]; [reflexivity |].
  rewrite Hf. exact IH.
Qed.

(** The step of the scan at the point [(x, y)]. *)
Lemma scan_step_None p y x :
  (fun acc x =>
     '(minX, minY, maxX, maxY) ← acc;
     c ← getPoint p x y;
     if c =? TargetColor p then
       Some (if x <? minX then x else minX,
             if y <? minY then y else minY,
             if x >? maxX then x else maxX,
             if y >? maxY then y else maxY)
     else Some (minX, minY, maxX, maxY)) None x = None.
Proof. reflexivity. Qed.

(** One row of the scan: the box grows to hold the row's points of the
    target colour, and each side that moves lands on such a point. *)
Lemma scan_row p y xs :
  forall minX minY maxX maxY b,
    foldl (fun acc x =>
             '(minX, minY, maxX, maxY) ← acc;
             c ← getPoint p x y;
             if c =? TargetColor p then
               Some (if x <? minX then x else minX,
                     if y <? minY then y else minY,
                     if x >? maxX then x else maxX,
                     if y >? maxY then y else maxY)
             else Some (minX, minY, maxX, maxY))
          (Some (minX, minY, maxX, maxY)) xs = Some b ->
    exists minX' minY' maxX' maxY',
      b = (minX', minY', maxX', maxY') /\
      minX' <= minX /\ minY' <= minY /\ maxX <= maxX' /\ maxY <= maxY' /\
      (forall x, x ∈ xs -> getPoint p x y = Some (TargetColor p) ->
         minX' <= x <= maxX' /\ minY' <= y <= maxY') /\
      (minX' = minX \/ exists x, x ∈ xs /\ getPoint p x y = Some (TargetColor p) /\ minX' = x) /\
      (maxX' = maxX \/ exists x, x ∈ xs /\ getPoint p x y = Some (TargetColor p) /\ maxX' = x) /\
      (minY' = minY \/ (exists x, x ∈ xs /\ getPoint p x y = Some (TargetColor p)) /\ minY' = y) /\
      (maxY' = maxY \/ (exists x, x ∈ xs /\ getPoint p x y = Some (TargetColor p)) /\ maxY' = y).
Proof.
  induction xs as [| x xs IH]; intros minX minY maxX maxY b H.
  - cbn [foldl] in H. injection H as <-.
    exists minX, minY, maxX, maxY.
    repeat apply conj; try lia; try reflexivity; try (left; reflexivity).
    intros x Hx. apply elem_of_nil in Hx. contradiction.
  - cbn [foldl] in H. cbn [mbind option_bind] in H.
    destruct (getPoint p x y) as [c |] eqn:Hc; cbn [mbind option_bind] in H.
    2: { rewrite foldl_None in H by (intros; reflexivity). discriminate. }
    assert (Hxs : forall x0, x0 ∈ xs -> x0 ∈ x :: xs)
      by (intros x0 H0; apply elem_of_cons; right; exact H0).
    assert (Hx : x ∈ x :: xs) by (apply elem_of_cons; left; reflexivity).
    destruct (Z.eqb_spec c (TargetColor p)) as [-> | Hne].
    + replace (if x <? minX then x else minX) with (Z.min x minX) in H
        by (destruct (Z.ltb_spec x minX); lia).
      replace (if y <? minY then y else minY) with (Z.min y minY) in H
        by (destruct (Z.ltb_spec y minY); lia).
      replace (if x >? maxX then x else maxX) with (Z.max x maxX) in H
        by (destruct (Z.gtb_spec x maxX); lia).
      replace (if y >? maxY then y else maxY) with (Z.max y maxY) in H
        by (destruct (Z.gtb_spec y maxY); lia).
      apply IH in H as (a' & b' & c' & d' & -> & H1 & H2 & H3 & H4 & Hcov & T1 & T2 & T3 & T4).
      exists a', b', c', d'.
      split; [reflexivity |]. split; [lia |]. split; [lia |]. split; [lia |]. split; [lia |].
      split; [| split; [| split; [| split]]].
      * intros x0 H0 Ht. apply elem_of_cons in H0 as [-> | H0];
          [lia | exact (Hcov x0 H0 Ht)].
      * destruct T1 as [E | (x0 & H0 & Ht & E)]; [| right; exists x0; auto].
        destruct (Z.min_spec x minX) as [[_ E'] | [_ E']];
          [right; exists x; repeat split; [exact Hx | exact Hc | lia] | left; lia].
      * destruct T2 as [E | (x0 & H0 & Ht & E)]; [| right; exists x0; auto].
        destruct (Z.max_spec x maxX) as [[_ E'] | [_ E']];
          [left; lia | right; exists x; repeat split; [exact Hx | exact Hc | lia]].
      * destruct T3 as [E | ((x0 & H0 & Ht) & E)];
          [| right; split; [exists x0; auto | exact E]].
        destruct (Z.min_spec y minY) as [[_ E'] | [_ E']];
          [right; split; [exists x; auto | lia] | left; lia].
      * destruct T4 as [E | ((x0 & H0 & Ht) & E)];
          [| right; split; [exists x0; auto | exact E]].
        destruct (Z.max_spec y maxY) as [[_ E'] | [_ E']];
          [left; lia | right; split; [exists x; auto | lia]].
    + apply IH in H as (a' & b' & c' & d' & -> & H1 & H2 & H3 & H4 & Hcov & T1 & T2 & T3 & T4).
      exists a', b', c', d'.
      split; [reflexivity |]. split; [lia |]. split; [lia |]. split; [lia |]. split; [lia |].
      split; [| split; [| split; [| split]]].
      * intros x0 H0 Ht. apply elem_of_cons in H0 as [-> | H0];
          [congruence | exact (Hcov x0 H0 Ht)].
      * destruct T1 as [E | (x0 & H0 & Ht & E)]; [left; exact E | right; exists x0; auto].
      * destruct T2 as [E | (x0 & H0 & Ht & E)]; [left; exact E | right; exists x0; auto].
      * destruct T3 as [E | ((x0 & H0 & Ht) & E)];
          [left; exact E | right; split; [exists x0; auto | exact E]].
      * destruct T4 as [E | ((x0 & H0 & Ht) & E)];
          [left; exact E | right; split; [exists x0; auto | exact E]].
Qed.

(** All rows of the scan. *)
Lemma scan_rows p xs ys :
  forall minX minY maxX maxY b,
    foldl (fun acc y =>
      foldl (fun acc x =>
               '(minX, minY, maxX, maxY) ← acc;
               c ← getPoint p x y;
               if c =? TargetColor p then
                 Some (if x <? minX then x else minX,
                       if y <? minY then y else minY,
                       if x >? maxX then x else maxX,
                       if y >? maxY then y else maxY)
               else Some (minX, minY, maxX, maxY)) acc xs)
      (Some (minX, minY, maxX, maxY)) ys = Some b ->
    exists minX' minY' maxX' maxY',
      b = (minX', minY', maxX', maxY') /\
      minX' <= minX /\ minY' <= minY /\ maxX <= maxX' /\ maxY <= maxY' /\
      (forall x y, x ∈ xs -> y ∈ ys -> getPoint p x y = Some (TargetColor p) ->
         minX' <= x <= maxX' /\ minY' <= y <= maxY') /\
      (minX' = minX \/
       exists x y, x ∈ xs /\ y ∈ ys /\ getPoint p x y = Some (TargetColor p) /\ minX' = x) /\
      (maxX' = maxX \/
       exists x y, x ∈ xs /\ y ∈ ys /\ getPoint p x y = Some (TargetColor p) /\ maxX' = x) /\
      (minY' = minY \/
       exists x y, x ∈ xs /\ y ∈ ys /\ getPoint p x y = Some (TargetColor p) /\ minY' = y) /\
      (maxY' = maxY \/
       exists x y, x ∈ xs /\ y ∈ ys /\ getPoint p x y = Some (TargetColor p) /\ maxY' = y).
Proof.
  induction ys as [| y ys IH]; intros minX minY maxX maxY b H.
  - cbn [foldl] in H. injection H as <-.
    exists minX, minY, maxX, maxY.
    repeat apply conj; try lia; try reflexivity; try (left; reflexivity).
    intros x y _ Hy. apply elem_of_nil in Hy. contradiction.
  - cbn [foldl] in H.
    match type of H with
    | foldl _ ?r ys = _ => destruct r as [[[[a1 b1] c1] d1] |] eqn:Hrow
    end.
    2: { rewrite foldl_None in H; [discriminate |].
         intros y0. apply foldl_None. intros; reflexivity. }
    apply scan_row in Hrow
      as (a1' & b1' & c1' & d1' & E & R1 & R2 & R3 & R4 & Rcov & RT1 & RT2 & RT3 & RT4).
    injection E as -> -> -> ->.
    apply IH in H as (a' & b' & c' & d' & -> & H1 & H2 & H3 & H4 & Hcov & T1 & T2 & T3 & T4).
    exists a', b', c', d'.
    assert (Hy : y ∈ y :: ys) by (apply elem_of_cons; left; reflexivity).
    assert (Hys : forall y0, y0 ∈ ys -> y0 ∈ y :: ys)
      by (intros y0 H0; apply elem_of_cons; right; exact H0).
    split; [reflexivity |]. split; [lia |]. split; [lia |]. split; [lia |]. split; [lia |].
    split; [| split; [| split; [| split]]].
    + intros x0 y0 Hx0 Hy0 Ht. apply elem_of_cons in Hy0 as [-> | Hy0].
      * specialize (Rcov x0 Hx0 Ht). lia.
      * exact (Hcov x0 y0 Hx0 Hy0 Ht).
    + destruct T1 as [-> | (x0 & y0 & ? & ? & ? & ?)];
        [| right; exists x0, y0; auto].
      destruct RT1 as [-> | (x0 & ? & ? & ?)]; [left; reflexivity | right; exists x0, y; auto].
    + destruct T2 as [-> | (x0 & y0 & ? & ? & ? & ?)];
        [| right; exists x0, y0; auto].
      destruct RT2 as [-> | (x0 & ? & ? & ?)]; [left; reflexivity | right; exists x0, y; auto].
    + destruct T3 as [-> | (x0 & y0 & ? & ? & ? & ?)];
        [| right; exists x0, y0; auto].
      destruct RT3 as [-> | ((x0 & ? & ?) & ?)]; [left; reflexivity | right; exists x0, y; auto].
    + destruct T4 as [-> | (x0 & y0 & ? & ? & ? & ?)];
        [| right; exists x0, y0; auto].
      destruct RT4 as [-> | ((x0 & ? & ?) & ?)]; [left; reflexivity | right; exists x0, y; auto].
Qed.

(** The box of [scanPile]: it holds every point of the target colour in
    columns and rows 1..62, and each side that left its start value lies on
    such a point. *)
Lemma scanPile_box p minX minY maxX maxY :
  scanPile p = Some (minX, minY, maxX, maxY) ->
  minX <= 64 /\ minY <= 64 /\ 0 <= maxX /\ 0 <= maxY /\
  (forall x y, 1 <= x <= 62 -> 1 <= y <= 62 -> getPoint p x y = Some (TargetColor p) ->
     minX <= x <= maxX /\ minY <= y <= maxY) /\
  (minX = 64 \/ exists y, 1 <= minX <= 62 /\ 1 <= y <= 62 /\
                          getPoint p minX y = Some (TargetColor p)) /\
  (maxX = 0 \/ exists y, 1 <= maxX <= 62 /\ 1 <= y <= 62 /\
                         getPoint p maxX y = Some (TargetColor p)) /\
  (minY = 64 \/ exists x, 1 <= x <= 62 /\ 1 <= minY <= 62 /\
                          getPoint p x minY = Some (TargetColor p)) /\
  (maxY = 0 \/ exists x, 1 <= x <= 62 /\ 1 <= maxY <= 62 /\
                         getPoint p x maxY = Some (TargetColor p)).
Proof.
  intros H. unfold scanPile in H.
  apply scan_rows in H
    as (a & b & c & d & E & H1 & H2 & H3 & H4 & Hcov & T1 & T2 & T3 & T4).
  injection E as <- <- <- <-.
  assert (Hin : forall v, v ∈ seqZ 1 62 <-> 1 <= v <= 62)
    by (intros v; rewrite elem_of_seqZ; lia).
  split; [lia |]. split; [lia |]. split; [lia |]. split; [lia |].
  split; [| split; [| split; [| split]]].
  - intros x y Hx Hy Ht. apply Hcov; [apply Hin | apply Hin |]; assumption.
  - destruct T1 as [-> | (x & y & Hx & Hy & Ht & ->)]; [left; reflexivity | right].
    exists y. apply Hin in Hx. apply Hin in Hy. auto.
  - destruct T2 as [-> | (x & y & Hx & Hy & Ht & ->)]; [left; reflexivity | right].
    exists y. apply Hin in Hx. apply Hin in Hy. auto.
  - destruct T3 as [-> | (x & y & Hx & Hy & Ht & ->)]; [left; reflexivity | right].
    exists x. apply Hin in Hx. apply Hin in Hy. auto.
  - destruct T4 as [-> | (x & y & Hx & Hy & Ht & ->)]; [left; reflexivity | right].
    exists x. apply Hin in Hx. apply Hin in Hy. auto.
Qed.

(** What an accepted pile went through: the scan, the two size tests, and
    the packing of the corners. *)
Lemma validatePile_Some p p' :
  validatePile p = Some (true, p') ->
  exists minX minY maxX maxY,
    scanPile p = Some (minX, minY, maxX, maxY) /\
    25 <= maxX - minX + 1 /\ 25 <= maxY - minY + 1 /\
    Solution p'
    = Z.lor (u32 (Z.shiftl (u32 (minY * 64 + minX)) 16)) (u32 (maxY * 64 + maxX)) /\
    Pile p' = Pile p /\ TargetColor p' = TargetColor p.
Proof.
  intros H. unfold validatePile in H.
  destruct (scanPile p) as [[[[minX minY] maxX] maxY] |] eqn:Hscan; [| discriminate].
  cbn [mbind option_bind] in H.
  destruct (Z.ltb_spec (maxX - minX + 1) 25) as [? | Hw]; [discriminate |].
  destruct (Z.ltb_spec (maxY - minY + 1) 25) as [? | Hh]; [discriminate |].
  cbv zeta in H.
  match type of H with
  | (ho ← ?a; _) = _ => destruct a as [ho |]; [| discriminate]
  end.
  cbn [mbind option_bind] in H.
  match type of H with
  | (vo ← ?a; _) = _ => destruct a as [vo |]; [| discriminate]
  end.
  cbn [mbind option_bind] in H. injection H as <-.
  exists minX, minY, maxX, maxY. cbn [Solution Pile TargetColor].
  repeat apply conj; try lia; reflexivity.
Qed.

(** A scanned box at least 25 wide and high lies in columns and rows 1..62,
    has on each of its four sides a point of the target colour that lies
    within the box, and packs into the sum of its two corner offsets. *)
Lemma scanned_box p minX minY maxX maxY :
  scanPile p = Some (minX, minY, maxX, maxY) ->
  25 <= maxX - minX + 1 -> 25 <= maxY - minY + 1 ->
  1 <= minX /\ maxX <= 62 /\ 1 <= minY /\ maxY <= 62 /\
  Z.lor (u32 (Z.shiftl (u32 (minY * 64 + minX)) 16)) (u32 (maxY * 64 + maxX))
  = (minY * 64 + minX) * 65536 + (maxY * 64 + maxX) /\
  (forall x y, 1 <= x <= 62 -> 1 <= y <= 62 -> getPoint p x y = Some (TargetColor p) ->
     minX <= x <= maxX /\ minY <= y <= maxY) /\
  (exists y, minY <= y <= maxY /\ getPoint p minX y = Some (TargetColor p)) /\
  (exists y, minY <= y <= maxY /\ getPoint p maxX y = Some (TargetColor p)) /\
  (exists x, minX <= x <= maxX /\ getPoint p x minY = Some (TargetColor p)) /\
  (exists x, minX <= x <= maxX /\ getPoint p x maxY = Some (TargetColor p)).
Proof.
  intros Hscan Hw Hh.
  apply scanPile_box in Hscan
    as (B1 & B2 & B3 & B4 & Hcov & T1 & T2 & T3 & T4).
  destruct T1 as [-> | (y1 & R1 & Q1 & P1)];
    [destruct T2 as [-> | (? & ? & _)]; lia |].
  destruct T2 as [-> | (y2 & R2 & Q2 & P2)]; [lia |].
  destruct T3 as [-> | (x3 & Q3 & R3 & P3)];
    [destruct T4 as [-> | (? & _ & ? & _)]; lia |].
  destruct T4 as [-> | (x4 & Q4 & R4 & P4)]; [lia |].
  pose proof (Hcov minX y1 R1 Q1 P1) as C1.
  pose proof (Hcov maxX y2 R2 Q2 P2) as C2.
  pose proof (Hcov x3 minY Q3 R3 P3) as C3.
  pose proof (Hcov x4 maxY Q4 R4 P4) as C4.
  split; [lia |]. split; [lia |]. split; [lia |]. split; [lia |].
  split; [| split; [exact Hcov |
    split; [exists y1; split; [lia | exact P1] |
    split; [exists y2; split; [lia | exact P2] |
    split; [exists x3; split; [lia | exact P3] | exists x4; split; [lia | exact P4]]]]]].
  rewrite (u32_id (minY * 64 + minX)) by lia.
  rewrite Z.shiftl_mul_pow2 by lia.
  rewrite (u32_id ((minY * 64 + minX) * 2 ^ 16)) by lia.
  rewrite (u32_id (maxY * 64 + maxX)) by lia.
  rewrite Z.lor_comm, lor_low_high by lia. lia.
Qed.

(** X23.  when [validatePile] accepts a pile, the solution it stores packs the
    corners of the bounding box of the target colour in columns and rows
    1..62: the box lies in these columns and rows, every point of that colour
    in them is inside the box, each of the four sides of the box holds a point
    of that colour within the box, and the box is at least 25 wide and high. *)
Theorem validatePile_bounding_box p p' :
  validatePile p = Some (true, p') ->
  exists minX minY maxX maxY,
    1 <= minX /\ maxX <= 62 /\ 1 <= minY /\ maxY <= 62 /\
    25 <= maxX - minX + 1 /\ 25 <= maxY - minY + 1 /\
    Solution p' = (minY * 64 + minX) * 65536 + (maxY * 64 + maxX) /\
    Pile p' = Pile p /\ TargetColor p' = TargetColor p /\
    (forall x y, 1 <= x <= 62 -> 1 <= y <= 62 -> getPoint p x y = Some (TargetColor p) ->
       minX <= x <= maxX /\ minY <= y <= maxY) /\
    (exists y, minY <= y <= maxY /\ getPoint p minX y = Some (TargetColor p)) /\
    (exists y, minY <= y <= maxY /\ getPoint p maxX y = Some (TargetColor p)) /\
    (exists x, minX <= x <= maxX /\ getPoint p x minY = Some (TargetColor p)) /\
    (exists x, minX <= x <= maxX /\ getPoint p x maxY = Some (TargetColor p)).
Proof.
  intros H.
  destruct (validatePile_Some p p' H)
    as (minX & minY & maxX & maxY & Hscan & Hw & Hh & Hsol & Hpile & Htc).
  destruct (scanned_box p minX minY maxX maxY Hscan Hw Hh)
    as (B1 & B2 & B3 & B4 & Hpack & Hcov & T1 & T2 & T3 & T4).
  exists minX, minY, maxX, maxY.
  rewrite Hsol, Hpack. repeat apply conj; try assumption; reflexivity.
Qed.

(** ** Literals of the assembler *)

Section Literals.

Import Assembler.

Lemma isDigit_byteOf c : isDigit c = true -> 48 <= byteOf c <= 57.
Proof.
  unfold isDigit, byteOf. intros H. apply andb_prop in H as [H1 H2].
  apply Nat.leb_le in H1. apply Nat.leb_le in H2. lia.
Qed.

Lemma digit_not_in_cutset c :
  isDigit c = true ->
  inCutset (String " " (String (ascii_of_nat 9) EmptyString)) c = false.
Proof.
  intros H. unfold isDigit in H. apply andb_prop in H as [H1 H2].
  apply Nat.leb_le in H1. apply Nat.leb_le in H2.
  unfold inCutset. cbn [chars list_ascii_of_string existsb].
  rewrite orb_false_r. apply orb_false_iff. split.
  - apply Ascii.eqb_neq. intros ->.
    change (nat_of_ascii " ") with 32%nat in H1. lia.
  - apply Ascii.eqb_neq. intros ->.
    rewrite nat_ascii_embedding in H1 by lia. lia.
Qed.

Lemma trimLeftL_digit cutset c r :
  inCutset cutset c = false -> trimLeftL cutset (c :: r) = c :: r.
Proof. intros H. cbn [trimLeftL]. rewrite H. reflexivity. Qed.

Lemma text_chars s : text (chars s) = s.
Proof. apply string_of_list_ascii_of_string. Qed.

Lemma chars_text l : chars (text l) = l.
Proof. apply list_ascii_of_string_of_list_ascii. Qed.

(** [Trim] leaves a string of digits as it is. *)
Lemma Trim_digits s :
  forallb isDigit (chars s) = true ->
  Trim s (String " " (String (ascii_of_nat 9) EmptyString)) = s.
Proof.
  intros H. unfold Trim.
  assert (Hl : forall l, forallb isDigit l = true ->
            trimLeftL (String " " (String (ascii_of_nat 9) EmptyString)) l = l).
  { intros [| c r] Hr; [reflexivity |]. cbn [forallb] in Hr.
    apply andb_prop in Hr as [Hc _].
    apply trimLeftL_digit, digit_not_in_cutset. exact Hc. }
  rewrite (Hl _ H).
  rewrite Hl.
  2: { apply forallb_forall. intros c Hc. apply in_rev in Hc.
       exact (proj1 (forallb_forall _ _) H c Hc). }
  rewrite rev_involutive. apply text_chars.
Qed.

Lemma lowerChar_digit c : isDigit c = true -> lowerChar c = c.
Proof.
  intros H. unfold isDigit in H. apply andb_prop in H as [H1 H2].
  apply Nat.leb_le in H1. apply Nat.leb_le in H2.
  unfold lowerChar.
  destruct (Nat.leb_spec 65 (nat_of_ascii c)); [lia | reflexivity].
Qed.

Lemma ToLower_digits s : forallb isDigit (chars s) = true -> ToLower s = s.
Proof.
  intros H. unfold ToLower.
  replace (map lowerChar (chars s)) with (chars s); [apply text_chars |].
  induction (chars s) as [| c r IH]; [reflexivity |].
  cbn [forallb] in H. apply andb_prop in H as [Hc Hr].
  cbn [map]. rewrite (lowerChar_digit c Hc), <- (IH Hr). reflexivity.
Qed.

Lemma not_hex_prefix s :
  forallb isDigit (chars s) = true ->
  match Index s "0x" with Some O => true | _ => false end = false.
Proof.
  intros H. unfold Index. destruct s as [| c0 s']; [reflexivity |].
  cbn [String.index].
  destruct (String.prefix "0x" (String c0 s')) eqn:Hp.
  - exfalso. cbn [String.prefix] in Hp.
    destruct (ascii_dec "0" c0) as [_ | _]; [| discriminate].
    destruct s' as [| c1 r]; cbn [String.prefix] in Hp; [discriminate |].
    destruct (ascii_dec "x" c1) as [<- | _]; [| discriminate].
    cbn [chars list_ascii_of_string forallb] in H.
    apply andb_prop in H as [_ H]. apply andb_prop in H as [H _].
    apply isDigit_byteOf in H. unfold byteOf in H.
    change (nat_of_ascii "x") with 120%nat in H. lia.
  - destruct (String.index 0 "0x" s'); reflexivity.
Qed.

Lemma decimal_grows l :
  forallb isDigit l = true ->
  forall a, 0 <= a -> a <= fold_left (fun acc c => acc * 10 + (byteOf c - 48)) l a.
Proof.
  induction l as [| c r IH]; intros H a Ha; cbn [fold_left]; [lia |].
  cbn [forallb] in H. apply andb_prop in H as [Hc Hr].
  apply isDigit_byteOf in Hc.
  specialize (IH Hr (a * 10 + (byteOf c - 48)) ltac:(lia)). lia.
Qed.

(** The loop over a decimal literal: a value up to 4294967299 passes the
    guard, and what is returned is the value modulo 2^32. *)
Lemma decDigits_value l :
  forallb isDigit l = true ->
  forall ret, 0 <= ret < 2 ^ 32 ->
    fold_left (fun acc c => acc * 10 + (byteOf c - 48)) l ret <= 4294967299 ->
    decDigits 429496729 l ret
    = inr (fold_left (fun acc c => acc * 10 + (byteOf c - 48)) l ret mod 2 ^ 32).
Proof.
  induction l as [| c r IH]; intros H ret Hret Hv.
  - cbn [decDigits fold_left]. rewrite Z.mod_small by lia. reflexivity.
  - cbn [forallb] in H. apply andb_prop in H as [Hc Hr].
    pose proof (isDigit_byteOf c Hc) as Hb.
    cbn [decDigits fold_left] in *.
    pose proof (decimal_grows r Hr (ret * 10 + (byteOf c - 48)) ltac:(lia)) as Hg.
    destruct (Z.leb_spec (byteOf c) 57); [| lia].
    destruct (Z.geb_spec (byteOf c) 48); [| lia].
    cbn [andb]. destruct (Z.gtb_spec ret 429496729); [lia |].
    destruct r as [| c' r'].
    + cbn [decDigits fold_left]. reflexivity.
    + assert (Hsmall : ret * 10 + (byteOf c - 48) <= 429496729).
      { cbn [forallb] in Hr. apply andb_prop in Hr as [Hc' Hr'].
        pose proof (isDigit_byteOf c' Hc') as Hb'.
        cbn [fold_left] in Hv.
        pose proof (decimal_grows r' Hr'
                      ((ret * 10 + (byteOf c - 48)) * 10 + (byteOf c' - 48)) ltac:(lia)).
        lia. }
      rewrite (u32_id (ret * 10 + (byteOf c - 48))) by lia.
      apply IH; [exact Hr | lia | exact Hv].
Qed.

(** X24.  a literal made of decimal digits with a value up to 4294967299 is
    accepted, and its value is taken modulo 2^32: below 2^32 it is the number
    written, and 4294967296..4294967299 pass the overflow guard and wrap to
    0..3. *)
Theorem decimal_literal_value s labels isSignedImm :
  s <> ""%string -> forallb isDigit (chars s) = true ->
  decimalValue (chars s) <= 4294967299 ->
  getLiteralValueFull s labels isSignedImm = (decimalValue (chars s) mod 2 ^ 32, None).
Proof.
  intros Hne Hd Hv. unfold getLiteralValueFull.
  rewrite (Trim_digits s Hd). cbv zeta.
  destruct (chars s) as [| c0 r] eqn:Hs.
  { destruct s; [contradiction | discriminate]. }
  pose proof Hd as Hd'. cbn [forallb] in Hd'. apply andb_prop in Hd' as [Hc0 _].
  rewrite Hc0, orb_true_r.
  rewrite <- Hs in Hd |- *.
  rewrite (ToLower_digits s Hd), (not_hex_prefix s Hd).
  rewrite Hs.
  replace (Ascii.eqb c0 "-") with false.
  2: { symmetry. apply Ascii.eqb_neq. intros ->. apply isDigit_byteOf in Hc0.
       unfold byteOf in Hc0. change (nat_of_ascii "-") with 45%nat in Hc0. lia. }
  rewrite <- Hs. rewrite <- Hs in Hv.
  unfold decimalValue in *.
  rewrite (decDigits_value (chars s) Hd 0 ltac:(lia) Hv). reflexivity.
Qed.

Lemma isHexDigit_byteOf c :
  isHexDigit c = true -> 48 <= byteOf c <= 57 \/ 97 <= byteOf c <= 102.
Proof.
  unfold isHexDigit. intros H. apply orb_prop in H as [H | H];
    apply andb_prop in H as [H1 H2]; apply Z.leb_le in H1; apply Z.leb_le in H2; lia.
Qed.

Lemma byteOf_code c n : byteOf c = Z.of_nat n -> (n < 256)%nat -> c = ascii_of_nat n.
Proof.
  unfold byteOf. intros H Hn. apply Nat2Z.inj in H. rewrite <- H. symmetry.
  apply ascii_nat_embedding.
Qed.

(** [Trim] leaves a string as it is when none of its bytes is in the cutset. *)
Lemma Trim_plain s cutset :
  forallb (fun c => negb (inCutset cutset c)) (chars s) = true -> Trim s cutset = s.
Proof.
  intros H. unfold Trim.
  assert (Hl : forall l, forallb (fun c => negb (inCutset cutset c)) l = true ->
            trimLeftL cutset l = l).
  { intros [| c r] Hr; [reflexivity |]. cbn [forallb] in Hr.
    apply andb_prop in Hr as [Hc _]. apply negb_true_iff in Hc.
    apply trimLeftL_digit. exact Hc. }
  rewrite (Hl _ H). rewrite Hl.
  2: { apply forallb_forall. intros c Hc. apply in_rev in Hc.
       exact (proj1 (forallb_forall _ _) H c Hc). }
  rewrite rev_involutive. apply text_chars.
Qed.

Lemma plain_byte c :
  33 <= byteOf c ->
  negb (inCutset (String " " (String (ascii_of_nat 9) EmptyString)) c) = true.
Proof.
  intros H. apply negb_true_iff. unfold inCutset. cbn [chars list_ascii_of_string existsb].
  rewrite orb_false_r. apply orb_false_iff. unfold byteOf in H. split.
  - apply Ascii.eqb_neq. intros ->. change (nat_of_ascii " ") with 32%nat in H. lia.
  - apply Ascii.eqb_neq. intros ->. rewrite nat_ascii_embedding in H by lia. lia.
Qed.

Lemma lowerChar_plain c : byteOf c < 65 \/ 90 < byteOf c -> lowerChar c = c.
Proof.
  intros H. unfold lowerChar, byteOf in *.
  destruct (Nat.leb_spec 65 (nat_of_ascii c)); [| reflexivity].
  destruct (Nat.leb_spec (nat_of_ascii c) 90); [lia | reflexivity].
Qed.

Lemma substring_all s : substring 0 (String.length s) s = s.
Proof. induction s as [| c s IH]; [reflexivity |]. cbn. rewrite IH. reflexivity. Qed.

Lemma hex_digit_range c : isHexDigit c = true -> 0 <= hexDigitValue c < 16.
Proof.
  intros H. apply isHexDigit_byteOf in H. unfold hexDigitValue.
  destruct (Z.leb_spec (byteOf c) 57); lia.
Qed.

Lemma hex_mod l :
  forall a, fold_left (fun acc c => acc * 16 + hexDigitValue c) l a mod 2 ^ 32
            = fold_left (fun acc c => acc * 16 + hexDigitValue c) l (a mod 2 ^ 32) mod 2 ^ 32.
Proof.
  induction l as [| c r IH]; intros a; cbn [fold_left].
  - rewrite Z.mod_mod by lia. reflexivity.
  - rewrite IH. rewrite (IH (a mod 2 ^ 32 * 16 + hexDigitValue c)). f_equal. f_equal.
    rewrite <- (Z.add_mod_idemp_l (a * 16)) by lia.
    rewrite <- (Z.add_mod_idemp_l (a mod 2 ^ 32 * 16)) by lia.
    rewrite Z.mul_mod_idemp_l by lia. reflexivity.
Qed.

Lemma hex_step ret d :
  0 <= ret -> 0 <= d < 16 -> Z.lor (u32 (Z.shiftl ret 4)) d = (ret * 16 + d) mod 2 ^ 32.
Proof.
  intros Hret Hd. rewrite Z.shiftl_mul_pow2 by lia. unfold u32.
  change (2 ^ 4) with 16. change (2 ^ 32) with (2 ^ 28 * 16).
  rewrite Z.mul_mod_distr_r by lia.
  pose proof (Z.mod_pos_bound ret (2 ^ 28) ltac:(lia)) as Hm.
  rewrite Z.lor_comm. change 16 with (2 ^ 4) at 1.
  rewrite lor_low_high by lia.
  apply Z.mod_unique with (q := ret / 2 ^ 28); [lia |].
  pose proof (Z.div_mod ret (2 ^ 28) ltac:(lia)). lia.
Qed.

(** The loop over a hexadecimal literal: every string of digits is accepted,
    and what is returned is its value modulo 2^32. *)
Lemma hexDigits_value l :
  forallb isHexDigit l = true ->
  forall ret, 0 <= ret < 2 ^ 32 ->
    hexDigits l ret
    = Some (fold_left (fun acc c => acc * 16 + hexDigitValue c) l ret mod 2 ^ 32).
Proof.
  induction l as [| c r IH]; intros H ret Hret.
  - cbn [hexDigits fold_left]. rewrite Z.mod_small by lia. reflexivity.
  - cbn [forallb] in H. apply andb_prop in H as [Hc Hr].
    pose proof (hex_digit_range c Hc) as Hd.
    pose proof (isHexDigit_byteOf c Hc) as Hb.
    cbn [hexDigits fold_left]. rewrite hex_mod.
    assert (Hnext : 0 <= (ret * 16 + hexDigitValue c) mod 2 ^ 32 < 2 ^ 32)
      by (apply Z.mod_pos_bound; lia).
    unfold hexDigitValue in *.
    destruct (Z.leb_spec (byteOf c) 57) as [H57 | H57].
    + destruct (Z.geb_spec (byteOf c) 48); [| lia]. cbn [andb].
      rewrite hex_step by lia. apply IH; assumption.
    + cbn [andb].
      destruct (Z.leb_spec (byteOf c) 102); [| lia].
      destruct (Z.geb_spec (byteOf c) 97); [| lia]. cbn [andb].
      rewrite (u32_id (byteOf c - 97 + 10)) by lia.
      rewrite hex_step by lia. apply IH; assumption.
Qed.

(** X25.  a literal [0x] followed by lower-case hexadecimal digits is accepted
    whatever its length, and its value is taken modulo 2^32: there is no
    overflow check. *)
Theorem hex_literal_value digits labels isSignedImm :
  forallb isHexDigit (chars digits) = true ->
  getLiteralValueFull (String "0" (String "x" digits)) labels isSignedImm
  = (hexValue (chars digits) mod 2 ^ 32, None).
Proof.
  intros Hd.
  assert (Hplain : forall c, isHexDigit c = true ->
            33 <= byteOf c /\ (byteOf c < 65 \/ 90 < byteOf c)).
  { intros c Hc. apply isHexDigit_byteOf in Hc. lia. }
  set (s := String "0" (String "x" digits)).
  assert (Hchars : chars s = "0"%char :: "x"%char :: chars digits) by reflexivity.
  assert (Htrim : Trim s (String " " (String (ascii_of_nat 9) EmptyString)) = s).
  { apply Trim_plain. rewrite Hchars. cbn [forallb].
    rewrite (plain_byte "0") by (vm_compute; discriminate).
    rewrite (plain_byte "x") by (vm_compute; discriminate). cbn [andb].
    apply forallb_forall. intros c Hc. apply plain_byte.
    apply (Hplain c). exact (proj1 (forallb_forall _ _) Hd c Hc). }
  assert (Hlower : ToLower s = s).
  { unfold ToLower. rewrite Hchars. cbn [map].
    change (lowerChar "0") with "0"%char. change (lowerChar "x") with "x"%char.
    replace (map lowerChar (chars digits)) with (chars digits).
    - rewrite <- Hchars. apply text_chars.
    - clear Hchars Htrim. induction (chars digits) as [| c r IH]; [reflexivity |].
      cbn [forallb] in Hd. apply andb_prop in Hd as [Hc Hr].
      cbn [map]. rewrite lowerChar_plain by (apply (Hplain c Hc)).
      rewrite <- (IH Hr). reflexivity. }
  unfold getLiteralValueFull. rewrite Htrim. cbv zeta. rewrite Hchars.
  change (Ascii.eqb "0" "-" || isDigit "0") with true. cbv iota.
  rewrite Hlower.
  assert (Hidx : Index s "0x" = Some 0%nat) by (unfold Index, s; destruct digits; reflexivity).
  rewrite Hidx.
  replace (substring 2 (String.length s - 2) s) with digits.
  - unfold hexValue. rewrite (hexDigits_value _ Hd 0) by lia. reflexivity.
  - unfold s. cbn [String.length]. rewrite Nat.sub_succ, Nat.sub_succ, Nat.sub_0_r.
    cbn [substring]. symmetry. apply substring_all.
Qed.

End Literals.

(** ** Loading an image *)

Lemma addToSystemMemory_loadState start words :
  addToSystemMemory start words [] ∅ = (st ← loadState start words; Some (st.1.1, st.1.2)).
Proof. reflexivity. Qed.

Lemma loadState_snoc start words w :
  loadState start (words ++ [w])
  = (st ← loadState start words; addWord start st (4 * Z.of_nat (length words), w)).
Proof.
  unfold loadState. rewrite imap_app, foldl_app. cbn [imap foldl].
  rewrite Nat.add_0_r. reflexivity.
Qed.

(** The write of word [k] of an image loaded at the start of page [pg], once
    the page is current. *)
Lemma addWord_write pg k w xs ys old (m : gmap Z MemoryPage) :
  0 <= pg < 2 ^ 20 -> 0 <= k < 4096 -> 4096 * pg + 4 * k < 2 ^ 32 ->
  length xs = 1024%nat -> length ys = 32%nat ->
  m !! pg = Some (mkPage (u32 (Z.shiftl pg 12)) (Some 0%nat) (Some 1%nat)) ->
  ys !! Z.to_nat (k mod 1024 / 32) = Some old ->
  addWord (4096 * pg) ([xs; ys], m, pg) (4 * k, w)
  = Some ([<[Z.to_nat (k mod 1024) := w]> xs;
           <[Z.to_nat (k mod 1024 / 32) := Z.lor old (Z.shiftl 1 (k mod 32))]> ys],
          m, pg).
Proof.
  intros Hpg Hk Hfit Hlx Hly Hm Hold.
  assert (Hq : Z.quot (4 * k) 4 = k)
    by (rewrite Z.quot_div_nonneg by lia; rewrite Z.mul_comm; apply Z.div_mul; lia).
  assert (Hpage : Z.shiftr (Z.land (u32 (4096 * pg + u32 (Z.quot (4 * k) 4))) 4294963200) 12
                  = pg).
  { rewrite Hq, (u32_id k), (u32_id (4096 * pg + k)) by lia.
    rewrite page_of_masked by lia. rewrite Z.shiftr_div_pow2 by lia.
    symmetry. apply (Z.div_unique _ _ _ k); lia. }
  assert (Ha : u32 (4096 * pg + u32 (4 * k)) = 4096 * pg + 4 * k)
    by (rewrite (u32_id (4 * k)), u32_id by lia; reflexivity).
  assert (Hmod : (4096 * pg + 4 * k) mod 4096 = 4 * (k mod 1024)).
  { replace (4096 * pg + 4 * k) with (4 * k + pg * 4096) by lia.
    rewrite Z.mod_add by lia.
    change 4096 with (4 * 1024). apply Z.mul_mod_distr_l; lia. }
  assert (Hw : (4096 * pg + 4 * k) mod 4096 / 4 = k mod 1024)
    by (rewrite Hmod, Z.mul_comm; apply Z.div_mul; lia).
  assert (Hi : (4096 * pg + 4 * k) mod 4096 / 128 = k mod 1024 / 32).
  { rewrite Hmod. change 128 with (4 * 32). rewrite Z.div_mul_cancel_l by lia. reflexivity. }
  assert (Hb : (4096 * pg + 4 * k) / 4 mod 32 = k mod 32).
  { replace (4096 * pg + 4 * k) with ((1024 * pg + k) * 4) by lia.
    rewrite Z.div_mul by lia.
    replace (1024 * pg + k) with (k + (32 * pg) * 32) by lia.
    apply Z.mod_add. lia. }
  pose proof (Z.mod_pos_bound k 1024 ltac:(lia)) as Hk1.
  pose proof (Z.mod_pos_bound k 32 ltac:(lia)) as Hk2.
  assert (Hk3 : 0 <= k mod 1024 / 32 < 32)
    by (split; [apply Z.div_pos; lia | apply Z.div_lt_upper_bound; lia]).
  assert (Hbit : u32 (Z.shiftl 1 (k mod 32)) = Z.shiftl 1 (k mod 32)).
  { apply u32_id. rewrite Z.shiftl_mul_pow2 by lia.
    assert (0 < 2 ^ (k mod 32)) by (apply Z.pow_pos_nonneg; lia).
    assert (2 ^ (k mod 32) <= 2 ^ 31) by (apply Z.pow_le_mono_r; lia). lia. }
  unfold addWord. rewrite Hpage, Z.eqb_refl. cbn [negb].
  rewrite Hm. cbn [mbind option_bind memory initialized].
  rewrite Ha, Hw, Hi, Hb, Hbit.
  change ([xs; ys] !! 0%nat) with (Some xs). cbn [mbind option_bind].
  rewrite setIx_insert by lia. cbn [mbind option_bind].
  change (<[0%nat := <[Z.to_nat (k mod 1024) := w]> xs]> [xs; ys] !! 1%nat) with (Some ys).
  cbn [mbind option_bind].
  rewrite ix_lookup by lia. rewrite Hold. cbn [mbind option_bind].
  rewrite setIx_insert by lia. reflexivity.
Qed.

(** The first word creates the page. *)
Lemma addWord_first pg w :
  0 <= pg < 2 ^ 20 ->
  addWord (4096 * pg) ([], ∅, 4294967295) (4 * 0, w)
  = addWord (4096 * pg)
      ([replicate 1024 0; replicate 32 0],
       {[ pg := mkPage (u32 (Z.shiftl pg 12)) (Some 0%nat) (Some 1%nat) ]}, pg) (4 * 0, w).
Proof.
  intros Hpg.
  assert (Hpage : Z.shiftr (Z.land (u32 (4096 * pg + u32 (Z.quot (4 * 0) 4))) 4294963200) 12
                  = pg).
  { change (u32 (Z.quot (4 * 0) 4)) with 0. rewrite Z.add_0_r, u32_id by lia.
    rewrite page_of_masked by lia. rewrite Z.shiftr_div_pow2 by lia.
    rewrite Z.mul_comm. apply Z.div_mul. lia. }
  unfold addWord. rewrite Hpage, Z.eqb_refl.
  destruct (Z.eqb_spec pg 4294967295) as [? | _]; [lia |]. cbn [negb].
  rewrite lookup_empty. rewrite insert_empty. reflexivity.
Qed.

(** The contents of the page after the words [words], when they fit in it:
    word [j] of the page is word [j] of the image (0 beyond its end), and its
    initialised bit is set exactly when [j] is below the length. *)
Lemma load_step pg words w xs ys :
  0 <= pg < 2 ^ 20 -> (length words < 4096)%nat ->
  4096 * pg + 4 * Z.of_nat (length words) < 2 ^ 32 ->
  length xs = 1024%nat -> length ys = 32%nat ->
  ((length words <= 1024)%nat ->
   forall j : nat, (j < 1024)%nat ->
     xs !! j = Some (default 0 (words !! j)) /\
     exists wd, ys !! (j / 32)%nat = Some wd /\
                Z.land (Z.shiftr wd (Z.of_nat (j mod 32))) 1
                = if (j <? length words)%nat then 1 else 0) ->
  exists xs' ys',
    addWord (4096 * pg)
      ([xs; ys], {[ pg := mkPage (u32 (Z.shiftl pg 12)) (Some 0%nat) (Some 1%nat) ]}, pg)
      (4 * Z.of_nat (length words), w)
    = Some ([xs'; ys'],
            {[ pg := mkPage (u32 (Z.shiftl pg 12)) (Some 0%nat) (Some 1%nat) ]}, pg) /\
    length xs' = 1024%nat /\ length ys' = 32%nat /\
    ((length (words ++ [w]) <= 1024)%nat ->
     forall j : nat, (j < 1024)%nat ->
       xs' !! j = Some (default 0 ((words ++ [w]) !! j)) /\
       exists wd, ys' !! (j / 32)%nat = Some wd /\
                  Z.land (Z.shiftr wd (Z.of_nat (j mod 32))) 1
                  = if (j <? length (words ++ [w]))%nat then 1 else 0).
Proof.
  intros Hpg Hn Hfit Hlx Hly Hcont.
  set (n := length words) in *. set (k := Z.of_nat n).
  pose proof (Z.mod_pos_bound k 1024 ltac:(lia)) as Hk1.
  assert (Hk3 : 0 <= k mod 1024 / 32 < 32)
    by (split; [apply Z.div_pos; lia | apply Z.div_lt_upper_bound; lia]).
  destruct (lookup_lt_is_Some_2 ys (Z.to_nat (k mod 1024 / 32)) ltac:(lia)) as [old Hold].
  eexists _, _. split.
  { apply (addWord_write pg k w xs ys old); try assumption; try (unfold k; lia).
    apply lookup_singleton_eq. }
  split; [rewrite length_insert; exact Hlx |].
  split; [rewrite length_insert; exact Hly |].
  rewrite length_app. cbn [length]. fold n. intros Hfits j Hj.
  specialize (Hcont ltac:(lia) j Hj) as (Hxj & wd & Hwd & Hbit).
  assert (Ek : k mod 1024 = k) by (apply Z.mod_small; unfold k; lia).
  rewrite Ek in *.
  assert (Ediv : Z.to_nat (k / 32) = (n / 32)%nat).
  { unfold k. apply Nat2Z.inj. rewrite Z2Nat.id by (apply Z.div_pos; lia).
    rewrite (Nat2Z.inj_div n 32). reflexivity. }
  assert (Emod : k mod 32 = Z.of_nat (n mod 32)).
  { unfold k. rewrite (Nat2Z.inj_mod n 32). reflexivity. }
  rewrite Ediv in *. replace (Z.to_nat k) with n by (unfold k; lia).
  split.
  - destruct (Nat.eq_dec j n) as [-> | Hne].
    + rewrite list_lookup_insert_eq by lia.
      rewrite lookup_app_r by (fold n; lia). fold n. rewrite Nat.sub_diag. reflexivity.
    + rewrite list_lookup_insert_ne by lia. rewrite Hxj. f_equal. f_equal.
      destruct (Nat.lt_ge_cases j n).
      * rewrite lookup_app_l by (fold n; lia). reflexivity.
      * rewrite (lookup_ge_None_2 words) by (fold n; lia).
        rewrite lookup_ge_None_2 by (rewrite length_app; cbn [length]; fold n; lia).
        reflexivity.
  - destruct (Nat.eq_dec (j / 32)%nat (n / 32)%nat) as [Ed | Ed].
    + rewrite Ed in *. rewrite list_lookup_insert_eq by lia.
      eexists. split; [reflexivity |].
      assert (wd = old) by congruence. subst wd.
      rewrite Emod. rewrite bit_lor_shiftl by lia.
      destruct (Z.eqb_spec (Z.of_nat (j mod 32)) (Z.of_nat (n mod 32))) as [Em | Em].
      * assert (j = n).
        { rewrite (Nat.div_mod_eq j 32), (Nat.div_mod_eq n 32). lia. }
        subst j. destruct (Nat.ltb_spec n (n + 1)); [reflexivity | lia].
      * rewrite Hbit.
        assert (j <> n) by (intros ->; apply Em; reflexivity).
        destruct (Nat.ltb_spec j n), (Nat.ltb_spec j (n + 1)); try reflexivity; lia.
    + rewrite list_lookup_insert_ne by lia.
      exists wd. split; [exact Hwd |]. rewrite Hbit.
      assert (j <> n) by (intros ->; apply Ed; reflexivity).
      destruct (Nat.ltb_spec j n), (Nat.ltb_spec j (n + 1)); try reflexivity; lia.
Qed.

(** The state of the loop after a non-empty image of at most 4096 words
    loaded at the start of page [pg]: one page, backed by the two arrays of
    the heap. *)
Lemma loadState_page pg words :
  0 <= pg < 2 ^ 20 -> (length words <= 4096)%nat ->
  4096 * pg + 4 * Z.of_nat (length words) <= 2 ^ 32 ->
  exists xs ys,
    ((words = [] /\ xs = replicate 1024 0 /\ ys = replicate 32 0) \/
     loadState (4096 * pg) words
     = Some ([xs; ys],
             {[ pg := mkPage (u32 (Z.shiftl pg 12)) (Some 0%nat) (Some 1%nat) ]}, pg)) /\
    length xs = 1024%nat /\ length ys = 32%nat /\
    ((length words <= 1024)%nat ->
     forall j : nat, (j < 1024)%nat ->
       xs !! j = Some (default 0 (words !! j)) /\
       exists wd, ys !! (j / 32)%nat = Some wd /\
                  Z.land (Z.shiftr wd (Z.of_nat (j mod 32))) 1
                  = if (j <? length words)%nat then 1 else 0).
Proof.
  intros Hpg. induction words as [| w words IH] using rev_ind; intros Hn Hfit.
  - exists (replicate 1024 0), (replicate 32 0).
    split; [left; repeat split |].
    split; [apply length_replicate |]. split; [apply length_replicate |].
    intros _ j Hj. split.
    + rewrite lookup_replicate_2 by lia. reflexivity.
    + exists 0. split.
      * apply lookup_replicate_2. apply Nat.Div0.div_lt_upper_bound. lia.
      * rewrite Z.shiftr_0_l. reflexivity.
  - rewrite length_app in Hn, Hfit. cbn [length] in Hn, Hfit.
    destruct IH as (xs & ys & Hstate & Hlx & Hly & Hcont); [lia | lia |].
    destruct (load_step pg words w xs ys Hpg ltac:(lia) ltac:(lia) Hlx Hly Hcont)
      as (xs' & ys' & Hstep & Hlx' & Hly' & Hcont').
    exists xs', ys'. split; [right | split; [exact Hlx' | split; [exact Hly' | exact Hcont']]].
    rewrite loadState_snoc.
    destruct Hstate as [(-> & -> & ->) | ->].
    + etransitivity; [| exact Hstep]. exact (addWord_first pg w Hpg).
    + cbn [mbind option_bind]. exact Hstep.
Qed.

Lemma image_address pg k :
  0 <= pg < 2 ^ 20 -> 0 <= k < 1024 ->
  Z.shiftr (4096 * pg + 4 * k) 12 = pg /\
  (4096 * pg + 4 * k) mod 4096 / 128 = k / 32 /\
  (4096 * pg + 4 * k) mod 4096 / 4 mod 32 = k mod 32 /\
  (4096 * pg + 4 * k) / 4 mod 1024 = k.
Proof.
  intros Hpg Hk.
  assert (Hmod : (4096 * pg + 4 * k) mod 4096 = 4 * k).
  { replace (4096 * pg + 4 * k) with (4 * k + pg * 4096) by lia.
    rewrite Z.mod_add by lia. apply Z.mod_small. lia. }
  repeat apply conj.
  - rewrite Z.shiftr_div_pow2 by lia. symmetry. apply (Z.div_unique _ _ _ (4 * k)); lia.
  - rewrite Hmod. change 128 with (4 * 32). rewrite Z.div_mul_cancel_l by lia. reflexivity.
  - rewrite Hmod. rewrite (Z.mul_comm 4 k), Z.div_mul by lia. reflexivity.
  - replace (4096 * pg + 4 * k) with ((k + pg * 1024) * 4) by lia.
    rewrite Z.div_mul by lia. rewrite Z.mod_add by lia. apply Z.mod_small. lia.
Qed.

(** X26.  an image of at most 1024 words loaded at the start of a page into an
    empty table is read back by [memRead]: word [k] of the image at
    [start + 4k], marked initialised, and the rest of the page as
    uninitialised. *)
Theorem image_read_back pg words :
  0 <= pg < 2 ^ 20 -> words <> [] -> (length words <= 1024)%nat ->
  exists h m,
    addToSystemMemory (4096 * pg) words [] ∅ = Some (h, m) /\
    forall k : nat, (k < 1024)%nat ->
      memRead h m (4096 * pg + 4 * Z.of_nat k)
      = match words !! k with Some w => Some (w, true) | None => Some (0, false) end.
Proof.
  intros Hpg Hne Hn.
  destruct (loadState_page pg words Hpg ltac:(lia) ltac:(lia))
    as (xs & ys & Hstate & Hlx & Hly & Hcont).
  destruct Hstate as [(-> & _) | Hstate]; [contradiction |].
  eexists _, _. split.
  { rewrite addToSystemMemory_loadState, Hstate. reflexivity. }
  intros k Hk. cbn [fst snd].
  destruct (image_address pg (Z.of_nat k) Hpg ltac:(lia)) as (A1 & A2 & A3 & A4).
  destruct (Hcont Hn k Hk) as (Hxk & wd & Hwd & Hbit).
  unfold memRead. rewrite A1, lookup_singleton_eq.
  cbn [initialized memory mbind option_bind].
  change ([xs; ys] !! 1%nat) with (Some ys). change ([xs; ys] !! 0%nat) with (Some xs).
  cbn [mbind option_bind].
  unfold notInitialized. rewrite A2, A3, A4.
  rewrite !ix_lookup by (try apply Z.div_pos; lia).
  replace (Z.to_nat (Z.of_nat k / 32)) with (k / 32)%nat.
  2: { apply Nat2Z.inj. rewrite Z2Nat.id by (apply Z.div_pos; lia).
       rewrite (Nat2Z.inj_div k 32). reflexivity. }
  rewrite Hwd. cbn [mbind option_bind].
  replace (Z.of_nat k mod 32) with (Z.of_nat (k mod 32))
    by (rewrite (Nat2Z.inj_mod k 32); reflexivity).
  rewrite Hbit, Nat2Z.id, Hxk.
  destruct (Nat.ltb_spec k (length words)) as [Hlt | Hge].
  - destruct (lookup_lt_is_Some_2 words k Hlt) as [w Hw]. rewrite Hw. reflexivity.
  - rewrite (lookup_ge_None_2 words k Hge). reflexivity.
Qed.

(** X27.  an image of up to 4096 words loaded at the start of a page occupies
    that page only: the page test looks at [start + i/4], so no further page
    is created, and every address of another page, among them the addresses
    of the words from word 1024 on, reads as uninitialised. *)
Theorem long_image_keeps_one_page pg words :
  0 <= pg < 2 ^ 20 -> words <> [] -> (length words <= 4096)%nat ->
  4096 * pg + 4 * Z.of_nat (length words) <= 2 ^ 32 ->
  exists h m,
    addToSystemMemory (4096 * pg) words [] ∅ = Some (h, m) /\
    forall addr, Z.shiftr addr 12 <> pg -> memRead h m addr = Some (0, false).
Proof.
  intros Hpg Hne Hn Hfit.
  destruct (loadState_page pg words Hpg Hn Hfit)
    as (xs & ys & Hstate & Hlx & Hly & _).
  destruct Hstate as [(-> & _) | Hstate]; [contradiction |].
  eexists _, _. split.
  { rewrite addToSystemMemory_loadState, Hstate. reflexivity. }
  intros addr Haddr. cbn [fst snd]. unfold memRead.
  rewrite lookup_singleton_ne by congruence. reflexivity.
Qed.

(** ** The scenario [swi598] attaches *)

Lemma getPoint_pile p q x y : Pile p = Pile q -> getPoint p x y = getPoint q x y.
Proof. intros E. unfold getPoint. rewrite E. reflexivity. Qed.

(** The field [generateField] returns was accepted by [validatePile]. *)
Lemma generateField_Done rnd fuel p i s p' s' :
  generateField rnd fuel p i s = Done (p', s') ->
  exists p0, validatePile p0 = Some (true, p').
Proof.
  revert p i s. induction fuel as [| fuel IH]; intros p i s H; [discriminate |].
  cbn [generateField] in H.
  apply bind_Done in H as (i' & s1 & _ & H).
  apply bind_Done in H as ([ok q] & s2 & _ & H).
  destruct ok; cbn [negb] in H; [| exact (IH _ _ _ H)].
  apply bind_Done in H as ([ok' q'] & s3 & Hv & H).
  apply orPanic_Done in Hv as [Hv ->].
  destruct ok'; cbn [negb] in H; [| exact (IH _ _ _ H)].
  apply ret_Done in H as [-> ->]. exists q. exact Hv.
Qed.

(** X28.  the scenario [swi598] attaches carries as its solution the bounding
    box of its target colour in columns and rows 1..62 of its pile: the
    packed corners of a box at least 25 wide and high that lies in these
    columns and rows, holds every point of the colour in them, and has on each
    of its four sides a point of the colour within the box. *)
Theorem swi598_solution_is_box rnd fuel s s' :
  swi598 rnd fuel s = Done (tt, s') ->
  exists p minX minY maxX maxY,
    swiContext s' = CtxFa21 p /\
    1 <= minX /\ maxX <= 62 /\ 1 <= minY /\ maxY <= 62 /\
    25 <= maxX - minX + 1 /\ 25 <= maxY - minY + 1 /\
    Solution p = (minY * 64 + minX) * 65536 + (maxY * 64 + maxX) /\
    (forall x y, 1 <= x <= 62 -> 1 <= y <= 62 -> getPoint p x y = Some (TargetColor p) ->
       minX <= x <= maxX /\ minY <= y <= maxY) /\
    (exists y, minY <= y <= maxY /\ getPoint p minX y = Some (TargetColor p)) /\
    (exists y, minY <= y <= maxY /\ getPoint p maxX y = Some (TargetColor p)) /\
    (exists x, minX <= x <= maxX /\ getPoint p x minY = Some (TargetColor p)) /\
    (exists x, minX <= x <= maxX /\ getPoint p x maxY = Some (TargetColor p)).
Proof.
  intros H. unfold swi598 in H.
  apply bind_Done in H as (ok & s1 & _ & H).
  apply bind_Done in H as (u1 & s2 & _ & H).
  apply bind_Done in H as (c & s3 & _ & H). cbv zeta in H.
  apply bind_Done in H as (u2 & s4 & _ & H).
  apply bind_Done in H as (p & s5 & Hp & H).
  apply bind_Done in H as (memLoc & s6 & _ & H).
  apply bind_Done in H as (u3 & s7 & _ & H).
  apply modify_Done in H as ->.
  apply generateField_Done in Hp as (p0 & Hv).
  destruct (validatePile_Some p0 p Hv)
    as (minX & minY & maxX & maxY & Hscan & Hw & Hh & Hsol & Hpile & Htc).
  destruct (scanned_box p0 minX minY maxX maxY Hscan Hw Hh)
    as (B1 & B2 & B3 & B4 & Hpack & Hcov &
        (y1 & R1 & T1) & (y2 & R2 & T2) & (x3 & R3 & T3) & (x4 & R4 & T4)).
  rewrite Hpack in Hsol.
  assert (Hget : forall x y, getPoint p x y = getPoint p0 x y)
    by (intros x y; apply getPoint_pile; exact Hpile).
  exists p, minX, minY, maxX, maxY. cbn [swiContext setSwiContext].
  repeat apply conj; try assumption; try reflexivity.
  - intros x y Hx Hy Ht. rewrite Hget, Htc in Ht. exact (Hcov x y Hx Hy Ht).
  - exists y1. split; [exact R1 | rewrite Hget, Htc; exact T1].
  - exists y2. split; [exact R2 | rewrite Hget, Htc; exact T2].
  - exists x3. split; [exact R3 | rewrite Hget, Htc; exact T3].
  - exists x4. split; [exact R4 | rewrite Hget, Htc; exact T4].
Qed.

(** ** The rotation puzzle in memory *)

(** Steps that touch neither the pages nor the caches. *)
Lemma sameMemory_memoryOk s t :
  heap t = heap s -> sysMemory t = sysMemory s ->
  iCache t = iCache s -> dCache t = dCache s ->
  memoryOk s -> memoryOk t.
Proof. intros Hh Hm Hi Hd. unfold memoryOk. rewrite Hh, Hm, Hi, Hd. tauto. Qed.

Lemma genSquare_memory rnd fuel s t s' :
  genSquare rnd fuel s = Done (t, s') ->
  heap s' = heap s /\ sysMemory s' = sysMemory s /\
  iCache s' = iCache s /\ dCache s' = dCache s /\ regs s' = regs s.
Proof.
  intros H.
  apply (genSquare_preserves
           (fun u => heap u = heap s /\ sysMemory u = sysMemory s /\
                     iCache u = iCache s /\ dCache u = dCache s /\ regs u = regs s)
           ltac:(intros; assumption) rnd fuel s t s'); [repeat split | exact H].
Qed.

Lemma genSolution_memory rnd p s p' s' :
  genSolution rnd p s = Done (p', s') ->
  heap s' = heap s /\ sysMemory s' = sysMemory s /\
  iCache s' = iCache s /\ dCache s' = dCache s /\ regs s' = regs s.
Proof.
  intros H.
  apply (genSolution_preserves
           (fun u => heap u = heap s /\ sysMemory u = sysMemory s /\
                     iCache u = iCache s /\ dCache u = dCache s /\ regs u = regs s)
           ltac:(intros; assumption) rnd p s p' s'); [repeat split | exact H].
Qed.

(** Two addresses of different words differ in their page or in their index
    in it. *)
Lemma other_word addr addr' :
  addr' / 4 <> addr / 4 ->
  Z.shiftr addr' 12 <> Z.shiftr addr 12 \/ addr' / 4 mod 1024 <> addr / 4 mod 1024.
Proof.
  intros Hne. rewrite !Z.shiftr_div_pow2 by lia.
  destruct (Z.eq_dec (addr' / 2 ^ 12) (addr / 2 ^ 12)) as [E | E]; [right | left; exact E].
  intros E'. apply Hne.
  change (2 ^ 12) with (4 * 1024) in E. rewrite <- !Z.div_div in E by lia.
  rewrite (Z.div_mod (addr' / 4) 1024), (Z.div_mod (addr / 4) 1024) by lia.
  rewrite E, E'. reflexivity.
Qed.

(** A full-word store above page 0: the word is there afterwards, the other
    words are as before, and the memory stays well-formed. *)
Lemma store_word s addr v s1 :
  memoryOk s -> 4096 <= addr < 2 ^ 32 -> 0 <= v < 2 ^ 32 ->
  memWrite addr v 4294967295 s = Done (tt, s1) ->
  memoryOk s1 /\
  memRead (heap s1) (sysMemory s1) addr = Some (v, true) /\
  forall addr', addr' / 4 <> addr / 4 ->
    memRead (heap s1) (sysMemory s1) addr' = memRead (heap s) (sysMemory s) addr'.
Proof.
  intros Hok Haddr Hv Hrun.
  assert (Hnz : noZeroHit s addr).
  { left. rewrite Z.shiftr_div_pow2 by lia.
    assert (1 <= addr / 2 ^ 12) by (apply Z.div_le_lower_bound; lia). lia. }
  destruct (memWrite_effect s addr v 4294967295 Hok Hnz ltac:(lia)) as (s1' & Hrun' & Hw).
  assert (s1' = s1) by congruence. subst s1'.
  split; [exact (wrote_memoryOk _ _ _ _ _ Hok Hw) |]. split.
  - destruct (wrote_memRead_same _ _ _ _ _ Hw) as (old & _ & Hrd).
    unfold mergeWord in Hrd. rewrite full_mask_write in Hrd by exact Hv. exact Hrd.
  - intros addr' Hne. apply (wrote_memRead_other _ _ _ _ _ _ Hok Hw).
    apply other_word. exact Hne.
Qed.

Lemma ofCells_range l :
  Forall (fun c => 0 <= c < 4) l -> 0 <= ofCells l < 4 ^ Z.of_nat (length l).
Proof.
  induction 1 as [| c l Hc _ IH]; cbn [ofCells fold_right length]; [cbn; lia |].
  fold (ofCells l). rewrite Nat2Z.inj_succ, Z.pow_succ_r by lia. lia.
Qed.

Lemma cells_square_range c0 c1 c2 c3 c4 c5 c6 c7 :
  0 <= c0 < 4 /\ 0 <= c1 < 4 /\ 0 <= c2 < 4 /\ 0 <= c3 < 4 /\
  0 <= c4 < 4 /\ 0 <= c5 < 4 /\ 0 <= c6 < 4 /\ 0 <= c7 < 4 ->
  0 <= ofCells [c0; c1; c2; c3; c4; c5; c6; c7] < 2 ^ 16.
Proof.
  intros H. cells_bounds.
  apply (ofCells_range [c0; c1; c2; c3; c4; c5; c6; c7]). repeat constructor; lia.
Qed.

(** The candidate [genSolution] builds is a 16-bit square. *)
Lemma built_solution_range ref (flipped : bool) r :
  0 <= ref < 2 ^ 16 -> 0 <= r < 4 ->
  0 <= (let sol := ref in
        let sol := if flipped then flipCells (cellsOf sol) else sol in
        if r =? p1Sol90Rot then Z.lor (Z.shiftr sol 4) (u32 (Z.shiftl (Z.land sol 15) 12))
        else if r =? p1Sol180Rot then Z.lor (Z.shiftr sol 8) (u32 (Z.shiftl (Z.land sol 255) 8))
        else if r =? p1Sol270Rot then Z.lor (Z.shiftr sol 12) (u32 (Z.shiftl (Z.land sol 4095) 4))
        else sol) < 2 ^ 16.
Proof.
  intros Href Hr.
  destruct (square_has_cells _ Href) as (c0 & c1 & c2 & c3 & c4 & c5 & c6 & c7 & Hc & ->).
  cells_bounds. cbv zeta.
  assert (Hcases : r = 0 \/ r = 1 \/ r = 2 \/ r = 3) by lia.
  destruct flipped; [rewrite cellsOf_cells, flipCells_cells by cells_side |];
    destruct Hcases as [-> | [-> | [-> | ->]]];
    cbn [Z.eqb Pos.eqb p1Sol90Rot p1Sol180Rot p1Sol270Rot];
    fold (rot4 (ofCells [c0; c7; c6; c5; c4; c3; c2; c1]));
    fold (rot4 (ofCells [c0; c1; c2; c3; c4; c5; c6; c7]));
    rewrite ?rot4_cells, ?rot8_cells, ?rot12_cells by cells_side;
    apply cells_square_range; cells_side.
Qed.

Lemma slot_address a i :
  4096 <= a -> a + 36 < 2 ^ 32 -> 0 <= i < 8 ->
  u32 (u32 (a + u32 (u32 i * 4)) + 4) = a + 4 + 4 * i /\
  u32 (u32 (a + 4) + 4 * i) = a + 4 + 4 * i /\
  4096 <= a + 4 + 4 * i < 2 ^ 32 /\
  (a + 4 + 4 * i) / 4 = a / 4 + 1 + i.
Proof.
  intros Ha Hb Hi.
  rewrite (u32_id i), (u32_id (i * 4)), (u32_id (a + i * 4)), (u32_id (a + 4)) by lia.
  rewrite !u32_id by lia.
  repeat apply conj; try lia.
  replace (a + 4 + 4 * i) with (a + (1 + i) * 4) by lia.
  rewrite Z.div_add by lia. lia.
Qed.

(** A distractor is stored in the word of its slot. *)
Lemma genDummy_mem rnd fuel p a i w s p' s' :
  memoryOk s -> 4096 <= a -> a + 36 < 2 ^ 32 -> 0 <= i < 8 ->
  genDummy rnd fuel p a i w s = Done (p', s') ->
  memoryOk s' /\
  (exists t, ix (Candidates p') i = Some t /\
             memRead (heap s') (sysMemory s') (a + 4 + 4 * i) = Some (t, true)) /\
  forall addr', addr' / 4 <> (a + 4 + 4 * i) / 4 ->
    memRead (heap s') (sysMemory s') addr' = memRead (heap s) (sysMemory s) addr'.
Proof.
  intros Hok Ha Hb Hi. revert w s Hok.
  induction fuel as [| fuel IH]; intros w s Hok H; [discriminate |].
  cbn [genDummy] in H.
  apply bind_Done in H as (t & s1 & Ht & H).
  destruct (genSquare_memory _ _ _ _ _ Ht) as (Hh & Hm & Hic & Hdc & _).
  apply genSquare_Done in Ht as [Ht _].
  pose proof (sameMemory_memoryOk s s1 Hh Hm Hic Hdc Hok) as Hok1.
  destruct (testSolution p t); cbn [negb] in H.
  - destruct (w + 1 >? 1000).
    + apply bind_Done in H as (u & s2 & Hu & H). apply ret_Done in Hu as [_ ->].
      destruct (IH _ _ Hok1 H) as (K1 & K2 & K3).
      split; [exact K1 |]. split; [exact K2 |].
      intros addr' Hne. rewrite (K3 addr' Hne), Hh, Hm. reflexivity.
    + destruct (IH _ _ Hok1 H) as (K1 & K2 & K3).
      split; [exact K1 |]. split; [exact K2 |].
      intros addr' Hne. rewrite (K3 addr' Hne), Hh, Hm. reflexivity.
  - apply bind_Done in H as (cands & s2 & Hc & H). apply orPanic_Done in Hc as [Hc ->].
    apply bind_Done in H as (u & s3 & Hw & H). apply ret_Done in H as [-> ->].
    destruct (slot_address a i Ha Hb Hi) as (A1 & _ & A3 & _).
    rewrite A1 in Hw. destruct u.
    destruct (store_word s1 _ t s3 Hok1 A3 ltac:(lia) Hw) as (K1 & K2 & K3).
    split; [exact K1 |]. split.
    + exists t. split; [| exact K2]. cbn [Candidates].
      exact (ix_setIx_same _ _ _ _ Hc).
    + intros addr' Hne. rewrite (K3 addr' Hne), Hh, Hm. reflexivity.
Qed.

(** The loop over the slots, in memory: every visited slot other than the
    solution's holds its candidate in its word, and no other word changes. *)
Lemma genDummies_mem rnd fuel a slots :
  4096 <= a -> a + 36 < 2 ^ 32 ->
  NoDup slots -> (forall i, In i slots -> 0 <= i < 8) ->
  forall p s p' s',
    memoryOk s ->
    genDummies rnd fuel p a slots s = Done (p', s') ->
    memoryOk s' /\
    (forall addr',
       (forall i, In i slots -> i <> SolutionOffset p / 4 ->
          addr' / 4 <> (a + 4 + 4 * i) / 4) ->
       memRead (heap s') (sysMemory s') addr' = memRead (heap s) (sysMemory s) addr') /\
    (forall i, In i slots -> i <> SolutionOffset p / 4 ->
       exists t, ix (Candidates p') i = Some t /\
                 memRead (heap s') (sysMemory s') (a + 4 + 4 * i) = Some (t, true)).
Proof.
  intros Ha Hb. induction 1 as [| i rest Hni Hnd IH]; intros Hrange p s p' s' Hok H.
  - cbn [genDummies] in H. apply ret_Done in H as [-> ->].
    split; [exact Hok |]. split; [reflexivity |]. intros i [].
  - assert (Hni' : ~ In i rest) by (intros Hin; apply Hni; apply list_elem_of_In; exact Hin).
    assert (Hrest : forall j, In j rest -> 0 <= j < 8)
      by (intros j Hj; apply Hrange; right; exact Hj).
    cbn [genDummies] in H.
    destruct (Z.eqb_spec (SolutionOffset p / 4) i) as [Ei | Ei].
    + destruct (IH Hrest _ _ _ _ Hok H) as (K1 & K2 & K3).
      split; [exact K1 |]. split.
      * intros addr' Hne. apply K2. intros j Hj. apply Hne. right. exact Hj.
      * intros j [<- | Hj] Hne; [congruence | exact (K3 j Hj Hne)].
    + apply bind_Done in H as (p1 & s1 & H1 & H).
      pose proof (genDummy_Done _ _ _ _ _ _ _ _ _ H1) as (t0 & _ & _ & _ & O1 & _).
      destruct (genDummy_mem _ _ _ _ _ _ _ _ _ Hok Ha Hb (Hrange i (or_introl eq_refl)) H1)
        as (M1 & (t & Ht & Hrd) & M3).
      destruct (IH Hrest _ _ _ _ M1 H) as (K1 & K2 & K3).
      pose proof (genDummies_Done _ _ _ _ Hnd _ _ _ _ H) as (_ & _ & _ & Keep & _).
      rewrite O1 in K2, K3.
      assert (Hdiff : forall j, In j rest -> (a + 4 + 4 * i) / 4 <> (a + 4 + 4 * j) / 4).
      { intros j Hj.
        destruct (slot_address a i Ha Hb (Hrange i (or_introl eq_refl))) as (_ & _ & _ & ->).
        destruct (slot_address a j Ha Hb (Hrest j Hj)) as (_ & _ & _ & ->).
        assert (i <> j) by (intros ->; exact (Hni' Hj)). lia. }
      split; [exact K1 |]. split.
      * intros addr' Hne. rewrite K2.
        -- apply M3. apply Hne; [left; reflexivity | congruence].
        -- intros j Hj Hjk. apply Hne; [right; exact Hj | exact Hjk].
      * intros j [<- | Hj] Hne.
        -- exists t. split.
           ++ rewrite Keep by (right; exact Hni'). exact Ht.
           ++ rewrite K2; [exact Hrd |]. intros j Hj _. exact (Hdiff j Hj).
        -- exact (K3 j Hj Hne).
Qed.

(** X29.  after [swi582] the puzzle is in memory as the scenario records it:
    the reference at the address held by register 1 and the eight candidates
    in the eight words that follow, all marked initialised. *)
Theorem swi582_in_memory rnd fuel a s s' :
  memoryOk s -> ix (regs s) 1 = Some a -> 4096 <= a -> a + 36 < 2 ^ 32 ->
  swi582 rnd fuel s = Done (tt, s') ->
  exists p,
    swiContext s' = CtxP1 p /\
    memoryOk s' /\
    memRead (heap s') (sysMemory s') a = Some (Reference p, true) /\
    forall j, 0 <= j < 8 ->
      exists c, ix (Candidates p) j = Some c /\
                memRead (heap s') (sysMemory s') (a + 4 + 4 * j) = Some (c, true).
Proof.
  intros Hok Hreg Ha Hb H. unfold swi582 in H.
  apply bind_Done in H as (u0 & s0 & H0 & H). apply ret_Done in H0 as [_ ->].
  apply bind_Done in H as (ok & s1 & H1 & H).
  unfold regInitialized in H1. apply bind_Done in H1 as (ri & t1 & G1 & H1).
  apply gets_Done in G1 as [-> ->]. apply ret_Done in H1 as [-> ->].
  apply bind_Done in H as (u1 & s2 & H2 & H).
  assert (Hs2 : heap s2 = heap s /\ sysMemory s2 = sysMemory s /\
                iCache s2 = iCache s /\ dCache s2 = dCache s /\ regs s2 = regs s).
  { destruct (negb _) in H2.
    - apply reportError_Done in H2. subst s2. repeat split.
    - apply ret_Done in H2 as [_ ->]. repeat split. }
  destruct Hs2 as (E1 & E2 & E3 & E4 & E5).
  apply bind_Done in H as (ref & s3 & Href & H).
  destruct (genSquare_memory _ _ _ _ _ Href) as (F1 & F2 & F3 & F4 & F5).
  apply genSquare_Done in Href as [Href _].
  apply bind_Done in H as (p0 & s4 & Hsol & H).
  destruct (genSolution_memory _ _ _ _ _ Hsol) as (G1 & G2 & G3 & G4 & G5).
  apply genSolution_Done in Hsol.
  destruct Hsol as (k & flipped & rot & Hk & Hrot & R0 & Hoff & Hsolk & _).
  cbn [Reference Candidates] in R0, Hsolk.
  pose proof (built_solution_range ref flipped rot Href Hrot) as Hrange.
  match type of Hsolk with _ = Some ?c => set (sol := c) in * end.
  cbv zeta in H. cbn [Reference Candidates SolutionOffset] in H.
  assert (Hok4 : memoryOk s4).
  { apply (sameMemory_memoryOk s); first [congruence | exact Hok]. }
  apply bind_Done in H as (r & s5 & H5 & H). apply gets_Done in H5 as [-> ->].
  apply bind_Done in H as (a' & s6 & H6 & H). apply orPanic_Done in H6 as [H6 ->].
  assert (a' = a) by (rewrite G5, F5, E5, Hreg in H6; congruence). subst a'.
  apply bind_Done in H as (u2 & s7 & H7 & H). destruct u2.
  destruct (store_word s4 a (Reference p0) s7 Hok4 ltac:(lia) ltac:(rewrite R0; lia) H7)
    as (Hok7 & Hrd7 & Hfr7).
  apply bind_Done in H as (sol' & s8 & H8 & H). apply orPanic_Done in H8 as [H8 ->].
  assert (Hdiv : SolutionOffset p0 / 4 = k).
  { rewrite Hoff, Z.mul_comm, Z.div_mul by lia. reflexivity. }
  rewrite Hdiv, Hsolk in H8. injection H8 as <-.
  apply bind_Done in H as (u3 & s9 & H9 & H). destruct u3.
  destruct (slot_address a k Ha Hb Hk) as (_ & A2 & A3 & A4).
  rewrite Hoff, A2 in H9.
  destruct (store_word s7 _ sol s9 Hok7 A3 ltac:(lia) H9) as (Hok9 & Hrd9 & Hfr9).
  apply bind_Done in H as (p & s10 & Hd & H). apply modify_Done in H as ->.
  assert (Hnd : NoDup (seqZ 0 8)) by apply NoDup_seqZ.
  assert (Hin : forall i, In i (seqZ 0 8) <-> 0 <= i < 8).
  { intros i. rewrite <- list_elem_of_In, elem_of_seqZ. lia. }
  pose proof (genDummies_Done _ _ _ _ Hnd _ _ _ _ Hd) as (R & _ & _ & Keep & _).
  destruct (genDummies_mem rnd fuel a (seqZ 0 8) Ha Hb Hnd
              ltac:(intros i Hi; apply Hin; exact Hi) _ _ _ _ Hok9 Hd)
    as (Hok10 & Hfr10 & Hslots).
  cbn [Reference Candidates SolutionOffset] in R, Keep, Hfr10, Hslots.
  rewrite Hdiv in Keep, Hfr10, Hslots.
  exists p. cbn [swiContext heap sysMemory setSwiContext].
  split; [reflexivity |].
  split; [apply (sameMemory_memoryOk s10); [reflexivity .. | exact Hok10] |].
  split.
  - rewrite Hfr10.
    + rewrite Hfr9 by (rewrite A4; lia). rewrite R. exact Hrd7.
    + intros i Hi _. apply Hin in Hi.
      destruct (slot_address a i Ha Hb Hi) as (_ & _ & _ & ->). lia.
  - intros j Hj. destruct (Z.eq_dec j k) as [-> | Hne].
    + exists sol. split.
      * rewrite Keep by (left; reflexivity). exact Hsolk.
      * rewrite Hfr10; [exact Hrd9 |].
        intros i Hi Hik. apply Hin in Hi.
        destruct (slot_address a i Ha Hb Hi) as (_ & _ & _ & ->). rewrite A4. lia.
    + exact (Hslots j (proj2 (Hin j) Hj) Hne).
Qed.

(** ** Signed addition and subtraction *)

Lemma toInt32_congr a : u32 (toInt32 a) = u32 a.
Proof.
  unfold toInt32, u32. destruct (a <? 2 ^ 31); [reflexivity |].
  replace (a - 2 ^ 32) with (a + (-1) * 2 ^ 32) by lia.
  apply Z.mod_add. lia.
Qed.

Lemma signed_sum a b : u32 (toInt32 a + toInt32 b) = u32 (a + b).
Proof.
  unfold u32. rewrite Z.add_mod by lia.
  fold (u32 (toInt32 a)). fold (u32 (toInt32 b)).
  rewrite !toInt32_congr. unfold u32. rewrite <- Z.add_mod by lia. reflexivity.
Qed.

Lemma signed_difference a b : u32 (toInt32 a - toInt32 b) = u32 (a - b).
Proof.
  unfold u32. rewrite Zminus_mod.
  fold (u32 (toInt32 a)). fold (u32 (toInt32 b)).
  rewrite !toInt32_congr. unfold u32. rewrite <- Zminus_mod. reflexivity.
Qed.

(** X30.  [add] and [sub] do what [addu] and [subu] do: the sum or difference
    wraps to 32 bits and no overflow is ever reported. *)
Theorem add_sub_wrap x y z shift s :
  executeRType x y z fnADD shift s = executeRType x y z fnADDU shift s /\
  executeRType x y z fnSUB shift s = executeRType x y z fnSUBU shift s.
Proof.
  split.
  - unfold executeRType.
    change (fnADD =? fnADD) with true. change (fnADDU =? fnADD) with false.
    change (fnADDU =? fnADDU) with true. cbv iota.
    unfold mbind, StateM_bind.
    destruct (regAccess x s) as [[a s1] | |]; [| reflexivity ..].
    destruct (regAccess y s1) as [[b s2] | |]; [| reflexivity ..].
    rewrite signed_sum. reflexivity.
  - unfold executeRType.
    cbn [Z.eqb Pos.eqb fnSUB fnSUBU fnADD fnADDU fnAND fnDIV fnDIVU fnJR fnMFHI fnMFLO
         fnMULT fnMULTU fnXOR fnOR fnSLT fnSLTU fnSLL fnSRL fnSRA fnSLLV fnSRLV fnSRAV].
    unfold mbind, StateM_bind.
    destruct (regAccess x s) as [[a s1] | |]; [| reflexivity ..].
    destruct (regAccess y s1) as [[b s2] | |]; [| reflexivity ..].
    rewrite signed_difference. reflexivity.
Qed.

(** ** The statements above on concrete inputs *)

(** [dataInstance] is well-formed: its table has the one page 2, backed by
    the heap's two arrays, and both caches are empty. *)
Lemma dataInstance_memoryOk : memoryOk dataInstance.
Proof.
  assert (Hm : sysMemory dataInstance = {[ 2 := mkPage 8192 (Some 0%nat) (Some 1%nat) ]})
    by (vm_compute; reflexivity).
  unfold memoryOk. rewrite Hm. repeat apply conj.
  - intros pg p Hp. apply lookup_singleton_Some in Hp as [<- <-].
    split; [| reflexivity].
    eexists 0%nat, 1%nat, _, _.
    repeat apply conj; [reflexivity | reflexivity | vm_compute; reflexivity
                       | vm_compute; reflexivity | reflexivity | reflexivity].
  - intros pg1 pg2 p1 p2 Hne H1 H2.
    apply lookup_singleton_Some in H1 as [<- _].
    apply lookup_singleton_Some in H2 as [<- _]. contradiction.
  - left. reflexivity.
  - left. reflexivity.
Qed.

Lemma dataInstance_noZeroHit addr : Z.shiftr addr 12 <> 0 -> noZeroHit dataInstance addr.
Proof. intros H. left. exact H. Qed.

Lemma decode_formR_witness :
  0 <= 1 < 2 ^ 5 /\ 0 <= 2 < 2 ^ 5 /\ 0 <= 3 < 2 ^ 5 /\ 0 <= 0 < 2 ^ 5 /\
  0 <= fnADD < 2 ^ 6 /\
  decodeInstruction (formRInstruction 0 1 2 3 0 fnADD) = mkDecoded 0 1 2 3 0 fnADD.
Proof.
  unfold fnADD. repeat apply conj; try lia.
  apply (decode_formR 1 2 3 0 32); lia.
Defined.

Lemma decode_formI_witness :
  0 <= opADDI < 2 ^ 6 /\ opADDI <> 0 /\ opADDI <> opJ /\ opADDI <> opJAL /\
  0 <= 1 < 2 ^ 5 /\ 0 <= 0 < 2 ^ 5 /\
  decodeInstruction (formIInstruction opADDI 1 0 (-5))
  = mkDecoded opADDI 0 0 1 (Z.land (-5) 65535) 0.
Proof.
  assert (H1 : 0 <= opADDI < 2 ^ 6) by (unfold opADDI; lia).
  assert (H2 : opADDI <> 0) by (vm_compute; discriminate).
  assert (H3 : opADDI <> opJ) by (vm_compute; discriminate).
  assert (H4 : opADDI <> opJAL) by (vm_compute; discriminate).
  repeat apply conj; try assumption; try lia.
  apply (decode_formI opADDI 1 0 (-5)); try assumption; lia.
Defined.

Lemma decode_formJ_witness :
  (opJAL = opJ \/ opJAL = opJAL) /\ 0 <= 1024 < 2 ^ 26 /\
  decodeInstruction (formJInstruction opJAL 1024) = mkDecoded opJAL 0 0 0 1024 0.
Proof.
  repeat apply conj; [right; reflexivity | lia | lia |].
  apply (decode_formJ opJAL 1024); [right; reflexivity | lia].
Defined.

Lemma addi_adds_signed_witness :
  (opADDI = opADDI \/ opADDI = opADDIU) /\
  0 <= 65531 < 2 ^ 16 /\ 0 <= 1 < 32 /\ length (regs dataInstance) = 32%nat /\
  Z.land (Z.shiftr (regInit dataInstance) 0) 1 = 1 /\ ix (regs dataInstance) 0 = Some 0 /\
  exists s1,
    executeIType noDraws 0 opADDI 0 1 65531 dataInstance = Done (tt, s1) /\
    regAccess 1 s1 = Done (u32 (0 + (if 65531 <? 2 ^ 15 then 65531 else 65531 - 2 ^ 16)), s1) /\
    errors s1 = errors dataInstance.
Proof.
  split; [left; reflexivity |]. split; [lia |]. split; [lia |].
  split; [reflexivity |]. split; [reflexivity |]. split; [reflexivity |].
  destruct (addi_adds_signed noDraws 0 opADDI 0 1 65531 0 dataInstance)
    as (s1 & Hrun & Hreg & _);
    [left; reflexivity | lia | lia | reflexivity | reflexivity | reflexivity |].
  exists s1. split; [exact Hrun |]. apply Hreg. lia.
Defined.

Lemma regWrite_then_regAccess_witness :
  1 <= 5 < 32 /\ length (regs dataInstance) = 32%nat /\
  exists s1,
    regWrite 5 42 dataInstance = Done (tt, s1) /\
    regAccess 5 s1 = Done (42, s1) /\
    errors s1 = errors dataInstance /\
    forall r, 0 <= r < 32 -> r <> 5 ->
      ix (regs s1) r = ix (regs dataInstance) r /\
      Z.land (Z.shiftr (regInit s1) r) 1 = Z.land (Z.shiftr (regInit dataInstance) r) 1.
Proof.
  split; [lia |]. split; [reflexivity |].
  apply (regWrite_then_regAccess 5 42 dataInstance); [lia | reflexivity].
Defined.

(** [div $1, $3] on a fresh instance: register 3 was never written. *)
Lemma division_by_zero_panics_witness :
  (fnDIV = fnDIV \/ fnDIV = fnDIVU) /\
  (negb (Z.land (Z.shiftr (regInit dataInstance) 3) 1 =? 1) = true \/
   ix (regs dataInstance) 3 = Some 0) /\
  executeRType 1 3 0 fnDIV 0 dataInstance = Panic.
Proof.
  split; [left; reflexivity |]. split; [left; vm_compute; reflexivity |].
  apply (division_by_zero_panics 1 3 0 fnDIV 0 dataInstance);
    [left; reflexivity | left; vm_compute; reflexivity].
Defined.

Lemma result_registers_witness :
  exists r,
    runText noDraws loopProgram 5 3 = Done r /\
    length (Registers r) = 32%nat /\
    regRead r 0 = Some (0, true) /\
    (exists sp, regRead r 29 = Some (sp, true)) /\
    (exists ra, regRead r 31 = Some (ra, true)).
Proof.
  eexists. split; [vm_compute; reflexivity |].
  apply (result_registers noDraws 64 64 (imageHeap 4096 loopProgram) 4096
           (imageMem 4096 loopProgram) 5 3).
  vm_compute. reflexivity.
Defined.

(** [j 0x1000] with [limit = 5]: no instruction error, then the
    runtime-limit report at [DI = 6]. *)
Lemma result_errors_witness :
  0 <= 5 /\
  exists r,
    runText noDraws loopProgram 5 3 = Done r /\
    exists errs tail,
      Errors r = errs ++ tail /\
      Forall (fun e => instructionError (EType e) = true) errs /\
      ((tail = [] /\ Z.of_nat (length errs) < 3 /\ DI r <= 5) \/
       (map EType tail = [eErrorLimitReached] /\ 3 <= Z.of_nat (length errs)) \/
       (map EType tail = [eRuntimeLimitExceeded] /\ Z.of_nat (length errs) < 3 /\
        DI r = 5 + 1)).
Proof.
  split; [lia |]. eexists. split; [vm_compute; reflexivity |].
  apply (result_errors noDraws 64 64 (imageHeap 4096 loopProgram) 4096
           (imageMem 4096 loopProgram) 5 3); [lia | vm_compute; reflexivity].
Defined.

(** The word 7 at 0x2000 of [dataInstance], read as data. *)
Lemma memAccess_reads_table_witness :
  memoryOk dataInstance /\ noZeroHit dataInstance 8192 /\
  exists s',
    memAccess 8192 false dataInstance = Done ((7, true), s') /\
    memRead (heap dataInstance) (sysMemory dataInstance) 8192 = Some (7, true) /\
    heap s' = heap dataInstance /\ sysMemory s' = sysMemory dataInstance.
Proof.
  assert (Hnz : noZeroHit dataInstance 8192)
    by (apply dataInstance_noZeroHit; vm_compute; discriminate).
  split; [exact dataInstance_memoryOk |]. split; [exact Hnz |].
  eexists. split; [vm_compute; reflexivity |].
  apply (memAccess_reads_table dataInstance 8192 false 7 true);
    [exact dataInstance_memoryOk | exact Hnz | vm_compute; reflexivity].
Defined.

(** A store of the low byte of 0x1FF to 0x2004 in [dataInstance]. *)
Lemma memWrite_keeps_memoryOk_witness :
  memoryOk dataInstance /\ noZeroHit dataInstance 8196 /\ 0 <= 8196 < 2 ^ 32 /\
  exists s1,
    memWrite 8196 511 255 dataInstance = Done (tt, s1) /\
    memoryOk s1 /\
    forall a, noZeroHit dataInstance a -> noZeroHit s1 a.
Proof.
  assert (Hnz : noZeroHit dataInstance 8196)
    by (apply dataInstance_noZeroHit; vm_compute; discriminate).
  split; [exact dataInstance_memoryOk |]. split; [exact Hnz |]. split; [lia |].
  apply (memWrite_keeps_memoryOk dataInstance 8196 511 255);
    [exact dataInstance_memoryOk | exact Hnz | lia].
Defined.

(** A store of the low byte of 0x1FF over the word 7 at 0x2000. *)
Lemma memWrite_then_memRead_witness :
  memoryOk dataInstance /\ noZeroHit dataInstance 8192 /\ 0 <= 8192 < 2 ^ 32 /\
  exists s1 old,
    memWrite 8192 511 255 dataInstance = Done (tt, s1) /\
    rawWord (heap dataInstance) (sysMemory dataInstance) 8192 = Some old /\
    memRead (heap s1) (sysMemory s1) 8192 = Some (mergeWord 511 255 old, true).
Proof.
  assert (Hnz : noZeroHit dataInstance 8192)
    by (apply dataInstance_noZeroHit; vm_compute; discriminate).
  split; [exact dataInstance_memoryOk |]. split; [exact Hnz |]. split; [lia |].
  apply (memWrite_then_memRead dataInstance 8192 511 255);
    [exact dataInstance_memoryOk | exact Hnz | lia].
Defined.

(** A store to 0x2004 leaves the word 7 at 0x2000. *)
Lemma memWrite_frame_witness :
  memoryOk dataInstance /\ noZeroHit dataInstance 8196 /\ 0 <= 8196 < 2 ^ 32 /\
  exists s1,
    memWrite 8196 9 4294967295 dataInstance = Done (tt, s1) /\
    (Z.shiftr 8192 12 <> Z.shiftr 8196 12 \/ 8192 / 4 mod 1024 <> 8196 / 4 mod 1024) /\
    memRead (heap s1) (sysMemory s1) 8192
    = memRead (heap dataInstance) (sysMemory dataInstance) 8192.
Proof.
  assert (Hnz : noZeroHit dataInstance 8196)
    by (apply dataInstance_noZeroHit; vm_compute; discriminate).
  assert (Hother : Z.shiftr 8192 12 <> Z.shiftr 8196 12 \/
                   8192 / 4 mod 1024 <> 8196 / 4 mod 1024)
    by (right; vm_compute; discriminate).
  split; [exact dataInstance_memoryOk |]. split; [exact Hnz |]. split; [lia |].
  eexists. split; [vm_compute; reflexivity |]. split; [exact Hother |].
  apply (memWrite_frame dataInstance 8196 9 4294967295 _ 8192);
    [exact dataInstance_memoryOk | exact Hnz | lia | vm_compute; reflexivity | exact Hother].
Defined.

Lemma memAccess_keeps_memoryOk_witness :
  memoryOk dataInstance /\
  exists s',
    memAccess 8192 true dataInstance = Done ((7, true), s') /\
    memoryOk s' /\ forall a, noZeroHit dataInstance a -> noZeroHit s' a.
Proof.
  split; [exact dataInstance_memoryOk |].
  eexists. split; [vm_compute; reflexivity |].
  apply (memAccess_keeps_memoryOk dataInstance 8192 true (7, true));
    [exact dataInstance_memoryOk | vm_compute; reflexivity].
Defined.

(** The first draw 0x7999 is accepted: its cells are 1 2 1 2 1 2 3 1. *)
Lemma genSquare_neighbours_differ_witness :
  exists t s',
    genSquare sampleDraws 8 dataInstance = Done (t, s') /\
    exists c0 c1 c2 c3 c4 c5 c6 c7,
      (0 <= c0 < 4 /\ 0 <= c1 < 4 /\ 0 <= c2 < 4 /\ 0 <= c3 < 4 /\
       0 <= c4 < 4 /\ 0 <= c5 < 4 /\ 0 <= c6 < 4 /\ 0 <= c7 < 4) /\
      t = ofCells [c0; c1; c2; c3; c4; c5; c6; c7] /\
      c0 <> c1 /\ c1 <> c2 /\ c2 <> c3 /\ c3 <> c4 /\ c4 <> c5 /\ c5 <> c6 /\ c6 <> c7 /\
      c7 <> 0.
Proof.
  eexists _, _. split; [vm_compute; reflexivity |].
  eapply (genSquare_neighbours_differ sampleDraws 8 dataInstance).
  vm_compute. reflexivity.
Defined.

Lemma genSolution_passes_test_witness :
  0 <= Reference blankProject1 < 2 ^ 16 /\
  exists p' s',
    genSolution sampleDraws blankProject1 dataInstance = Done (p', s') /\
    Reference p' = Reference blankProject1 /\
    exists k sol,
      0 <= k < 8 /\ SolutionOffset p' = 4 * k /\
      ix (Candidates p') k = Some sol /\
      (forall j, j <> k -> ix (Candidates p') j = ix (Candidates blankProject1) j) /\
      testSolution p' sol = true.
Proof.
  assert (Href : 0 <= Reference blankProject1 < 2 ^ 16) by (cbn; lia).
  split; [exact Href |].
  eexists _, _. split; [vm_compute; reflexivity |].
  eapply (genSolution_passes_test sampleDraws blankProject1 dataInstance);
    [exact Href | vm_compute; reflexivity].
Defined.

Lemma swi582_one_solution_witness :
  exists s',
    swi582 sampleDraws 64 pointerInstance = Done (tt, s') /\
    exists p k,
      swiContext s' = CtxP1 p /\
      0 <= Reference p < 2 ^ 16 /\
      ReportedOffset p = 305419896 /\
      0 <= k < 8 /\ SolutionOffset p = 4 * k /\
      forall j, 0 <= j < 8 ->
        exists c, ix (Candidates p) j = Some c /\ testSolution p c = (j =? k).
Proof.
  eexists. split; [vm_compute; reflexivity |].
  apply (swi582_one_solution sampleDraws 64 pointerInstance).
  vm_compute. reflexivity.
Defined.

(** Register 1 of [reportInstance] was never written: the parameter error is
    reported although register 3 holds the offset. *)
Lemma swi583_reports_solution_witness :
  swiContext reportInstance
  = CtxP1 (mkProject1 31129 (replicate 8 0) 8 0 false 305419896) /\
  length (regs reportInstance) = 32%nat /\
  Z.land (Z.shiftr (regInit reportInstance) 3) 1 = 1 /\
  ix (regs reportInstance) 3 = Some 8 /\
  0 <= 8 <= 28 /\ 8 mod 4 = 0 /\
  exists s1,
    swi583 reportInstance = Done (tt, s1) /\
    swiContext s1 = CtxP1 (mkProject1 31129 (replicate 8 0) 8 0 false 8) /\
    regAccess 6 s1 = Done (8, s1) /\
    map EType (errors s1)
    = map EType (errors reportInstance)
      ++ (if Z.land (Z.shiftr (regInit reportInstance) 1) 1 =? 1 then []
          else [eSoftwareInterruptParameter]).
Proof.
  split; [reflexivity |]. split; [reflexivity |]. split; [reflexivity |].
  split; [reflexivity |]. split; [lia |]. split; [reflexivity |].
  apply (swi583_reports_solution reportInstance
           (mkProject1 31129 (replicate 8 0) 8 0 false 305419896) 8);
    [reflexivity | reflexivity | reflexivity | reflexivity | lia | reflexivity].
Defined.

Lemma plotPoint_then_getPoint_witness :
  0 <= 5 < 64 /\ 0 <= 7 < 64 /\ length (Pile blankFa21) = 1024%nat /\ 0 <= 3 < 256 /\
  exists p',
    plotPoint blankFa21 5 7 3 = Some p' /\
    getPoint p' 5 7 = Some 3 /\
    forall x' y', 0 <= x' < 64 -> 0 <= y' < 64 -> (x', y') <> (5, 7) ->
      getPoint p' x' y' = getPoint blankFa21 x' y'.
Proof.
  split; [lia |]. split; [lia |]. split; [reflexivity |]. split; [lia |].
  apply (plotPoint_then_getPoint blankFa21 5 7 3); [lia | lia | reflexivity | lia].
Defined.

(** [sw $29, 0x2004($0)] then [lw $5, 0x2004($0)] on [dataInstance]. *)
Lemma sw_then_lw_witness :
  memoryOk dataInstance /\ length (regs dataInstance) = 32%nat /\
  Z.land (Z.shiftr (regInit dataInstance) 0) 1 = 1 /\ ix (regs dataInstance) 0 = Some 0 /\
  Z.land (Z.shiftr (regInit dataInstance) 29) 1 = 1 /\
  ix (regs dataInstance) 29 = Some 1048576 /\
  0 <= 1048576 < 2 ^ 32 /\
  noZeroHit dataInstance (u32 (0 + 8196)) /\ 1 <= 5 < 32 /\
  exists s1 s2,
    executeIType noDraws 0 opSW 0 29 8196 dataInstance = Done (tt, s1) /\
    memRead (heap s1) (sysMemory s1) (u32 (0 + 8196)) = Some (1048576, true) /\
    executeIType noDraws 0 opLW 0 5 8196 s1 = Done (tt, s2) /\
    regAccess 5 s2 = Done (1048576, s2) /\
    errors s2 = errors dataInstance.
Proof.
  assert (Hnz : noZeroHit dataInstance (u32 (0 + 8196)))
    by (apply dataInstance_noZeroHit; vm_compute; discriminate).
  split; [exact dataInstance_memoryOk |]. split; [reflexivity |]. split; [reflexivity |].
  split; [reflexivity |]. split; [reflexivity |]. split; [reflexivity |]. split; [lia |].
  split; [exact Hnz |]. split; [lia |].
  apply (sw_then_lw noDraws 0 0 29 5 8196 0 1048576 dataInstance);
    [exact dataInstance_memoryOk | reflexivity | reflexivity | reflexivity | reflexivity
    | reflexivity | lia | exact Hnz | lia].
Defined.

(** [sb $29, 0x2005($0)] then [lbu $5, 0x2005($0)] on [dataInstance]. *)
Lemma sb_then_lbu_witness :
  memoryOk dataInstance /\ length (regs dataInstance) = 32%nat /\
  Z.land (Z.shiftr (regInit dataInstance) 0) 1 = 1 /\ ix (regs dataInstance) 0 = Some 0 /\
  Z.land (Z.shiftr (regInit dataInstance) 31) 1 = 1 /\
  ix (regs dataInstance) 31 = Some 4294967295 /\
  noZeroHit dataInstance (u32 (0 + 8197)) /\ 1 <= 5 < 32 /\
  exists s1 s2,
    executeIType noDraws 0 opSB 0 31 8197 dataInstance = Done (tt, s1) /\
    executeIType noDraws 0 opLBU 0 5 8197 s1 = Done (tt, s2) /\
    regAccess 5 s2 = Done (Z.land 4294967295 255, s2) /\
    errors s2 = errors dataInstance.
Proof.
  assert (Hnz : noZeroHit dataInstance (u32 (0 + 8197)))
    by (apply dataInstance_noZeroHit; vm_compute; discriminate).
  split; [exact dataInstance_memoryOk |]. split; [reflexivity |]. split; [reflexivity |].
  split; [reflexivity |]. split; [reflexivity |]. split; [reflexivity |].
  split; [exact Hnz |]. split; [lia |].
  apply (sb_then_lbu noDraws 0 0 31 5 8197 0 4294967295 dataInstance);
    [exact dataInstance_memoryOk | reflexivity | reflexivity | reflexivity | reflexivity
    | reflexivity | exact Hnz | lia].
Defined.

Lemma part_colours_permutation_witness :
  exists colors s',
    pickColors sampleDraws 64 (replicate 7 0) (seqZ 0 7) dataInstance = Done (colors, s') /\
    colors ≡ₚ [1; 2; 3; 4; 5; 6; 7].
Proof.
  eexists _, _. split; [vm_compute; reflexivity |].
  eapply (part_colours_permutation sampleDraws 64 dataInstance).
  vm_compute. reflexivity.
Defined.

(** The box of [linedFa21] has its corners at (5, 10) and (40, 40). *)
Lemma validatePile_bounding_box_witness :
  exists p',
    validatePile linedFa21 = Some (true, p') /\
    exists minX minY maxX maxY,
      1 <= minX /\ maxX <= 62 /\ 1 <= minY /\ maxY <= 62 /\
      25 <= maxX - minX + 1 /\ 25 <= maxY - minY + 1 /\
      Solution p' = (minY * 64 + minX) * 65536 + (maxY * 64 + maxX) /\
      Pile p' = Pile linedFa21 /\ TargetColor p' = TargetColor linedFa21 /\
      (forall x y, 1 <= x <= 62 -> 1 <= y <= 62 ->
         getPoint linedFa21 x y = Some (TargetColor linedFa21) ->
         minX <= x <= maxX /\ minY <= y <= maxY) /\
      (exists y, minY <= y <= maxY /\
                 getPoint linedFa21 minX y = Some (TargetColor linedFa21)) /\
      (exists y, minY <= y <= maxY /\
                 getPoint linedFa21 maxX y = Some (TargetColor linedFa21)) /\
      (exists x, minX <= x <= maxX /\
                 getPoint linedFa21 x minY = Some (TargetColor linedFa21)) /\
      (exists x, minX <= x <= maxX /\
                 getPoint linedFa21 x maxY = Some (TargetColor linedFa21)).
Proof.
  eexists. split; [vm_compute; reflexivity |].
  apply (validatePile_bounding_box linedFa21).
  vm_compute. reflexivity.
Defined.

(** The literal 4294967297 is 2^32 + 1: it is accepted as 1. *)
Lemma decimal_literal_value_witness :
  "4294967297"%string <> ""%string /\
  forallb Assembler.isDigit (Assembler.chars "4294967297") = true /\
  decimalValue (Assembler.chars "4294967297") <= 4294967299 /\
  Assembler.getLiteralValueFull "4294967297" ∅ false
  = (decimalValue (Assembler.chars "4294967297") mod 2 ^ 32, None).
Proof.
  split; [discriminate |]. split; [reflexivity |]. split; [vm_compute; discriminate |].
  apply (decimal_literal_value "4294967297" ∅ false);
    [discriminate | reflexivity | vm_compute; discriminate].
Defined.

(** The literal 0x1ffffffff has nine digits: it is accepted as 0xffffffff. *)
Lemma hex_literal_value_witness :
  forallb isHexDigit (Assembler.chars "1ffffffff") = true /\
  Assembler.getLiteralValueFull "0x1ffffffff" ∅ false
  = (hexValue (Assembler.chars "1ffffffff") mod 2 ^ 32, None).
Proof.
  split; [reflexivity |].
  apply (hex_literal_value "1ffffffff" ∅ false). reflexivity.
Defined.

(** Three words loaded at 0x1000. *)
Lemma image_read_back_witness :
  0 <= 1 < 2 ^ 20 /\ [7; 8; 9] <> [] /\ (length [7; 8; 9]%Z <= 1024)%nat /\
  exists h m,
    addToSystemMemory (4096 * 1) [7; 8; 9] [] ∅ = Some (h, m) /\
    forall k : nat, (k < 1024)%nat ->
      memRead h m (4096 * 1 + 4 * Z.of_nat k)
      = match [7; 8; 9] !! k with Some w => Some (w, true) | None => Some (0, false) end.
Proof.
  split; [lia |]. split; [discriminate |]. split; [cbn; lia |].
  apply (image_read_back 1 [7; 8; 9]); [lia | discriminate | cbn; lia].
Defined.

(** An image of 1025 words loaded at 0x1000: its last word belongs at
    0x2000, in page 2, which reads as uninitialised. *)
Lemma long_image_keeps_one_page_witness :
  0 <= 1 < 2 ^ 20 /\ replicate 1025 5 <> [] /\ (length (replicate 1025 5%Z) <= 4096)%nat /\
  4096 * 1 + 4 * Z.of_nat (length (replicate 1025 5)) <= 2 ^ 32 /\
  exists h m,
    addToSystemMemory (4096 * 1) (replicate 1025 5) [] ∅ = Some (h, m) /\
    forall addr, Z.shiftr addr 12 <> 1 -> memRead h m addr = Some (0, false).
Proof.
  assert (Hlen : length (replicate 1025 5) = 1025%nat) by apply length_replicate.
  split; [lia |]. split; [discriminate |]. split; [rewrite Hlen; lia |].
  split; [rewrite Hlen; lia |].
  apply (long_image_keeps_one_page 1 (replicate 1025 5));
    [lia | discriminate | rewrite Hlen; lia | rewrite Hlen; lia].
Defined.

Lemma swi598_solution_is_box_witness :
  exists s',
    swi598 sampleDraws 8 pointerInstance = Done (tt, s') /\
    exists p minX minY maxX maxY,
      swiContext s' = CtxFa21 p /\
      1 <= minX /\ maxX <= 62 /\ 1 <= minY /\ maxY <= 62 /\
      25 <= maxX - minX + 1 /\ 25 <= maxY - minY + 1 /\
      Solution p = (minY * 64 + minX) * 65536 + (maxY * 64 + maxX) /\
      (forall x y, 1 <= x <= 62 -> 1 <= y <= 62 -> getPoint p x y = Some (TargetColor p) ->
         minX <= x <= maxX /\ minY <= y <= maxY) /\
      (exists y, minY <= y <= maxY /\ getPoint p minX y = Some (TargetColor p)) /\
      (exists y, minY <= y <= maxY /\ getPoint p maxX y = Some (TargetColor p)) /\
      (exists x, minX <= x <= maxX /\ getPoint p x minY = Some (TargetColor p)) /\
      (exists x, minX <= x <= maxX /\ getPoint p x maxY = Some (TargetColor p)).
Proof.
  eexists. split; [vm_compute; reflexivity |].
  apply (swi598_solution_is_box sampleDraws 8 pointerInstance).
  vm_compute. reflexivity.
Defined.

Lemma swi582_in_memory_witness :
  exists s',
    swi582 sampleDraws 64 pointerInstance = Done (tt, s') /\
    exists p,
      swiContext s' = CtxP1 p /\ memoryOk s' /\
      memRead (heap s') (sysMemory s') 65536 = Some (Reference p, true) /\
      forall j, 0 <= j < 8 ->
        exists c, ix (Candidates p) j = Some c /\
                  memRead (heap s') (sysMemory s') (65536 + 4 + 4 * j) = Some (c, true).
Proof.
  eexists. split; [vm_compute; reflexivity |].
  apply (swi582_in_memory sampleDraws 64 65536 pointerInstance).
  - apply (sameMemory_memoryOk dataInstance pointerInstance);
      [reflexivity | reflexivity | reflexivity | reflexivity | apply dataInstance_memoryOk].
  - reflexivity.
  - lia.
  - lia.
  - vm_compute. reflexivity.
Defined.
